(* ===== verification/_CoqProject ===== *)
-Q . S2P
Prelude.v
RustStr.v
Proto.v
Admin.v
Network.v
NetworkAdmin.v
NetworkCore.v
NetworkInv.v
NetworkSteps.v
NetworkDelivery.v
NetworkProps.v
NetworkSafety.v
Identity.v
Format.v
Reply.v
Media.v
MediaPng.v
MediaJpeg.v
MediaGif.v
MediaWebp.v
MediaStrip.v
ISupport.v
Session.v
SessionInv.v
SessionProps.v
SessionText.v
Sasl.v
SaslProps.v
Offer.v
Transfer.v
Transfers.v
TransferProps.v
TransferFile.v
TransferResume.v
Edits.v
EditsProps.v
Room.v
Contacts.v
ContactsProps.v
Dates.v
Outgoing.v
Listing.v
Keymap.v
Console.v
ServerConfig.v
Upload.v
Xmpp.v
Diagnose.v
RateLimit.v
Api.v
Actor.v
Connection.v
ConnectionProps.v
ClientCommands.v
ClientModel.v
ClientModelProps.v
ClientRoster.v
RosterMirror.v
ActorMirror.v
XmppSession.v
XmppProps.v
XmppEdits.v
XmppLogin.v
XmppActor.v
XmppWitness.v
Connector.v
Store.v
StoreProps.v
StoreReads.v
StoreUpgrade.v
StoreTheorems.v
Args.v
Composer.v
Plain.v
Serve.v
Socks.v
Probe.v
Bridge.v
BridgeClient.v
BridgeStore.v
