(* ===== verification/Prelude.v ===== *)
(** * ddIRC: a verification development

    ddIRC is a chat client for IRC and XMPP with a small IRC server of its own,
    written in Rust ([src/core]): [ddirc-core] (protocol logic), [ddirc-server]
    (the local server), [ddirc-cli] (a terminal client and a console for the
    server), [ddirc-tor] (a SOCKS bridge to Tor) and [ddirc-bridge] (bindings for
    the Flutter application).
    This library models the parts of it that decide something - parsers, state
    machines, the server's state, what ends up on disk - as executable Rocq
    functions translated from the source, and proves what makes them right.

    ** The program's parts, and where they are

    - The local IRC server.  One task owns a [Network] and handles what its
      connections and its operator send, one event at a time.  [Proto] has the
      replies, [Admin] the operator's vocabulary and event log, [Network] the
      protocol state ([ddirc-server/src/state.rs]), [NetworkAdmin] the
      operator's commands ([state/admin.rs]), [Serve] the task that reads one
      connection ([session.rs]), [Identity] the server's certificate and where
      its key is kept ([identity.rs]).  [NetworkCore] and [NetworkInv] hold the
      lemmas and the invariant, [NetworkSteps] the step relation and
      reachability, [NetworkDelivery], [NetworkProps] and [NetworkSafety] the
      theorems and concrete runs.
    - The text of messages.  [Format] is [text/format.rs] (mIRC codes into
      styled spans and back), [Reply] is [text/reply.rs] (quoting), [Outgoing]
      what is typed made fit to send, [Dates] times on the wire.
    - Pictures.  [Media], [MediaPng], [MediaJpeg], [MediaGif], [MediaWebp] and
      [MediaStrip] are [media/]: removing what a picture says about its maker.
    - The IRC client.  [ISupport] is [state/isupport.rs], [Session] is
      [state/mod.rs] with [SessionInv], [SessionProps] and [SessionText]; [Sasl]
      and [SaslProps] are [conn/sasl.rs]; [Listing] is the channel directory.
      [ServerConfig] is the configuration and its validation, [Diagnose] is
      [conn/diagnose.rs], [RateLimit] is [conn/ratelimit.rs] and
      [conn/reconnect.rs] in IEEE 754 arithmetic.  [Api] has the commands and
      events, [Actor] the dispatch of [conn/actor.rs], [Connection] its loop and
      attempts, [ConnectionProps] their theorems; [Probe] is [conn/probe.rs] and
      [xmpp/probe.rs], the test of a configuration.
    - File transfers.  [Offer] is [dcc/offer.rs]; [Transfer] is
      [dcc/transfer.rs]; [Transfers] is what [conn/actor.rs] keeps of
      transfers and its handlers of CTCP; [TransferProps], [TransferFile] and
      [TransferResume] the theorems, the last one about two clients together.
    - The XMPP client.  [Edits] and [EditsProps] are [xmpp/edits.rs], [Room] is
      [xmpp/state.rs], [Contacts] and [ContactsProps] are [xmpp/contacts.rs],
      [Upload] is [xmpp/upload.rs], [Xmpp] is [xmpp/config.rs].  [XmppSession] is
      the whole of [xmpp/session.rs] and [session/features.rs], with the theorems
      in [XmppProps] and [XmppEdits]; [XmppLogin] is
      [xmpp/auth.rs], [xmpp/diagnose.rs] and the login task, [XmppActor] the task
      that owns a connection ([xmpp/actor.rs]); [XmppWitness] has runs of both.
      [Connector] is [xmpp/connector.rs]: what is trusted, where a connection
      goes, and the upload that is sent over one.
    - The message store.  [Store] is [store/mod.rs], its tables as lists and
      maps; [StoreProps] has the invariant, [StoreReads] the lemmas on reading,
      [StoreUpgrade] reachability and older files, [StoreTheorems] the promises.
    - The terminal.  [ClientCommands], [ClientModel] and [ClientModelProps] are
      the client ([ddirc-cli/src/client]); [ClientRoster], [RosterMirror] and
      [ActorMirror] relate what it shows to the session the events come from.
      [Keymap] is [keymap.rs], [Console] the server's console
      ([ddirc-cli/src/server]), [Args] the command line ([cli.rs]), [Composer] the
      layout of the bar a line is typed in ([composer.rs]), [Plain] the client as
      lines of text ([client/plain.rs]).
    - Tor.  [Socks] is the proxy protocol of [ddirc-tor/src/socks.rs].
    - The bindings.  [Bridge] is the data that crosses to the application
      ([ddirc-bridge/src/api/types.rs]), [BridgeClient] the calls on connections
      and the local server ([client.rs], [server.rs]), [BridgeStore] those on the
      history ([store.rs]).

    A definition has the name of the function it models; [PROJECT.json] gives
    the lines.  [Prelude] has the notation, tactics and lemmas all files share,
    [RustStr] the operations of Rust's strings, integers' text and sorting.

    ** What the theorems show

    - Server: every reachable state is well formed ([reachable_wf]); a message
      reaches exactly its recipients, once; joins, parts, renames, kicks and
      disconnections are announced and undone completely; operators' rights and
      bans are enforced; what the operator reads holds no control characters; a
      connection that says nothing ends, and one that talks is not dropped; the
      key of its certificates is private however a start ends, at whichever
      call ([key_kept_private], in a small crash logic), and the next start
      that meets no fault presents the same authority ([anchor_survives]).
    - Text: output of the parsers is safe and bounded; writing and reading are
      inverse; nothing typed can end its message and begin a command, and what
      goes to XMPP is text of XML 1.0; dates follow the Gregorian calendar.
    - Pictures: a cleaned file is the original without exactly the parts that
      are metadata, by a grammar of each format that stands apart from the
      cleaner ([strip_removes_metadata]); cleaning always returns, and every
      byte is kept or accounted for.
    - IRC: bounds on everything a server can make us hold; mode arguments go
      where they belong; credentials leave only when asked for properly, and
      once; a negotiation ends exactly once; a connection that never worked
      stops, a refused one waits to be asked, and one that worked comes back
      ([reconnects_sensibly]); a test of a
      configuration says no more than a login, and what it reports is what a
      real connection would find ([probe_foretells]).
    - The member lists a client shows are those of the session, through every
      line of a server that follows the protocol and every event that carries
      it ([client_shows_session]).
    - Transfers: names are safe; nobody is answered who should not be; a proxy
      is never bypassed; a resumed download is the original, byte for byte.
    - XMPP: the message index refines a plain search; nobody edits what another
      said or speaks in the user's name; nothing is volunteered; catching up and
      logging in end, with every failure reported; messages leave in order; upload slots are safe; a login is
      said inside TLS verified for the account's domain ([login_inside_tls]),
      and a file leaves by the proxy, to a public address, or to a server of
      one's own ([upload_leaves_safely], which composes the check of the slot,
      the connector and the sending).
    - Store: an invariant of every store that can be; searching is exact; paging
      gives everything once; forgetting a network removes all of it and nothing
      of the others; upgrading does what it says.
    - Terminal: no key and no event makes the program index out of range; the
      console does nothing drastic without a second key; the typing bar fits its
      area and the cursor is on the text; as lines of text the client sends only
      what is typed and hides nothing.
    - Bindings: commands reach the connection they were meant for and no other;
      nothing typed becomes a trusted certificate; a line read back from the
      history is the line that was shown ([history_as_shown], which composes
      the bindings, the store and the formatting codes).

    ** Modelling choices

    - A string is the list of its code points ([N]); lengths in bytes are
      computed from them ([str_len]), and an index that is not a boundary of a
      character is [None], where the source would panic.
    - A [HashMap] or [HashSet] is a [gmap] or [gset].  Where the source iterates
      over one, the model uses one fixed order and theorems do not depend on it
      unless they say so.
    - Machine integers are [N] or [Z] with their limits written out where they
      can matter: saturating and wrapping operations are modelled as such.
      Identifiers that count connections or messages are not expected to reach
      [2^64].  [usize] has 64 bits.
    - Clocks, sockets and queues are inputs and outputs: an event carries the
      time it is handled at, a queue is the list of what was put in it, and a
      transfer is given the list of what its reads return.  A loop that waits
      for whichever of several things comes first is a step function on its
      inputs, and a theorem about it is about every sequence of them.
    - Code that is not in the repository is a parameter of the definitions that
      use it, with what is relied on as hypotheses: base64, the Unicode tables
      behind lower-casing and classification, address literals, the text field
      of the terminal library, how SQLite numbers rows and matches full-text
      expressions.  Parsed lines and stanzas of the protocol libraries are
      records of the fields the source reads.
    - Loops that are not structural have fuel, which is the length of what is
      left to read; each model says why that is enough, and theorems are about
      the result, never conditional on fuel being left.

    ** Not modelled

    Input and output proper: sockets, TLS and name lookup themselves (what asks
    for them is modelled, and they answer as they like), making keys and signing
    certificates, drawing the terminal beyond the layout of the typing bar, the
    Tor library and switching it on and off, SQLite's files,
    the generated bindings, and vendored crates.  The channels of the server's
    handle are the runtime's. *)
From stdpp Require Export base strings list gmap sorting.

(** * Notation *)

Declare Scope ddirc_scope.
Delimit Scope ddirc_scope with ddirc.

(** Sequencing of state updates, read top to bottom as the source is. *)
Notation "x |> f" := (f x) (at level 69, left associativity, only parsing) : ddirc_scope.
#[global] Open Scope ddirc_scope.

(** * Tactics *)

(** Case split on every match in the goal, closing what is trivial. *)
Ltac case_all := repeat (case_match; simplify_eq/=; try done).

(** Decide the boolean tests that appear in the context. *)
Ltac bool_simp :=
  repeat match goal with
  | H : andb _ _ = true |- _ => apply andb_true_iff in H as [??]
  | H : orb _ _ = false |- _ => apply orb_false_iff in H as [??]
  | H : negb _ = true |- _ => apply negb_true_iff in H
  | H : negb _ = false |- _ => apply negb_false_iff in H
  | H : N.eqb _ _ = true |- _ => apply N.eqb_eq in H
  | H : N.eqb _ _ = false |- _ => apply N.eqb_neq in H
  | H : N.ltb _ _ = true |- _ => apply N.ltb_lt in H
  | H : N.ltb _ _ = false |- _ => apply N.ltb_ge in H
  | H : N.leb _ _ = true |- _ => apply N.leb_le in H
  | H : N.leb _ _ = false |- _ => apply N.leb_gt in H
  | H : bool_decide _ = true |- _ => apply bool_decide_eq_true in H
  | H : bool_decide _ = false |- _ => apply bool_decide_eq_false in H
  end.

Create HintDb ddirc discriminated.

(** * Machine words *)

(** [u64] addition as a release build performs it. *)
Definition u64_add (a b : N) : N := ((a + b) mod 2 ^ 64)%N.

Lemma u64_add_small a b : (a + b < 2 ^ 64)%N → u64_add a b = (a + b)%N.
Proof. intros H. unfold u64_add. by apply N.mod_small. Qed.

(** * Lists and options *)

Section lists.
Context {A : Type}.
Implicit Types (l : list A) (P : A → bool).

Lemma forallb_Forall_true P l : forallb P l = true ↔ Forall (λ x, P x = true) l.
Proof.
  induction l as [|x l IH]; simpl; [done|].
  rewrite andb_true_iff, IH. split; [intros []; by constructor|by inversion 1].
Qed.

Lemma existsb_elem P l : existsb P l = true ↔ ∃ x, x ∈ l ∧ P x = true.
Proof.
  rewrite existsb_exists. setoid_rewrite list_elem_of_In. done.
Qed.

Lemma existsb_elem_false P l : existsb P l = false ↔ ∀ x, x ∈ l → P x = false.
Proof.
  rewrite <- not_true_iff_false, existsb_elem. split.
  - intros H x Hx. apply not_true_is_false. eauto.
  - intros H (x & Hx & E). rewrite (H x Hx) in E. done.
Qed.

Lemma elem_of_rev (x : A) l : x ∈ rev l ↔ x ∈ l.
Proof. rewrite !list_elem_of_In. symmetry. apply in_rev. Qed.

Lemma last_rev (l : list A) : last (rev l) = head l.
Proof. rewrite rev_alt. exact (last_reverse l). Qed.
End lists.

(** The sub-slice [l[i..j]] as [slice::get] answers it. *)
Definition slice {A} (l : list A) (i j : nat) : option (list A) :=
  if decide (i ≤ j ∧ j ≤ length l) then Some (take (j - i) (drop i l)) else None.

Lemma slice_Some {A} (l : list A) i j s :
  slice l i j = Some s →
  i ≤ j ∧ j ≤ length l ∧ s = take (j - i) (drop i l) ∧ length s = j - i.
Proof.
  unfold slice. case_decide; [|done]. intros [= <-].
  rewrite length_take, length_drop. intuition lia.
Qed.

Lemma slice_is_Some {A} (l : list A) i j :
  i ≤ j → j ≤ length l → slice l i j = Some (take (j - i) (drop i l)).
Proof. intros. unfold slice. by rewrite decide_True. Qed.

(** * Results *)

Inductive result (A E : Type) := Ok (a : A) | Err (e : E).
Arguments Ok {A E} a.
Arguments Err {A E} e.

#[export] Instance result_eq_dec {A E} `{EqDecision A, EqDecision E} : EqDecision (result A E).
Proof. solve_decision. Defined.

Definition rbind {A B E} (r : result A E) (k : A → result B E) : result B E :=
  match r with Ok a => k a | Err e => Err e end.
(** The [?] operator. *)
Notation "x <-? r ; k" := (rbind r (λ x, k))
  (at level 100, r at next level, k at level 200, right associativity) : ddirc_scope.

(** An invariant of a loop body is an invariant of the loop. *)
Lemma foldl_ind {A B} (P : A → Prop) (f : A → B → A) (l : list B) (a : A) :
  P a → (∀ a b, b ∈ l → P a → P (f a b)) → P (foldl f a l).
Proof.
  revert a. induction l as [|b l IH]; intros a Ha Hf; simpl; [done|].
  apply IH; [apply Hf; [left|done]|]. intros a' b' Hb'. apply Hf. by right.
Qed.

(** A projection every step preserves is preserved by the loop. *)
Lemma foldl_proj {A B C} (p : A → C) (f : A → B → A) (l : list B) (a : A) :
  (∀ a b, p (f a b) = p a) → p (foldl f a l) = p a.
Proof. intros H. revert a. induction l as [|b l IH]; intros a; simpl; [done|]. by rewrite IH. Qed.

(** * Sets *)

Section sets.
Context {A : Type} `{Countable A}.
Implicit Types (x y : A) (s : gset A).

Lemma add_remove x s : x ∉ s → ({[x]} ∪ s) ∖ {[x]} = s.
Proof. intros. set_solver. Qed.
Lemma remove_absent x s : x ∉ s → s ∖ {[x]} = s.
Proof. intros. set_solver. Qed.
End sets.
