(* ===== verification/RustStr.v ===== *)
(** Rust strings: what the source uses of [char], [str] and [String].

    A [str] is always well-formed UTF-8, so it is represented by its sequence
    of [char]s, each the number of its code point; what the source measures or
    cuts in bytes is computed from the UTF-8 width of the characters
    ([str_len], [is_char_boundary], [byte_prefix]).  Byte order and code-point
    order agree on UTF-8, so [str_cmp] is the order [sort] uses. *)
From S2P Require Import Prelude.
From Stdlib Require Import Ascii String.

Abbreviation char := N (only parsing).
Abbreviation str := (list N).

(** A string literal of the source (ASCII). *)
Definition lit (s : String.string) : str :=
  map Ascii.N_of_ascii (String.list_ascii_of_string s).
Arguments lit : simpl never.

(** A character literal (ASCII). *)
Definition ch (s : String.string) : char := hd 0%N (lit s).
Arguments ch : simpl never.

(** * Characters *)

(** [char::len_utf8]. *)
Definition len_utf8 (c : char) : nat :=
  if (c <? 128)%N then 1 else if (c <? 2048)%N then 2
  else if (c <? 65536)%N then 3 else 4.

(** [char::is_control]: the general category Cc. *)
Definition is_control (c : char) : bool :=
  (c <? 32)%N || ((127 <=? c)%N && (c <=? 159)%N).

(** [char::is_whitespace]: the property White_Space. *)
Definition is_whitespace (c : char) : bool :=
  ((9 <=? c)%N && (c <=? 13)%N) || (c =? 32)%N || (c =? 133)%N || (c =? 160)%N
  || (c =? 5760)%N || ((8192 <=? c)%N && (c <=? 8202)%N)
  || (c =? 8232)%N || (c =? 8233)%N || (c =? 8239)%N || (c =? 8287)%N || (c =? 12288)%N.

(** [char::is_ascii_whitespace], which leaves out the vertical tab. *)
Definition is_ascii_whitespace (c : char) : bool :=
  (c =? 32)%N || (c =? 9)%N || (c =? 10)%N || (c =? 12)%N || (c =? 13)%N.

Definition is_ascii_digit (c : char) : bool := (48 <=? c)%N && (c <=? 57)%N.
Definition is_ascii_uppercase (c : char) : bool := (65 <=? c)%N && (c <=? 90)%N.
Definition is_ascii_lowercase (c : char) : bool := (97 <=? c)%N && (c <=? 122)%N.
Definition is_ascii_hexdigit (c : char) : bool :=
  is_ascii_digit c || ((65 <=? c)%N && (c <=? 70)%N) || ((97 <=? c)%N && (c <=? 102)%N).

Definition char_lower (c : char) : char := if is_ascii_uppercase c then (c + 32)%N else c.
Definition char_upper (c : char) : char := if is_ascii_lowercase c then (c - 32)%N else c.

Definition to_ascii_lowercase (s : str) : str := map char_lower s.
Definition to_ascii_uppercase (s : str) : str := map char_upper s.
Definition eq_ignore_ascii_case (a b : str) : bool :=
  bool_decide (to_ascii_lowercase a = to_ascii_lowercase b).

(** * Lengths and byte positions *)

(** [str::len]: bytes. *)
Fixpoint str_len (s : str) : nat :=
  match s with [] => 0 | c :: s => len_utf8 c + str_len s end.

(** [str::is_char_boundary]. *)
Fixpoint is_char_boundary (s : str) (i : nat) : bool :=
  match s with
  | [] => Nat.eqb i 0
  | c :: s =>
      if Nat.eqb i 0 then true
      else if Nat.ltb i (len_utf8 c) then false
      else is_char_boundary s (i - len_utf8 c)
  end.

(** [&s[..i]], which panics ([None]) off a boundary. *)
Fixpoint byte_prefix (s : str) (i : nat) : option str :=
  match s with
  | [] => if Nat.eqb i 0 then Some [] else None
  | c :: s =>
      if Nat.eqb i 0 then Some []
      else if Nat.ltb i (len_utf8 c) then None
      else cons c <$> byte_prefix s (i - len_utf8 c)
  end.

(** * Searching and splitting *)

Definition contains_char (c : char) (s : str) : bool := existsb (N.eqb c) s.
Definition is_empty {A} (s : list A) : bool := match s with [] => true | _ => false end.

Fixpoint starts_with (p s : str) : bool :=
  match p, s with
  | [], _ => true
  | _ :: _, [] => false
  | a :: p, b :: s => (a =? b)%N && starts_with p s
  end.

Definition starts_with_char (c : char) (s : str) : bool :=
  match s with [] => false | a :: _ => (a =? c)%N end.

Fixpoint strip_prefix (p s : str) : option str :=
  match p, s with
  | [], _ => Some s
  | _ :: _, [] => None
  | a :: p, b :: s => if (a =? b)%N then strip_prefix p s else None
  end.

Definition ends_with (p s : str) : bool := starts_with (rev p) (rev s).

(** [str::split] on one character: never empty. *)
Fixpoint split (c : char) (s : str) : list str :=
  match s with
  | [] => [[]]
  | a :: s =>
      if (a =? c)%N then [] :: split c s
      else match split c s with
           | [] => [[a]]
           | w :: ws => (a :: w) :: ws
           end
  end.

(** [str::split_once] on one character. *)
Fixpoint split_once (c : char) (s : str) : option (str * str) :=
  match s with
  | [] => None
  | a :: s =>
      if (a =? c)%N then Some ([], s)
      else match split_once c s with
           | Some (l, r) => Some (a :: l, r)
           | None => None
           end
  end.

Fixpoint drop_while (p : char → bool) (s : str) : str :=
  match s with
  | [] => []
  | c :: s' => if p c then drop_while p s' else s
  end.

Fixpoint take_while (f : char → bool) (s : str) : str :=
  match s with
  | [] => []
  | c :: s => if f c then c :: take_while f s else []
  end.

Definition trim_start_matches (p : char → bool) (s : str) : str := drop_while p s.
Definition trim_end_matches (p : char → bool) (s : str) : str := rev (drop_while p (rev s)).
Definition trim_start (s : str) : str := trim_start_matches is_whitespace s.
Definition trim_end (s : str) : str := trim_end_matches is_whitespace s.
Definition trim (s : str) : str := trim_end (trim_start s).

(** [split(p).filter(nonempty)], which is [split_whitespace] for
    [p := is_whitespace]. *)
Fixpoint words_aux (p : char → bool) (s : str) (acc : str) : list str :=
  match s with
  | [] => if is_empty acc then [] else [rev acc]
  | c :: s =>
      if p c then (if is_empty acc then words_aux p s [] else rev acc :: words_aux p s [])
      else words_aux p s (c :: acc)
  end.
Definition words (p : char → bool) (s : str) : list str := words_aux p s [].
Definition split_whitespace : str → list str := words is_whitespace.
Definition split_ascii_whitespace : str → list str := words is_ascii_whitespace.

Fixpoint join (sep : str) (l : list str) : str :=
  match l with
  | [] => []
  | [s] => s
  | s :: l => s ++ sep ++ join sep l
  end.

(** * Ordering *)

Fixpoint str_leb (a b : str) : bool :=
  match a, b with
  | [], _ => true
  | _ :: _, [] => false
  | x :: a, y :: b => (x <? y)%N || ((x =? y)%N && str_leb a b)
  end.
Definition str_le (a b : str) : Prop := str_leb a b = true.

#[export] Instance str_le_dec : RelDecision str_le.
Proof. intros a b. unfold str_le. apply _. Defined.

(** [Vec<String>::sort]. *)
Definition sort (l : list str) : list str := merge_sort str_le l.

(** * Numbers *)

Fixpoint dec_aux (fuel : nat) (n : N) (acc : str) : str :=
  match fuel with
  | O => acc
  | S fuel =>
      let acc := (48 + n mod 10)%N :: acc in
      if (n <? 10)%N then acc else dec_aux fuel (n / 10)%N acc
  end.

(** [to_string] of an unsigned integer. *)
Definition to_dec (n : N) : str := dec_aux (S (N.size_nat n)) n [].

Definition hex_digit (d : N) : char := if (d <? 10)%N then (48 + d)%N else (87 + d)%N.
Fixpoint hex_aux (fuel : nat) (n : N) (acc : str) : str :=
  match fuel with
  | O => acc
  | S fuel =>
      let acc := hex_digit (n mod 16)%N :: acc in
      if (n <? 16)%N then acc else hex_aux fuel (n / 16)%N acc
  end.
(** [{n:x}]. *)
Definition to_hex (n : N) : str := hex_aux (S (N.size_nat n)) n [].

(** Digits accumulated most significant first; [None] past [max]. *)
Fixpoint parse_digits (max : N) (s : str) (acc : N) : option N :=
  match s with
  | [] => Some acc
  | c :: s =>
      if is_ascii_digit c then
        let v := (acc * 10 + (c - 48))%N in
        if (v <=? max)%N then parse_digits max s v else None
      else None
  end.

(** [s.parse::<uN>()], [max] being the type's largest value: an optional [+],
    then at least one digit. *)
Definition parse_unsigned (max : N) (s : str) : option N :=
  let s := match s with c :: r => if (c =? 43)%N then r else s | [] => [] end in
  if is_empty s then None else parse_digits max s 0%N.

Definition u16_max : N := 65535.
Definition u32_max : N := 4294967295.
Definition u64_max : N := 18446744073709551615.

(** * Facts *)

Lemma len_utf8_pos c : 1 ≤ len_utf8 c.
Proof. unfold len_utf8. repeat case_match; lia. Qed.

Lemma str_len_app a b : str_len (a ++ b) = str_len a + str_len b.
Proof. induction a as [|c a IH]; simpl; [done|]. rewrite IH. lia. Qed.

Lemma str_len_prefix a b : a `prefix_of` b → str_len a ≤ str_len b.
Proof. intros [k ->]. rewrite str_len_app. lia. Qed.

Lemma is_empty_true {A} (l : list A) : is_empty l = true ↔ l = [].
Proof. by destruct l. Qed.
Lemma is_empty_false {A} (l : list A) : is_empty l = false ↔ l ≠ [].
Proof. by destruct l. Qed.

(** The byte positions where a string may be cut are the lengths of its
    prefixes. *)
Lemma byte_prefix_Some s i p : byte_prefix s i = Some p ↔ p `prefix_of` s ∧ str_len p = i.
Proof.
  revert i p. induction s as [|c s IH]; intros i p; simpl.
  - destruct (Nat.eqb_spec i 0) as [->|Hi].
    + split; [intros [= <-]; by split|]. intros [->%prefix_nil_inv _]. done.
    + split; [done|]. intros [->%prefix_nil_inv <-]. done.
  - destruct (Nat.eqb_spec i 0) as [->|Hi].
    { split; [intros [= <-]; split; [apply prefix_nil|done]|].
      intros [Hp Hl]. destruct p as [|a p]; [done|]. simpl in Hl. pose proof (len_utf8_pos a). lia. }
    destruct (Nat.ltb_spec i (len_utf8 c)).
    + split; [done|]. intros [Hp <-]. destruct p as [|a p]; [done|].
      apply prefix_cons_inv_1 in Hp as ->. simpl in *. lia.
    + rewrite fmap_Some. setoid_rewrite IH. split.
      * intros (q & [Hq Hl] & ->). split; [by apply prefix_cons|]. simpl. lia.
      * intros [Hp Hl]. destruct p as [|a p]; simpl in *; [lia|].
        pose proof (prefix_cons_inv_1 _ _ _ _ Hp) as ->. apply prefix_cons_inv_2 in Hp.
        exists p. split; [split; [done|lia]|done].
Qed.

Lemma is_char_boundary_prefix s i : is_char_boundary s i = true ↔ is_Some (byte_prefix s i).
Proof.
  revert i. induction s as [|c s IH]; intros i; simpl.
  - destruct (Nat.eqb i 0); split; [eauto|done|done|by intros []].
  - destruct (Nat.eqb i 0); [by split; eauto|].
    destruct (Nat.ltb i (len_utf8 c)); [by split; [|intros []]|]. by rewrite fmap_is_Some.
Qed.

Lemma drop_while_elem p s c : c ∈ drop_while p s → c ∈ s.
Proof. induction s as [|a s IH]; simpl; [done|]. destruct (p a); [|done]. intros. right. auto. Qed.
Lemma drop_while_length p s : List.length (drop_while p s) ≤ List.length s.
Proof. induction s as [|a s IH]; simpl; [done|]. destruct (p a); simpl; lia. Qed.
Lemma trim_end_elem s c : c ∈ trim_end s → c ∈ s.
Proof. unfold trim_end, trim_end_matches. rewrite elem_of_rev. intros H%drop_while_elem. by apply elem_of_rev. Qed.
Lemma trim_end_length s : List.length (trim_end s) ≤ List.length s.
Proof.
  unfold trim_end, trim_end_matches. rewrite length_rev.
  etrans; [apply drop_while_length|]. by rewrite length_rev.
Qed.

(** ** Searching and splitting *)

Lemma strip_prefix_Some p s r : strip_prefix p s = Some r ↔ s = p ++ r.
Proof.
  revert s. induction p as [|a p IH]; intros s; simpl; [naive_solver|].
  destruct s as [|b s]; [naive_solver|].
  destruct (N.eqb_spec a b) as [->|Hab]; [rewrite IH; naive_solver|]. naive_solver.
Qed.

Lemma strip_prefix_None p s : strip_prefix p s = None → starts_with p s = false.
Proof.
  revert s. induction p as [|a p IH]; intros s; simpl; [done|]. destruct s as [|b s]; [done|].
  destruct (a =? b)%N; [apply IH|done].
Qed.

Lemma contains_char_true c s : contains_char c s = true ↔ c ∈ s.
Proof.
  unfold contains_char. rewrite existsb_elem. split.
  - intros (x & Hx & E). bool_simp. by subst.
  - intros H. exists c. split; [done|]. apply N.eqb_refl.
Qed.

Lemma contains_char_false c s : contains_char c s = false ↔ c ∉ s.
Proof. by rewrite <- not_true_iff_false, contains_char_true. Qed.

Lemma split_once_spec c s l r : split_once c s = Some (l, r) ↔ s = l ++ c :: r ∧ (c ∉ l).
Proof.
  revert l r. induction s as [|a s IH]; intros l r; simpl.
  { split; [done|]. intros [E _]. by destruct l. }
  destruct (N.eqb_spec a c) as [->|Hac].
  - split; [intros [= <- <-]; split; [done|apply not_elem_of_nil]|].
    intros [E Hl]. destruct l as [|b l]; [by simplify_eq/=|]. simplify_eq/=. set_solver.
  - destruct (split_once c s) as [[l' r']|].
    + split.
      * intros [= <- <-]. destruct (proj1 (IH l' r') eq_refl) as [-> Hc]. split; [done|set_solver].
      * intros [Es Hl]. destruct l as [|b l]; simplify_eq/=.
        assert (Some (l', r') = Some (l, r)) by (apply IH; set_solver). by simplify_eq.
    + split; [done|]. intros [Es Hl]. destruct l as [|b l]; simplify_eq/=.
      assert (None = Some (l, r)) by (apply IH; set_solver). done.
Qed.

Lemma starts_with_app p s : starts_with p s = true ↔ ∃ r, s = p ++ r.
Proof.
  revert s. induction p as [|a p IH]; intros s; simpl; [split; eauto|].
  destruct s as [|c s]; [split; [done|by intros [? ?]]|].
  rewrite andb_true_iff, N.eqb_eq, IH. split; [intros [-> [r ->]]; eauto|].
  intros [r [= -> ->]]. eauto.
Qed.

Lemma take_while_forall f s : Forall (λ c, f c = true) (take_while f s).
Proof. induction s as [|c s IH]; simpl; [constructor|]. destruct (f c) eqn:E; by constructor. Qed.

Lemma take_while_app f s : take_while f s ++ drop_while f s = s.
Proof. induction s as [|c s IH]; simpl; [done|]. destruct (f c); simpl; [by rewrite IH|done]. Qed.

Lemma drop_while_head f s c r : drop_while f s = c :: r → f c = false.
Proof.
  induction s as [|a s IH]; simpl; [done|]. destruct (f a) eqn:E; [done|]. by intros [= <- _].
Qed.

Lemma drop_while_id f s : match s with [] => True | c :: _ => f c = false end → drop_while f s = s.
Proof. destruct s as [|c s]; simpl; [done|]. by intros ->. Qed.

Lemma trim_end_matches_last f s c : last (trim_end_matches f s) = Some c → f c = false.
Proof.
  unfold trim_end_matches. intros H. destruct (drop_while f (rev s)) as [|x r] eqn:E; [done|].
  rewrite <- E, last_rev in H. rewrite E in H. injection H as ->. by eapply drop_while_head.
Qed.

Lemma trim_end_matches_id f s : (∀ c, last s = Some c → f c = false) → trim_end_matches f s = s.
Proof.
  intros H. unfold trim_end_matches. rewrite drop_while_id; [apply rev_involutive|].
  destruct (rev s) as [|c r] eqn:E; [done|]. apply H.
  rewrite <- (rev_involutive s), E. simpl. by rewrite last_snoc.
Qed.

Lemma trim_end_matches_prefix f s : trim_end_matches f s `prefix_of` s.
Proof.
  unfold trim_end_matches. exists (rev (take_while f (rev s))).
  rewrite <- rev_app_distr, take_while_app. by rewrite rev_involutive.
Qed.

(** * Lemmas: numbers and words *)

Lemma size_nat_bound n : (n < 2 ^ N.of_nat (N.size_nat n))%N.
Proof.
  destruct n as [|p]; [done|]. cbn [N.size_nat]. induction p as [p IH|p IH|]; cbn [Pos.size_nat]; [..|done].
  all: rewrite Nat2N.inj_succ, N.pow_succ_r by lia; revert IH; generalize (2 ^ N.of_nat (Pos.size_nat p))%N; lia.
Qed.

Lemma parse_dec_aux max fuel n acc :
  (n < 2 ^ N.of_nat fuel)%N → (n ≤ max)%N →
  parse_digits max (dec_aux (S fuel) n acc) 0 = parse_digits max acc n.
Proof.
  revert n acc. induction fuel as [|fuel IH]; intros n acc Hn Hmax.
  { assert (n = 0%N) as -> by (simpl in Hn; lia). cbn [dec_aux]. change (0 <? 10)%N with true.
    cbn [parse_digits]. change (is_ascii_digit (48 + 0 mod 10)) with true.
    change (0 * 10 + (48 + 0 mod 10 - 48))%N with 0%N. by destruct (N.leb_spec 0 max); [|lia]. }
  assert (∀ m a, (m < 10)%N → is_ascii_digit (48 + m) = true ∧ (a * 10 + (48 + m - 48) = a * 10 + m)%N) as Hd.
  { intros m a Hm. unfold is_ascii_digit. split; [|lia].
    apply andb_true_iff. split; apply N.leb_le; lia. }
  remember (S fuel) as g. cbn [dec_aux]. destruct (N.ltb_spec n 10) as [Hlt|Hge].
  - cbn [parse_digits]. rewrite N.mod_small by done. destruct (Hd n 0%N Hlt) as [-> ->].
    change (0 * 10)%N with 0%N. rewrite N.add_0_l. by destruct (N.leb_spec n max); [|lia].
  - subst g. rewrite Nat2N.inj_succ, N.pow_succ_r in Hn by lia. rewrite IH.
    + cbn [parse_digits]. destruct (Hd (n mod 10)%N (n / 10)%N) as [-> ->]; [by apply N.mod_lt|].
      assert (n / 10 * 10 + n mod 10 = n)%N as -> by (rewrite N.mul_comm; symmetry; by apply N.div_mod).
      by destruct (N.leb_spec n max); [|lia].
    + apply N.Div0.div_lt_upper_bound. lia.
    + etransitivity; [apply N.Div0.div_le_upper_bound|]; [|done]. lia.
Qed.

Lemma digit_of m : (m < 10)%N → is_ascii_digit (48 + m) = true.
Proof. intros Hm. unfold is_ascii_digit. apply andb_true_iff. split; apply N.leb_le; lia. Qed.

Lemma dec_aux_spec fuel n acc :
  ∃ w, dec_aux (S fuel) n acc = w ++ acc ∧ w ≠ [] ∧ Forall (λ c, is_ascii_digit c = true) w.
Proof.
  revert n acc. induction fuel as [|fuel IH]; intros n acc.
  all: assert (is_ascii_digit (48 + n mod 10) = true) as Hd by (by apply digit_of; apply N.mod_lt).
  - exists [(48 + n mod 10)%N]. cbn. split_and!; [by destruct (n <? 10)%N|done|by repeat constructor].
  - remember (S fuel) as g. cbn [dec_aux]. destruct (n <? 10)%N.
    + exists [(48 + n mod 10)%N]. split_and!; [done..|by repeat constructor].
    + subst g. destruct (IH (n / 10)%N ((48 + n mod 10)%N :: acc)) as (w & -> & Hne & Hw).
      exists (w ++ [(48 + n mod 10)%N]). rewrite <- (assoc_L (++)). split_and!; [done|by destruct w|].
      apply Forall_app. split; [done|by repeat constructor].
Qed.

Lemma to_dec_digits n : to_dec n ≠ [] ∧ Forall (λ c, is_ascii_digit c = true) (to_dec n).
Proof.
  unfold to_dec. destruct (dec_aux_spec (N.size_nat n) n []) as (w & -> & ? & ?). by rewrite app_nil_r.
Qed.

(** Reading what [to_string] wrote gives the number back. *)
Lemma parse_to_dec max n : (n ≤ max)%N → parse_unsigned max (to_dec n) = Some n.
Proof.
  intros H. destruct (to_dec_digits n) as [Hne Hd]. unfold parse_unsigned.
  assert (match to_dec n with c :: r => if (c =? 43)%N then r else to_dec n | [] => [] end = to_dec n) as ->.
  { destruct (to_dec n) as [|c r]; [done|]. apply Forall_cons in Hd as [Hc _].
    destruct (N.eqb_spec c 43) as [->|]; [done|done]. }
  apply is_empty_false in Hne as ->. unfold to_dec. rewrite parse_dec_aux; [done| |done]. apply size_nat_bound.
Qed.

Lemma digit_not_whitespace c : is_ascii_digit c = true → is_whitespace c = false.
Proof.
  unfold is_ascii_digit. intros [H1%N.leb_le H2%N.leb_le]%andb_true_iff.
  assert (c ∈ map N.of_nat (seq 48 10)) as Hc.
  { apply list_elem_of_fmap. exists (N.to_nat c). rewrite N2Nat.id. split; [done|]. apply elem_of_seq. lia. }
  assert (Forall (λ c, is_whitespace c = false) (map N.of_nat (seq 48 10))) as Hf by by repeat constructor.
  rewrite Forall_forall in Hf. by apply Hf.
Qed.

Lemma to_dec_not_whitespace n : Forall (λ c, is_whitespace c = false) (to_dec n).
Proof. eapply Forall_impl; [apply to_dec_digits|]. exact digit_not_whitespace. Qed.

Lemma words_aux_app p w r acc :
  Forall (λ c, p c = false) w → words_aux p (w ++ r) acc = words_aux p r (rev w ++ acc).
Proof.
  revert acc. induction w as [|c w IH]; intros acc H; [done|]. apply Forall_cons in H as [Hc Hw].
  cbn [words_aux app rev]. rewrite Hc, IH by done. by rewrite <- (assoc_L (++)).
Qed.

Lemma is_empty_rev {A} (l : list A) : l ≠ [] → is_empty (rev l) = false.
Proof.
  intros H. apply is_empty_false. intros E. apply (f_equal (@rev A)) in E. by rewrite rev_involutive in E.
Qed.

(** A word, the blank after it, and the rest. *)
Lemma words_cons p w b r :
  w ≠ [] → Forall (λ c, p c = false) w → p b = true → words p (w ++ b :: r) = w :: words p r.
Proof.
  intros Hne Hw Hb. unfold words. rewrite words_aux_app by done. rewrite app_nil_r. cbn [words_aux].
  by rewrite Hb, is_empty_rev, rev_involutive.
Qed.

Lemma words_last p w : w ≠ [] → Forall (λ c, p c = false) w → words p w = [w].
Proof.
  intros Hne Hw. unfold words. rewrite <- (app_nil_r w) at 1. rewrite words_aux_app by done. rewrite app_nil_r.
  cbn [words_aux]. by rewrite is_empty_rev, rev_involutive.
Qed.

Lemma words_blank p b r : p b = true → words p (b :: r) = words p r.
Proof. intros Hb. unfold words. cbn [words_aux]. by rewrite Hb. Qed.
