(* ===== verification/Proto.v ===== *)
(** The vocabulary of [irc_proto] the source pattern-matches on or builds.

    [irc_proto] is a third-party crate: only its data constructors appear here,
    those the source names, with the fields the source uses.  A variant the
    source never names is [Other], identified by an opaque tag; turning such a
    command into its wire text is a parameter wherever the source does so. *)
From S2P Require Import Prelude RustStr.

Module Proto.

Inductive CapSubCommand := CapLS | CapLIST | CapREQ | CapACK | CapNAK | CapEND | CapOther.

Inductive Response :=
  | RPL_WELCOME | RPL_YOURHOST | RPL_CREATED | RPL_MYINFO | RPL_ISUPPORT
  | RPL_MOTDSTART | RPL_MOTD | RPL_ENDOFMOTD
  | RPL_TOPIC | RPL_TOPICWHOTIME | RPL_NOTOPIC | RPL_NAMREPLY | RPL_ENDOFNAMES
  | RPL_LISTSTART | RPL_LIST | RPL_LISTEND
  | RPL_WHOISUSER | RPL_WHOISSERVER | RPL_WHOISCHANNELS | RPL_ENDOFWHOIS
  | RPL_WHOISOPERATOR | RPL_WHOISIDLE | RPL_AWAY
  | RPL_SASLSUCCESS
  | ERR_NOTREGISTERED | ERR_NONICKNAMEGIVEN | ERR_ERRONEOUSNICKNAME | ERR_NICKNAMEINUSE
  | ERR_ALREADYREGISTRED | ERR_NOSUCHCHANNEL | ERR_NOTONCHANNEL | ERR_NORECIPIENT
  | ERR_NOTEXTTOSEND | ERR_CANNOTSENDTOCHAN | ERR_NOSUCHNICK | ERR_CHANOPRIVSNEEDED
  | ERR_USERNOTINCHANNEL | ERR_UNKNOWNCOMMAND
  | ERR_SASLFAIL | ERR_SASLTOOLONG | ERR_SASLABORT | ERR_SASLALREADY | ERR_NICKLOCKED
  | OtherResponse (code : N).

Inductive Prefix :=
  | ServerName (name : str)
  | Nickname (nick user host : str).

(** A change of mode: what the crate prints for the mode, and its argument. *)
Inductive Mode :=
  | Plus (inner : str) (arg : option str)
  | Minus (inner : str) (arg : option str)
  | NoPrefix (inner : str).

Inductive Command :=
  | CAP (target : option str) (sub : CapSubCommand) (arg suffix : option str)
  | NICK (nick : str)
  | USER (user mode real : str)
  | PASS (password : str)
  | PING (token : str) (server : option str)
  | PONG (server : str) (token : option str)
  | QUIT (reason : option str)
  | JOIN (channels : str) (keys real : option str)
  | PART (channels : str) (reason : option str)
  | PRIVMSG (target text : str)
  | NOTICE (target text : str)
  | TOPIC (channel : str) (topic : option str)
  | KICK (channels nicks : str) (reason : option str)
  | NAMES (channels server : option str)
  | MOTD (server : option str)
  | LIST (channels server : option str)
  | WHOIS (target : option str) (masks : str)
  | AWAY (message : option str)
  | ChannelMODE (channel : str) (modes : list Mode)
  | UserMODE (nick : str) (modes : list str)
  | AUTHENTICATE (payload : str)
  | ERROR (text : str)
  | Reply (response : Response) (args : list str)
  | Raw (command : str) (args : list str)
  | Other (tag : N).

(** [tags] is always [None] in what the server sends and unused in what it
    reads. *)
Record Message := mkMessage { prefix : option Prefix; command : Command }.

#[export] Instance CapSubCommand_eq_dec : EqDecision CapSubCommand.
Proof. solve_decision. Defined.
#[export] Instance Response_eq_dec : EqDecision Response.
Proof. solve_decision. Defined.
#[export] Instance Prefix_eq_dec : EqDecision Prefix.
Proof. solve_decision. Defined.
#[export] Instance Mode_eq_dec : EqDecision Mode.
Proof. solve_decision. Defined.
#[export] Instance Command_eq_dec : EqDecision Command.
Proof. solve_decision. Defined.
#[export] Instance Message_eq_dec : EqDecision Message.
Proof. solve_decision. Defined.

End Proto.
