(* ===== verification/Admin.v ===== *)
(** The operator's vocabulary: [ddirc-server/src/admin.rs].

    Commands in, events and snapshots out.  Everything a client could have
    chosen is escaped to visible text ([clean]) where an event is made. *)
From S2P Require Import Prelude RustStr.

Abbreviation ClientId := N (only parsing).

Module Admin.

Inductive AdminCommand :=
  | Kick (channel nick : str) (reason : option str)
  | Disconnect (nick : str) (reason : option str)
  | Ban (nick : str) (reason : option str)
  | Unban (nick : str)
  | SetTopic (channel topic : str)
  | CloseChannel (channel : str) (reason : option str)
  | Op (channel nick : str)
  | Deop (channel nick : str)
  | Notice (target text : str)
  | Wall (text : str)
  | SetMotd (lines : list str).

Inductive EventKind :=
  | Connected (id : ClientId)
  | Dropped (id : ClientId) (reason : str)
  | Registered (id : ClientId) (nick : str)
  | NickChanged (old new : str)
  | Joined (nick channel : str)
  | Parted (nick channel : str) (reason : option str)
  | Kicked (nick channel by_ : str) (reason : option str)
  | Quit (nick reason : str)
  | Mode (channel by_ nick : str) (op : bool)
  | Topic (channel by_ topic : str)
  | Message (from target : str) (text : option str) (notice : bool)
  | AdminDone (ok : bool) (text : str).

#[export] Instance AdminCommand_eq_dec : EqDecision AdminCommand.
Proof. solve_decision. Defined.
#[export] Instance EventKind_eq_dec : EqDecision EventKind.
Proof. solve_decision. Defined.

(** Characters that change the direction text is laid out in. *)
Definition is_bidi (c : char) : bool :=
  (c =? 0x061c)%N || (c =? 0x200e)%N || (c =? 0x200f)%N
  || ((0x202a <=? c)%N && (c <=? 0x202e)%N) || ((0x2066 <=? c)%N && (c <=? 0x2069)%N).

(** Exactly two hexadecimal digits: [{n:02x}] for [n <= 0xff]. *)
Definition hex02 (n : N) : str := [hex_digit (n / 16)%N; hex_digit (n mod 16)%N].

Definition clean_char (c : char) : str :=
  if is_control c || is_bidi c then
    if (c <=? 0xff)%N then lit "\x" ++ hex02 c
    else lit "\u{" ++ to_hex c ++ lit "}"
  else [c].

Definition clean (text : str) : str := concat (map clean_char text).

Definition sanitized (k : EventKind) : EventKind :=
  match k with
  | Connected id => Connected id
  | Dropped id reason => Dropped id (clean reason)
  | Registered id nick => Registered id (clean nick)
  | NickChanged old new => NickChanged (clean old) (clean new)
  | Joined nick channel => Joined (clean nick) (clean channel)
  | Parted nick channel reason => Parted (clean nick) (clean channel) (clean <$> reason)
  | Kicked nick channel by_ reason =>
      Kicked (clean nick) (clean channel) (clean by_) (clean <$> reason)
  | Quit nick reason => Quit (clean nick) (clean reason)
  | Mode channel by_ nick op => Mode (clean channel) (clean by_) (clean nick) op
  | Topic channel by_ topic => Topic (clean channel) (clean by_) (clean topic)
  | Message from target text notice =>
      Message (clean from) (clean target) (clean <$> text) notice
  | AdminDone ok text => AdminDone ok (clean text)
  end.

Record ServerEvent := mkEvent { at_ : N; kind : EventKind }.

(** [ServerEvent::new], the clock read being [now]. *)
Definition new_event (now : N) (k : EventKind) : ServerEvent := mkEvent now (sanitized k).

Definition why (reason : option str) : str :=
  match reason with
  | Some r => if is_empty r then [] else lit " (" ++ r ++ lit ")"
  | None => []
  end.

Definition describe_unchecked (e : ServerEvent) : str :=
  match kind e with
  | Connected id => lit "connection #" ++ to_dec id ++ lit " opened"
  | Dropped id reason =>
      lit "connection #" ++ to_dec id ++ lit " closed before registering (" ++ reason ++ lit ")"
  | Registered id nick => nick ++ lit " registered (connection #" ++ to_dec id ++ lit ")"
  | NickChanged old new => old ++ lit " is now " ++ new
  | Joined nick channel => nick ++ lit " joined " ++ channel
  | Parted nick channel reason => nick ++ lit " left " ++ channel ++ why reason
  | Kicked nick channel by_ reason =>
      by_ ++ lit " kicked " ++ nick ++ lit " from " ++ channel ++ why reason
  | Quit nick reason => nick ++ lit " quit (" ++ reason ++ lit ")"
  | Mode channel by_ nick op =>
      by_ ++ lit " " ++ (if op then lit "gave" else lit "took") ++ lit " operator status "
      ++ (if op then lit "to" else lit "from") ++ lit " " ++ nick ++ lit " in " ++ channel
  | Topic channel by_ topic =>
      if is_empty topic then by_ ++ lit " cleared the topic of " ++ channel
      else by_ ++ lit " set the topic of " ++ channel ++ lit ": " ++ topic
  | Message from target (Some text) notice =>
      if notice then target ++ lit " -" ++ from ++ lit "- " ++ text
      else target ++ lit " <" ++ from ++ lit "> " ++ text
  | Message from target None _ => from ++ lit " sent a private message to " ++ target
  | AdminDone true text => lit "ok: " ++ text
  | AdminDone false text => lit "refused: " ++ text
  end.

Definition describe (e : ServerEvent) : str := clean (describe_unchecked e).

Record UserInfo := mkUserInfo {
  ui_id : ClientId; ui_nick : option str; ui_user : option str; ui_realname : option str;
  ui_registered : bool; ui_channels : list str; ui_connected_at : N }.
Record MemberInfo := mkMemberInfo { mi_nick : str; mi_op : bool }.
Record ChannelInfo := mkChannelInfo {
  ci_name : str; ci_topic : option str; ci_topic_set_by : option str;
  ci_members : list MemberInfo }.
Record Snapshot := mkSnapshot {
  s_server_name : str; s_network_name : str; s_started_at : N; s_connections_total : N;
  s_messages_total : N; s_users : list UserInfo; s_channels : list ChannelInfo;
  s_banned : list str; s_motd : list str }.

(** * Nothing unsafe reaches the operator's terminal *)

(** A string free of control and direction-changing characters. *)
Definition printable (s : str) : Prop :=
  Forall (λ c, is_control c = false ∧ is_bidi c = false) s.

Definition event_strings (k : EventKind) : list str :=
  match k with
  | Connected _ => []
  | Dropped _ r => [r]
  | Registered _ n => [n]
  | NickChanged o n => [o; n]
  | Joined n c => [n; c]
  | Parted n c r => n :: c :: option_list r
  | Kicked n c b r => n :: c :: b :: option_list r
  | Quit n r => [n; r]
  | Mode c b n _ => [c; b; n]
  | Topic c b t => [c; b; t]
  | Message f t x _ => f :: t :: option_list x
  | AdminDone _ t => [t]
  end.

Abbreviation safe_char c := (is_control c = false ∧ is_bidi c = false).

(** ASCII from the space to the tilde is safe, hexadecimal digits among it. *)
Lemma ascii_safe (c : char) : (32 <= c)%N → (c <= 126)%N → safe_char c.
Proof.
  intros. unfold is_control, is_bidi. split;
    repeat (apply orb_false_iff; split); try apply andb_false_iff;
    rewrite ?N.ltb_ge, ?N.leb_gt, ?N.eqb_neq; lia.
Qed.

Lemma hex_digit_safe (d : N) : (d < 16)%N → safe_char (hex_digit d).
Proof. intros. unfold hex_digit. destruct (N.ltb_spec d 10); apply ascii_safe; lia. Qed.

Lemma to_hex_printable (n : N) : printable (to_hex n).
Proof.
  unfold to_hex. generalize (S (N.size_nat n)). intros fuel.
  assert (G : ∀ n acc, printable acc → printable (hex_aux fuel n acc)); [|apply G; constructor].
  clear n. induction fuel as [|fuel IH]; intros n acc Ha; cbn [hex_aux]; [done|].
  assert (printable (hex_digit (n mod 16) :: acc)).
  { constructor; [|done]. apply hex_digit_safe, N.mod_lt. lia. }
  cbv zeta. case_match; [done|by apply IH].
Qed.

Lemma clean_char_printable (c : char) : printable (clean_char c).
Proof.
  unfold clean_char. destruct (is_control c || is_bidi c) eqn:E.
  - case_match eqn:Hc; bool_simp.
    + apply Forall_app. split; [by repeat constructor|].
      constructor; [|constructor; [|constructor]]; apply hex_digit_safe;
        [apply N.Div0.div_lt_upper_bound; lia|apply N.mod_lt; lia].
    + apply Forall_app. split; [by repeat constructor|]. apply Forall_app. split;
        [apply to_hex_printable|by repeat constructor].
  - constructor; [|constructor]. by apply orb_false_iff.
Qed.

Lemma clean_printable (s : str) : printable (clean s).
Proof.
  unfold clean. induction s as [|c s IH]; simpl; [constructor|].
  apply Forall_app. split; [apply clean_char_printable|done].
Qed.

Lemma clean_id (s : str) : printable s → clean s = s.
Proof.
  unfold clean. induction 1 as [|c s [H1 H2] _ IH]; simpl; [done|].
  rewrite IH. unfold clean_char. by rewrite H1, H2.
Qed.

Lemma clean_idemp (s : str) : clean (clean s) = clean s.
Proof. apply clean_id, clean_printable. Qed.

Lemma sanitized_printable (k : EventKind) : Forall printable (event_strings (sanitized k)).
Proof.
  destruct k as [|? r|? x|? ?|? ?|? ? r|? ? ? r|? ?|? ? ? ?|? ? ?|? ? t ?|? ?]; simpl;
    repeat (constructor; [apply clean_printable|]);
    try (constructor; fail); [destruct r|destruct r|destruct t]; simpl;
    try (constructor; fail); constructor; (apply clean_printable || constructor).
Qed.

Lemma sanitized_idemp (k : EventKind) : sanitized (sanitized k) = sanitized k.
Proof.
  destruct k as [|? r|? x|? ?|? ?|? ? r|? ? ? r|? ?|? ? ? ?|? ? ?|? ? t ?|? ?]; simpl;
    rewrite ?clean_idemp; try done; [destruct r|destruct r|destruct t]; simpl; by rewrite ?clean_idemp.
Qed.

End Admin.
