(* ===== verification/Network.v ===== *)
(** The local server's state and every reply it makes:
    [ddirc-server/src/state.rs].

    [Network] is the one struct a single task owns; each method of the source
    is a function [Network -> Network] of the same name.  What a client is sent
    ([Client.tx]) is appended to [n_sent] under its id; what the operator's view
    is told ([observer]) is appended to the log in [n_observer].  The order in
    which one broadcast visits the members of a [HashSet] is arbitrary in the
    source and is [elements] here: every statement about what was sent is about
    each client's own queue, which that order does not affect.  The clock is
    read once per handled event, as [now]. *)
From S2P Require Import Prelude RustStr Proto Admin.
Import Proto.

Definition HOST : str := lit "localhost".
Definition NICK_LEN : nat := 30.
Definition CHANNEL_LEN : nat := 50.
Definition TOPIC_LEN : nat := 390.

Record Client := mkClient {
  c_nick : option str;
  c_user : option str;
  c_real : option str;
  c_registered : bool;
  c_negotiating : bool;
  c_quit_reason : option str;
  c_channels : gset str;
  c_connected_at : N;
}.

Record TopicRec := mkTopic { t_text : str; t_set_by : str; t_at : N }.

Record Channel := mkChannel {
  ch_name : str;
  ch_topic : option TopicRec;
  ch_members : gset ClientId;
  ch_operators : gset ClientId;
}.

Record Network := mkNetwork {
  n_server_name : str;
  n_network_name : str;
  n_version : str;
  n_clients : gmap ClientId Client;
  n_nicks : gmap str ClientId;
  n_channels : gmap str Channel;
  n_motd : list str;
  n_banned : gset str;
  n_observer : option (list Admin.ServerEvent);
  n_started_at : N;
  n_connections_total : N;
  n_messages_total : N;
  n_sent : list (ClientId * Message);
}.

(** * Field updates *)

Definition set_clients (f : gmap ClientId Client → gmap ClientId Client) (n : Network) : Network :=
  mkNetwork (n_server_name n) (n_network_name n) (n_version n) (f (n_clients n)) (n_nicks n)
    (n_channels n) (n_motd n) (n_banned n) (n_observer n) (n_started_at n)
    (n_connections_total n) (n_messages_total n) (n_sent n).
Definition set_nicks (f : gmap str ClientId → gmap str ClientId) (n : Network) : Network :=
  mkNetwork (n_server_name n) (n_network_name n) (n_version n) (n_clients n) (f (n_nicks n))
    (n_channels n) (n_motd n) (n_banned n) (n_observer n) (n_started_at n)
    (n_connections_total n) (n_messages_total n) (n_sent n).
Definition set_channels (f : gmap str Channel → gmap str Channel) (n : Network) : Network :=
  mkNetwork (n_server_name n) (n_network_name n) (n_version n) (n_clients n) (n_nicks n)
    (f (n_channels n)) (n_motd n) (n_banned n) (n_observer n) (n_started_at n)
    (n_connections_total n) (n_messages_total n) (n_sent n).
Definition set_motd (m : list str) (n : Network) : Network :=
  mkNetwork (n_server_name n) (n_network_name n) (n_version n) (n_clients n) (n_nicks n)
    (n_channels n) m (n_banned n) (n_observer n) (n_started_at n)
    (n_connections_total n) (n_messages_total n) (n_sent n).
Definition set_banned (f : gset str → gset str) (n : Network) : Network :=
  mkNetwork (n_server_name n) (n_network_name n) (n_version n) (n_clients n) (n_nicks n)
    (n_channels n) (n_motd n) (f (n_banned n)) (n_observer n) (n_started_at n)
    (n_connections_total n) (n_messages_total n) (n_sent n).
Definition set_observer (o : option (list Admin.ServerEvent)) (n : Network) : Network :=
  mkNetwork (n_server_name n) (n_network_name n) (n_version n) (n_clients n) (n_nicks n)
    (n_channels n) (n_motd n) (n_banned n) o (n_started_at n)
    (n_connections_total n) (n_messages_total n) (n_sent n).
Definition set_connections_total (t : N) (n : Network) : Network :=
  mkNetwork (n_server_name n) (n_network_name n) (n_version n) (n_clients n) (n_nicks n)
    (n_channels n) (n_motd n) (n_banned n) (n_observer n) (n_started_at n)
    t (n_messages_total n) (n_sent n).
Definition set_messages_total (t : N) (n : Network) : Network :=
  mkNetwork (n_server_name n) (n_network_name n) (n_version n) (n_clients n) (n_nicks n)
    (n_channels n) (n_motd n) (n_banned n) (n_observer n) (n_started_at n)
    (n_connections_total n) t (n_sent n).
Definition push_sent (m : ClientId * Message) (n : Network) : Network :=
  mkNetwork (n_server_name n) (n_network_name n) (n_version n) (n_clients n) (n_nicks n)
    (n_channels n) (n_motd n) (n_banned n) (n_observer n) (n_started_at n)
    (n_connections_total n) (n_messages_total n) (n_sent n ++ [m]).

Definition client_set_nick (nick : str) (c : Client) : Client :=
  mkClient (Some nick) (c_user c) (c_real c) (c_registered c) (c_negotiating c)
    (c_quit_reason c) (c_channels c) (c_connected_at c).
Definition client_set_user (user real : str) (c : Client) : Client :=
  mkClient (c_nick c) (Some user) (Some real) (c_registered c) (c_negotiating c)
    (c_quit_reason c) (c_channels c) (c_connected_at c).
Definition client_set_registered (c : Client) : Client :=
  mkClient (c_nick c) (c_user c) (c_real c) true (c_negotiating c)
    (c_quit_reason c) (c_channels c) (c_connected_at c).
Definition client_set_negotiating (b : bool) (c : Client) : Client :=
  mkClient (c_nick c) (c_user c) (c_real c) (c_registered c) b
    (c_quit_reason c) (c_channels c) (c_connected_at c).
Definition client_set_quit_reason (r : str) (c : Client) : Client :=
  mkClient (c_nick c) (c_user c) (c_real c) (c_registered c) (c_negotiating c)
    (Some r) (c_channels c) (c_connected_at c).
Definition client_set_channels (f : gset str → gset str) (c : Client) : Client :=
  mkClient (c_nick c) (c_user c) (c_real c) (c_registered c) (c_negotiating c)
    (c_quit_reason c) (f (c_channels c)) (c_connected_at c).

Definition channel_set_topic (t : option TopicRec) (c : Channel) : Channel :=
  mkChannel (ch_name c) t (ch_members c) (ch_operators c).
Definition channel_set_operators (f : gset ClientId → gset ClientId) (c : Channel) : Channel :=
  mkChannel (ch_name c) (ch_topic c) (ch_members c) (f (ch_operators c)).
(** [members.remove(&id); operators.remove(&id)]. *)
Definition channel_remove (id : ClientId) (c : Channel) : Channel :=
  mkChannel (ch_name c) (ch_topic c) (ch_members c ∖ {[id]}) (ch_operators c ∖ {[id]}).

(** * Names *)

Definition client_nick (c : Client) : str := default (lit "*") (c_nick c).

Definition client_prefix (c : Client) : Prefix :=
  Nickname (client_nick c) (default (client_nick c) (c_user c)) HOST.

Definition default_motd : list str :=
  [lit "This network runs inside ddIRC, on this machine only.";
   lit "It is a beta feature: expect gaps, and do not rely on it.";
   lit "Nothing here is reachable from any other machine."].

Definition fold (name : str) : str := to_ascii_lowercase name.

(** The [while] loop of [truncate]: [end_] counts down to a boundary. *)
Fixpoint boundary_below (text : str) (end_ : nat) : nat :=
  match end_ with
  | O => O
  | S e => if is_char_boundary text end_ then end_ else boundary_below text e
  end.

(** [text[..end]] would panic off a character boundary; that it never does is
    [truncate_spec]. *)
Definition truncate_checked (text : str) (max : nat) : option str :=
  if decide (str_len text ≤ max) then Some text
  else byte_prefix text (boundary_below text max).
Definition truncate (text : str) (max : nat) : str := default [] (truncate_checked text max).

(** * Cutting text down *)

Lemma boundary_below_spec text m :
  boundary_below text m ≤ m
  ∧ is_char_boundary text (boundary_below text m) = true
  ∧ ∀ j, j ≤ m → is_char_boundary text j = true → j ≤ boundary_below text m.
Proof.
  induction m as [|m (H1 & H2 & H3)]; cbn [boundary_below].
  - split_and!; [done|destruct text; done|lia].
  - destruct (is_char_boundary text (S m)) eqn:E; [split_and!; auto|].
    split_and!; [lia|done|]. intros j Hj Hb.
    destruct (decide (j = S m)) as [->|]; [congruence|]. apply H3; [lia|done].
Qed.

(** [truncate] returns for every text and bound - the cut is always on a
    character boundary - and the result is the longest prefix that fits. *)
Lemma truncate_checked_spec text max : ∃ r,
  truncate_checked text max = Some r ∧ r `prefix_of` text ∧ str_len r ≤ max
  ∧ ∀ p, p `prefix_of` text → str_len p ≤ max → p `prefix_of` r.
Proof.
  unfold truncate_checked. case_decide; [by exists text|].
  destruct (boundary_below_spec text max) as (H1 & [r Hr]%is_char_boundary_prefix & H3).
  pose proof Hr as [Hp Hl]%byte_prefix_Some. exists r. split_and!; [done|done|lia|].
  intros p Hpp Hpl.
  assert (str_len p ≤ str_len r) as Hle.
  { rewrite Hl. apply H3; [done|]. apply is_char_boundary_prefix. exists p.
    by apply byte_prefix_Some. }
  destruct (prefix_weak_total p r text Hpp Hp) as [?|[k ->]]; [done|].
  rewrite str_len_app in Hle. destruct k as [|c k]; [by rewrite app_nil_r|].
  simpl in Hle. pose proof (len_utf8_pos c). lia.
Qed.

Lemma truncate_len text max : str_len (truncate text max) ≤ max.
Proof. unfold truncate. destruct (truncate_checked_spec text max) as (r & -> & ? & ? & ?). done. Qed.

Definition is_channel (name : str) : bool := starts_with_char (ch "#") name.

Definition valid_nick (nick : str) : bool :=
  negb (is_empty nick)
  && bool_decide (str_len nick ≤ NICK_LEN)
  && negb (starts_with_char (ch "#") nick)
  && negb (starts_with_char (ch ":") nick)
  && negb (contains_char (ch " ") nick)
  && negb (contains_char (ch ",") nick)
  && negb (contains_char (ch "!") nick)
  && negb (contains_char (ch "@") nick)
  && forallb (λ c, negb (is_control c)) nick.

Definition valid_channel (name : str) : bool :=
  is_channel name
  && bool_decide (str_len name ≤ CHANNEL_LEN)
  && bool_decide (1 < str_len name)
  && negb (contains_char (ch " ") name)
  && negb (contains_char (ch ",") name)
  && forallb (λ c, negb (is_control c)) name.

(** [Network::new]; [pkg_version] is the crate version baked in by the build. *)
Definition new (pkg_version : str) (now : N) (server_name network_name : str) : Network :=
  mkNetwork server_name network_name (lit "ddirc-server-" ++ pkg_version) ∅ ∅ ∅ default_motd ∅
    None now 0 0 [].

Definition observe (n : Network) : Network := set_observer (Some []) n.

Definition client_count (n : Network) : nat := size (n_clients n).

(** * Sending *)

Section handlers.
(** [now()], for the event being handled. *)
Context (now : N).

Definition emit (k : Admin.EventKind) (n : Network) : Network :=
  match n_observer n with
  | Some log => set_observer (Some (log ++ [Admin.new_event now k])) n
  | None => n
  end.

Definition is_registered (n : Network) (id : ClientId) : bool :=
  match n_clients n !! id with Some c => c_registered c | None => false end.

Definition nick_of (n : Network) (id : ClientId) : str :=
  match n_clients n !! id with Some c => client_nick c | None => lit "*" end.

Definition prefix_of (n : Network) (id : ClientId) : Prefix :=
  match n_clients n !! id with
  | Some c => client_prefix c
  | None => ServerName (n_server_name n)
  end.

Definition send (id : ClientId) (m : Message) (n : Network) : Network :=
  match n_clients n !! id with
  | Some _ => push_sent (id, m) n
  | None => n
  end.

Definition broadcast (key : str) (m : Message) (except : option ClientId) (n : Network) : Network :=
  match n_channels n !! key with
  | None => n
  | Some channel =>
      foldl (λ n member, if decide (Some member = except) then n else send member m n)
        n (elements (ch_members channel))
  end.

(** The inner loop of [tell_peers] and of [disconnect]: every member not yet
    told is told. *)
Definition tell_member (m : Message) (acc : Network * gset ClientId) (member : ClientId) :
    Network * gset ClientId :=
  let '(n, told) := acc in
  if decide (member ∈ told) then (n, told) else (send member m n, {[member]} ∪ told).

Definition tell_channel (m : Message) (acc : Network * gset ClientId) (name : str) :
    Network * gset ClientId :=
  let '(n, told) := acc in
  match n_channels n !! name with
  | None => (n, told)
  | Some channel => foldl (tell_member m) (n, told) (elements (ch_members channel))
  end.

Definition tell_peers (id : ClientId) (m : Message) (include_self : bool) (n : Network) : Network :=
  match n_clients n !! id with
  | None => n
  | Some client =>
      let acc := if include_self then (send id m n, {[id]}) else (n, ∅) in
      (foldl (tell_channel m) acc (elements (c_channels client))).1
  end.

Definition numeric_args (id : ClientId) (r : Response) (args : list str) (n : Network) : Network :=
  send id (mkMessage (Some (ServerName (n_server_name n))) (Reply r (nick_of n id :: args))) n.

Definition numeric (id : ClientId) (r : Response) (args : list str) (n : Network) : Network :=
  numeric_args id r args n.

Definition raw (id : ClientId) (command : str) (args : list str) (n : Network) : Network :=
  send id (mkMessage (Some (ServerName (n_server_name n))) (Raw command args)) n.

Definition claim_nick (id : ClientId) (nick : str) (n : Network) : Network :=
  let n := match n_clients n !! id ≫= c_nick with
           | Some previous => set_nicks (delete (fold previous)) n
           | None => n
           end in
  let n := set_nicks (insert (fold nick) id) n in
  set_clients (alter (client_set_nick nick) id) n.

(** * Connections *)

Definition fresh_client : Client := mkClient None None None false false None ∅ now.

Definition connect (id : ClientId) (n : Network) : Network :=
  let n := set_connections_total (u64_add (n_connections_total n) 1) n in
  let n := emit (Admin.Connected id) n in
  set_clients (insert id fresh_client) n.

(** One iteration of the loop over [client.channels] in [disconnect]. *)
Definition disconnect_channel (id : ClientId) (quit : Message) (acc : Network * gset ClientId)
    (name : str) : Network * gset ClientId :=
  let '(n, told) := acc in
  match n_channels n !! name with
  | None => (n, told)
  | Some channel =>
      let channel := channel_remove id channel in
      let n := set_channels (insert name channel) n in
      foldl (tell_member quit) (n, told) (elements (ch_members channel))
  end.

Definition disconnect (id : ClientId) (reason : str) (n : Network) : Network :=
  match n_clients n !! id with
  | None => n
  | Some client =>
      let n := set_clients (delete id) n in
      let n := match c_nick client with
               | Some nick => set_nicks (delete (fold nick)) n
               | None => n
               end in
      let said := default reason (c_quit_reason client) in
      let n := match c_nick client with
               | Some nick =>
                   if c_registered client then emit (Admin.Quit nick said) n
                   else emit (Admin.Dropped id said) n
               | None => emit (Admin.Dropped id said) n
               end in
      let quit := mkMessage (Some (client_prefix client)) (QUIT (Some said)) in
      let n := (foldl (disconnect_channel id quit) (n, ∅) (elements (c_channels client))).1 in
      set_channels (filter (λ kc, ch_members kc.2 ≠ ∅)) n
  end.

(** [Network::close], of [state/admin.rs]: end a connection from this side. *)
Definition close (id : ClientId) (reason : str) (n : Network) : Network :=
  let reason := truncate reason TOPIC_LEN in
  let n := send id (mkMessage None
             (ERROR (lit "Closing Link: " ++ HOST ++ lit " (" ++ reason ++ lit ")"))) n in
  let n := set_clients (alter (client_set_quit_reason reason) id) n in
  disconnect id reason n.

(** * Registration *)

Definition send_motd (id : ClientId) (n : Network) : Network :=
  let server := n_server_name n in
  let n := numeric id RPL_MOTDSTART [lit "- " ++ server ++ lit " Message of the Day -"] n in
  let n := foldl (λ n line, numeric id RPL_MOTD [lit "- " ++ line] n) n (n_motd n) in
  numeric id RPL_ENDOFMOTD [lit "End of /MOTD command"] n.

Definition isupport_tokens (network : str) : str :=
  lit "NETWORK=" ++ network ++ lit " CASEMAPPING=ascii CHANTYPES=# PREFIX=(o)@ CHANMODES=,,, NICKLEN="
  ++ to_dec (N.of_nat NICK_LEN) ++ lit " CHANNELLEN=" ++ to_dec (N.of_nat CHANNEL_LEN)
  ++ lit " TOPICLEN=" ++ to_dec (N.of_nat TOPIC_LEN).

Definition send_welcome (id : ClientId) (n : Network) : Network :=
  let nick := nick_of n id in
  let server := n_server_name n in
  let network := n_network_name n in
  let version := n_version n in
  let n := numeric id RPL_WELCOME
             [lit "Welcome to the " ++ network ++ lit " Network, " ++ nick] n in
  let n := numeric id RPL_YOURHOST
             [lit "Your host is " ++ server ++ lit ", running version " ++ version] n in
  let n := numeric id RPL_CREATED [lit "This server was created when you started it"] n in
  let n := numeric_args id RPL_MYINFO [server; version; []; []] n in
  let args := nick :: List.filter (λ t, negb (is_empty t)) (split (ch " ") (isupport_tokens network))
              ++ [lit "are supported by this server"] in
  let n := send id (mkMessage (Some (ServerName server)) (Reply RPL_ISUPPORT args)) n in
  send_motd id n.

Definition ready (c : Client) : bool :=
  negb (c_registered c) && negb (c_negotiating c)
  && bool_decide (is_Some (c_nick c)) && bool_decide (is_Some (c_user c)).

Definition try_register (id : ClientId) (n : Network) : Network :=
  if negb (match n_clients n !! id with Some c => ready c | None => false end) then n
  else
    let n := set_clients (alter client_set_registered id) n in
    let n := send_welcome id n in
    let nick := nick_of n id in
    emit (Admin.Registered id nick) n.

Definition on_cap (id : ClientId) (sub : CapSubCommand) (_arg : option str) (n : Network) : Network :=
  match sub with
  | CapLS | CapLIST =>
      let n := set_clients (alter (client_set_negotiating true) id) n in
      let nick := nick_of n id in
      raw id (lit "CAP") [nick; lit "LS"; []] n
  | CapREQ =>
      let nick := nick_of n id in
      raw id (lit "CAP") [nick; lit "NAK"; []] n
  | CapEND =>
      let n := set_clients (alter (client_set_negotiating false) id) n in
      try_register id n
  | _ => n
  end.

Definition on_nick (id : ClientId) (nick : str) (n : Network) : Network :=
  let nick := trim nick in
  if is_empty nick then numeric id ERR_NONICKNAMEGIVEN [lit "No nickname given"] n
  else if negb (valid_nick nick) then
    numeric_args id ERR_ERRONEOUSNICKNAME [nick; lit "Erroneous nickname"] n
  else
    let key := fold nick in
    if decide (key ∈ n_banned n) then
      numeric_args id ERR_ERRONEOUSNICKNAME [nick; lit "Nickname is banned from this server"] n
    else if match n_nicks n !! key with
            | Some holder => bool_decide (holder ≠ id)
            | None => false
            end then
      numeric_args id ERR_NICKNAMEINUSE [nick; lit "Nickname is already in use"] n
    else
      let was := n_clients n !! id ≫= c_nick in
      let registered := is_registered n id in
      let n := claim_nick id nick n in
      match registered, was with
      | true, Some old =>
          if decide (old ≠ nick) then
            let n := emit (Admin.NickChanged old nick) n in
            let change := mkMessage
              (Some (Nickname old (default nick (n_clients n !! id ≫= c_user)) HOST)) (NICK nick) in
            tell_peers id change true n
          else n
      | false, _ => try_register id n
      | true, None => n
      end.

Definition on_user (id : ClientId) (user real : str) (n : Network) : Network :=
  if is_registered n id then
    numeric id ERR_ALREADYREGISTRED [lit "You may not reregister"] n
  else
    let n := set_clients (alter (client_set_user user real) id) n in
    try_register id n.

(** * Channels *)

Definition is_member (n : Network) (key : str) (id : ClientId) : bool :=
  match n_channels n !! key with
  | Some c => bool_decide (id ∈ ch_members c)
  | None => false
  end.

(** [self.channels[&key].name], after the key is known to be there. *)
Definition shown_name (n : Network) (key : str) : str :=
  match n_channels n !! key with Some c => ch_name c | None => [] end.

(** The topic as a reply. *)
Definition send_topic (id : ClientId) (key : str) (explicit : bool) (n : Network) : Network :=
  match n_channels n !! key with
  | None => n
  | Some channel =>
      let name := ch_name channel in
      match ch_topic channel with
      | Some topic =>
          let n := numeric_args id RPL_TOPIC [name; t_text topic] n in
          numeric_args id RPL_TOPICWHOTIME [name; t_set_by topic; to_dec (t_at topic)] n
      | None =>
          if explicit then numeric_args id RPL_NOTOPIC [name; lit "No topic is set"] n else n
      end
  end.

(** One entry of a NAMES reply: [None] for a member with no client or nick. *)
Definition name_entry (n : Network) (channel : Channel) (m : ClientId) : option str :=
  nick ← n_clients n !! m ≫= c_nick;
  Some (if decide (m ∈ ch_operators channel) then ch "@" :: nick else nick).

Definition channel_names (n : Network) (channel : Channel) : list str :=
  sort (omap (name_entry n channel) (elements (ch_members channel))).

Definition send_names (id : ClientId) (name : str) (n : Network) : Network :=
  let '(shown, names) :=
    match n_channels n !! fold name with
    | Some channel => (ch_name channel, channel_names n channel)
    | None => (name, [])
    end in
  let n := if is_empty names then n
           else numeric_args id RPL_NAMREPLY [lit "="; shown; join (lit " ") names] n in
  numeric_args id RPL_ENDOFNAMES [shown; lit "End of /NAMES list"] n.

(** [entry(key).or_insert_with(..)], then the joiner in, an operator if the
    channel is new. *)
Definition join_channel (id : ClientId) (name : str) (old : option Channel) : Channel :=
  match old with
  | Some c => mkChannel (ch_name c) (ch_topic c) ({[id]} ∪ ch_members c) (ch_operators c)
  | None => mkChannel name None {[id]} {[id]}
  end.

Definition on_join (id : ClientId) (name : str) (n : Network) : Network :=
  if negb (valid_channel name) then
    numeric_args id ERR_NOSUCHCHANNEL [name; lit "No such channel"] n
  else
    let key := fold name in
    if is_member n key id then n
    else
      let channel := join_channel id name (n_channels n !! key) in
      let n := set_channels (insert key channel) n in
      let shown := ch_name channel in
      let n := set_clients (alter (client_set_channels (union {[key]})) id) n in
      let join_ := mkMessage (Some (prefix_of n id)) (JOIN shown None None) in
      let n := send id join_ n in
      let n := broadcast key join_ (Some id) n in
      let n := emit (Admin.Joined (nick_of n id) shown) n in
      let n := send_topic id key false n in
      send_names id shown n.

(** Take a member out of a channel, and the channel out when it empties;
    shared by [on_part] and [kick_member]. *)
Definition leave (key : str) (id : ClientId) (n : Network) : Network :=
  let n := match n_channels n !! key with
           | Some channel =>
               let channel := channel_remove id channel in
               if decide (ch_members channel = ∅) then set_channels (delete key) n
               else set_channels (insert key channel) n
           | None => n
           end in
  set_clients (alter (client_set_channels (λ s, s ∖ {[key]})) id) n.

Definition on_part (id : ClientId) (name : str) (reason : option str) (n : Network) : Network :=
  let key := fold name in
  if negb (is_member n key id) then
    numeric_args id ERR_NOTONCHANNEL [name; lit "You're not on that channel"] n
  else
    let shown := shown_name n key in
    let part := mkMessage (Some (prefix_of n id)) (PART shown reason) in
    let n := broadcast key part None n in
    let n := emit (Admin.Parted (nick_of n id) (shown_name n key) reason) n in
    leave key id n.

Definition on_topic (id : ClientId) (name : str) (topic : option str) (n : Network) : Network :=
  let key := fold name in
  match n_channels n !! key with
  | None => numeric_args id ERR_NOSUCHCHANNEL [name; lit "No such channel"] n
  | Some channel =>
      match topic with
      | None => send_topic id key true n
      | Some text =>
          if negb (bool_decide (id ∈ ch_members channel)) then
            numeric_args id ERR_NOTONCHANNEL [name; lit "You're not on that channel"] n
          else
            let setter := nick_of n id in
            let text := truncate text TOPIC_LEN in
            let shown := ch_name channel in
            let new_topic := if is_empty text then None else Some (mkTopic text setter now) in
            let n := set_channels (alter (channel_set_topic new_topic) key) n in
            let n := emit (Admin.Topic shown (nick_of n id) text) n in
            let change := mkMessage (Some (prefix_of n id)) (TOPIC shown (Some text)) in
            broadcast key change None n
      end
  end.

(** * Messages *)

Definition on_message (id : ClientId) (target text : str) (notice : bool) (n : Network) : Network :=
  if is_empty target then
    (if notice then n else numeric id ERR_NORECIPIENT [lit "No recipient given"] n)
  else if is_empty text then
    (if notice then n else numeric id ERR_NOTEXTTOSEND [lit "No text to send"] n)
  else
    let command := if notice then NOTICE target text else PRIVMSG target text in
    let message := mkMessage (Some (prefix_of n id)) command in
    let n := set_messages_total (u64_add (n_messages_total n) 1) n in
    let reportable :=
      if is_channel target then is_member n (fold target) id
      else bool_decide (is_Some (n_nicks n !! fold target)) in
    let n := if reportable then
               emit (Admin.Message (nick_of n id) target
                       (if is_channel target then Some text else None) notice) n
             else n in
    if is_channel target then
      let key := fold target in
      if negb (is_member n key id) then
        (if notice then n
         else numeric_args id ERR_CANNOTSENDTOCHAN [target; lit "Cannot send to channel"] n)
      else broadcast key message (Some id) n
    else
      match n_nicks n !! fold target with
      | Some to => send to message n
      | None =>
          if notice then n
          else numeric_args id ERR_NOSUCHNICK [target; lit "No such nick/channel"] n
      end.

Definition kick_member (key : str) (victim : ClientId) (by_ : Prefix) (reason : option str)
    (n : Network) : Network :=
  match n_channels n !! key with
  | None => n
  | Some channel =>
      let shown := ch_name channel in
      let victim_nick := nick_of n victim in
      let by_name := match by_ with Nickname nick _ _ => nick | ServerName name => name end in
      let kick := mkMessage (Some by_)
                    (KICK shown victim_nick (Some (default by_name reason))) in
      let n := broadcast key kick None n in
      let n := emit (Admin.Kicked victim_nick shown by_name reason) n in
      leave key victim n
  end.

Definition on_kick (id : ClientId) (name nick : str) (reason : option str) (n : Network) : Network :=
  let key := fold name in
  match n_channels n !! key with
  | None => numeric_args id ERR_NOSUCHCHANNEL [name; lit "No such channel"] n
  | Some channel =>
      let shown := ch_name channel in
      if negb (bool_decide (id ∈ ch_members channel)) then
        numeric_args id ERR_NOTONCHANNEL [name; lit "You're not on that channel"] n
      else if negb (bool_decide (id ∈ ch_operators channel)) then
        numeric_args id ERR_CHANOPRIVSNEEDED [shown; lit "You're not channel operator"] n
      else
        match n_nicks n !! fold nick with
        | Some victim =>
            if bool_decide (victim ∈ ch_members channel) then
              kick_member key victim (prefix_of n id)
                ((λ r, truncate r TOPIC_LEN) <$> reason) n
            else
              numeric_args id ERR_USERNOTINCHANNEL
                [nick; shown; lit "They aren't on that channel"] n
        | None =>
            numeric_args id ERR_USERNOTINCHANNEL
              [nick; shown; lit "They aren't on that channel"] n
        end
  end.

(** * Queries *)

(** One row of LIST, sorted by key first; keys are distinct, so the sort of
    the triples is the sort of the keys. *)
Definition list_keys (n : Network) (only : option str) : list str :=
  let wanted := (λ names, map (λ w, fold (trim w)) (split (ch ",") names)) <$> only in
  sort (List.filter
          (λ key, match wanted with Some w => bool_decide (key ∈ w) | None => true end)
          (elements (dom (n_channels n)))).

Definition list_row (id : ClientId) (n : Network) (key : str) : Network :=
  match n_channels n !! key with
  | None => n
  | Some c =>
      numeric_args id RPL_LIST
        [ch_name c; to_dec (N.of_nat (size (ch_members c)));
         match ch_topic c with Some t => t_text t | None => [] end] n
  end.

Definition on_list (id : ClientId) (only : option str) (n : Network) : Network :=
  let rooms := list_keys n only in
  let n := numeric_args id RPL_LISTSTART [lit "Channel"; lit "Users  Name"] n in
  let n := foldl (list_row id) n rooms in
  numeric id RPL_LISTEND [lit "End of /LIST"] n.

Definition whois_room (n : Network) (target : ClientId) (key : str) : option str :=
  c ← n_channels n !! key;
  Some (if decide (target ∈ ch_operators c) then ch "@" :: ch_name c else ch_name c).

Definition on_whois (id : ClientId) (nick : str) (n : Network) : Network :=
  let known :=
    match n_nicks n !! fold nick with
    | Some t => if is_registered n t then Some t else None
    | None => None
    end in
  match known with
  | None =>
      let n := numeric_args id ERR_NOSUCHNICK [nick; lit "No such nick/channel"] n in
      numeric_args id RPL_ENDOFWHOIS [nick; lit "End of /WHOIS list"] n
  | Some target =>
      match n_clients n !! target with
      | None => n
      | Some client =>
          let name := client_nick client in
          let user := default name (c_user client) in
          let real := default [] (c_real client) in
          let rooms := sort (omap (whois_room n target) (elements (c_channels client))) in
          let server := n_server_name n in
          let network := n_network_name n in
          let n := numeric_args id RPL_WHOISUSER [name; user; HOST; lit "*"; real] n in
          let n := numeric_args id RPL_WHOISSERVER [name; server; network] n in
          let n := if is_empty rooms then n
                   else numeric_args id RPL_WHOISCHANNELS [name; join (lit " ") rooms] n in
          numeric_args id RPL_ENDOFWHOIS [name; lit "End of /WHOIS list"] n
      end
  end.

Definition ping (id : ClientId) (n : Network) : Network :=
  if negb (is_registered n id) then n
  else send id (mkMessage None (PING (n_server_name n) None)) n.

Definition on_ping (id : ClientId) (token : str) (n : Network) : Network :=
  send id (mkMessage (Some (ServerName (n_server_name n)))
             (PONG (n_server_name n) (Some token))) n.

(** * Dispatch *)

(** Walk the nicks of a KICK with their index. *)
Fixpoint kick_each (id : ClientId) (channels : list str) (i : nat) (nicks : list str)
    (reason : option str) (n : Network) : Network :=
  match nicks with
  | [] => n
  | nick :: nicks =>
      let channel := match channels with
                     | [only] => Some only
                     | many => many !! i
                     end in
      match channel with
      | None => n
      | Some channel =>
          kick_each id channels (S i) nicks reason (on_kick id channel nick reason n)
      end
  end.

(** [String::from(&command)], of [irc_proto]. *)
Context (render : Command → str).

Definition registered_command (id : ClientId) (c : Command) (n : Network) : Network :=
  match c with
  | JOIN targets _ _ => foldl (λ n t, on_join id (trim t) n) n (split (ch ",") targets)
  | PART targets reason =>
      foldl (λ n t, on_part id (trim t) reason n) n (split (ch ",") targets)
  | PRIVMSG target text => on_message id target text false n
  | NOTICE target text => on_message id target text true n
  | TOPIC channel topic => on_topic id channel topic n
  | KICK channels nicks reason =>
      kick_each id (map trim (split (ch ",") channels)) 0
        (map trim (split (ch ",") nicks)) reason n
  | NAMES (Some channels) _ =>
      foldl (λ n t, send_names id (trim t) n) n (split (ch ",") channels)
  | MOTD _ => send_motd id n
  | LIST channels _ => on_list id channels n
  | WHOIS target masks =>
      let asked := if is_empty masks then default [] target else masks in
      foldl (λ n nick, on_whois id nick n) n
        (List.filter (λ w, negb (is_empty w)) (map trim (split (ch ",") asked)))
  | ChannelMODE channel [] =>
      let nick := nick_of n id in
      raw id (lit "324") [nick; channel; lit "+"] n
  | UserMODE _ _ | ChannelMODE _ _ => n
  | other =>
      let verb := default [] (head (split (ch " ") (render other))) in
      numeric_args id ERR_UNKNOWNCOMMAND [verb; lit "Unknown command"] n
  end.

Definition handle (id : ClientId) (m : Message) (n : Network) : Network :=
  match n_clients n !! id with
  | None => n
  | Some _ =>
      match command m with
      | CAP _ sub arg suffix => on_cap id sub (match arg with Some _ => arg | None => suffix end) n
      | NICK nick => on_nick id nick n
      | USER user _ real => on_user id user real n
      | PASS _ => n
      | PING token _ => on_ping id token n
      | PONG _ _ => n
      | QUIT reason =>
          let said := match reason with
                      | None => lit "Quit"
                      | Some r => truncate r TOPIC_LEN
                      end in
          close id said n
      | c =>
          if negb (is_registered n id) then
            numeric id ERR_NOTREGISTERED [lit "You have not registered"] n
          else registered_command id c n
      end
  end.
End handlers.
