(* ===== verification/NetworkAdmin.v ===== *)
(** The operator's commands, applied: [ddirc-server/src/state/admin.rs]. *)
From S2P Require Import Prelude RustStr Proto Admin Network.
Import Proto.

Definition MOTD_LINE_LEN : nat := 300.

Definition server_prefix (n : Network) : Prefix := ServerName (n_server_name n).

Definition server_notice (n : Network) (target text : str) : Message :=
  mkMessage (Some (Nickname (n_server_name n) (lit "server") HOST)) (NOTICE target text).

Definition registered (n : Network) (nick : str) : result ClientId str :=
  match n_nicks n !! fold nick with
  | Some id => if is_registered n id then Ok id else Err (lit "no such nick: " ++ nick)
  | None => Err (lit "no such nick: " ++ nick)
  end.

Definition channel_key (n : Network) (name : str) : result str str :=
  let key := fold name in
  if bool_decide (is_Some (n_channels n !! key)) then Ok key
  else Err (lit "no such channel: " ++ name).

Definition member (n : Network) (channel nick : str) : result (str * ClientId) str :=
  key <-? channel_key n channel;
  id <-? registered n nick;
  if is_member n key id then Ok (key, id)
  else Err (nick ++ lit " is not in " ++ channel).

Section admin.
Context (now : N).

Definition op_verb (give : bool) : str :=
  if give then lit "an operator" else lit "not an operator".

Definition set_op (channel nick : str) (give : bool) (n : Network) : Network * result str str :=
  match member n channel nick with
  | Err e => (n, Err e)
  | Ok (key, id) =>
      let shown := shown_name n key in
      let name := nick_of n id in
      let '(changed, n) :=
        match n_channels n !! key with
        | Some c =>
            if give then
              (negb (bool_decide (id ∈ ch_operators c)),
               set_channels (alter (channel_set_operators (union {[id]})) key) n)
            else
              (bool_decide (id ∈ ch_operators c),
               set_channels (alter (channel_set_operators (λ s, s ∖ {[id]})) key) n)
        | None => (false, n)
        end in
      let verb := op_verb give in
      if negb changed then (n, Err (name ++ lit " is already " ++ verb ++ lit " in " ++ shown))
      else
        let mode := mkMessage (Some (server_prefix n))
          (Raw (lit "MODE") [shown; if give then lit "+o" else lit "-o"; name]) in
        let n := broadcast key mode None n in
        let n := emit now (Admin.Mode shown (n_server_name n) name give) n in
        (n, Ok (name ++ lit " is now " ++ verb ++ lit " in " ++ shown))
  end.

Definition motd_line (l : str) : str :=
  truncate (List.filter (λ c, negb (is_control c)) l) MOTD_LINE_LEN.

(** The ids [AdminCommand::CloseChannel] collects before it kicks anyone. *)
Definition members_sorted (n : Network) (key : str) : list ClientId :=
  match n_channels n !! key with
  | Some c => merge_sort N.le (elements (ch_members c))
  | None => []
  end.

Definition everyone (n : Network) : list ClientId :=
  map fst (List.filter (λ ic, c_registered ic.2) (map_to_list (n_clients n))).

Definition execute (command : Admin.AdminCommand) (n : Network) : Network * result str str :=
  match command with
  | Admin.Kick channel nick reason =>
      match member n channel nick with
      | Err e => (n, Err e)
      | Ok (key, victim) =>
          let shown := shown_name n key in
          let reason := (λ r, truncate r TOPIC_LEN) <$> reason in
          (kick_member now key victim (server_prefix n) reason n,
           Ok (lit "kicked " ++ nick ++ lit " from " ++ shown))
      end
  | Admin.Disconnect nick reason =>
      match registered n nick with
      | Err e => (n, Err e)
      | Ok id =>
          let name := nick_of n id in
          (close now id (default (lit "Removed by the operator") reason) n,
           Ok (lit "disconnected " ++ name))
      end
  | Admin.Ban nick reason =>
      if negb (valid_nick nick) then (n, Err (nick ++ lit " is not a nickname"))
      else if decide (fold nick ∈ n_banned n) then (n, Err (nick ++ lit " is already banned"))
      else
        let n := set_banned (union {[fold nick]}) n in
        let n := match n_nicks n !! fold nick with
                 | Some id =>
                     let why := default (lit "Banned by the operator") reason in
                     close now id (lit "Banned: " ++ why) n
                 | None => n
                 end in
        (n, Ok (lit "banned " ++ nick))
  | Admin.Unban nick =>
      if decide (fold nick ∈ n_banned n) then
        (set_banned (λ s, s ∖ {[fold nick]}) n, Ok (lit "unbanned " ++ nick))
      else (n, Err (nick ++ lit " is not banned"))
  | Admin.SetTopic channel topic =>
      match channel_key n channel with
      | Err e => (n, Err e)
      | Ok key =>
          let topic := truncate topic TOPIC_LEN in
          let server := n_server_name n in
          let shown := shown_name n key in
          let new_topic := if is_empty topic then None else Some (mkTopic topic server now) in
          let n := set_channels (alter (channel_set_topic new_topic) key) n in
          let n := emit now (Admin.Topic shown server topic) n in
          let change := mkMessage (Some (server_prefix n)) (TOPIC shown (Some topic)) in
          (broadcast key change None n, Ok (lit "topic of " ++ shown ++ lit " updated"))
      end
  | Admin.CloseChannel channel reason =>
      match channel_key n channel with
      | Err e => (n, Err e)
      | Ok key =>
          let shown := shown_name n key in
          let reason := (λ r, truncate r TOPIC_LEN) <$> reason in
          let why := default (lit "Channel closed by the operator") reason in
          let members := members_sorted n key in
          let count := length members in
          (foldl (λ n m, kick_member now key m (server_prefix n) (Some why) n) n members,
           Ok (lit "closed " ++ shown ++ lit " (" ++ to_dec (N.of_nat count) ++ lit " removed)"))
      end
  | Admin.Op channel nick => set_op channel nick true n
  | Admin.Deop channel nick => set_op channel nick false n
  | Admin.Notice target text =>
      let text := truncate text TOPIC_LEN in
      if is_empty text then (n, Err (lit "nothing to say"))
      else
        let message := server_notice n target text in
        if is_channel target then
          match channel_key n target with
          | Err e => (n, Err e)
          | Ok key => (broadcast key message None n, Ok (lit "sent to " ++ target))
          end
        else
          match registered n target with
          | Err e => (n, Err e)
          | Ok id => (send id message n, Ok (lit "sent to " ++ target))
          end
  | Admin.Wall text =>
      let text := truncate text TOPIC_LEN in
      if is_empty text then (n, Err (lit "nothing to say"))
      else
        let all := everyone n in
        (foldl (λ n id, send id (server_notice n (nick_of n id) text) n) n all,
         Ok (lit "sent to " ++ to_dec (N.of_nat (length all)) ++ lit " connected"))
  | Admin.SetMotd lines =>
      let lines := List.filter (λ l, negb (is_empty l)) (map motd_line lines) in
      if is_empty lines then
        (set_motd default_motd n, Ok (lit "message of the day restored to the default"))
      else
        (set_motd lines n,
         Ok (lit "message of the day set (" ++ to_dec (N.of_nat (length lines)) ++ lit " lines)"))
  end.

Definition run_admin (command : Admin.AdminCommand) (n : Network) : Network * result str str :=
  let '(n, outcome) := execute command n in
  let '(ok, text) := match outcome with Ok text => (true, text) | Err text => (false, text) end in
  (emit now (Admin.AdminDone ok text) n, outcome).
End admin.

(** * Snapshots *)

(** Comparison of optional folded nicks: [None] first, as [Option]'s order. *)
Definition opt_cmp (a b : option str) : comparison :=
  match a, b with
  | None, None => Eq
  | None, Some _ => Lt
  | Some _, None => Gt
  | Some a, Some b => if str_leb a b then if str_leb b a then Eq else Lt else Gt
  end.
Definition then_with (c d : comparison) : comparison := match c with Eq => d | _ => c end.
Definition bool_cmp (a b : bool) : comparison :=
  match a, b with false, true => Lt | true, false => Gt | _, _ => Eq end.

Definition user_cmp (a b : Admin.UserInfo) : comparison :=
  then_with (bool_cmp (Admin.ui_registered b) (Admin.ui_registered a))
    (then_with (opt_cmp (fold <$> Admin.ui_nick a) (fold <$> Admin.ui_nick b))
       (N.compare (Admin.ui_id a) (Admin.ui_id b))).
Definition member_cmp (a b : Admin.MemberInfo) : comparison :=
  then_with (bool_cmp (Admin.mi_op b) (Admin.mi_op a))
    (opt_cmp (Some (fold (Admin.mi_nick a))) (Some (fold (Admin.mi_nick b)))).

(** [sort_by]: a stable insertion by a comparison. *)
Fixpoint insert_by {A} (cmp : A → A → comparison) (x : A) (l : list A) : list A :=
  match l with
  | [] => [x]
  | y :: l' => match cmp x y with Gt => y :: insert_by cmp x l' | _ => x :: l end
  end.
Definition sort_by {A} (cmp : A → A → comparison) (l : list A) : list A :=
  foldr (insert_by cmp) [] l.

Definition key_cmp {A} (f : A → str) (a b : A) : comparison := opt_cmp (Some (f a)) (Some (f b)).

Definition shown_channels (n : Network) (keys : gset str) : list str :=
  sort_by (key_cmp fold)
    (omap (λ k, ch_name <$> n_channels n !! k) (elements keys)).

Definition user_info (n : Network) (ic : ClientId * Client) : Admin.UserInfo :=
  let '(id, c) := ic in
  Admin.mkUserInfo id (Admin.clean <$> c_nick c) (Admin.clean <$> c_user c)
    (Admin.clean <$> c_real c) (c_registered c) (shown_channels n (c_channels c))
    (c_connected_at c).

Definition member_info (n : Network) (c : Channel) (m : ClientId) : option Admin.MemberInfo :=
  nick ← n_clients n !! m ≫= c_nick;
  Some (Admin.mkMemberInfo nick (bool_decide (m ∈ ch_operators c))).

Definition channel_info (n : Network) (c : Channel) : Admin.ChannelInfo :=
  Admin.mkChannelInfo (ch_name c)
    ((λ t, Admin.clean (t_text t)) <$> ch_topic c)
    ((λ t, Admin.clean (t_set_by t)) <$> ch_topic c)
    (sort_by member_cmp (omap (member_info n c) (elements (ch_members c)))).

Definition snapshot (n : Network) : Admin.Snapshot :=
  Admin.mkSnapshot (n_server_name n) (n_network_name n) (n_started_at n)
    (n_connections_total n) (n_messages_total n)
    (sort_by user_cmp (map (user_info n) (map_to_list (n_clients n))))
    (sort_by (key_cmp (λ c, fold (Admin.ci_name c)))
       (map (λ kc, channel_info n kc.2) (map_to_list (n_channels n))))
    (sort (elements (n_banned n)))
    (n_motd n).
