(* ===== verification/NetworkCore.v ===== *)
(** What replying does not change.

    [core] is the part of a [Network] the protocol depends on; the functions
    that only send or report ([send], [broadcast], [numeric], [emit], ...)
    leave it alone.  Every such fact is a rewrite rule of the [core] database,
    so an invariant of the state is proved about the few updates that make up
    each handler. *)
From S2P Require Import Prelude RustStr Proto Admin Network NetworkAdmin.
Import Proto.

Definition core (n : Network) :=
  (n_clients n, n_nicks n, n_channels n, n_motd n, n_banned n).

Create Rewrite HintDb core.

Section core.
Context (now : N) (render : Command → str).
Implicit Types (n : Network) (id : ClientId).

Lemma core_push_sent x n : core (push_sent x n) = core n.
Proof. done. Qed.
Lemma core_set_messages t n : core (set_messages_total t n) = core n.
Proof. done. Qed.
Lemma core_set_connections t n : core (set_connections_total t n) = core n.
Proof. done. Qed.
Lemma core_emit k n : core (emit now k n) = core n.
Proof. unfold emit. by case_match. Qed.
Lemma core_send id m n : core (send id m n) = core n.
Proof. unfold send. by case_match. Qed.
Lemma core_numeric_args id r args n : core (numeric_args id r args n) = core n.
Proof. apply core_send. Qed.
Lemma core_numeric id r args n : core (numeric id r args n) = core n.
Proof. apply core_send. Qed.
Lemma core_raw id c args n : core (raw id c args n) = core n.
Proof. apply core_send. Qed.
Lemma core_broadcast key m ex n : core (broadcast key m ex n) = core n.
Proof.
  unfold broadcast. case_match; [|done]. apply foldl_proj.
  intros n' i. case_decide; [done|apply core_send].
Qed.
Lemma core_tell_member m acc i : core (tell_member m acc i).1 = core acc.1.
Proof. destruct acc as [n told]. simpl. case_decide; [done|apply core_send]. Qed.
Lemma core_tell_members m acc l : core (foldl (tell_member m) acc l).1 = core acc.1.
Proof. apply (foldl_proj (λ a, core a.1)). apply core_tell_member. Qed.
Lemma core_tell_channel m acc k : core (tell_channel m acc k).1 = core acc.1.
Proof. destruct acc as [n told]. simpl. case_match; [|done]. apply core_tell_members. Qed.
Lemma core_tell_peers id m self n : core (tell_peers id m self n) = core n.
Proof.
  unfold tell_peers. case_match; [|done].
  rewrite (foldl_proj (λ a, core a.1)) by apply core_tell_channel.
  destruct self; [apply core_send|done].
Qed.
End core.

#[export] Hint Rewrite core_push_sent core_set_messages core_set_connections core_emit core_send
  core_numeric_args core_numeric core_raw core_broadcast core_tell_peers : core.

Section core_replies.
Context (now : N).
Implicit Types (n : Network) (id : ClientId).

Lemma core_send_motd id n : core (send_motd id n) = core n.
Proof.
  unfold send_motd. rewrite core_numeric, (foldl_proj core); [by rewrite core_numeric|].
  intros. apply core_numeric.
Qed.
Lemma core_send_welcome id n : core (send_welcome id n) = core n.
Proof. unfold send_welcome. rewrite core_send_motd. by autorewrite with core. Qed.
Lemma core_send_topic id k e n : core (send_topic id k e n) = core n.
Proof. unfold send_topic. repeat case_match; by autorewrite with core. Qed.
Lemma core_send_names id name n : core (send_names id name n) = core n.
Proof. unfold send_names. repeat case_match; by autorewrite with core. Qed.
Lemma core_on_list id only n : core (on_list id only n) = core n.
Proof.
  unfold on_list. rewrite core_numeric, (foldl_proj core); [by rewrite core_numeric_args|].
  intros n' k. unfold list_row. case_match; [apply core_numeric_args|done].
Qed.
Lemma core_on_whois id nick n : core (on_whois id nick n) = core n.
Proof. unfold on_whois. repeat case_match; by autorewrite with core. Qed.
Lemma core_ping id n : core (ping id n) = core n.
Proof. unfold ping. case_match; by autorewrite with core. Qed.
Lemma core_on_ping id t n : core (on_ping id t n) = core n.
Proof. apply core_send. Qed.
Lemma core_on_message id target text notice n :
  core (on_message now id target text notice n) = core n.
Proof. unfold on_message. repeat case_match; by autorewrite with core. Qed.
End core_replies.

#[export] Hint Rewrite core_send_motd core_send_welcome core_send_topic core_send_names core_on_list
  core_on_whois core_ping core_on_ping core_on_message : core.

(** What [core] equality gives about the projections. *)
Lemma core_eq n n' : core n = core n' →
  n_clients n = n_clients n' ∧ n_nicks n = n_nicks n' ∧ n_channels n = n_channels n'
  ∧ n_motd n = n_motd n' ∧ n_banned n = n_banned n'.
Proof. unfold core. intros. simplify_eq. naive_solver. Qed.

Lemma core_clients n n' : core n = core n' → n_clients n = n_clients n'.
Proof. intros H%core_eq. tauto. Qed.
Lemma core_nicks n n' : core n = core n' → n_nicks n = n_nicks n'.
Proof. intros H%core_eq. tauto. Qed.
Lemma core_channels n n' : core n = core n' → n_channels n = n_channels n'.
Proof. intros H%core_eq. tauto. Qed.

Lemma core_is_registered n n' id : core n = core n' → is_registered n id = is_registered n' id.
Proof. intros H. unfold is_registered. by rewrite (core_clients n n' H). Qed.
