(* ===== verification/NetworkInv.v ===== *)
(** The server's well-formedness invariant.

    The source keeps the same facts in two places - a nick index beside the
    clients, a member set in each channel and a channel set in each client - and
    relies on the two never disagreeing.  [wf] is that agreement, with the
    bounds each name was admitted under; this file proves it of every state
    update, and [NetworkSteps] of every event the server handles. *)
From S2P Require Import Prelude RustStr Proto Admin Network NetworkAdmin NetworkCore.
Import Proto.

(** A client: registered only with a nick and a user, in channels only when
    registered, and under a nick [valid_nick] accepted. *)
Definition client_ok (c : Client) : Prop :=
  (∀ nick, c_nick c = Some nick → valid_nick nick = true)
  ∧ (c_registered c = true → is_Some (c_nick c) ∧ is_Some (c_user c))
  ∧ (c_channels c ≠ ∅ → c_registered c = true).

Definition topic_ok (t : option TopicRec) : Prop :=
  match t with Some t => t_text t ≠ [] ∧ str_len (t_text t) ≤ TOPIC_LEN | None => True end.

(** A channel filed under [k]: a valid name that folds to it, at least one
    member, operators among the members, a bounded topic. *)
Definition channel_ok (k : str) (c : Channel) : Prop :=
  valid_channel (ch_name c) = true ∧ fold (ch_name c) = k ∧ ch_members c ≠ ∅
  ∧ ch_operators c ⊆ ch_members c ∧ topic_ok (ch_topic c).

Record wf (n : Network) : Prop := {
  wf_nicks : ∀ k id, n_nicks n !! k = Some id ↔
    ∃ c nick, n_clients n !! id = Some c ∧ c_nick c = Some nick ∧ fold nick = k;
  wf_members : ∀ k chan id, n_channels n !! k = Some chan → id ∈ ch_members chan →
    ∃ c, n_clients n !! id = Some c ∧ k ∈ c_channels c;
  wf_joined : ∀ id c k, n_clients n !! id = Some c → k ∈ c_channels c →
    ∃ chan, n_channels n !! k = Some chan ∧ id ∈ ch_members chan;
  wf_channel : ∀ k chan, n_channels n !! k = Some chan → channel_ok k chan;
  wf_client : ∀ id c, n_clients n !! id = Some c → client_ok c;
  wf_banned : ∀ k id, n_nicks n !! k = Some id → k ∉ n_banned n;
  wf_motd : n_motd n ≠ [];
}.

Lemma wf_core n n' : core n = core n' → wf n → wf n'.
Proof.
  intros (E1 & E2 & E3 & E4 & E5)%core_eq [].
  split; rewrite <- ?E1, <- ?E2, <- ?E3, <- ?E4, <- ?E5; done.
Qed.

(** Reduce a goal about a handler's result to one about its core. *)
Ltac wf_reply := eapply wf_core; [symmetry; by autorewrite with core|].

Section lemmas.
Implicit Types (n : Network) (id : ClientId) (k : str).

Lemma wf_nick_holder n k id :
  wf n → n_nicks n !! k = Some id → ∃ c nick,
    n_clients n !! id = Some c ∧ c_nick c = Some nick ∧ fold nick = k.
Proof. intros W. apply W. Qed.

(** Two clients with a nick each: the folded nicks differ. *)
Lemma wf_nick_inj n i1 i2 c1 c2 x1 x2 :
  wf n → n_clients n !! i1 = Some c1 → n_clients n !! i2 = Some c2 →
  c_nick c1 = Some x1 → c_nick c2 = Some x2 → fold x1 = fold x2 → i1 = i2.
Proof.
  intros W H1 H2 N1 N2 E.
  assert (n_nicks n !! fold x1 = Some i1) by (apply W; eauto).
  assert (n_nicks n !! fold x2 = Some i2) by (apply W; eauto).
  congruence.
Qed.

(** An update of one client that keeps its nick and its channels. *)
Lemma wf_alter_client n id f :
  wf n →
  (∀ c, n_clients n !! id = Some c →
     c_nick (f c) = c_nick c ∧ c_channels (f c) = c_channels c ∧ client_ok (f c)) →
  wf (set_clients (alter f id) n).
Proof.
  intros W Hf.
  assert (L : ∀ i c', alter f id (n_clients n) !! i = Some c' →
    ∃ c, n_clients n !! i = Some c ∧ c_nick c' = c_nick c ∧ c_channels c' = c_channels c
         ∧ client_ok c').
  { intros i c' [(-> & c & Hc & ->)|(? & Hc)]%lookup_alter_Some.
    - destruct (Hf c Hc) as (?&?&?). eauto 10.
    - exists c'. pose proof (wf_client n W i c' Hc). auto. }
  assert (L2 : ∀ i c, n_clients n !! i = Some c →
    ∃ c', alter f id (n_clients n) !! i = Some c' ∧ c_nick c' = c_nick c
          ∧ c_channels c' = c_channels c).
  { intros i c Hc. destruct (decide (id = i)) as [->|Hne].
    - exists (f c). rewrite lookup_alter, decide_True, Hc by done. simpl.
      destruct (Hf c Hc) as (?&?&?). auto.
    - exists c. by rewrite lookup_alter_ne. }
  split; simpl; try apply W.
  - intros k i. rewrite (wf_nicks n W). split.
    + intros (c & x & Hc & Hx & E). destruct (L2 i c Hc) as (c' & ? & En & ?).
      exists c', x. rewrite En. auto.
    + intros (c' & x & Hc' & Hx & E). destruct (L i c' Hc') as (c & ? & En & ?).
      exists c, x. rewrite <- En. auto.
  - intros k chan i Hk Hi. destruct (wf_members n W k chan i Hk Hi) as (c & Hc & ?).
    destruct (L2 i c Hc) as (c' & ? & ? & Ec). exists c'. rewrite Ec. auto.
  - intros i c' k Hc' Hk. destruct (L i c' Hc') as (c & ? & ? & Ec & ?).
    rewrite Ec in Hk. by eapply (wf_joined n W).
  - intros i c' Hc'. destruct (L i c' Hc') as (?&?&?&?&?). done.
Qed.

(** An update of one channel that keeps its name and its members. *)
Lemma wf_alter_channel n key f :
  wf n →
  (∀ c, n_channels n !! key = Some c →
     ch_members (f c) = ch_members c ∧ channel_ok key (f c)) →
  wf (set_channels (alter f key) n).
Proof.
  intros W Hf.
  assert (L : ∀ k c', alter f key (n_channels n) !! k = Some c' →
    ∃ c, n_channels n !! k = Some c ∧ ch_members c' = ch_members c ∧ channel_ok k c').
  { intros k c' [(-> & c & Hc & ->)|(? & Hc)]%lookup_alter_Some.
    - destruct (Hf c Hc). eauto.
    - eauto using wf_channel. }
  split; simpl; try apply W.
  - intros k chan i Hk Hi. destruct (L k chan Hk) as (c & Hc & E & ?).
    rewrite E in Hi. by eapply (wf_members n W).
  - intros i c k Hc Hk. destruct (wf_joined n W i c k Hc Hk) as (chan & Hchan & Hi).
    destruct (decide (key = k)) as [->|Hne].
    + exists (f chan). rewrite lookup_alter, decide_True, Hchan by done.
      destruct (Hf chan Hchan) as [E ?]. rewrite E. auto.
    + exists chan. by rewrite lookup_alter_ne.
  - intros k chan Hk. by destruct (L k chan Hk) as (?&?&?&?).
Qed.
End lemmas.

Section updates.
Context (now : N).
Implicit Types (n : Network) (id : ClientId) (k : str).

(** A new connection under an id not in use. *)
Lemma wf_connect n id : wf n → n_clients n !! id = None → wf (connect now id n).
Proof.
  intros W Hid. unfold connect.
  set (m := emit now _ _).
  assert (Wm : wf m) by (unfold m; by wf_reply).
  assert (Hm : n_clients m !! id = None).
  { by rewrite (core_clients m n) by (unfold m; by autorewrite with core). }
  clearbody m. clear W Hid n. split; simpl; try apply Wm.
  - intros k i. rewrite (wf_nicks m Wm). split.
    + intros (c & x & Hc & ?). exists c, x. rewrite lookup_insert_ne; [done|congruence].
    + intros (c & x & Hc & Hx & ?).
      apply lookup_insert_Some in Hc as [[_ <-]|[? Hc]]; [done|eauto].
  - intros k chan i Hk Hi. destruct (wf_members m Wm k chan i Hk Hi) as (c & Hc & ?).
    exists c. rewrite lookup_insert_ne; [done|congruence].
  - intros i c k Hc Hk. apply lookup_insert_Some in Hc as [[_ <-]|[? Hc]]; [set_solver|].
    by eapply (wf_joined m Wm).
  - intros i c Hc. apply lookup_insert_Some in Hc as [[_ <-]|[? Hc]].
    + split_and!; simpl; [done..|set_solver].
    + by eapply wf_client.
Qed.

(** [claim_nick] of a valid nick nobody else holds. *)
Lemma wf_claim_nick n id nick :
  wf n → is_Some (n_clients n !! id) → valid_nick nick = true → fold nick ∉ n_banned n →
  (∀ holder, n_nicks n !! fold nick = Some holder → holder = id) →
  wf (claim_nick id nick n).
Proof.
  intros W [c0 Hc0] Hv Hb Hfree. unfold claim_nick. rewrite Hc0. simpl.
  set (m := match c_nick c0 with Some p => set_nicks (delete (fold p)) n | None => n end).
  assert (Em : n_clients m = n_clients n ∧ n_channels m = n_channels n ∧ n_motd m = n_motd n
               ∧ n_banned m = n_banned n) by (unfold m; by destruct (c_nick c0)).
  destruct Em as (E1 & E2 & E3 & E4).
  assert (En : ∀ k i, n_nicks m !! k = Some i ↔ n_nicks n !! k = Some i ∧ i ≠ id).
  { intros k i. split.
    - intros H. assert (Hn : n_nicks n !! k = Some i).
      { unfold m in H. destruct (c_nick c0); [|done]. simpl in H. by apply lookup_delete_Some in H as [_ ?]. }
      split; [done|]. intros ->. apply (wf_nicks n W) in Hn as (c & x & Hc & Hx & <-).
      simplify_eq. unfold m in H. rewrite Hx in H. simpl in H. by rewrite lookup_delete_eq in H.
    - intros [H Hne]. unfold m. destruct (c_nick c0) as [p|] eqn:Hp; [|done]. simpl.
      rewrite lookup_delete_ne; [done|]. intros <-.
      assert (n_nicks n !! fold p = Some id) by (apply W; eauto). congruence. }
  clearbody m. split; simpl; rewrite ?E1, ?E2, ?E3, ?E4; try apply W.
  - intros k i. rewrite lookup_insert_Some, En, (wf_nicks n W). split.
    + intros [[<- <-]|[? [(c & x & Hc & Hx & <-) ?]]].
      * exists (client_set_nick nick c0), nick.
        by rewrite lookup_alter, decide_True, Hc0 by done.
      * exists c, x. by rewrite lookup_alter_ne by done.
    + intros (c & x & Hc & Hx & <-).
      apply lookup_alter_Some in Hc as [(-> & c' & ? & ->)|(? & Hc)]; simplify_eq/=; [auto|].
      right. split; [|split; [eauto|done]]. intros E.
      assert (n_nicks n !! fold nick = Some i) as Hh%Hfree by (rewrite E; apply W; eauto). done.
  - intros k chan i Hk Hi. destruct (wf_members n W k chan i Hk Hi) as (c & Hc & ?).
    rewrite lookup_alter. case_decide; subst; rewrite Hc; simpl; eauto.
  - intros i c k Hc Hk.
    apply lookup_alter_Some in Hc as [(-> & c' & ? & ->)|(? & Hc)]; by eapply (wf_joined n W).
  - intros i c Hc. apply lookup_alter_Some in Hc as [(-> & c' & ? & ->)|(? & Hc)].
    + destruct (wf_client n W i c') as (_ & Hr & Hch); [done|].
      split_and!; simpl; [by intros ? [= <-]| |done]. intros R. split; [eauto|by apply Hr].
    + by eapply wf_client.
  - intros k i [[<- <-]|[? [Hk ?]%En]]%lookup_insert_Some; [done|]. by eapply (wf_banned n W).
Qed.

(** The state part of [on_join]. *)
Definition joined (id : ClientId) (name : str) (n : Network) : Network :=
  set_clients (alter (client_set_channels (union {[fold name]})) id)
    (set_channels (insert (fold name) (join_channel id name (n_channels n !! fold name))) n).

Lemma join_channel_members id name old i :
  i ∈ ch_members (join_channel id name old) ↔
    i = id ∨ ∃ c, old = Some c ∧ i ∈ ch_members c.
Proof. destruct old; simpl; set_solver. Qed.

Lemma join_channel_ok id name old :
  valid_channel name = true → (∀ c, old = Some c → channel_ok (fold name) c) →
  channel_ok (fold name) (join_channel id name old).
Proof.
  intros Hv Hold. destruct old as [c|]; simpl.
  - destruct (Hold c eq_refl) as (?&?&?&?&?). split_and!; simpl; [done|done|set_solver..|done].
  - split_and!; simpl; [done|done|set_solver|set_solver|done].
Qed.

Lemma wf_joined_state n id name :
  wf n → is_registered n id = true → valid_channel name = true → wf (joined id name n).
Proof.
  intros W Hr Hv. unfold is_registered in Hr.
  destruct (n_clients n !! id) as [c0|] eqn:Hc0; [|done].
  unfold joined. set (key := fold name). split; simpl; try apply W.
  - intros k i. rewrite (wf_nicks n W). rewrite lookup_alter. case_decide as E; [subst i|done].
    rewrite Hc0. simpl. naive_solver.
  - intros k chan i Hk Hi. rewrite lookup_alter.
    apply lookup_insert_Some in Hk as [[<- <-]|[Hne Hk]].
    + apply join_channel_members in Hi as [->|(c & Hc & Hi)].
      * rewrite decide_True, Hc0 by done. eexists; split; [done|]. simpl. set_solver.
      * destruct (wf_members n W _ c i Hc Hi) as (ci & Hci & ?).
        case_decide; [subst i; rewrite Hc0; eexists; split; [done|]; simpl; set_solver|eauto].
    + destruct (wf_members n W k chan i Hk Hi) as (ci & Hci & ?).
      case_decide; [subst i; rewrite Hc0; eexists; split; [done|]; simplify_eq/=; set_solver|eauto].
  - intros i c k Hc Hk.
    destruct (decide (k = key)) as [->|Hne].
    + exists (join_channel id name (n_channels n !! key)).
      rewrite lookup_insert_eq, join_channel_members. split; [done|].
      apply lookup_alter_Some in Hc as [(<- & c' & ? & ->)|(? & Hc)]; [by left|].
      right. destruct (wf_joined n W i c key Hc Hk) as (chan & ? & ?). eauto.
    + rewrite lookup_insert_ne by done.
      apply lookup_alter_Some in Hc as [(<- & c' & ? & ->)|(? & Hc)].
      * eapply (wf_joined n W); [done|]. simpl in Hk. set_solver.
      * by eapply (wf_joined n W).
  - intros k chan Hk. apply lookup_insert_Some in Hk as [[<- <-]|[? Hk]].
    + apply join_channel_ok; [done|]. intros. by eapply wf_channel.
    + by eapply wf_channel.
  - intros i c Hc. apply lookup_alter_Some in Hc as [(<- & c' & ? & ->)|(? & Hc)].
    + destruct (wf_client n W id c') as (?&?&?); [done|]. simplify_eq. by split_and!.
    + by eapply wf_client.
Qed.

(** What a channel is after [id] has left it: gone when nobody is left. *)
Definition left_by (id : ClientId) (c : Channel) : option Channel :=
  if decide (ch_members (channel_remove id c) = ∅) then None else Some (channel_remove id c).

Lemma left_by_Some id c c' :
  left_by id c = Some c' → c' = channel_remove id c ∧ ch_members c ∖ {[id]} ≠ ∅.
Proof. unfold left_by. case_decide; naive_solver. Qed.

Lemma left_by_other id c i :
  i ≠ id → i ∈ ch_members c → left_by id c = Some (channel_remove id c).
Proof. unfold left_by. intros. case_decide as E; [|done]. simpl in E. set_solver. Qed.

Lemma channel_remove_ok id k c : channel_ok k c → ch_members c ∖ {[id]} ≠ ∅ →
  channel_ok k (channel_remove id c).
Proof. intros (?&?&?&?&?) ?. split_and!; simpl; [done|done|set_solver..|done]. Qed.

Lemma channel_remove_absent id k c : channel_ok k c → id ∉ ch_members c → channel_remove id c = c.
Proof.
  intros (?&?&?&?&?) ?. destruct c as [nm t ms ops]. unfold channel_remove. simpl in *.
  f_equal; set_solver.
Qed.

Lemma leave_channels n key id k :
  n_channels (leave key id n) !! k =
    if decide (k = key) then n_channels n !! k ≫= left_by id else n_channels n !! k.
Proof.
  unfold leave, left_by. case_decide as E; [subst k|].
  - destruct (n_channels n !! key) as [c|] eqn:Hc; simpl; [|done].
    case_decide; simpl; [by rewrite lookup_delete_eq|by rewrite lookup_insert_eq].
  - destruct (n_channels n !! key) as [c|] eqn:Hc; simpl; [|done].
    case_decide; simpl; [by rewrite lookup_delete_ne|by rewrite lookup_insert_ne].
Qed.

Lemma leave_clients n key id :
  n_clients (leave key id n) = alter (client_set_channels (λ s, s ∖ {[key]})) id (n_clients n).
Proof. unfold leave. repeat case_match; done. Qed.

Lemma leave_others n key id :
  n_nicks (leave key id n) = n_nicks n ∧ n_motd (leave key id n) = n_motd n
  ∧ n_banned (leave key id n) = n_banned n.
Proof. unfold leave. repeat case_match; done. Qed.

Lemma wf_leave n key id : wf n → wf (leave key id n).
Proof.
  intros W. destruct (leave_others n key id) as (E1 & E2 & E3).
  split; rewrite ?leave_clients, ?E1, ?E2, ?E3; try apply W.
  - intros k i. rewrite (wf_nicks n W), lookup_alter. case_decide as E; [subst i|done].
    destruct (n_clients n !! id); simpl; naive_solver.
  - intros k chan i. rewrite leave_channels. intros Hk Hi.
    assert (Hne : k = key → i ≠ id ∧ ∃ c, n_channels n !! k = Some c ∧ i ∈ ch_members c).
    { intros ->. rewrite decide_True in Hk by done.
      apply bind_Some in Hk as (c & Hc & [-> ?]%left_by_Some). simpl in Hi. set_solver. }
    assert (Hold : ∃ c, n_channels n !! k = Some c ∧ i ∈ ch_members c).
    { case_decide; [naive_solver|eauto]. }
    destruct Hold as (c & Hc & Hin). clear Hk. destruct (wf_members n W k c i Hc Hin) as (ci & Hci & ?).
    rewrite lookup_alter. case_decide as E; [subst i|eauto]. rewrite Hci. simpl.
    eexists; split; [done|]. simpl. set_solver.
  - intros i c k Hc Hk. rewrite leave_channels.
    apply lookup_alter_Some in Hc as [(<- & c' & Hc & ->)|(Hne & Hc)]; simpl in Hk.
    + destruct (wf_joined n W id c' k Hc) as (chan & ? & ?); [set_solver|].
      exists chan. by rewrite decide_False by set_solver.
    + destruct (wf_joined n W i c k Hc Hk) as (chan & Hchan & Hi).
      case_decide; [|eauto]. exists (channel_remove id chan). rewrite Hchan. simpl.
      split; [by eapply left_by_other|set_solver].
  - intros k chan. rewrite leave_channels. case_decide; [|by apply wf_channel].
    intros (c & Hc & [-> ?]%left_by_Some)%bind_Some.
    apply channel_remove_ok; [by eapply wf_channel|done].
  - intros i c Hc. apply lookup_alter_Some in Hc as [(<- & c' & Hc & ->)|(Hne & Hc)].
    + destruct (wf_client n W id c') as (?&?&?); [done|].
      split_and!; simpl; [done..|]. intros; set_solver.
    + by eapply wf_client.
Qed.

Lemma wf_set_motd n lines : wf n → lines ≠ [] → wf (set_motd lines n).
Proof. intros [] ?. by split. Qed.

Lemma wf_unban n k : wf n → wf (set_banned (λ s, s ∖ {[k]}) n).
Proof. intros W. split; simpl; try apply W. intros k' i Hk. pose proof (wf_banned n W k' i Hk). set_solver. Qed.
End updates.

(** * Disconnection *)

Section disconnect.
Context (now : N).
Implicit Types (n : Network) (id : ClientId) (k : str).

(** The loop over the departing client's channels touches only those. *)
Definition frame n := (n_clients n, n_nicks n, n_motd n, n_banned n).

Lemma frame_core n n' : core n = core n' → frame n = frame n'.
Proof. intros (E1 & E2 & E3 & E4 & E5)%core_eq. unfold frame. congruence. Qed.

Lemma disconnect_channel_frame id quit acc name :
  frame (disconnect_channel id quit acc name).1 = frame acc.1.
Proof.
  destruct acc as [n told]. simpl. case_match; [|done].
  by rewrite (frame_core _ _ (core_tell_members _ _ _)).
Qed.

Lemma disconnect_channel_lookup id quit acc name k :
  n_channels (disconnect_channel id quit acc name).1 !! k =
    if decide (k = name) then channel_remove id <$> n_channels acc.1 !! k
    else n_channels acc.1 !! k.
Proof.
  destruct acc as [n told]. simpl. destruct (n_channels n !! name) as [c|] eqn:Hc.
  - rewrite (core_channels _ _ (core_tell_members _ _ _)). simpl.
    case_decide; subst; [by rewrite lookup_insert_eq, Hc|by rewrite lookup_insert_ne].
  - simpl. case_decide; subst; [by rewrite Hc|done].
Qed.

Lemma disconnect_channels_lookup id quit acc l k :
  n_channels (foldl (disconnect_channel id quit) acc l).1 !! k =
    if decide (k ∈ l) then channel_remove id <$> n_channels acc.1 !! k
    else n_channels acc.1 !! k.
Proof.
  revert acc. induction l as [|x l IH]; intros acc; cbn [foldl].
  { by rewrite decide_False by set_solver. }
  rewrite IH, disconnect_channel_lookup.
  destruct (decide (k = x)) as [->|Hne].
  - rewrite (decide_True (P := x ∈ x :: l)) by set_solver.
    case_decide; [|done]. destruct (n_channels acc.1 !! x) as [c|]; [|done]. simpl.
    f_equal. unfold channel_remove. simpl. f_equal; set_solver.
  - destruct (decide (k ∈ l)).
    + by rewrite (decide_True (P := k ∈ x :: l)) by set_solver.
    + by rewrite (decide_False (P := k ∈ x :: l)) by set_solver.
Qed.

(** Everything [disconnect] does to the state. *)
Lemma disconnect_state n id c reason :
  wf n → n_clients n !! id = Some c →
  n_clients (disconnect now id reason n) = delete id (n_clients n)
  ∧ n_nicks (disconnect now id reason n) =
      match c_nick c with Some x => delete (fold x) (n_nicks n) | None => n_nicks n end
  ∧ (∀ k, n_channels (disconnect now id reason n) !! k = n_channels n !! k ≫= left_by id)
  ∧ n_motd (disconnect now id reason n) = n_motd n
  ∧ n_banned (disconnect now id reason n) = n_banned n.
Proof.
  intros W Hc. unfold disconnect. rewrite Hc. cbn zeta.
  set (n1 := match c_nick c with Some nick => set_nicks (delete (fold nick)) (set_clients (delete id) n)
             | None => set_clients (delete id) n end).
  set (n2 := match c_nick c with
    | Some nick => if c_registered c then emit now _ n1 else _
    | None => emit now _ n1 end).
  assert (E21 : core n2 = core n1).
  { unfold n2. repeat case_match; by autorewrite with core. }
  set (loop := foldl _ _ _).
  assert (F : frame loop.1 = frame n1).
  { unfold loop. rewrite (foldl_proj (λ a, frame a.1)) by apply disconnect_channel_frame.
    by apply frame_core. }
  assert (L : ∀ k, n_channels loop.1 !! k =
     if decide (k ∈ c_channels c) then channel_remove id <$> n_channels n !! k
     else n_channels n !! k).
  { intros k. unfold loop. rewrite disconnect_channels_lookup. simpl.
    rewrite (core_channels n2 n1 E21).
    assert (n_channels n1 = n_channels n) as -> by (unfold n1; by destruct (c_nick c)).
    apply decide_ext, elem_of_elements. }
  clearbody loop. unfold frame in F. injection F as F1 F2 F3 F4.
  simpl. rewrite F1, F2, F3, F4. unfold n1.
  split_and!; try by destruct (c_nick c).
  intros k. unfold left_by.
  destruct (n_channels n !! k) as [chan|] eqn:Hk.
  2:{ apply map_lookup_filter_None. left. rewrite L, Hk. by case_decide. }
  assert (channel_remove id chan =
    if decide (k ∈ c_channels c) then channel_remove id chan else chan) as E.
  { case_decide as Hin; [done|]. eapply channel_remove_absent; [by eapply wf_channel|].
    intros Hid. destruct (wf_members n W k chan id Hk Hid) as (c' & ? & ?). by simplify_eq. }
  assert (L' : n_channels loop.1 !! k = Some (channel_remove id chan)).
  { rewrite L, E, Hk. by case_decide. }
  clear E L. simpl. case_decide as Hem.
  - apply map_lookup_filter_None. right. intros x Hx. rewrite L' in Hx. simplify_eq/=.
    intros Hn. by apply Hn.
  - apply map_lookup_filter_Some. by rewrite L'.
Qed.

Lemma wf_disconnect n id reason : wf n → wf (disconnect now id reason n).
Proof.
  intros W. destruct (n_clients n !! id) as [c0|] eqn:Hc0.
  2:{ unfold disconnect. by rewrite Hc0. }
  destruct (disconnect_state n id c0 reason W Hc0) as (E1 & E2 & E3 & E4 & E5).
  assert (N : ∀ k i, n_nicks (disconnect now id reason n) !! k = Some i ↔
                     n_nicks n !! k = Some i ∧ i ≠ id).
  { intros k i. rewrite E2. split.
    - intros H. assert (Hn : n_nicks n !! k = Some i).
      { destruct (c_nick c0); [by apply lookup_delete_Some in H as [_ ?]|done]. }
      split; [done|]. intros ->. apply (wf_nicks n W) in Hn as (c & x & Hc & Hx & <-).
      simplify_eq. rewrite Hx in H. by rewrite lookup_delete_eq in H.
    - intros [H Hne]. destruct (c_nick c0) as [p|] eqn:Hp; [|done].
      rewrite lookup_delete_ne; [done|]. intros <-.
      assert (n_nicks n !! fold p = Some id) by (apply W; eauto). congruence. }
  split; rewrite ?E4, ?E5; try apply W.
  - intros k i. rewrite N, (wf_nicks n W), E1. split.
    + intros [(c & x & ? & ?) ?]. exists c, x. by rewrite lookup_delete_ne.
    + intros (c & x & [? ?]%lookup_delete_Some & ?). eauto 10.
  - intros k chan i. rewrite E3, E1. intros (c & Hc & [-> ?]%left_by_Some)%bind_Some Hi.
    simpl in Hi. destruct (wf_members n W k c i Hc) as (ci & ? & ?); [set_solver|].
    exists ci. by rewrite lookup_delete_ne by set_solver.
  - intros i c k. rewrite E1, E3. intros [? Hc]%lookup_delete_Some Hk.
    destruct (wf_joined n W i c k Hc Hk) as (chan & -> & ?).
    exists (channel_remove id chan). split; [by eapply left_by_other|set_solver].
  - intros k chan. rewrite E3. intros (c & Hc & [-> ?]%left_by_Some)%bind_Some.
    apply channel_remove_ok; [by eapply wf_channel|done].
  - intros i c. rewrite E1. intros [_ Hc]%lookup_delete_Some. by eapply wf_client.
  - intros k i [Hk _]%N. by eapply (wf_banned n W).
Qed.

Lemma wf_close n id reason : wf n → wf (close now id reason n).
Proof.
  intros W. unfold close. apply wf_disconnect, wf_alter_client; [by wf_reply|].
  intros c. rewrite (core_clients _ n) by (by autorewrite with core). intros Hc.
  destruct (wf_client n W id c Hc) as (?&?&?). by split_and!.
Qed.

(** Banning a name and disconnecting whoever wears it. *)
Lemma wf_ban n k : wf n → (∀ id, n_nicks n !! k = Some id → False) →
  wf (set_banned (union {[k]}) n).
Proof.
  intros W Hfree. split; simpl; try apply W. intros k' i Hk.
  pose proof (wf_banned n W k' i Hk).
  assert (k' ≠ k) by (intros ->; by eapply Hfree). set_solver.
Qed.

(** The ban list plays no part in a disconnection, so a ban may be recorded
    before or after one. *)
Lemma send_set_banned id m f n : send id m (set_banned f n) = set_banned f (send id m n).
Proof. unfold send. simpl. by case_match. Qed.

Lemma tell_members_set_banned m f l n told :
  foldl (tell_member m) (set_banned f n, told) l =
    (set_banned f (foldl (tell_member m) (n, told) l).1, (foldl (tell_member m) (n, told) l).2).
Proof.
  revert n told. induction l as [|i l IH]; intros n told; [done|]. cbn [foldl].
  unfold tell_member at 2 4 6. case_decide; [apply IH|]. rewrite send_set_banned. apply IH.
Qed.

Lemma disconnect_channels_set_banned id m f l n told :
  foldl (disconnect_channel id m) (set_banned f n, told) l =
    (set_banned f (foldl (disconnect_channel id m) (n, told) l).1,
     (foldl (disconnect_channel id m) (n, told) l).2).
Proof.
  revert n told. induction l as [|k l IH]; intros n told; [done|]. cbn [foldl].
  unfold disconnect_channel at 2 4 6. simpl. destruct (n_channels n !! k) as [c|]; [|apply IH].
  change (set_channels ?g (set_banned f n)) with (set_banned f (set_channels g n)).
  rewrite tell_members_set_banned.
  destruct (foldl (tell_member m) _ _) as [n' told']. apply IH.
Qed.

Lemma disconnect_set_banned id reason f n :
  disconnect now id reason (set_banned f n) = set_banned f (disconnect now id reason n).
Proof.
  unfold disconnect. simpl. destruct (n_clients n !! id) as [c|]; [|done].
  assert (E : ∀ ev m, emit now ev (set_banned f m) = set_banned f (emit now ev m)).
  { intros ev m. unfold emit. simpl. by case_match. }
  destruct (c_nick c) as [x|]; [destruct (c_registered c)|];
    repeat change (set_clients ?g (set_banned f ?m)) with (set_banned f (set_clients g m));
    repeat change (set_nicks ?g (set_banned f ?m)) with (set_banned f (set_nicks g m));
    by rewrite E, disconnect_channels_set_banned.
Qed.

Lemma close_set_banned id reason f n :
  close now id reason (set_banned f n) = set_banned f (close now id reason n).
Proof.
  unfold close. rewrite send_set_banned.
  change (set_clients ?g (set_banned f ?m)) with (set_banned f (set_clients g m)).
  apply disconnect_set_banned.
Qed.

(** A closed connection leaves its nick free. *)
Lemma close_frees_nick n id k reason : wf n → n_nicks n !! k = Some id →
  n_nicks (close now id reason n) !! k = None.
Proof.
  intros W Hk. apply (wf_nicks n W) in Hk as (c & x & Hc & Hx & <-).
  unfold close. set (m := set_clients _ _).
  assert (Wm : wf m).
  { unfold m. apply wf_alter_client; [by wf_reply|].
    intros c'. rewrite (core_clients _ n) by (by autorewrite with core). intros Hc'.
    destruct (wf_client n W id c' Hc') as (?&?&?). by split_and!. }
  assert (Hm : n_clients m !! id = Some (client_set_quit_reason (truncate reason TOPIC_LEN) c)).
  { unfold m. simpl. rewrite (core_clients _ n) by (by autorewrite with core).
    by rewrite lookup_alter, decide_True, Hc. }
  destruct (disconnect_state m id _ (truncate reason TOPIC_LEN) Wm Hm) as (_ & -> & _).
  simpl. rewrite Hx. apply lookup_delete_eq.
Qed.
End disconnect.

(** * Properties stable under the primitive updates hold of every handler.

    Every handler of the server is built from a dozen primitive updates: queue a
    message, report an event, change a client in place, drop one, rewrite the
    nick index, the channels, the ban list, the greeting or a counter.  A
    predicate with an instance of [Stable] is preserved by each of these, and
    this file shows that it is then preserved by [handle], [disconnect], [ping]
    and [run_admin] - whatever the message or the command. *)

(** What [on_message] promises of the events it reports: a body only for a
    channel. *)
Definition no_private_text (k : Admin.EventKind) : Prop :=
  match k with
  | Admin.Message _ target (Some _) _ => is_channel target = true
  | _ => True
  end.

Class Stable (now : N) (P : Network → Prop) : Prop := {
  st_push_sent x n : P n → P (push_sent x n);
  st_emit k n : no_private_text k → P n → P (emit now k n);
  st_alter_client f i n : P n → P (set_clients (alter f i) n);
  st_delete_client i n : P n → P (set_clients (delete i) n);
  st_nicks f n : P n → P (set_nicks f n);
  st_channels f n : P n → P (set_channels f n);
  st_banned f n : P n → P (set_banned f n);
  st_motd l n : P n → P (set_motd l n);
  st_messages t n : P n → P (set_messages_total t n);
}.

Section stable.
Context (now : N) (render : Command → str) (P : Network → Prop) `{!Stable now P}.
Implicit Types (n : Network) (id : ClientId).

Lemma st_send id m n : P n → P (send id m n).
Proof. intros. unfold send. case_match; [by apply (st_push_sent (now := now))|done]. Qed.
#[local] Hint Resolve st_send : ddirc.
Lemma st_numeric_args id r args n : P n → P (numeric_args id r args n).
Proof. apply st_send. Qed.
Lemma st_numeric id r args n : P n → P (numeric id r args n).
Proof. apply st_send. Qed.
Lemma st_raw id c args n : P n → P (raw id c args n).
Proof. apply st_send. Qed.
Lemma st_broadcast key m ex n : P n → P (broadcast key m ex n).
Proof.
  intros. unfold broadcast. case_match; [|done]. apply foldl_ind; [done|].
  intros. case_decide; [done|by apply st_send].
Qed.
Lemma st_tell_members m acc l : P acc.1 → P (foldl (tell_member m) acc l).1.
Proof.
  intros. apply (foldl_ind (λ a, P a.1)); [done|]. intros [n told] i _ HP. simpl in *.
  case_decide; [done|by apply st_send].
Qed.
Lemma st_tell_peers id m self n : P n → P (tell_peers id m self n).
Proof.
  intros. unfold tell_peers. case_match; [|done]. apply (foldl_ind (λ a, P a.1)).
  - destruct self; [by apply st_send|done].
  - intros [n' told] k _ HP. simpl in *. case_match; [by apply st_tell_members|done].
Qed.
Lemma st_claim_nick id nick n : P n → P (claim_nick id nick n).
Proof.
  intros. unfold claim_nick. apply (st_alter_client (now := now)), (st_nicks (now := now)).
  case_match; [by apply (st_nicks (now := now))|done].
Qed.
Lemma st_disconnect id reason n : P n → P (disconnect now id reason n).
Proof.
  intros. unfold disconnect. case_match; [|done]. apply (st_channels (now := now)).
  apply (foldl_ind (λ a, P a.1)).
  - assert (P (set_clients (delete id) n)) by (by apply (st_delete_client (now := now))).
    repeat case_match; apply st_emit; try done; try by apply (st_nicks (now := now)).
  - intros [n' told] k _ HP. simpl in *. case_match; [|done].
    by apply st_tell_members, (st_channels (now := now)).
Qed.
Lemma st_close id reason n : P n → P (close now id reason n).
Proof.
  intros. unfold close. by apply st_disconnect, (st_alter_client (now := now)), st_send.
Qed.
Lemma st_leave key id n : P n → P (leave key id n).
Proof.
  intros. unfold leave. apply (st_alter_client (now := now)). repeat case_match; try done;
  by apply (st_channels (now := now)).
Qed.
Lemma st_foldl {A} (f : Network → A → Network) l n :
  P n → (∀ n x, P n → P (f n x)) → P (foldl f n l).
Proof. intros. apply foldl_ind; auto. Qed.
Lemma st_update_channels f n : P n → P (set_channels f n).
Proof. apply (st_channels (now := now)). Qed.
Lemma st_update_client f i n : P n → P (set_clients (alter f i) n).
Proof. apply (st_alter_client (now := now)). Qed.
Lemma st_count t n : P n → P (set_messages_total t n).
Proof. apply (st_messages (now := now)). Qed.
Lemma st_report k n : no_private_text k → P n → P (emit now k n).
Proof. apply st_emit. Qed.
#[local] Hint Resolve st_report st_numeric_args st_numeric st_raw st_broadcast st_tell_peers
  st_claim_nick st_close st_leave st_foldl st_update_channels st_update_client st_count : ddirc.
#[local] Hint Extern 1 (no_private_text _) => by simpl : ddirc.

Ltac stable := intros; repeat case_match; simpl; auto 12 with ddirc.

Lemma st_send_motd id n : P n → P (send_motd id n).
Proof. unfold send_motd. stable. Qed.
#[local] Hint Resolve st_send_motd : ddirc.
Lemma st_try_register id n : P n → P (try_register now id n).
Proof. unfold try_register, send_welcome. stable. Qed.
#[local] Hint Resolve st_try_register : ddirc.
Lemma st_on_cap id sub arg n : P n → P (on_cap now id sub arg n).
Proof. unfold on_cap. stable. Qed.
Lemma st_on_nick id nick n : P n → P (on_nick now id nick n).
Proof. unfold on_nick. stable. Qed.
Lemma st_on_user id u r n : P n → P (on_user now id u r n).
Proof. unfold on_user. stable. Qed.
Lemma st_send_topic id k e n : P n → P (send_topic id k e n).
Proof. unfold send_topic. stable. Qed.
Lemma st_send_names id name n : P n → P (send_names id name n).
Proof. unfold send_names. stable. Qed.
#[local] Hint Resolve st_on_cap st_on_nick st_on_user st_send_topic st_send_names : ddirc.
Lemma st_on_join id name n : P n → P (on_join now id name n).
Proof. unfold on_join. stable. Qed.
Lemma st_on_part id name r n : P n → P (on_part now id name r n).
Proof. unfold on_part. stable. Qed.
Lemma st_on_topic id name t n : P n → P (on_topic now id name t n).
Proof. unfold on_topic. stable. Qed.
Lemma st_on_message id target text notice n : P n → P (on_message now id target text notice n).
Proof. unfold on_message. stable. Qed.
Lemma st_kick_member key v b r n : P n → P (kick_member now key v b r n).
Proof. unfold kick_member. stable. Qed.
#[local] Hint Resolve st_on_join st_on_part st_on_topic st_on_message st_kick_member : ddirc.
Lemma st_on_kick id name nick r n : P n → P (on_kick now id name nick r n).
Proof. unfold on_kick. stable. Qed.
Lemma st_kick_each id cs i ns r n : P n → P (kick_each now id cs i ns r n).
Proof.
  revert n i. induction ns as [|x ns IH]; intros n i H; simpl; [done|].
  case_match; [|done]. by apply IH, st_on_kick.
Qed.
Lemma st_on_list id only n : P n → P (on_list id only n).
Proof. intros. unfold on_list, list_row. apply st_numeric, st_foldl; stable. Qed.
Lemma st_on_whois id nick n : P n → P (on_whois id nick n).
Proof. unfold on_whois. stable. Qed.
#[local] Hint Resolve st_kick_each st_on_list st_on_whois : ddirc.
Lemma st_ping id n : P n → P (ping id n).
Proof. unfold ping. stable. Qed.

Lemma st_registered_command id c n : P n → P (registered_command now render id c n).
Proof. unfold registered_command. destruct c; stable. Qed.

(** [handle] preserves every stable property, for every message. *)
Lemma st_handle id m n : P n → P (handle now render id m n).
Proof.
  intros H. unfold handle. case_match; [|done].
  assert (R : ∀ c, P (if negb (is_registered n id)
                      then numeric id ERR_NOTREGISTERED [lit "You have not registered"] n
                      else registered_command now render id c n)).
  { intros cmd. case_match; [by apply st_numeric|by apply st_registered_command]. }
  destruct (command m); try apply R; unfold on_ping; stable.
Qed.

Lemma st_set_op channel nick give n : P n → P (set_op now channel nick give n).1.
Proof.
  intros H. unfold set_op. destruct (member n channel nick) as [[key id]|]; [|done].
  destruct (n_channels n !! key); [destruct give|]; stable.
Qed.

(** [run_admin] preserves every stable property, for every command. *)
Lemma st_run_admin command n : P n → P (run_admin now command n).1.
Proof.
  intros H. unfold run_admin.
  assert (E : P (execute now command n).1).
  { destruct command; simpl; try (stable; fail); try by apply st_set_op.
    - repeat case_match; simpl; try done; [apply st_close|]; by apply (st_banned (now := now)).
    - case_match; [|done]. by apply (st_banned (now := now)).
    - case_match; by apply (st_motd (now := now)). }
  destruct (execute now command n) as [n' outcome]. destruct outcome; simpl in *; by apply st_emit.
Qed.
End stable.
