(* ===== verification/NetworkSteps.v ===== *)
(** The running server: every event its state task handles.

    [ddirc-server/src/lib.rs] runs one task that owns the [Network] and applies
    one event at a time; an accept loop hands out connection ids in order.
    [step] is that loop as a relation, and [reachable_wf] the invariant of every
    state it can reach. *)
From S2P Require Import Prelude RustStr Proto Admin Network NetworkAdmin NetworkCore NetworkInv.
Import Proto.

(** What reaches the state task: [session::Event] and [admin::Request]. *)
Inductive Event :=
  | Connected (id : ClientId)
  | Line (id : ClientId) (message : Message)
  | Disconnected (id : ClientId) (reason : str)
  | Quiet (id : ClientId)
  | AdminRequest (command : Admin.AdminCommand).

(** One turn of the state task's loop. *)
Definition dispatch (now : N) (render : Command → str) (e : Event) (n : Network) : Network :=
  match e with
  | Connected id => connect now id n
  | Line id message => handle now render id message n
  | Disconnected id reason => disconnect now id reason n
  | Quiet id => ping id n
  | AdminRequest command => (run_admin now command n).1
  end.

(** The accept loop's counter, the ids it has handed to sessions that have not
    announced themselves yet, and the network. *)
Record Server := mkServer { s_next : N; s_pending : gset ClientId; s_net : Network }.

Inductive step (render : Command → str) : Server → Server → Prop :=
  | step_accept next pending n :
      (next + 1 < 2 ^ 64)%N →
      step render (mkServer next pending n) (mkServer (next + 1) ({[next]} ∪ pending) n)
  | step_connected now id next pending n :
      id ∈ pending →
      step render (mkServer next pending n)
        (mkServer next (pending ∖ {[id]}) (dispatch now render (Connected id) n))
  | step_event now e next pending n :
      (∀ id, e ≠ Connected id) →
      step render (mkServer next pending n) (mkServer next pending (dispatch now render e n)).

Definition initial (pkg_version : str) (now : N) (server_name network_name : str) : Server :=
  mkServer 1 ∅ (observe (new pkg_version now server_name network_name)).

(** * Registration and names *)

Section handlers.
Context (now : N) (render : Command → str).
Implicit Types (n : Network) (id : ClientId).

Lemma wf_try_register n id : wf n → wf (try_register now id n).
Proof.
  intros W. unfold try_register. case_match eqn:E; [done|]. apply negb_false_iff in E.
  wf_reply. apply wf_alter_client; [done|]. intros c Hc. rewrite Hc in E.
  unfold ready in E. bool_simp. destruct (wf_client n W id c Hc) as (?&?&?). by split_and!.
Qed.

Lemma wf_on_cap n id sub arg : wf n → wf (on_cap now id sub arg n).
Proof.
  intros W. unfold on_cap.
  assert (A : ∀ b, wf (set_clients (alter (client_set_negotiating b) id) n)).
  { intros b. apply wf_alter_client; [done|]. intros c Hc.
    destruct (wf_client n W id c Hc) as (?&?&?). by split_and!. }
  destruct sub; [wf_reply; apply A..|by wf_reply|done|done|apply wf_try_register, A|done].
Qed.

Lemma wf_on_user n id user real : wf n → wf (on_user now id user real n).
Proof.
  intros W. unfold on_user. case_match; [by wf_reply|].
  apply wf_try_register, wf_alter_client; [done|]. intros c Hc.
  destruct (wf_client n W id c Hc) as (?&Hr&?). split; [done|split; [done|]].
  split; [done|split; [|done]]. simpl. intros R. split; [by apply Hr|eauto].
Qed.

Lemma wf_on_nick n id nick : wf n → is_Some (n_clients n !! id) → wf (on_nick now id nick n).
Proof.
  intros W Hid. unfold on_nick. cbv zeta. set (x := trim nick). clearbody x.
  destruct (is_empty x); [by wf_reply|].
  destruct (valid_nick x) eqn:Hv; simpl; [|by wf_reply].
  case_decide as Hb; [by wf_reply|].
  assert (C : (∀ holder, n_nicks n !! fold x = Some holder → holder = id) →
              wf (claim_nick id x n)) by (by apply wf_claim_nick).
  destruct (n_nicks n !! fold x) as [holder|] eqn:Hk; simpl.
  - case_bool_decide as Hne; [by wf_reply|]. subst holder.
    specialize (C ltac:(by intros ? [=])).
    repeat case_match; [by wf_reply|done|done|by apply wf_try_register].
  - specialize (C ltac:(done)).
    repeat case_match; [by wf_reply|done|done|by apply wf_try_register].
Qed.

(** * Channels *)

Lemma wf_on_join n id name : wf n → is_registered n id = true → wf (on_join now id name n).
Proof.
  intros W Hr. unfold on_join. case_match eqn:E; [by wf_reply|]. apply negb_false_iff in E.
  case_match; [done|]. wf_reply. by apply wf_joined_state.
Qed.

Lemma on_join_registered n id name i :
  is_registered (on_join now id name n) i = is_registered n i.
Proof.
  unfold on_join. repeat case_match; try done;
    (etrans; [eapply core_is_registered; by autorewrite with core|]); [done|].
  unfold is_registered. simpl. rewrite lookup_alter. case_decide; subst; [|done].
  by destruct (n_clients n !! i).
Qed.

Lemma wf_on_part n id name reason : wf n → wf (on_part now id name reason n).
Proof. intros W. unfold on_part. case_match; [by wf_reply|]. apply wf_leave. by wf_reply. Qed.

Lemma wf_set_topic n key new_topic :
  wf n → topic_ok new_topic → wf (set_channels (alter (channel_set_topic new_topic) key) n).
Proof.
  intros W Ht. apply wf_alter_channel; [done|]. intros c Hc.
  destruct (wf_channel n W key c Hc) as (?&?&?&?&?). by split_and!.
Qed.

Lemma new_topic_ok text by_ :
  topic_ok (if is_empty (truncate text TOPIC_LEN) then None
            else Some (mkTopic (truncate text TOPIC_LEN) by_ now)).
Proof.
  case_match eqn:E; [done|]. apply is_empty_false in E. split; [done|]. apply truncate_len.
Qed.

Lemma wf_on_topic n id name topic : wf n → wf (on_topic now id name topic n).
Proof.
  intros W. unfold on_topic. case_match; [|by wf_reply].
  destruct topic; [|by wf_reply]. case_match; [by wf_reply|].
  wf_reply. apply wf_set_topic; [done|apply new_topic_ok].
Qed.

Lemma wf_kick_member n key victim by_ reason : wf n → wf (kick_member now key victim by_ reason n).
Proof. intros W. unfold kick_member. case_match; [|done]. apply wf_leave. by wf_reply. Qed.

Lemma wf_on_kick n id name nick reason : wf n → wf (on_kick now id name nick reason n).
Proof.
  intros W. unfold on_kick. repeat case_match; try by wf_reply. by apply wf_kick_member.
Qed.

Lemma wf_kick_each n id channels i nicks reason :
  wf n → wf (kick_each now id channels i nicks reason n).
Proof.
  revert n i. induction nicks as [|x nicks IH]; intros n i W; simpl; [done|].
  case_match; [|done]. by apply IH, wf_on_kick.
Qed.

Lemma wf_registered_command n id c :
  wf n → is_registered n id = true → wf (registered_command now render id c n).
Proof.
  intros W Hr. unfold registered_command.
  destruct c; try done; try by wf_reply.
  - apply (foldl_ind (λ n, wf n ∧ is_registered n id = true)); [done|].
    intros n' t _ [W' Hr']. split; [by apply wf_on_join|by rewrite on_join_registered].
  - apply foldl_ind; [done|]. intros. by apply wf_on_part.
  - by apply wf_on_topic.
  - by apply wf_kick_each.
  - destruct channels; [|by wf_reply]. apply foldl_ind; [done|]. intros. by wf_reply.
  - apply foldl_ind; [done|]. intros. by wf_reply.
  - destruct modes; [by wf_reply|done].
Qed.

Lemma wf_handle n id m : wf n → wf (handle now render id m n).
Proof.
  intros W. unfold handle. destruct (n_clients n !! id) eqn:Hid; [|done].
  assert (R : ∀ c, wf (if negb (is_registered n id)
                       then numeric id ERR_NOTREGISTERED [lit "You have not registered"] n
                       else registered_command now render id c n)).
  { intros cmd. case_match eqn:E; [by wf_reply|]. apply negb_false_iff in E.
    by apply wf_registered_command. }
  destruct (command m); try apply R; try done; try by wf_reply.
  - by apply wf_on_cap.
  - apply wf_on_nick; [done|eauto].
  - by apply wf_on_user.
  - by apply wf_close.
Qed.

(** * The operator *)

Lemma wf_set_op n channel nick give : wf n → wf (set_op now channel nick give n).1.
Proof.
  intros W. unfold set_op. destruct (member n channel nick) as [[key id]|] eqn:Hm; [|done].
  assert (Hmem : is_member n key id = true).
  { unfold member in Hm. unfold rbind in Hm. repeat case_match; by simplify_eq. }
  unfold is_member in Hmem. destruct (n_channels n !! key) as [c|] eqn:Hc; [|done].
  apply bool_decide_eq_true in Hmem.
  assert (A : ∀ f : gset ClientId → gset ClientId, f (ch_operators c) ⊆ ch_members c →
    wf (set_channels (alter (channel_set_operators f) key) n)).
  { intros f Hf. apply wf_alter_channel; [done|]. intros c' Hc'. rewrite Hc in Hc'. injection Hc' as <-.
    destruct (wf_channel n W key c Hc) as (?&?&?&?&?). by split_and!. }
  destruct (wf_channel n W key c Hc) as (_&_&_&?&_).
  destruct give; case_match; simpl; try wf_reply; apply A; set_solver.
Qed.

Lemma wf_execute n command : wf n → wf (execute now command n).1.
Proof.
  intros W. destruct command; simpl.
  - case_match; [|done]. case_match. by apply wf_kick_member.
  - case_match; [|done]. by apply wf_close.
  - repeat (case_match; [done|]). simpl. case_match eqn:Hk; simpl.
    + rewrite close_set_banned. apply wf_ban; [by apply wf_close|].
      intros i. rewrite (close_frees_nick now n _ _ _ W Hk). done.
    + apply wf_ban; [done|]. congruence.
  - case_match; [|done]. by apply wf_unban.
  - case_match; [|done]. simpl. wf_reply. apply wf_set_topic; [done|apply new_topic_ok].
  - case_match; [|done]. simpl. apply foldl_ind; [done|]. intros. by apply wf_kick_member.
  - by apply wf_set_op.
  - by apply wf_set_op.
  - repeat case_match; try done; simpl; by wf_reply.
  - case_match; [done|]. simpl. apply foldl_ind; [done|]. intros. by wf_reply.
  - case_match eqn:E; simpl; apply wf_set_motd; try done. by apply is_empty_false.
Qed.

Lemma wf_run_admin n command : wf n → wf (run_admin now command n).1.
Proof.
  intros W. unfold run_admin. pose proof (wf_execute n command W) as We.
  destruct (execute now command n) as [n' outcome]. destruct outcome; simpl in *; by wf_reply.
Qed.
End handlers.

(** * No event but a connection adds a client *)

Definition no_new (n m : Network) : Prop :=
  ∀ i, n_clients n !! i = None → n_clients m !! i = None.

#[export] Instance no_new_stable now n : Stable now (no_new n).
Proof.
  split; try done.
  - intros k m _ H i Hi. rewrite (core_clients _ m (core_emit now k m)). by apply H.
  - intros f i m H j Hj. simpl. rewrite lookup_alter. case_decide; subst; by rewrite H.
  - intros i m H j Hj. simpl. apply lookup_delete_None. auto.
Qed.

(** * Every reachable state *)

(** Ids are handed out once: an id waiting to connect names no client, and both
    are below the counter. *)
Definition server_ok (s : Server) : Prop :=
  wf (s_net s)
  ∧ (∀ id, id ∈ s_pending s → (id < s_next s)%N ∧ n_clients (s_net s) !! id = None)
  ∧ (∀ id, is_Some (n_clients (s_net s) !! id) → (id < s_next s)%N).

Lemma wf_new pkg now sn nn : wf (new pkg now sn nn).
Proof.
  split; simpl; try done; try (intros; by rewrite lookup_empty in *).
  intros k id. rewrite lookup_empty. split; [done|]. intros (c & x & Hc & _).
  by rewrite lookup_empty in Hc.
Qed.

Lemma server_ok_initial pkg now sn nn : server_ok (initial pkg now sn nn).
Proof.
  split_and!; simpl; [|set_solver|].
  - destruct (wf_new pkg now sn nn). by split.
  - intros id. rewrite lookup_empty. by intros [].
Qed.

Lemma dispatch_wf now render e n :
  wf n → (∀ id, e ≠ Connected id) → wf (dispatch now render e n).
Proof.
  intros W He. destruct e; simpl.
  - by destruct (He id).
  - by apply wf_handle.
  - by apply wf_disconnect.
  - by wf_reply.
  - by apply wf_run_admin.
Qed.

Lemma dispatch_stable now render P `{!Stable now P} e n :
  (∀ id, e ≠ Connected id) → P n → P (dispatch now render e n).
Proof.
  intros He HP. destruct e; simpl.
  - by destruct (He id).
  - by apply st_handle.
  - by apply st_disconnect.
  - by apply (st_ping now).
  - by apply st_run_admin.
Qed.

Lemma dispatch_no_new now render e n :
  (∀ id, e ≠ Connected id) → no_new n (dispatch now render e n).
Proof. intros He. by apply (dispatch_stable now render (no_new n)); [|intros i]. Qed.

Lemma connect_clients now id n : n_clients (connect now id n) = <[id := fresh_client now]> (n_clients n).
Proof.
  unfold connect. simpl. by rewrite (core_clients _ n) by (by autorewrite with core).
Qed.

Lemma step_ok render s s' : step render s s' → server_ok s → server_ok s'.
Proof.
  intros Hs (W & P & C). destruct Hs as [next pending n Hlt|now id next pending n Hid|now e next pending n He];
    cbn [s_net s_pending s_next] in *.
  - split_and!; cbn [s_net s_pending s_next dispatch]; [done| |].
    + intros i [->%elem_of_singleton|Hi]%elem_of_union.
      * split; [lia|]. apply eq_None_not_Some. intros Hs%C. lia.
      * destruct (P i Hi). split; [lia|done].
    + intros i Hi%C. lia.
  - destruct (P id Hid) as [Hlt Hn]. split_and!; cbn [s_net s_pending s_next dispatch]; [by apply wf_connect| |].
    + intros i Hi. destruct (P i); [set_solver|]. split; [done|].
      rewrite connect_clients, lookup_insert_ne by set_solver. done.
    + intros i. rewrite connect_clients. intros [c [[<- _]|[_ Hc]]%lookup_insert_Some]; eauto.
  - pose proof (dispatch_no_new now render e n He) as NN.
    split_and!; cbn [s_net s_pending s_next dispatch]; [by apply dispatch_wf| |].
    + intros i Hi. destruct (P i Hi). split; [done|]. by apply NN.
    + intros i [c Hc]. apply C. apply not_eq_None_Some. intros Hi%NN. congruence.
Qed.

Lemma reachable_ok render pkg now sn nn s :
  rtc (step render) (initial pkg now sn nn) s → server_ok s.
Proof.
  intros H. assert (I := server_ok_initial pkg now sn nn).
  induction H as [|s1 s2 s3 Hs _ IH]; [done|]. by apply IH, (step_ok render s1).
Qed.
