(* ===== verification/NetworkDelivery.v ===== *)
(** Who is sent what.

    [inbox i n] is the queue of client [i]: everything sent to it so far, in
    order.  Each way the server sends - one client, a channel, everyone who
    shares a channel - is characterised by what it appends to every queue. *)
From S2P Require Import Prelude RustStr Proto Admin Network NetworkAdmin NetworkCore NetworkInv.
Import Proto.

Definition inbox (i : ClientId) (n : Network) : list Message :=
  omap (λ im, if decide (im.1 = i) then Some im.2 else None) (n_sent n).

(** [l] when [P] holds, nothing otherwise. *)
Definition only_if {A} (P : Prop) `{Decision P} (l : list A) : list A :=
  if decide P then l else [].

Lemma only_if_True {A} (P : Prop) `{Decision P} (l : list A) : P → only_if P l = l.
Proof. intros. unfold only_if. by rewrite decide_True. Qed.
Lemma only_if_False {A} (P : Prop) `{Decision P} (l : list A) : ¬ P → only_if P l = [].
Proof. intros. unfold only_if. by rewrite decide_False. Qed.
Lemma only_if_iff {A} (P Q : Prop) `{Decision P, Decision Q} (l : list A) :
  (P ↔ Q) → only_if P l = only_if Q l.
Proof. intros. unfold only_if. by apply decide_ext. Qed.

Lemma only_if_or {A} (P Q R : Prop) `{Decision P, Decision Q, Decision R} (l : list A) :
  (P → ¬ Q) → (R ↔ P ∨ Q) → only_if P l ++ only_if Q l = only_if R l.
Proof. intros. unfold only_if. repeat case_decide; rewrite ?app_nil_r; naive_solver. Qed.

Lemma some_exists {A} (x : A) (P : A → Prop) : (∃ y, Some x = Some y ∧ P y) ↔ P x.
Proof. naive_solver. Qed.

Section delivery.
Context (now : N).
Implicit Types (n : Network) (i id : ClientId) (m : Message).

Lemma inbox_sent i n n' : n_sent n = n_sent n' → inbox i n = inbox i n'.
Proof. unfold inbox. by intros ->. Qed.

Lemma sent_emit k n : n_sent (emit now k n) = n_sent n.
Proof. unfold emit. by case_match. Qed.
Lemma inbox_emit i k n : inbox i (emit now k n) = inbox i n.
Proof. apply inbox_sent, sent_emit. Qed.

Lemma inbox_send i id m n :
  inbox i (send id m n) = inbox i n ++ only_if (i = id ∧ is_Some (n_clients n !! id)) [m].
Proof.
  unfold send. destruct (n_clients n !! id) as [c|] eqn:Hc.
  - unfold inbox. simpl. rewrite omap_app. simpl. unfold only_if.
    repeat case_decide; naive_solver.
  - rewrite only_if_False; [by rewrite app_nil_r|]. intros [_ []]. done.
Qed.

(** A broadcast reaches each member once, but for the one excepted. *)
Lemma inbox_broadcast i key m ex n chan :
  n_channels n !! key = Some chan →
  inbox i (broadcast key m ex n) =
    inbox i n ++ only_if (i ∈ ch_members chan ∧ Some i ≠ ex ∧ is_Some (n_clients n !! i)) [m].
Proof.
  intros Hk. unfold broadcast. rewrite Hk.
  assert (G : ∀ l n0, NoDup l → n_clients n0 = n_clients n →
    inbox i (foldl (λ n member, if decide (Some member = ex) then n else send member m n) n0 l) =
      inbox i n0 ++ only_if (i ∈ l ∧ Some i ≠ ex ∧ is_Some (n_clients n !! i)) [m]).
  { induction l as [|x l IH]; intros n0 ND Hc; cbn [foldl].
    { rewrite only_if_False; [by rewrite app_nil_r|set_solver]. }
    apply NoDup_cons in ND as [Hx ND].
    destruct (decide (Some x = ex)) as [Hex|Hex].
    - rewrite (IH n0 ND Hc). f_equal. apply only_if_iff. split; [set_solver|].
      intros (Hi & Hne & ?). split_and!; [|done|done].
      apply elem_of_cons in Hi as [->|]; [done|done].
    - rewrite (IH (send x m n0) ND); [|by rewrite (core_clients _ _ (core_send _ _ _))].
      rewrite inbox_send, Hc. destruct (decide (i = x)) as [->|Hne].
      + rewrite (only_if_False (x ∈ l ∧ _)) by naive_solver. rewrite app_nil_r. f_equal.
        apply only_if_iff. set_solver.
      + rewrite (only_if_False (i = x ∧ _)) by naive_solver. rewrite app_nil_r. f_equal.
        apply only_if_iff. set_solver. }
  rewrite (G _ n (NoDup_elements _) eq_refl). f_equal. apply only_if_iff. set_solver.
Qed.

(** [told] grows by the members walked, and each new one is told once. *)
Lemma tell_members_told m l acc :
  (foldl (tell_member m) acc l).2 = acc.2 ∪ list_to_set l.
Proof.
  revert acc. induction l as [|x l IH]; intros [n told]; cbn [foldl list_to_set]; [set_solver|].
  rewrite IH. simpl. case_decide; set_solver.
Qed.

Lemma inbox_tell_members i m l acc :
  inbox i (foldl (tell_member m) acc l).1 =
    inbox i acc.1 ++ only_if (i ∈ l ∧ (i ∉ acc.2) ∧ is_Some (n_clients acc.1 !! i)) [m].
Proof.
  revert acc. induction l as [|x l IH]; intros [n told]; cbn [foldl].
  { rewrite only_if_False; [by rewrite app_nil_r|set_solver]. }
  rewrite IH. simpl. destruct (decide (x ∈ told)) as [Hx|Hx]; simpl.
  - f_equal. apply only_if_iff. set_solver.
  - rewrite (core_clients _ _ (core_send _ _ _)), inbox_send, <- app_assoc. f_equal.
    destruct (decide (i = x)) as [->|Hne].
    + rewrite (only_if_False (x ∈ l ∧ _)) by set_solver. rewrite app_nil_r.
      apply only_if_iff. set_solver.
    + rewrite (only_if_False (i = x ∧ _)) by naive_solver. simpl.
      apply only_if_iff. set_solver.
Qed.

(** Everyone in one of the channels [names], but for those already told. *)
Definition in_one_of n (names : list str) i : Prop :=
  Exists (λ k, match n_channels n !! k with Some c => i ∈ ch_members c | None => False end) names.

#[global] Instance in_one_of_dec n names i : Decision (in_one_of n names i).
Proof. apply Exists_dec. intros k. destruct (n_channels n !! k); apply _. Defined.

Lemma in_one_of_cons n k names i :
  in_one_of n (k :: names) i ↔
    (∃ c, n_channels n !! k = Some c ∧ i ∈ ch_members c) ∨ in_one_of n names i.
Proof.
  unfold in_one_of. rewrite Exists_cons. destruct (n_channels n !! k); naive_solver.
Qed.

Lemma in_one_of_elem n names i :
  in_one_of n names i ↔ ∃ k c, k ∈ names ∧ n_channels n !! k = Some c ∧ i ∈ ch_members c.
Proof.
  unfold in_one_of. rewrite Exists_exists. split.
  - intros (k & Hk & H). case_match; [eauto 10|done].
  - intros (k & c & Hk & Hc & H). exists k. by rewrite Hc.
Qed.

Lemma inbox_tell_channels i m names acc :
  inbox i (foldl (tell_channel m) acc names).1 =
    inbox i acc.1 ++
    only_if (in_one_of acc.1 names i ∧ (i ∉ acc.2) ∧ is_Some (n_clients acc.1 !! i)) [m].
Proof.
  revert acc. induction names as [|k names IH]; intros acc; cbn [foldl].
  { rewrite only_if_False; [by rewrite app_nil_r|]. intros [H _]. inversion H. }
  rewrite IH.
  assert (Ec : core (tell_channel m acc k).1 = core acc.1) by apply core_tell_channel.
  rewrite (core_clients _ _ Ec).
  assert (Eq : in_one_of (tell_channel m acc k).1 names i ↔ in_one_of acc.1 names i).
  { unfold in_one_of. by rewrite (core_channels _ _ Ec). }
  clear IH Ec. destruct acc as [n told]. simpl in *.
  pose proof (in_one_of_cons n k names i) as Hcons.
  destruct (n_channels n !! k) as [c|] eqn:Hk.
  - rewrite inbox_tell_members, <- app_assoc. simpl. f_equal.
    rewrite some_exists in Hcons.
    apply only_if_or; rewrite tell_members_told; cbn [fst snd ch_members channel_remove];
      rewrite ?elem_of_union, ?elem_of_list_to_set, ?elem_of_elements, ?elem_of_difference,
        ?elem_of_singleton; destruct (decide (i ∈ ch_members c)); tauto.
  - simpl. f_equal. apply only_if_iff. naive_solver.
Qed.

(** The same, while the departing client is taken out of each channel. *)
Lemma inbox_disconnect_channels i id m names acc :
  i ≠ id →
  inbox i (foldl (disconnect_channel id m) acc names).1 =
    inbox i acc.1 ++
    only_if (in_one_of acc.1 names i ∧ (i ∉ acc.2) ∧ is_Some (n_clients acc.1 !! i)) [m].
Proof.
  intros Hid. revert acc. induction names as [|k names IH]; intros acc; cbn [foldl].
  { rewrite only_if_False; [by rewrite app_nil_r|]. intros [H _]. inversion H. }
  rewrite IH.
  assert (Ef : frame (disconnect_channel id m acc k).1 = frame acc.1)
    by apply disconnect_channel_frame.
  injection Ef as -> _ _ _.
  assert (Eq : in_one_of (disconnect_channel id m acc k).1 names i ↔ in_one_of acc.1 names i).
  { rewrite !in_one_of_elem. setoid_rewrite disconnect_channel_lookup. split.
    - intros (k' & c & ? & Hc & ?). case_decide; [|eauto 10].
      apply fmap_Some in Hc as (c' & ? & ->). simpl in *. exists k', c'. set_solver.
    - intros (k' & c & ? & Hc & ?). exists k'. case_decide; [|eauto 10]. rewrite Hc.
      eexists. split_and!; [done|done|]. simpl. set_solver. }
  clear IH. destruct acc as [n told]. simpl in *.
  pose proof (in_one_of_cons n k names i) as Hcons.
  destruct (n_channels n !! k) as [c|] eqn:Hk.
  - rewrite inbox_tell_members, <- app_assoc. simpl.
    change (inbox i (set_channels ?f n)) with (inbox i n). f_equal.
    rewrite some_exists in Hcons.
    apply only_if_or; rewrite tell_members_told; cbn [fst snd ch_members channel_remove];
      rewrite ?elem_of_union, ?elem_of_list_to_set, ?elem_of_elements, ?elem_of_difference,
        ?elem_of_singleton; destruct (decide (i ∈ ch_members c)); tauto.
  - simpl. f_equal. apply only_if_iff. naive_solver.
Qed.
End delivery.
