(* ===== verification/NetworkProps.v ===== *)
(** What the local server promises, proved of [Network], [NetworkAdmin] and
    [NetworkSteps]. *)
From S2P Require Import Prelude RustStr Proto Admin Network NetworkAdmin NetworkCore NetworkInv NetworkSteps NetworkDelivery.
Import Proto.

(** * Specifications *)

(** Whether a message from [id] to [target] is relayed at all. *)
Definition accepted (n : Network) (id : ClientId) (target : str) : bool :=
  if is_channel target then is_member n (fold target) id
  else bool_decide (is_Some (n_nicks n !! fold target)).

(** Who receives it: the other members of a channel the sender is in, or the
    holder of the nick. *)
Definition recipients (n : Network) (id : ClientId) (target : str) : gset ClientId :=
  if is_channel target then
    match n_channels n !! fold target with
    | Some c => if decide (id ∈ ch_members c) then ch_members c ∖ {[id]} else ∅
    | None => ∅
    end
  else match n_nicks n !! fold target with Some to => {[to]} | None => ∅ end.

Definition relay (n : Network) (id : ClientId) (target text : str) (notice : bool) : Message :=
  mkMessage (Some (prefix_of n id)) (if notice then NOTICE target text else PRIVMSG target text).

Definition refusal (n : Network) (id : ClientId) (target : str) : Message :=
  mkMessage (Some (ServerName (n_server_name n)))
    (if is_channel target
     then Reply ERR_CANNOTSENDTOCHAN [nick_of n id; target; lit "Cannot send to channel"]
     else Reply ERR_NOSUCHNICK [nick_of n id; target; lit "No such nick/channel"]).

(** Whether two clients share a channel. *)
Definition shares (n : Network) (id i : ClientId) : Prop :=
  Exists (λ kc, id ∈ ch_members kc.2 ∧ i ∈ ch_members kc.2) (map_to_list (n_channels n)).

#[export] Instance shares_dec n id i : Decision (shares n id i).
Proof. apply Exists_dec. intros kc. apply _. Defined.

Lemma shares_spec n id i :
  shares n id i ↔ ∃ k c, n_channels n !! k = Some c ∧ id ∈ ch_members c ∧ i ∈ ch_members c.
Proof.
  unfold shares. rewrite Exists_exists. split.
  - intros ([k c] & Hk%elem_of_map_to_list & ? & ?). eauto.
  - intros (k & c & Hk & ? & ?). exists (k, c). by rewrite elem_of_map_to_list.
Qed.

(** Every event in the operator's log is safe to print, and none carries the
    text of a private message. *)
Definition event_ok (e : Admin.ServerEvent) : Prop :=
  Forall Admin.printable (Admin.event_strings (Admin.kind e)) ∧ no_private_text (Admin.kind e).
Definition log_ok (n : Network) : Prop :=
  match n_observer n with Some log => Forall event_ok log | None => True end.

(** * Delivery *)

Section delivery.
Context (now : N).
Implicit Types (n : Network) (i id : ClientId).

Lemma wf_member_client n k c i :
  wf n → n_channels n !! k = Some c → i ∈ ch_members c → is_Some (n_clients n !! i).
Proof. intros W Hk Hi. destruct (wf_members n W k c i Hk Hi) as (x & -> & _). eauto. Qed.

Lemma wf_holder_client n k i : wf n → n_nicks n !! k = Some i → is_Some (n_clients n !! i).
Proof. intros W Hk. apply (wf_nicks n W) in Hk as (c & x & -> & _). eauto. Qed.

Lemma inbox_numeric_args i id r args n :
  is_Some (n_clients n !! id) →
  inbox i (numeric_args id r args n) = inbox i n ++
    only_if (i = id) [mkMessage (Some (ServerName (n_server_name n))) (Reply r (nick_of n id :: args))].
Proof. intros H. unfold numeric_args. rewrite inbox_send. f_equal. apply only_if_iff. tauto. Qed.

(** A refusal goes to the sender, and only of a PRIVMSG. *)
Lemma inbox_refuse i id r args (notice : bool) n :
  is_Some (n_clients n !! id) →
  inbox i (if notice then n else numeric_args id r args n) = inbox i n ++
    only_if (i = id ∧ notice = false)
      [mkMessage (Some (ServerName (n_server_name n))) (Reply r (nick_of n id :: args))].
Proof.
  intros H. destruct notice.
  - rewrite only_if_False by naive_solver. by rewrite app_nil_r.
  - rewrite inbox_numeric_args by done. f_equal. apply only_if_iff. naive_solver.
Qed.

(** The accounting and reporting at the head of [on_message]. *)
Definition reported (id : ClientId) (target text : str) (notice : bool) (n : Network) : Network :=
  let n' := set_messages_total (u64_add (n_messages_total n) 1) n in
  if accepted n id target then
    emit now (Admin.Message (nick_of n id) target
                (if is_channel target then Some text else None) notice) n'
  else n'.

(** ... and the delivery after it. *)
Definition deliver (id : ClientId) (target : str) (message : Message) (notice : bool) (n : Network) :=
  if is_channel target then
    if negb (is_member n (fold target) id) then
      (if notice then n
       else numeric_args id ERR_CANNOTSENDTOCHAN [target; lit "Cannot send to channel"] n)
    else broadcast (fold target) message (Some id) n
  else
    match n_nicks n !! fold target with
    | Some to => send to message n
    | None =>
        if notice then n
        else numeric_args id ERR_NOSUCHNICK [target; lit "No such nick/channel"] n
    end.

Lemma on_message_eq n id target text notice :
  target ≠ [] → text ≠ [] →
  on_message now id target text notice n =
    deliver id target (relay n id target text notice) notice (reported id target text notice n).
Proof. intros Ht Hx. unfold on_message. destruct target, text; done. Qed.

Lemma reported_frame n id target text notice :
  let m := reported id target text notice n in
  core m = core n ∧ n_sent m = n_sent n ∧ n_server_name m = n_server_name n.
Proof.
  unfold reported. case_match; simpl; [|done]. split_and!.
  - by autorewrite with core.
  - by rewrite sent_emit.
  - unfold emit. by case_match.
Qed.

Lemma inbox_deliver n i id target message notice :
  wf n → is_Some (n_clients n !! id) →
  inbox i (deliver id target message notice n) =
    inbox i n ++ only_if (i ∈ recipients n id target) [message]
    ++ only_if (i = id ∧ notice = false ∧ accepted n id target = false) [refusal n id target].
Proof.
  intros W Hid. unfold deliver, accepted, recipients, refusal, is_member.
  destruct (is_channel target).
  - destruct (n_channels n !! fold target) as [c|] eqn:Hk; simpl.
    + destruct (decide (id ∈ ch_members c)) as [Hin|Hin].
      * rewrite bool_decide_true by done. simpl.
        rewrite (inbox_broadcast _ _ _ _ _ c Hk), (only_if_False (i = id ∧ _)) by naive_solver.
        rewrite app_nil_r. f_equal. apply only_if_iff. rewrite elem_of_difference, elem_of_singleton.
        split; [naive_solver|]. intros [? ?]. split_and!; [done|congruence|].
        by eapply wf_member_client.
      * rewrite bool_decide_false by done. simpl. rewrite inbox_refuse by done.
        rewrite (only_if_False (i ∈ ∅)) by set_solver. f_equal. apply only_if_iff. tauto.
    + rewrite inbox_refuse by done.
      rewrite (only_if_False (i ∈ ∅)) by set_solver. f_equal. apply only_if_iff. tauto.
  - destruct (n_nicks n !! fold target) as [to|] eqn:Hk.
    + rewrite inbox_send, (only_if_False (i = id ∧ _)) by naive_solver.
      rewrite app_nil_r. f_equal. apply only_if_iff. rewrite elem_of_singleton.
      pose proof (wf_holder_client n _ _ W Hk). tauto.
    + rewrite inbox_refuse, bool_decide_false by (done || by intros []).
      rewrite (only_if_False (i ∈ ∅)) by set_solver. f_equal. apply only_if_iff. tauto.
Qed.
End delivery.

(** C2: A message from a connected client is put once in the queue of exactly
    its recipients - every other member of a channel the sender is in, or the
    holder of the nick - and in nobody else's; if there is no such channel or
    nick the sender, and only the sender, is told so, and never for a NOTICE. *)
Theorem on_message_delivery (now : N) (n : Network) (id i : ClientId) (target text : str)
    (notice : bool) :
  wf n → is_Some (n_clients n !! id) → target ≠ [] → text ≠ [] →
  inbox i (on_message now id target text notice n) =
    inbox i n
    ++ only_if (i ∈ recipients n id target) [relay n id target text notice]
    ++ only_if (i = id ∧ notice = false ∧ accepted n id target = false) [refusal n id target].
Proof.
  intros W Hid Ht Hx. rewrite on_message_eq by done.
  destruct (reported_frame now n id target text notice) as (Ec & Es & En).
  rewrite inbox_deliver; [|by eapply wf_core|by rewrite (core_clients _ _ Ec)].
  rewrite (inbox_sent _ _ _ Es).
  unfold recipients, accepted, refusal, is_member, nick_of.
  by rewrite (core_clients _ _ Ec), (core_nicks _ _ Ec), (core_channels _ _ Ec), En.
Qed.

(** * Departures and renames *)

Lemma shares_joined n id c i :
  wf n → n_clients n !! id = Some c →
  (in_one_of n (elements (c_channels c)) i ↔ shares n id i).
Proof.
  intros W Hc. rewrite in_one_of_elem, shares_spec. split.
  - intros (k & chan & Hk%elem_of_elements & Hchan & Hi).
    destruct (wf_joined n W id c k Hc Hk) as (chan' & ? & ?). simplify_eq. eauto.
  - intros (k & chan & Hchan & Hid & Hi).
    destruct (wf_members n W k chan id Hchan Hid) as (c' & ? & Hk). simplify_eq.
    exists k, chan. by rewrite elem_of_elements.
Qed.

(** C28: when a connection ends, everyone who shared a channel with it is told
    once - with the reason it gave, if it gave one - nobody else is told, and the
    connection is left in no table: not among the clients, not behind a nick,
    and in no channel. *)
Theorem disconnect_announced (now : N) (n : Network) (id i : ClientId) (c : Client) (reason : str) :
  wf n → n_clients n !! id = Some c → i ≠ id →
  inbox i (disconnect now id reason n) =
    inbox i n ++ only_if (shares n id i)
      [mkMessage (Some (client_prefix c)) (QUIT (Some (default reason (c_quit_reason c))))]
  ∧ n_clients (disconnect now id reason n) !! id = None
  ∧ (∀ k, n_nicks (disconnect now id reason n) !! k ≠ Some id)
  ∧ (∀ k chan, n_channels (disconnect now id reason n) !! k = Some chan → id ∉ ch_members chan).
Proof.
  intros W Hc Hi.
  destruct (disconnect_state now n id c reason W Hc) as (E1 & _ & E3 & _).
  assert (Gone : n_clients (disconnect now id reason n) !! id = None)
    by (rewrite E1; apply lookup_delete_eq).
  split_and!; [|done| |].
  - unfold disconnect. rewrite Hc. cbv zeta.
    change (inbox i (set_channels ?f ?m)) with (inbox i m).
    rewrite inbox_disconnect_channels by done. cbn [fst snd].
    set (m := match c_nick c with Some _ => _ | None => emit now _ _ end).
    assert (Hm : n_sent m = n_sent n ∧ n_channels m = n_channels n
                 ∧ n_clients m = delete id (n_clients n)).
    { unfold m, emit. repeat case_match; done. }
    destruct Hm as (Hs & Hch & Hcl). rewrite (inbox_sent _ _ _ Hs). f_equal.
    apply only_if_iff. rewrite <- (shares_joined n id c i W Hc).
    unfold in_one_of. rewrite Hch, Hcl, lookup_delete_ne by done.
    split; [tauto|]. intros H. split_and!; [done|set_solver|].
    apply in_one_of_elem in H as (k & chan & _ & Hk & Hin). by eapply wf_member_client.
  - intros k Hk. destruct (wf_holder_client _ k id (wf_disconnect now n id reason W) Hk) as [? ?].
    congruence.
  - intros k chan Hk Hin.
    destruct (wf_member_client _ k chan id (wf_disconnect now n id reason W) Hk Hin) as [? ?].
    congruence.
Qed.

(** Whether NICK takes a name for [id]: valid, not banned, and nobody else's. *)
Definition nick_free (n : Network) (id : ClientId) (nick : str) : Prop :=
  valid_nick nick = true ∧ (fold nick ∉ n_banned n)
  ∧ ∀ holder, n_nicks n !! fold nick = Some holder → holder = id.

Lemma valid_nick_nonempty nick : valid_nick nick = true → is_empty nick = false.
Proof. by destruct nick. Qed.

(** Past its refusals, [on_nick] is this. *)
Lemma on_nick_free now n id nick :
  nick_free n id (trim nick) →
  on_nick now id nick n =
    let was := n_clients n !! id ≫= c_nick in
    let m := claim_nick id (trim nick) n in
    if is_registered n id then
      match was with
      | Some old =>
          if decide (old ≠ trim nick) then
            let m := emit now (Admin.NickChanged old (trim nick)) m in
            tell_peers id (mkMessage
              (Some (Nickname old (default (trim nick) (n_clients m !! id ≫= c_user)) HOST))
              (NICK (trim nick))) true m
          else m
      | None => m
      end
    else try_register now id m.
Proof.
  intros (Hv & Hb & Hh). unfold on_nick. cbv zeta.
  rewrite (valid_nick_nonempty _ Hv), Hv. simpl. rewrite decide_False by done.
  assert ((match n_nicks n !! fold (trim nick) with
           | Some holder => bool_decide (holder ≠ id) | None => false end) = false) as ->.
  { destruct (n_nicks n !! fold (trim nick)) as [h|]; [|done].
    apply bool_decide_false. rewrite (Hh h eq_refl). tauto. }
  by destruct (is_registered n id).
Qed.

Lemma claim_nick_clients id nick n :
  n_clients (claim_nick id nick n) = alter (client_set_nick nick) id (n_clients n).
Proof. unfold claim_nick. by case_match. Qed.
Lemma claim_nick_channels id nick n : n_channels (claim_nick id nick n) = n_channels n.
Proof. unfold claim_nick. by case_match. Qed.
Lemma claim_nick_sent id nick n : n_sent (claim_nick id nick n) = n_sent n.
Proof. unfold claim_nick. by case_match. Qed.

(** Telling everyone who shares a channel, oneself included. *)
Lemma inbox_tell_peers n id c m i :
  wf n → n_clients n !! id = Some c →
  inbox i (tell_peers id m true n) = inbox i n ++ only_if (i = id ∨ shares n id i) [m].
Proof.
  intros W Hc. unfold tell_peers. rewrite Hc. simpl.
  rewrite inbox_tell_channels. cbn [fst snd]. rewrite inbox_send.
  rewrite <- app_assoc. f_equal.
  assert (Eq : in_one_of (send id m n) (elements (c_channels c)) i ↔ shares n id i).
  { rewrite <- (shares_joined n id c i W Hc). unfold in_one_of.
    by rewrite (core_channels _ _ (core_send id m n)). }
  rewrite (core_clients _ _ (core_send id m n)).
  apply only_if_or; rewrite elem_of_singleton; [tauto|]. rewrite Eq, Hc.
  split; [|naive_solver]. intros [->|Hs]; [eauto|].
  destruct (decide (i = id)); [subst; eauto|]. right. split_and!; [done|done|].
  apply shares_spec in Hs as (k & chan & Hk & _ & Hi). by eapply wf_member_client.
Qed.

(** A registered client that takes a free name is renamed - the index finds
    it under the new name, and no longer under the old one unless the two fold
    together - and the change, from the old name, is put once in its own queue
    and in that of everyone who shares a channel with it, and in no other. *)
Theorem rename_announced (now : N) (n : Network) (id i : ClientId) (c : Client) (old nick : str) :
  wf n → n_clients n !! id = Some c → c_registered c = true → c_nick c = Some old →
  nick_free n id (trim nick) → trim nick ≠ old →
  inbox i (on_nick now id nick n) =
    inbox i n ++ only_if (i = id ∨ shares n id i)
      [mkMessage (Some (Nickname old (default (trim nick) (c_user c)) HOST)) (NICK (trim nick))]
  ∧ nick_of (on_nick now id nick n) id = trim nick
  ∧ n_nicks (on_nick now id nick n) !! fold (trim nick) = Some id
  ∧ (fold old ≠ fold (trim nick) → n_nicks (on_nick now id nick n) !! fold old = None).
Proof.
  intros W Hc Hr Ho Hf Hne. rewrite on_nick_free by done. cbv zeta.
  unfold is_registered. rewrite Hc, Hr. simpl. rewrite Ho, decide_True by done.
  set (x := trim nick) in *. set (m := emit now _ _).
  assert (Em : core m = core (claim_nick id x n)) by (unfold m; by autorewrite with core).
  assert (Wm : wf m).
  { eapply wf_core; [symmetry; exact Em|]. destruct Hf as (?&?&?). apply wf_claim_nick; eauto. }
  assert (Hm : n_clients m !! id = Some (client_set_nick x c)).
  { rewrite (core_clients _ _ Em), claim_nick_clients, lookup_alter, decide_True, Hc by done. done. }
  rewrite Hm. simpl. split_and!.
  - rewrite (inbox_tell_peers m id _ _ i Wm Hm).
    rewrite (inbox_sent i m n) by (unfold m; by rewrite sent_emit, claim_nick_sent).
    f_equal. apply only_if_iff. unfold shares.
    by rewrite (core_channels _ _ Em), claim_nick_channels.
  - unfold nick_of. rewrite (core_clients _ m) by apply core_tell_peers. by rewrite Hm.
  - rewrite (core_nicks _ m) by apply core_tell_peers. rewrite (wf_nicks m Wm).
    exists (client_set_nick x c), x. done.
  - intros Hold. rewrite (core_nicks _ m), (core_nicks m _ Em) by apply core_tell_peers.
    unfold claim_nick. rewrite Hc. simpl. rewrite Ho. simpl.
    by rewrite lookup_insert_ne, lookup_delete_eq.
Qed.

(** A name that is invalid, banned or somebody else's is refused and nothing
    changes: no client, nick, channel, ban or greeting. *)
Theorem nick_refused (now : N) (n : Network) (id : ClientId) (nick : str) :
  ¬ nick_free n id (trim nick) → core (on_nick now id nick n) = core n.
Proof.
  intros Hf. unfold on_nick. cbv zeta. set (x := trim nick) in *. clearbody x.
  destruct (is_empty x); [by autorewrite with core|].
  destruct (valid_nick x) eqn:Hv; simpl; [|by autorewrite with core].
  case_decide as Hb; [by autorewrite with core|].
  destruct (n_nicks n !! fold x) as [h|] eqn:Hh.
  - case_bool_decide as Hne; [by autorewrite with core|]. destruct Hf. split_and!; [done|done|].
    intros ? ?. congruence.
  - destruct Hf. split_and!; [done|done|]. congruence.
Qed.

(** * Joining and leaving *)

Lemma client_in_out k c : k ∉ c_channels c →
  client_set_channels (λ s, s ∖ {[k]}) (client_set_channels (union {[k]}) c) = c.
Proof. intros. destruct c. unfold client_set_channels. simpl in *. f_equal. by apply add_remove. Qed.

Lemma channel_in_out k id name c : channel_ok k c → id ∉ ch_members c →
  left_by id (join_channel id name (Some c)) = Some c.
Proof.
  intros (_ & _ & Hne & Hop & _) Hid. assert (id ∉ ch_operators c) by set_solver.
  unfold left_by, channel_remove. destruct c. simpl in *.
  by rewrite add_remove, remove_absent, decide_False.
Qed.

Lemma channel_created_gone id name : left_by id (join_channel id name None) = None.
Proof. unfold left_by. simpl. rewrite decide_True; [done|]. set_solver. Qed.

(** Joining a channel and parting from it again leaves the server as it
    was: same clients, nicks, channels, members and operators; a channel created
    by the join is gone with the part. *)
Theorem join_part_roundtrip (now now' : N) (n : Network) (id : ClientId) (name : str)
    (reason : option str) :
  wf n → is_registered n id = true → valid_channel name = true → is_member n (fold name) id = false →
  core (on_part now' id name reason (on_join now id name n)) = core n.
Proof.
  intros W Hr Hv Hm. unfold is_registered in Hr.
  destruct (n_clients n !! id) as [c|] eqn:Hc; [|done].
  assert (Hk : fold name ∉ c_channels c).
  { intros Hk. destruct (wf_joined n W id c _ Hc Hk) as (chan & Hch & Hin).
    unfold is_member in Hm. rewrite Hch in Hm. by bool_simp. }
  set (m := on_join now id name n).
  assert (Em : core m = core (joined id name n)).
  { unfold m, on_join. rewrite Hv, Hm. simpl. by autorewrite with core. }
  assert (Hin : is_member m (fold name) id = true).
  { unfold is_member. rewrite (core_channels _ _ Em). simpl. rewrite lookup_insert_eq.
    apply bool_decide_true, join_channel_members. by left. }
  clearbody m. unfold on_part. rewrite Hin. simpl.
  match goal with |- core (leave _ _ ?m') = _ => set (p := m') end.
  assert (Ep : core p = core (joined id name n)) by (unfold p; by autorewrite with core).
  clearbody p. apply core_eq in Ep as (Ecl & Eni & Ech & Emo & Eba).
  destruct (leave_others p (fold name) id) as (Ln & Lm & Lb).
  assert (Hcl : n_clients (leave (fold name) id p) = n_clients n).
  { rewrite leave_clients, Ecl. apply map_eq. intros i. simpl.
    destruct (decide (id = i)) as [<-|]; [|by rewrite !lookup_alter_ne].
    rewrite !lookup_alter_eq, Hc. simpl. f_equal. by apply client_in_out. }
  assert (Hch : n_channels (leave (fold name) id p) = n_channels n).
  { apply map_eq. intros k. rewrite leave_channels, Ech. simpl.
    destruct (decide (k = fold name)) as [->|]; [|by rewrite lookup_insert_ne].
    rewrite lookup_insert_eq. simpl. unfold is_member in Hm.
    destruct (n_channels n !! fold name) as [chan|] eqn:Hch; simpl; bool_simp.
    - apply (channel_in_out (fold name) _ name); [by apply (wf_channel n W)|done].
    - apply channel_created_gone. }
  unfold core. by rewrite Hcl, Hch, Ln, Lm, Lb, Eni, Emo, Eba.
Qed.

(** * Text from the wire *)

(** Cutting text to a byte limit never lands inside a character (the cut
    exists for every text and every limit), keeps a prefix, fits the limit, and
    keeps as much as fits: every other prefix that fits is a prefix of it. *)
Theorem truncate_longest_prefix (text : str) (max : nat) :
  truncate_checked text max = Some (truncate text max)
  ∧ truncate text max `prefix_of` text
  ∧ str_len (truncate text max) ≤ max
  ∧ ∀ p, p `prefix_of` text → str_len p ≤ max → p `prefix_of` truncate text max.
Proof.
  unfold truncate. destruct (truncate_checked_spec text max) as (r & -> & ? & ? & ?). done.
Qed.
