(* ===== verification/NetworkSafety.v ===== *)
(** Safety of the local server: what holds of every state it can reach, who may
    do what, and what the operator sees. *)
From S2P Require Import Prelude RustStr Proto Admin Network NetworkAdmin NetworkCore NetworkInv NetworkSteps NetworkDelivery NetworkProps.
Import Proto.

(** * Reachable states *)

(** C1: whatever clients, sockets and the operator do, in whatever order, every
    state the server reaches is well-formed: the nick index and the clients
    agree, channel membership is recorded the same on both sides, every channel
    is valid, inhabited and filed under its folded name, operators are members,
    only registered clients are in channels, no banned nick is held, and the
    greeting is not empty. *)
Theorem reachable_wf (render : Command → str) (pkg_version sn nn : str) (now : N) (s : Server) :
  rtc (step render) (initial pkg_version now sn nn) s → wf (s_net s).
Proof. intros H. by apply reachable_ok in H as [? _]. Qed.

Lemma sanitized_no_private k : no_private_text k → no_private_text (Admin.sanitized k).
Proof.
  destruct k as [| | | | | | | | | |from target text notice|]; try done. destruct text; [|done]. simpl.
  unfold is_channel. destruct target as [|a t]; [done|]. cbn [starts_with_char].
  intros ->%N.eqb_eq. done.
Qed.

Lemma log_ok_emit now k n : no_private_text k → log_ok n → log_ok (emit now k n).
Proof.
  intros Hk. unfold log_ok, emit. destruct (n_observer n) as [log|] eqn:E; [|by rewrite E].
  simpl. intros Hl. apply Forall_app. split; [done|]. constructor; [|constructor].
  split; [apply Admin.sanitized_printable|by apply sanitized_no_private].
Qed.

#[export] Instance log_ok_stable now : Stable now log_ok.
Proof. split; try done. apply log_ok_emit. Qed.

Lemma step_log_ok render s s' : step render s s' → log_ok (s_net s) → log_ok (s_net s').
Proof.
  intros [next pending n Hlt|now id next pending n Hid|now e next pending n He] H; simpl; [done| |].
  - unfold connect. change (log_ok (emit now (Admin.Connected id)
      (set_connections_total (u64_add (n_connections_total n) 1) n))). by apply log_ok_emit.
  - by apply dispatch_stable; [apply log_ok_stable|..].
Qed.

(** In every reachable state, every event the operator has been told is free
    of control and direction-changing characters, and the text of a message is
    told only when its target is a channel: private messages are reported
    without their text. *)
Theorem operator_log_safe (render : Command → str) (pkg_version sn nn : str) (now : N) (s : Server) :
  rtc (step render) (initial pkg_version now sn nn) s → log_ok (s_net s).
Proof.
  intros H. assert (I : log_ok (s_net (initial pkg_version now sn nn))) by constructor.
  induction H as [|s1 s2 s3 Hs _ IH]; [done|]. by apply IH, (step_log_ok render s1).
Qed.

(** * Authority *)

(** A client that has not registered can only negotiate, name itself, ping,
    pong and quit: any other line changes nothing and draws one reply, to it
    alone, saying so. *)
Theorem unregistered_refused (now : N) (render : Command → str) (n : Network) (id i : ClientId)
    (c : Client) (m : Message) :
  n_clients n !! id = Some c → c_registered c = false →
  match command m with
  | CAP _ _ _ _ | NICK _ | USER _ _ _ | PASS _ | PING _ _ | PONG _ _ | QUIT _ => True
  | _ =>
      core (handle now render id m n) = core n
      ∧ inbox i (handle now render id m n) = inbox i n ++ only_if (i = id)
          [mkMessage (Some (ServerName (n_server_name n)))
             (Reply ERR_NOTREGISTERED [nick_of n id; lit "You have not registered"])]
  end.
Proof.
  intros Hc Hr. unfold handle. rewrite Hc.
  assert (R : is_registered n id = false) by (unfold is_registered; by rewrite Hc).
  destruct (command m); try done; rewrite R; simpl;
    (split; [by autorewrite with core|apply inbox_numeric_args; eauto]).
Qed.

Lemma leave_member n key id k i :
  wf n →
  is_member (leave key id n) k i = is_member n k i && negb (bool_decide (k = key ∧ i = id)).
Proof.
  intros W. unfold is_member. rewrite leave_channels.
  destruct (decide (k = key)) as [->|Hne].
  - destruct (n_channels n !! key) as [c|] eqn:Hc; simpl; [|done].
    unfold left_by. destruct (decide (ch_members (channel_remove id c) = ∅)) as [E|E]; simpl in *.
    + symmetry. apply andb_false_iff. destruct (decide (i = id)) as [->|];
        [right; by rewrite bool_decide_true|left]. apply bool_decide_false. set_solver.
    + apply eq_bool_prop_intro. rewrite andb_True, negb_True, !bool_decide_spec. set_solver.
  - rewrite (bool_decide_false (k = key ∧ _)) by tauto. by rewrite andb_true_r.
Qed.

Lemma core_is_member n n' k i : core n = core n' → is_member n k i = is_member n' k i.
Proof. intros H. unfold is_member. by rewrite (core_channels n n' H). Qed.

Lemma kick_member_member now n key victim by_ reason k i :
  wf n → is_Some (n_channels n !! key) →
  is_member (kick_member now key victim by_ reason n) k i =
    is_member n k i && negb (bool_decide (k = key ∧ i = victim)).
Proof.
  intros W [c Hc]. unfold kick_member. rewrite Hc. rewrite leave_member.
  - f_equal. apply core_is_member. by autorewrite with core.
  - eapply wf_core; [symmetry; by autorewrite with core|done].
Qed.

(** Whether [id] may remove [victim], named [nick], from channel [name]. *)
Definition may_kick (n : Network) (id : ClientId) (name nick : str) (victim : ClientId) : Prop :=
  ∃ c, n_channels n !! fold name = Some c ∧ id ∈ ch_operators c ∧ id ∈ ch_members c
       ∧ n_nicks n !! fold nick = Some victim ∧ victim ∈ ch_members c.

(** C29: KICK removes a member only at the word of an operator of that channel:
    if the sender is one and the nick names a member, exactly that membership
    ends and every other is as it was; otherwise nothing changes at all. *)
Theorem kick_needs_operator (now : N) (n : Network) (id : ClientId) (name nick : str)
    (reason : option str) :
  wf n →
  (∀ victim, may_kick n id name nick victim → ∀ k i,
     is_member (on_kick now id name nick reason n) k i =
       is_member n k i && negb (bool_decide (k = fold name ∧ i = victim)))
  ∧ ((¬ ∃ victim, may_kick n id name nick victim) →
     core (on_kick now id name nick reason n) = core n).
Proof.
  intros W. split.
  - intros v (c & Hc & Ho & Hm & Hn & Hv) k i. unfold on_kick. cbv zeta.
    rewrite Hc, (bool_decide_true (id ∈ ch_members c)), (bool_decide_true (id ∈ ch_operators c)) by done.
    cbn [negb]. rewrite Hn, bool_decide_true by done. apply kick_member_member; eauto.
  - intros Hno. unfold on_kick. cbv zeta.
    destruct (n_channels n !! fold name) as [c|] eqn:Hc; [|by autorewrite with core].
    case_bool_decide as Hm; cbn [negb]; [|by autorewrite with core].
    case_bool_decide as Ho; cbn [negb]; [|by autorewrite with core].
    destruct (n_nicks n !! fold nick) as [v|] eqn:Hn; [|by autorewrite with core].
    case_bool_decide as Hv; [|by autorewrite with core].
    destruct Hno. exists v, c. done.
Qed.

(** * The operator's commands *)

(** A ban that is accepted takes effect at once and lasts: nobody is left
    holding the name, and no NICK for any spelling of it changes anything. *)
Theorem ban_takes_effect (now now' : N) (n : Network) (nick : str) (reason : option str) :
  wf n → valid_nick nick = true → fold nick ∉ n_banned n →
  let '(n', outcome) := execute now (Admin.Ban nick reason) n in
  outcome = Ok (lit "banned " ++ nick)
  ∧ n_nicks n' !! fold nick = None
  ∧ ∀ id x, fold (trim x) = fold nick → core (on_nick now' id x n') = core n'.
Proof.
  intros W Hv Hb. pose proof (wf_execute now n (Admin.Ban nick reason) W) as W'.
  assert (R : ∀ m, fold nick ∈ n_banned m →
    ∀ id x, fold (trim x) = fold nick → core (on_nick now' id x m) = core m).
  { intros m Hm id x Hx. apply nick_refused. rewrite <- Hx in Hm. by intros (_ & ? & _). }
  unfold execute in *. rewrite Hv in *. cbn [negb] in *. rewrite decide_False in * by done.
  cbn [fst] in W'. destruct (n_nicks (set_banned (union {[fold nick]}) n) !! fold nick) as [id|] eqn:Hk.
  - rewrite close_set_banned in *. split_and!; [done| |].
    + simpl. by apply close_frees_nick.
    + apply R. simpl. clear. set_solver.
  - split_and!; [done|done|]. apply R. simpl. clear. set_solver.
Qed.

Lemma kick_member_channels now n key victim by_ reason k :
  n_channels (kick_member now key victim by_ reason n) !! k =
    if decide (k = key) then n_channels n !! k ≫= left_by victim else n_channels n !! k.
Proof.
  unfold kick_member. destruct (n_channels n !! key) as [c|] eqn:Hc.
  - rewrite leave_channels. rewrite (core_channels _ n) by (by autorewrite with core). done.
  - case_decide; [subst; by rewrite Hc|done].
Qed.

(** Closing a channel succeeds whenever it exists: the channel is gone, no
    client is recorded as being in it, every other channel is untouched, and
    nobody is disconnected by it. *)
Theorem close_channel_empties (now : N) (n : Network) (channel : str) (reason : option str) :
  wf n → is_Some (n_channels n !! fold channel) →
  let '(n', outcome) := execute now (Admin.CloseChannel channel reason) n in
  (∃ text, outcome = Ok text)
  ∧ n_channels n' !! fold channel = None
  ∧ (∀ id c, n_clients n' !! id = Some c → fold channel ∉ c_channels c)
  ∧ (∀ k, k ≠ fold channel → n_channels n' !! k = n_channels n !! k)
  ∧ (∀ id, is_Some (n_clients n !! id) → is_Some (n_clients n' !! id)).
Proof.
  intros W [c0 Hc0]. unfold execute, channel_key. rewrite bool_decide_true by eauto.
  set (key := fold channel) in *. set (why := default _ _).
  set (f := λ n m, kick_member now key m (server_prefix n) (Some why) n).
  assert (G : ∀ l m, wf m →
    (∀ c, n_channels m !! key = Some c → ∀ i, i ∈ ch_members c → i ∈ l) →
    (∀ k, k ≠ key → n_channels m !! k = n_channels n !! k) →
    (∀ id, is_Some (n_clients n !! id) → is_Some (n_clients m !! id)) →
    let r := foldl f m l in
    wf r ∧ n_channels r !! key = None ∧ (∀ k, k ≠ key → n_channels r !! k = n_channels n !! k)
    ∧ (∀ id, is_Some (n_clients n !! id) → is_Some (n_clients r !! id))).
  { induction l as [|x l IH]; intros m Wm Hl Ho Hcl; cbn [foldl].
    - split_and!; [done| |done|done]. destruct (n_channels m !! key) as [c|] eqn:Hc; [|done].
      destruct (wf_channel m Wm key c Hc) as (_ & _ & Hne & _).
      apply set_choose_L in Hne as [i Hi]. by apply (Hl c eq_refl), not_elem_of_nil in Hi.
    - apply IH.
      + by apply wf_kick_member.
      + intros c. unfold f. rewrite kick_member_channels, decide_True by done.
        intros (c' & Hc' & [-> _]%left_by_Some)%bind_Some i Hi. simpl in Hi.
        apply elem_of_difference in Hi as [Hi Hne%not_elem_of_singleton].
        specialize (Hl c' Hc' i Hi). apply elem_of_cons in Hl as [->|]; done.
      + intros k Hk. unfold f. rewrite kick_member_channels, decide_False by done. by apply Ho.
      + intros id Hid. unfold f, kick_member. destruct (n_channels m !! key); [|by apply Hcl].
        rewrite leave_clients, lookup_alter_is_Some.
        rewrite (core_clients _ m) by (by autorewrite with core). by apply Hcl. }
  destruct (G (members_sorted n key) n W) as (Wr & Hk & Ho & Hcl); [|done|done|].
  - intros c Hc i Hi. unfold members_sorted. rewrite Hc.
    rewrite (merge_sort_Permutation N.le). by apply elem_of_elements.
  - split_and!; [eauto|done| |done|done].
    intros id c Hc Hin. destruct (wf_joined _ Wr id c key Hc Hin) as (? & ? & _). congruence.
Qed.

(** * Where the documentation says something else *)

(** The message counter moves for every PRIVMSG or NOTICE with a target and
    a text, delivered or not: one sent to nobody is counted like any other. *)
Theorem messages_total_counts_attempts (now : N) (n : Network) (id : ClientId) (target text : str)
    (notice : bool) :
  target ≠ [] → text ≠ [] →
  n_messages_total (on_message now id target text notice n) = u64_add (n_messages_total n) 1
  ∧ (accepted n id target = false → recipients n id target = ∅).
Proof.
  intros Ht Hx. split.
  - rewrite on_message_eq by done.
    assert (S : ∀ m i n', n_messages_total (send i m n') = n_messages_total n').
    { intros. unfold send. by case_match. }
    assert (B : ∀ k m e n', n_messages_total (broadcast k m e n') = n_messages_total n').
    { intros. unfold broadcast. case_match; [|done]. apply foldl_proj. intros.
      case_decide; [done|apply S]. }
    assert (D : ∀ m n', n_messages_total (deliver id target m notice n') = n_messages_total n').
    { intros. unfold deliver, numeric_args. repeat case_match; rewrite ?S, ?B; done. }
    rewrite D. unfold reported, emit. repeat case_match; done.
  - unfold accepted, recipients, is_member. destruct (is_channel target).
    + destruct (n_channels n !! fold target) as [c|]; [|done]. intros H. bool_simp.
      by rewrite decide_False.
    + destruct (n_nicks n !! fold target); [|done]. intros H. bool_simp. destruct H. eauto.
Qed.

(** * A small session on the server, and the server's theorems at work on it. *)

(** No command of the session reaches [String::from(&command)]. *)
Definition no_text (_ : Command) : str := [].

Definition line (id : ClientId) (c : Command) : Event := Line id (mkMessage None c).

Definition arrive (id : ClientId) (nick : str) : list Event :=
  [line id (NICK nick); line id (USER nick (lit "0") nick)].

Definition run (n : Network) (l : list Event) : Network := foldl (λ n e, dispatch 7 no_text e n) n l.

Definition start : Network := s_net (initial (lit "1.0") 7 (lit "ddirc.local") (lit "Local")).

(** Alice, who made #room and runs it, Bob, who joined it, and Carol, who is in
    no channel. *)
Definition demo : Network :=
  run (connect 7 3 (connect 7 2 (connect 7 1 start)))
    (arrive 1 (lit "alice") ++ arrive 2 (lit "bob") ++ arrive 3 (lit "carol")
     ++ [line 1 (JOIN (lit "#Room") None None); line 2 (JOIN (lit "#room") None None)]).

Lemma run_wf n l : wf n → Forall (λ e, ∀ id, e ≠ Connected id) l → wf (run n l).
Proof.
  intros W Hl. revert n W. induction Hl as [|e l He _ IH]; intros n W; [done|].
  apply IH. by apply dispatch_wf.
Qed.

Lemma demo_wf : wf demo.
Proof.
  unfold demo. apply run_wf; [|by repeat constructor].
  repeat (apply wf_connect; [|vm_compute; reflexivity]).
  apply (server_ok_initial (lit "1.0") 7 (lit "ddirc.local") (lit "Local")).
Qed.

(** The session, evaluated: Bob says hello in the room and Alice hears it. *)
Example demo_hello :
  inbox 1 (on_message 7 2 (lit "#ROOM") (lit "hello") false demo) =
  inbox 1 demo ++ [mkMessage (Some (Nickname (lit "bob") (lit "bob") HOST))
                     (PRIVMSG (lit "#ROOM") (lit "hello"))].
Proof. vm_compute. reflexivity. Qed.

(** Look a client of the session up. *)
Ltac here := vm_compute; eexists; reflexivity.

(** One connection accepted and announced. *)
Definition first_client : Server :=
  mkServer 2 (({[1%N]} ∪ ∅) ∖ {[1%N]}) (dispatch 7 no_text (Connected 1) start).

Lemma first_client_reached :
  rtc (step no_text) (initial (lit "1.0") 7 (lit "ddirc.local") (lit "Local")) first_client.
Proof.
  eapply rtc_l; [apply (step_accept no_text 1); lia|].
  eapply rtc_l; [apply (step_connected no_text 7 1); set_solver|]. apply rtc_refl.
Qed.

Lemma reachable_wf_witness : wf (s_net first_client).
Proof. exact (reachable_wf no_text _ _ _ 7 first_client first_client_reached). Defined.

Lemma operator_log_safe_witness : log_ok (s_net first_client).
Proof. exact (operator_log_safe no_text _ _ _ 7 first_client first_client_reached). Defined.

Lemma on_message_delivery_witness :
  inbox 1 (on_message 7 2 (lit "#ROOM") (lit "hello") false demo) =
    inbox 1 demo ++ [relay demo 2 (lit "#ROOM") (lit "hello") false] ++ [].
Proof.
  rewrite (on_message_delivery 7 demo 2 1 (lit "#ROOM") (lit "hello") false demo_wf);
    [vm_compute; reflexivity|here|done|done].
Defined.

Lemma disconnect_announced_witness :
  n_clients (disconnect 7 2 (lit "Connection closed") demo) !! 2%N = None.
Proof.
  destruct (n_clients demo !! 2%N) as [c|] eqn:Hc; [|vm_compute in Hc; discriminate].
  apply (disconnect_announced 7 demo 2 1 c (lit "Connection closed") demo_wf Hc); done.
Defined.

Lemma demo_alicia_free : nick_free demo 1 (trim (lit " alicia ")).
Proof.
  split_and!; [reflexivity|vm_compute; intros H; inversion H|].
  intros h Hh. vm_compute in Hh. discriminate.
Qed.

Lemma rename_announced_witness : nick_of (on_nick 7 1 (lit " alicia ") demo) 1 = lit "alicia".
Proof.
  destruct (n_clients demo !! 1%N) as [c|] eqn:Hc; [|vm_compute in Hc; discriminate].
  assert (Hr : c_registered c = true ∧ c_nick c = Some (lit "alice")).
  { vm_compute in Hc. injection Hc as <-. by split. }
  apply (rename_announced 7 demo 1 1 c (lit "alice") (lit " alicia ") demo_wf Hc (proj1 Hr)
           (proj2 Hr) demo_alicia_free ltac:(done)).
Defined.

Lemma nick_refused_witness : core (on_nick 7 1 (lit "BOB") demo) = core demo.
Proof.
  apply (nick_refused 7 demo 1 (lit "BOB")). intros (_ & _ & H).
  specialize (H 2%N ltac:(vm_compute; reflexivity)). discriminate.
Defined.

Lemma join_part_roundtrip_witness :
  core (on_part 8 3 (lit "#room") None (on_join 7 3 (lit "#room") demo)) = core demo.
Proof. apply (join_part_roundtrip 7 8 demo 3 (lit "#room") None demo_wf); reflexivity. Defined.

Lemma unregistered_refused_witness :
  core (handle 7 no_text 1 (mkMessage None (MOTD None)) (s_net first_client))
  = core (s_net first_client).
Proof.
  destruct (n_clients (s_net first_client) !! 1%N) as [c|] eqn:Hc; [|vm_compute in Hc; discriminate].
  assert (Hr : c_registered c = false) by (vm_compute in Hc; injection Hc as <-; done).
  exact (proj1 (unregistered_refused 7 no_text _ 1 1 c (mkMessage None (MOTD None)) Hc Hr)).
Defined.

Lemma kick_needs_operator_witness :
  core (on_kick 7 2 (lit "#room") (lit "alice") None demo) = core demo
  ∧ is_member (on_kick 7 1 (lit "#room") (lit "bob") None demo) (lit "#room") 2 = false.
Proof.
  split.
  - apply (kick_needs_operator 7 demo 2 (lit "#room") (lit "alice") None demo_wf).
    intros (v & c & Hc & Ho & _). vm_compute in Hc. injection Hc as <-. vm_compute in Ho. done.
  - destruct (n_channels demo !! fold (lit "#room")) as [c|] eqn:Hc; [|vm_compute in Hc; discriminate].
    rewrite (proj1 (kick_needs_operator 7 demo 1 (lit "#room") (lit "bob") None demo_wf) 2%N);
      [reflexivity|].
    exists c. vm_compute in Hc. injection Hc as <-. split_and!; [reflexivity..|vm_compute; reflexivity].
Defined.

Lemma ban_takes_effect_witness :
  n_nicks (execute 7 (Admin.Ban (lit "Bob") None) demo).1 !! lit "bob" = None.
Proof.
  assert (Hb : fold (lit "Bob") ∉ n_banned demo) by (vm_compute; intros H; inversion H).
  pose proof (ban_takes_effect 7 8 demo (lit "Bob") None demo_wf eq_refl Hb) as H.
  destruct (execute 7 (Admin.Ban (lit "Bob") None) demo) as [n' r]. exact (proj1 (proj2 H)).
Defined.

Lemma close_channel_empties_witness :
  n_channels (execute 7 (Admin.CloseChannel (lit "#room") None) demo).1 !! lit "#room" = None.
Proof.
  pose proof (close_channel_empties 7 demo (lit "#room") None demo_wf ltac:(here)) as H.
  destruct (execute 7 (Admin.CloseChannel (lit "#room") None) demo) as [n' r].
  exact (proj1 (proj2 H)).
Defined.

Lemma messages_total_counts_attempts_witness :
  n_messages_total (on_message 7 3 (lit "nobody") (lit "hi") true demo) = 1%N
  ∧ recipients demo 3 (lit "nobody") = ∅.
Proof.
  destruct (messages_total_counts_attempts 7 demo 3 (lit "nobody") (lit "hi") true) as [H1 H2];
    [done|done|]. split; [rewrite H1; reflexivity|apply H2; reflexivity].
Defined.

(** * What the operator's snapshot leaves unescaped *)

(** Someone called "a", right-to-left override, "b", alone in #x. *)
Definition bidi_nick : str := [97%N; 0x202e%N; 98%N].
Definition bidi_session : Network :=
  run (connect 7 1 start) (arrive 1 bidi_nick ++ [line 1 (JOIN (lit "#x") None None)]).

(** The snapshot escapes what a client said about itself in the list of
    users, but not in the list of a channel's members: a nick with a
    direction-changing character, which [valid_nick] admits, is shown there as
    it is. *)
Theorem snapshot_members_unescaped :
  (∀ n u, u ∈ Admin.s_users (snapshot n) → ∀ x, Admin.ui_nick u = Some x → Admin.printable x)
  ∧ Exists (λ ci, Exists (λ mi, ¬ Admin.printable (Admin.mi_nick mi)) (Admin.ci_members ci))
      (Admin.s_channels (snapshot bidi_session)).
Proof.
  split.
  - intros n u Hu x Hx. cbn [snapshot Admin.s_users] in Hu.
    assert (P : ∀ l, u ∈ sort_by user_cmp l → u ∈ l).
    { induction l as [|y l IH]; [done|]. simpl. intros H.
      assert (I : ∀ z k, u ∈ insert_by user_cmp z k → u = z ∨ u ∈ k).
      { induction k as [|w k IHk]; simpl; [set_solver|]. case_match; set_solver. }
      apply I in H as [->|H]; [left|right]. by apply IH. }
    apply P in Hu. apply list_elem_of_fmap in Hu as ([id c] & -> & _). simpl in Hx.
    destruct (c_nick c); [|done]. injection Hx as <-. apply Admin.clean_printable.
  - apply Exists_exists. eexists. split; [vm_compute; left|].
    apply Exists_cons_hd. simpl. intros H. inversion H as [|? ? _ H']. inversion H' as [|? ? [_ B] _].
    vm_compute in B. discriminate.
Qed.
