(* ===== verification/Identity.v ===== *)
(** The local server's certificate and where its key is kept
    ([ddirc-server/src/identity.rs]), on Unix.

    A file system is a map from paths to what is there, and every call on it may
    fail for a reason of the machine's own, or be the last thing the process
    does: [luck] says which, one call after the other. The library that makes
    keys and certificates is a parameter, and what its random numbers come to
    an input. *)
From Stdlib Require Import Lia ZArith.
From S2P Require Import Prelude RustStr.

(** * Base64 and PEM *)

Definition TABLE : str := lit "ABCDEFGHIJKLMNOPQRSTUVWXYZabcdefghijklmnopqrstuvwxyz0123456789+/".

(** [TABLE.iter().position(..)]. *)
Fixpoint index_in (table : str) (c : char) (i : N) : option N :=
  match table with
  | [] => None
  | t :: table => if (t =? c)%N then Some i else index_in table c (i + 1)
  end.

(** The loop of [base64_decode], [acc] a [u32]. A character that is not ASCII
    is not in the table, and neither are its bytes. *)
Fixpoint decode_loop (s : str) (acc bits : N) : option (list N) :=
  match s with
  | [] => Some []
  | c :: s =>
      if (c =? ch "=")%N then Some []
      else
        match index_in TABLE c 0 with
        | None => None
        | Some v =>
            let acc := N.lor (N.shiftl acc 6 mod 2 ^ 32) v in
            let bits := (bits + 6)%N in
            if (8 <=? bits)%N then
              let bits := (bits - 8)%N in
              rest ← decode_loop s acc bits; Some ((N.shiftr acc bits mod 256)%N :: rest)
            else decode_loop s acc bits
        end
  end.
Definition base64_decode (s : str) : option (list N) := decode_loop s 0 0.

(** [str::lines]: what is between line feeds, without a carriage return before
    one; nothing after the last. *)
Definition chomp (l : str) : str :=
  match rev l with c :: r => if (c =? 13)%N then rev r else l | [] => l end.
Fixpoint lines_from (s line : str) : list str :=
  match s with
  | [] => if is_empty line then [] else [rev line]
  | c :: s => if (c =? 10)%N then chomp (rev line) :: lines_from s [] else lines_from s (c :: line)
  end.
Definition lines (s : str) : list str := lines_from s [].

Fixpoint skip_while (f : str → bool) (l : list str) : list str :=
  match l with [] => [] | x :: r => if f x then skip_while f r else l end.
Fixpoint take_lines (f : str → bool) (l : list str) : list str :=
  match l with [] => [] | x :: r => if f x then x :: take_lines f r else [] end.

Definition pem_to_der (pem : str) : option (list N) :=
  let body := concat (take_lines (λ l, negb (starts_with (lit "-----END") l))
                        (drop 1 (skip_while (λ l, negb (starts_with (lit "-----BEGIN") l)) (lines pem)))) in
  base64_decode (trim body).

(** ** As RFC 4648 and RFC 7468 have it *)

Definition digit64 (v : N) : char := nth (N.to_nat v) TABLE 0%N.
Fixpoint base64 (bytes : list N) : str :=
  match bytes with
  | a :: b :: c :: r =>
      [digit64 (a / 4); digit64 (a mod 4 * 16 + b / 16); digit64 (b mod 16 * 4 + c / 64); digit64 (c mod 64)]%N ++ base64 r
  | [a; b] => [digit64 (a / 4); digit64 (a mod 4 * 16 + b / 16); digit64 (b mod 16 * 4); ch "="]%N
  | [a] => [digit64 (a / 4); digit64 (a mod 4 * 16); ch "="; ch "="]%N
  | [] => []
  end.

(** A text that is one block: its base64 over lines of any length. *)
Definition is_pem (text : str) (der : list N) : Prop :=
  ∃ eol label body, (eol = [10%N] ∨ eol = [13%N; 10%N]) ∧ 10%N ∉ label ∧ concat body = base64 der ∧
    text = concat (map (λ l, l ++ eol) ([lit "-----BEGIN " ++ label ++ lit "-----"] ++ body ++ [lit "-----END " ++ label ++ lit "-----"])).

Definition byte (b : N) : Prop := (b < 256)%N.

Lemma lor_digit a v : (v < 64)%N → (N.lor (N.shiftl a 6 mod 2 ^ 32) v = (64 * a + v) mod 2 ^ 32)%N.
Proof.
  intros Hv. assert (N.shiftl a 6 mod 2 ^ 32 = N.shiftl (a mod 2 ^ 26) 6)%N as ->.
  { rewrite !N.shiftl_mul_pow2. change (2 ^ 32)%N with (2 ^ 26 * 2 ^ 6)%N. by rewrite N.Div0.mul_mod_distr_r. }
  assert (N.land (N.shiftl (a mod 2 ^ 26) 6) v = 0)%N as H0.
  { apply N.bits_inj_0. intros i. rewrite N.land_spec. destruct (N.lt_ge_cases i 6) as [Hi|Hi].
    - by rewrite N.shiftl_spec_low.
    - rewrite <- (N.mod_small v (2 ^ 6)) by done. by rewrite N.mod_pow2_bits_high, andb_false_r. }
  rewrite <- N.lxor_lor, <- N.add_nocarry_lxor by done. rewrite N.shiftl_mul_pow2.
  change (2 ^ 26)%N with 67108864%N. change (2 ^ 6)%N with 64%N. change (2 ^ 32)%N with 4294967296%N. zify. Z.to_euclidean_division_equations. lia.
Qed.

Lemma index_digit v : (v < 64)%N → index_in TABLE (digit64 v) 0 = Some v ∧ digit64 v ≠ ch "=".
Proof.
  intros Hv.
  assert (Forall (λ i, index_in TABLE (digit64 (N.of_nat i)) 0 = Some (N.of_nat i) ∧ digit64 (N.of_nat i) ≠ ch "=") (seq 0 64)) as H.
  { repeat (apply Forall_cons_2; [vm_compute; split; congruence|]). apply Forall_nil_2. }
  rewrite Forall_forall in H. specialize (H (N.to_nat v)). rewrite N2Nat.id in H. apply H. apply elem_of_seq. lia.
Qed.

Definition push (acc v : N) : N := ((64 * acc + v) mod 4294967296)%N.

Lemma decode_digit v s acc bits : (v < 64)%N →
  decode_loop (digit64 v :: s) acc bits =
    if (8 <=? bits + 6)%N
    then rest ← decode_loop s (push acc v) (bits + 6 - 8)%N; Some ((push acc v / 2 ^ (bits + 6 - 8) mod 256)%N :: rest)
    else decode_loop s (push acc v) (bits + 6)%N.
Proof.
  intros Hv. destruct (index_digit v Hv) as [H1 H2]. cbn [decode_loop].
  rewrite (proj2 (N.eqb_neq _ _) H2), H1, lor_digit, N.shiftr_div_pow2 by done. done.
Qed.

Ltac bits := unfold push; zify; Z.to_euclidean_division_equations; lia.

(** What is above the bits that are read does not matter. *)
Lemma out_first acc a w : byte a → (w < 16)%N → (push (push acc (a / 4)) (a mod 4 * 16 + w) / 16 mod 256 = a)%N.
Proof. unfold byte. intros Ha Hw. bits. Qed.
Lemma out_second acc k b w : byte b → (w < 4)%N → (push (push acc (k * 16 + b / 16)) (b mod 16 * 4 + w) / 4 mod 256 = b)%N.
Proof. unfold byte. intros Ha Hw. bits. Qed.
Lemma out_third acc k c : byte c → (push (push acc (k * 4 + c / 64)) (c mod 64) mod 256 = c)%N.
Proof. unfold byte. intros Ha. bits. Qed.

Lemma decode_0 v s acc : (v < 64)%N → decode_loop (digit64 v :: s) acc 0 = decode_loop s (push acc v) 6.
Proof. intros Hv. by rewrite decode_digit. Qed.
Lemma decode_6 v s acc : (v < 64)%N →
  decode_loop (digit64 v :: s) acc 6 = rest ← decode_loop s (push acc v) 4; Some ((push acc v / 16 mod 256)%N :: rest).
Proof. intros Hv. by rewrite decode_digit. Qed.
Lemma decode_4 v s acc : (v < 64)%N →
  decode_loop (digit64 v :: s) acc 4 = rest ← decode_loop s (push acc v) 2; Some ((push acc v / 4 mod 256)%N :: rest).
Proof. intros Hv. by rewrite decode_digit. Qed.
Lemma decode_2 v s acc : (v < 64)%N →
  decode_loop (digit64 v :: s) acc 2 = rest ← decode_loop s (push acc v) 0; Some ((push acc v mod 256)%N :: rest).
Proof. intros Hv. rewrite decode_digit by done. change (2 ^ (2 + 6 - 8))%N with 1%N. by rewrite N.div_1_r. Qed.

Lemma digits_fit a b c : byte a → byte b → byte c →
  (a / 4 < 64 ∧ a mod 4 * 16 + b / 16 < 64 ∧ b mod 16 * 4 + c / 64 < 64 ∧ c mod 64 < 64 ∧ b / 16 < 16 ∧ c / 64 < 4)%N.
Proof. unfold byte. intros. split_and!; bits. Qed.

(** What was encoded is decoded, byte for byte. *)
Lemma decode_encoded der acc : Forall byte der → decode_loop (base64 der) acc 0 = Some der.
Proof.
  revert acc. induction der as [der IH] using (induction_ltof1 _ (@length N)). intros acc Hd.
  destruct der as [|a [|b [|c der]]]; [done|..].
  - apply Forall_cons in Hd as [Ha _]. destruct (digits_fit a 0 0) as (H1 & H2 & _); [done..|].
    cbn [base64]. rewrite decode_0, decode_6 by (try done; bits). cbn [decode_loop N.eqb]. 
    change (ch "=" =? ch "=")%N with true. cbv iota. cbn [mbind option_bind].
    rewrite <- (N.add_0_r (a mod 4 * 16)), out_first by done. done.
  - apply Forall_cons in Hd as [Ha [Hb _]%Forall_cons]. destruct (digits_fit a b 0) as (H1 & H2 & H3 & _ & H4 & _); [done..|].
    change (0 / 64)%N with 0%N in H3. rewrite N.add_0_r in H3.
    cbn [base64]. rewrite decode_0, decode_6, decode_4 by done. cbn [decode_loop].
    change (ch "=" =? ch "=")%N with true. cbv iota. cbn [mbind option_bind].
    rewrite out_first, <- (N.add_0_r (b mod 16 * 4)), out_second by done. done.
  - apply Forall_cons in Hd as [Ha [Hb [Hc Hd]%Forall_cons]%Forall_cons].
    destruct (digits_fit a b c) as (H1 & H2 & H3 & H4 & H5 & H6); [done..|].
    cbn [base64 app]. rewrite decode_0, decode_6, decode_4, decode_2 by done.
    rewrite IH; [|unfold ltof; cbn; lia|done]. cbn [mbind option_bind].
    by rewrite out_first, out_second, out_third.
Qed.

(** ** Lines *)

Lemma chomp_keeps l : last l ≠ Some 13%N → chomp l = l.
Proof.
  unfold chomp. intros H. destruct (rev l) as [|c r] eqn:E; [done|].
  assert (l = rev r ++ [c]) as -> by (rewrite <- (rev_involutive l), E; done).
  rewrite last_snoc in H. by rewrite (proj2 (N.eqb_neq c 13)) by congruence.
Qed.
Lemma chomp_cr l : chomp (l ++ [13%N]) = l.
Proof. unfold chomp. rewrite rev_app_distr. cbn. apply rev_involutive. Qed.

Lemma lines_from_one l s acc : 10%N ∉ l → lines_from (l ++ 10%N :: s) acc = chomp (rev acc ++ l) :: lines_from s [].
Proof.
  revert acc. induction l as [|c l IH]; intros acc Hl; cbn; [by rewrite app_nil_r|].
  rewrite (proj2 (N.eqb_neq c 10)) by set_solver. rewrite IH by set_solver. cbn. by rewrite <- app_assoc.
Qed.

Definition a_line (l : str) : Prop := 10%N ∉ l ∧ last l ≠ Some 13%N.

Lemma lines_of eol ls : eol = [10%N] ∨ eol = [13%N; 10%N] → Forall a_line ls → lines (concat (map (λ l, l ++ eol) ls)) = ls.
Proof.
  intros He. unfold lines. induction 1 as [|l ls [H1 H2] _ IH]; [done|]. cbn [map concat].
  destruct He as [->| ->]; rewrite <- !app_assoc; cbn [app].
  - rewrite lines_from_one by done. cbn. by rewrite chomp_keeps, IH.
  - replace (l ++ 13%N :: 10%N :: concat (map (λ l, l ++ [13%N; 10%N]) ls))
      with ((l ++ [13%N]) ++ 10%N :: concat (map (λ l, l ++ [13%N; 10%N]) ls)) by (by rewrite <- app_assoc).
    rewrite lines_from_one by set_solver. cbn. by rewrite chomp_cr, IH.
Qed.

(** The characters of base64 are not those of anything else in a block. *)
Definition plain64 (c : char) : bool := negb ((c =? 10) || (c =? 13) || (c =? ch "-"))%N && negb (is_whitespace c).

Lemma digit_plain v : (v < 64)%N → plain64 (digit64 v) = true.
Proof.
  intros Hv. assert (forallb plain64 TABLE = true) as H by (vm_compute; reflexivity).
  rewrite forallb_forall in H. apply H. unfold digit64. apply nth_In. change (length TABLE) with 64. lia.
Qed.

Lemma base64_plain der : Forall byte der → Forall (λ c, plain64 c = true) (base64 der).
Proof.
  induction der as [der IH] using (induction_ltof1 _ (@length N)). intros Hd.
  destruct der as [|a [|b [|c der]]]; [by apply Forall_nil_2|..].
  - apply Forall_cons in Hd as [Ha _]. destruct (digits_fit a 0 0) as (H1 & H2 & _); [done..|].
    cbn [base64]. repeat (apply Forall_cons_2; [first [by apply digit_plain|apply digit_plain; bits|done]|]). apply Forall_nil_2.
  - apply Forall_cons in Hd as [Ha [Hb _]%Forall_cons]. destruct (digits_fit a b 0) as (H1 & H2 & H3 & _); [done..|].
    change (0 / 64)%N with 0%N in H3. rewrite N.add_0_r in H3.
    cbn [base64]. repeat (apply Forall_cons_2; [first [by apply digit_plain|done]|]). apply Forall_nil_2.
  - apply Forall_cons in Hd as [Ha [Hb [Hc Hd]%Forall_cons]%Forall_cons].
    destruct (digits_fit a b c) as (H1 & H2 & H3 & H4 & _); [done..|].
    cbn [base64 app]. repeat (apply Forall_cons_2; [by apply digit_plain|]). apply IH; [unfold ltof; cbn; lia|done].
Qed.

Lemma trim_plain s : Forall (λ c, plain64 c = true) s → trim s = s.
Proof.
  intros H. assert (∀ c, c ∈ s → is_whitespace c = false) as Hw.
  { intros c Hc. rewrite Forall_forall in H. apply H, andb_true_iff in Hc as [_ Hc]. by apply negb_true_iff. }
  unfold trim. assert (trim_start s = s) as ->.
  { apply drop_while_id. destruct s; [done|]. apply Hw. set_solver. }
  apply trim_end_matches_id. intros c Hc%last_Some_elem_of. by apply Hw.
Qed.

Lemma take_body f (ls : list str) l rest : Forall (λ x, f x = true) ls → f l = false → take_lines f (ls ++ l :: rest) = ls.
Proof. induction 1 as [|x ls Hx _ IH]; intros Hl; cbn; [by rewrite Hl|]. by rewrite Hx, IH. Qed.

Lemma plain_line l : Forall (λ c, plain64 c = true) l → a_line l ∧ starts_with (lit "-----END") l = false.
Proof.
  intros H. rewrite Forall_forall in H. split; [split|].
  - intros Hc. by apply H in Hc.
  - intros Hc%last_Some_elem_of. by apply H in Hc.
  - destruct l as [|c l]; [done|]. cbn [starts_with lit]. destruct (N.eqb_spec (ch "-") c) as [<-|Hc].
    + assert (plain64 (ch "-") = true) as Hp by (apply H; set_solver). vm_compute in Hp. done.
    + change (starts_with (lit "-----END") (c :: l)) with ((ch "-" =? c)%N && starts_with (lit "----END") l).
      by rewrite (proj2 (N.eqb_neq _ _) Hc).
Qed.

(** A certificate is read back from its text as it was written, whatever the
    label, the length of the lines and how they end. *)
Theorem pem_roundtrip (text : str) (der : list N) : is_pem text der → Forall byte der → pem_to_der text = Some der.
Proof.
  intros (eol & label & body & He & Hl & Hb & ->) Hd. pose proof (base64_plain der Hd) as Hp. rewrite <- Hb in Hp.
  assert (Forall (λ l, a_line l ∧ starts_with (lit "-----END") l = false) body) as Hbody.
  { apply Forall_forall. intros l Hin. apply plain_line. apply Forall_forall. intros c Hc.
    rewrite Forall_forall in Hp. apply Hp. apply list_elem_of_In, in_concat. exists l. by rewrite <- !list_elem_of_In. }
  assert (∀ w, 10%N ∉ lit w → a_line (lit w ++ label ++ lit "-----")) as Hedge.
  { intros w Hw. split; [|by rewrite !last_app].
    rewrite !elem_of_app. intros [?|[?|Hc]]; [done..|]. vm_compute in Hc. set_solver. }
  unfold pem_to_der. rewrite lines_of; [|done|].
  2:{ apply Forall_app; split; [apply Forall_singleton, Hedge|apply Forall_app; split; [|apply Forall_singleton, Hedge]].
      - vm_compute. set_solver.
      - eapply Forall_impl; [exact Hbody|]. by intros l [? _].
      - vm_compute. set_solver. }
  cbn [app skip_while]. change (starts_with (lit "-----BEGIN") (lit "-----BEGIN " ++ _)) with true. cbn [negb drop]. rewrite drop_0.
  rewrite take_body; [|eapply Forall_impl; [exact Hbody|]; by intros l [_ ->]|done].
  rewrite trim_plain by done. rewrite Hb. by apply decode_encoded.
Qed.

(** * The file system *)

Inductive Node :=
  | File (owner mode : N) (text : str)
  | Directory (owner mode : N)
  | Link (to : str).
Abbreviation Fs := (@gmap str (list_eq_dec (A := N)) (list_countable (A := N)) Node).

(** How a call turns out: as it should, with an error of the machine's, or not
    at all because the process is gone; [after] is how much of a write was done. *)
Inductive Luck := Fine | Fails (after : nat) (why : str) | Dies (after : nat).
Record World := mkWorld { files : Fs; luck : list Luck }.

Inductive IoError := NotFound | OtherError (why : str).
Inductive IdentityError := Io (path : str) (source : IoError) | Generate (why : str) | Corrupt (path : str).

(** [None] is the end of the process. *)
Definition M (E A : Type) : Type := World → World * option (result A E).
Definition ret {E A} (r : result A E) : M E A := λ w, (w, Some r).
Definition bind {E A B} (m : M E A) (k : A → M E B) : M E B := λ w,
  match m w with
  | (w, Some (Ok a)) => k a w
  | (w, Some (Err e)) => (w, Some (Err e))
  | (w, None) => (w, None)
  end.
Definition map_err {E F A} (f : E → F) (m : M E A) : M F A := λ w,
  match m w with
  | (w, Some (Ok a)) => (w, Some (Ok a))
  | (w, Some (Err e)) => (w, Some (Err (f e)))
  | (w, None) => (w, None)
  end.
(** The result as a value, for code that looks at its errors. *)
Definition attempt {E F A} (m : M E A) : M F (result A E) := λ w,
  match m w with
  | (w, Some r) => (w, Some (Ok r))
  | (w, None) => (w, None)
  end.
Notation "'let*' x ':=' m 'in' k" := (bind m (λ x, k)) (at level 100, x name, right associativity).

(** A call: [op] if it succeeds, [part n] if it stops after [n] bytes. *)
Definition call_with {A : Type} (part : nat → Fs → Fs) (op : Fs → Fs * result A IoError) : M IoError A := λ w,
  let done l := let '(fs, r) := op (files w) in (mkWorld fs l, Some r) in
  match luck w with
  | [] => done []
  | Fine :: l => done l
  | Fails n why :: l => (mkWorld (part n (files w)) l, Some (Err (OtherError why)))
  | Dies n :: l => (mkWorld (part n (files w)) l, None)
  end.
Definition call {A : Type} (op : Fs → Fs * result A IoError) : M IoError A := call_with (λ _ fs, fs) op.
Definition look {A : Type} (op : Fs → result A IoError) : M IoError A := call (λ fs, (fs, op fs)).

(** A mode as it is written, in octal. *)
Definition oct (user group others : N) : N := (64 * user + 8 * group + others)%N.

(** Where a path leads, through at most as many links as the system follows. *)
Definition MAX_LINKS : nat := 40.
Fixpoint follow (fuel : nat) (fs : Fs) (p : str) : option str :=
  match fs !! p with
  | Some (Link q) => match fuel with O => None | S fuel => follow fuel fs q end
  | _ => Some p
  end.
Definition resolve (fs : Fs) (p : str) : option str := follow MAX_LINKS fs p.

Definition set_text (p text : str) (fs : Fs) : Fs :=
  alter (λ n, match n with File o m _ => File o m text | _ => n end) p fs.

Section FileSystem.
(** The user the process runs as, and what its new files are not given. *)
Context (euid umask : N).

Definition symlink_metadata (p : str) : M IoError Node :=
  look (λ fs, match fs !! p with Some n => Ok n | None => Err NotFound end).
Definition exists_ {E} (p : str) : M E bool :=
  let* r := attempt (look (λ fs, match resolve fs p with Some q => match fs !! q with Some _ => Ok tt | None => Err NotFound end | None => Err (OtherError []) end)) in
  ret (Ok (match r with Ok _ => true | Err _ => false end)).
(** The directories above are made too, and nothing here looks at them. *)
Definition mkdir (p : str) (fs : Fs) : Fs * result unit IoError :=
  match fs !! p with
  | None => (<[p := Directory euid (N.ldiff (oct 7 7 7) umask)]> fs, Ok tt)
  | Some _ =>
      match resolve fs p with
      | Some q => match fs !! q with Some (Directory _ _) => (fs, Ok tt) | _ => (fs, Err (OtherError (lit "File exists"))) end
      | None => (fs, Err (OtherError (lit "File exists")))
      end
  end.
Definition create_dir_all (p : str) : M IoError unit := call (mkdir p).
(** [O_NOFOLLOW | O_DIRECTORY], and the calls on what was opened. *)
Definition open_dir (p : str) : M IoError unit :=
  look (λ fs, match fs !! p with
              | Some (Directory _ _) => Ok tt
              | Some _ => Err (OtherError (lit "Not a directory"))
              | None => Err NotFound
              end).
Definition dir_metadata (p : str) : M IoError (N * N) :=
  look (λ fs, match fs !! p with Some (Directory o m) => Ok (o, m) | _ => Err (OtherError []) end).
Definition set_permissions (p : str) (mode : N) : M IoError unit :=
  call (λ fs, (alter (λ n, match n with Directory o _ => Directory o mode | _ => n end) p fs, Ok tt)).

Definition write_all (p text : str) : M IoError unit :=
  call_with (λ n, set_text p (take n text)) (λ fs, (set_text p text fs, Ok tt)).

(** [OpenOptions] with [create] and [truncate]: the mode is for a file that is
    made, not for one that is there. *)
Definition open_truncate (p : str) (mode : N) : Fs → Fs * result str IoError := λ fs,
  match fs !! p with
  | None => (<[p := File euid (N.ldiff mode umask) []]> fs, Ok p)
  | Some (File _ _ _) => (set_text p [] fs, Ok p)
  | Some (Directory _ _) => (fs, Err (OtherError (lit "Is a directory")))
  | Some (Link _) => (fs, Err (OtherError (lit "Too many levels of symbolic links")))
  end.
Definition open_following (p : str) (mode : N) : Fs → Fs * result str IoError := λ fs,
  match resolve fs p with
  | Some q => open_truncate q mode fs
  | None => (fs, Err (OtherError (lit "Too many levels of symbolic links")))
  end.

(** * [identity.rs] *)

Definition refuse {A : Type} (p : str) (why : String.string) : M IdentityError A := ret (Err (Io p (OtherError (lit why)))).

Definition prepare_dir (dir : str) : M IdentityError unit :=
  let* meta := attempt (symlink_metadata dir) in
  match meta with
  | Ok (Link _) =>
      refuse dir "the directory is a symbolic link, and the certificate authority's private key will not be put behind one"
  | _ =>
      let* existed := exists_ dir in
      let* _ := map_err (Io dir) (create_dir_all dir) in
      let* _ := map_err (Io dir) (open_dir dir) in
      let* meta := map_err (Io dir) (dir_metadata dir) in
      if negb (meta.1 =? euid)%N then
        refuse dir "the directory belongs to someone else, who could replace the certificate authority's key"
      else if negb existed then map_err (Io dir) (set_permissions dir (oct 7 0 0))
      else if negb (N.land meta.2 (oct 0 2 2) =? 0)%N then
        refuse dir "the directory can be written to by others, so they could replace the certificate authority's key (chmod go-w it, or pass another --data-dir)"
      else ret (Ok tt)
  end.

Definition read_private (p : str) : M IdentityError (option str) :=
  let* opened := attempt (look (λ fs, match fs !! p with
                                     | None => Err NotFound
                                     | Some (Link _) => Err (OtherError (lit "Too many levels of symbolic links"))
                                     | Some _ => Ok tt
                                     end)) in
  match opened with
  | Err NotFound => ret (Ok None)
  | Err e => ret (Err (Io p e))
  | Ok _ =>
      let* meta := map_err (Io p) (symlink_metadata p) in
      if negb match meta with File o m _ => (o =? euid)%N && (N.land m (oct 0 7 7) =? 0)%N | _ => false end then
        refuse p "the private key is not a plain file owned by this user and closed to everyone else; remove it to have a new one issued"
      else
        let* text := map_err (Io p) (look (λ fs, match fs !! p with Some (File _ _ t) => Ok t | _ => Err (OtherError []) end)) in
        ret (Ok (Some text))
  end.

Definition read (p : str) : M IdentityError (option str) :=
  let* r := attempt (look (λ fs,
    match resolve fs p with
    | None => Err (OtherError (lit "Too many levels of symbolic links"))
    | Some q =>
        match fs !! q with
        | None => Err NotFound
        | Some (File _ _ t) => Ok t
        | Some _ => Err (OtherError (lit "Is a directory"))
        end
    end)) in
  match r with
  | Ok s => ret (Ok (Some s))
  | Err NotFound => ret (Ok None)
  | Err e => ret (Err (Io p e))
  end.

Definition write (p contents : str) : M IdentityError unit :=
  let* q := map_err (Io p) (call (open_following p (oct 6 6 6))) in
  map_err (Io p) (write_all q contents).

Definition write_private (p contents : str) : M IdentityError unit :=
  let* q := map_err (Io p) (call (open_truncate p (oct 6 0 0))) in
  let* _ := map_err (Io p) (write_all q contents) in
  map_err (Io p) (look (λ _, Ok tt)).

(** ** Certificates *)

(** What the source sets of a certificate's parameters. *)
Record Params := mkParams {
  names : list str; not_before : Z * N * N; not_after : Z * N * N; is_ca : option N; key_usages : list str;
  common_name : option str; use_authority_key_identifier : bool;
}.

Definition NAMES : list str := map lit ["localhost"; "127.0.0.1"; "::1"]%string.
Definition VALID_FROM : Z * N * N := (2020%Z, 1%N, 1%N).
Definition VALID_UNTIL : Z * N * N := (2120%Z, 1%N, 1%N).
Definition CA_CERT : str := lit "local-server-ca.pem".
Definition CA_KEY : str := lit "local-server-ca.key.pem".

(** [Path::join] of a name. *)
Definition join_path (dir name : str) : str :=
  if is_empty dir || ends_with (lit "/") dir then dir ++ name else dir ++ lit "/" ++ name.

Context {Key Cert : Type}.
Context (names_ok : list str → result unit str) (key_from_pem : str → option Key) (key_to_pem : Key → str).
Context (self_signed : Params → Key → result Cert str) (signed_by : Params → Key → Params * Key → result Cert str).
Context (cert_pem : Cert → str) (cert_der : Cert → list N) (key_der : Key → list N) (der_ok : list N → bool).

Definition generate {A : Type} (r : result A str) : result A IdentityError := match r with Ok a => Ok a | Err e => Err (Generate e) end.

Definition params (names : list str) : result Params IdentityError :=
  rbind (generate (names_ok names)) (λ _, Ok (mkParams names VALID_FROM VALID_UNTIL None [] None false)).

Definition ca_params : result Params IdentityError :=
  rbind (params []) (λ ca,
    Ok (mkParams (names ca) (not_before ca) (not_after ca) (Some 0%N) [lit "KeyCertSign"; lit "CrlSign"]
          (Some (lit "ddIRC local server CA")) (use_authority_key_identifier ca))).

Definition leaf_params : result Params IdentityError :=
  rbind (params NAMES) (λ leaf,
    Ok (mkParams (names leaf) (not_before leaf) (not_after leaf) (is_ca leaf) (key_usages leaf)
          (Some (lit "ddIRC local server")) true)).

(** [drawn] is the key that is generated, if it can be. *)
Definition issue_ca (drawn : result Key str) : result (str * str) IdentityError :=
  rbind (generate drawn) (λ key, rbind ca_params (λ ca, rbind (generate (self_signed ca key)) (λ cert,
    Ok (cert_pem cert, key_to_pem key)))).

Record Identity := mkIdentity { chain : list (list N); leaf_key : list N; anchor_path : str }.

(** What is made of a stored or new authority. *)
Definition mint (cert_path key_path ca_pem ca_key_pem : str) (drawn : result Key str) : result Identity IdentityError :=
  match key_from_pem ca_key_pem with
  | None => Err (Corrupt key_path)
  | Some ca_key =>
      rbind ca_params (λ ca, rbind (generate drawn) (λ key, rbind leaf_params (λ leaf,
        rbind (generate (signed_by leaf key (ca, ca_key))) (λ cert,
          match pem_to_der ca_pem with
          | None => Err (Corrupt cert_path)
          | Some ca_der =>
              if der_ok (key_der key) then Ok (mkIdentity [cert_der cert; ca_der] (key_der key) cert_path)
              else Err (Corrupt key_path)
          end))))
  end.

Definition load_or_create (dir : str) (ca_drawn leaf_drawn : result Key str) : M IdentityError Identity :=
  let cert_path := join_path dir CA_CERT in
  let key_path := join_path dir CA_KEY in
  let* _ := prepare_dir dir in
  let* stored_cert := read cert_path in
  let* stored_key := read_private key_path in
  match stored_cert, stored_key with
  | Some cert, Some key => ret (mint cert_path key_path cert key leaf_drawn)
  | _, _ =>
      let* issued := ret (issue_ca ca_drawn) in
      let* _ := write_private key_path issued.2 in
      let* _ := write cert_path issued.1 in
      ret (mint cert_path key_path issued.1 issued.2 leaf_drawn)
  end.

(** * What is kept of it *)

(** A triple of crash logic: from a file system in [P], [m] ends in [Q] if it
    returns a value, and in [C] however it ends. *)
Definition triple {E A : Type} (P : Fs → Prop) (m : M E A) (Q : A → Fs → Prop) (C : Fs → Prop) : Prop :=
  ∀ w, P (files w) →
    C (files (m w).1) ∧ (∀ a, (m w).2 = Some (Ok a) → Q a (files (m w).1)).

Lemma triple_ret {E A : Type} (P C : Fs → Prop) (r : result A E) (Q : A → Fs → Prop) :
  (∀ fs, P fs → C fs) → (∀ a fs, r = Ok a → P fs → Q a fs) → triple P (ret r) Q C.
Proof. intros HC HQ w Hw. split; [by apply HC|]. intros a [= Ha]. by apply HQ. Qed.

Lemma triple_bind {E A B : Type} (P : Fs → Prop) (m : M E A) (k : A → M E B) (R : A → Fs → Prop) (Q : B → Fs → Prop) (C : Fs → Prop) :
  triple P m R C → (∀ a, triple (R a) (k a) Q C) → triple P (bind m k) Q C.
Proof.
  intros Hm Hk w Hw. destruct (Hm w Hw) as [H1 H2]. unfold bind. destruct (m w) as [w' [[a|e]|]]; cbn in *; [|done..].
  apply Hk. by apply H2.
Qed.

Lemma triple_map_err {E F A : Type} (f : E → F) (P : Fs → Prop) (m : M E A) (Q : A → Fs → Prop) (C : Fs → Prop) : triple P m Q C → triple P (map_err f m) Q C.
Proof. intros Hm w Hw. destruct (Hm w Hw) as [H1 H2]. unfold map_err. destruct (m w) as [w' [[a|e]|]]; cbn in *; (split; [done|]); intros a' Ha'; simplify_eq; by apply H2. Qed.

(** A call that does not change anything, whatever it returns. *)
Lemma triple_look {A : Type} (op : Fs → result A IoError) (P C : Fs → Prop) :
  (∀ fs, P fs → C fs) → triple P (look op) (λ a fs, op fs = Ok a ∧ P fs) C.
Proof.
  intros HC w Hw. unfold look, call, call_with. destruct (luck w) as [|[|n why|n] l]; cbn; (split; [by apply HC|]); intros a [= Ha]; done.
Qed.
Lemma triple_attempt_look {F A : Type} (op : Fs → result A IoError) (P C : Fs → Prop) :
  (∀ fs, P fs → C fs) →
  triple P (attempt (F := F) (look op)) (λ r fs, (op fs = r ∨ ∃ why, r = Err (OtherError why)) ∧ P fs) C.
Proof.
  intros HC w Hw. unfold attempt, look, call, call_with. destruct (luck w) as [|[|n why|n] l]; cbn; (split; [by apply HC|]);
    intros a [= <-]; eauto.
Qed.
Lemma triple_call {A : Type} (part : nat → Fs → Fs) (op : Fs → Fs * result A IoError) (P C : Fs → Prop) (Q : A → Fs → Prop) :
  (∀ fs n, P fs → C (part n fs)) → (∀ fs, P fs → C (op fs).1) → (∀ fs a, P fs → (op fs).2 = Ok a → Q a (op fs).1) →
  triple P (call_with part op) Q C.
Proof.
  intros H1 H2 H3 w Hw. unfold call_with. specialize (H2 _ Hw). specialize (H3 (files w)).
  destruct (luck w) as [|[|n why|n] l]; cbn; try (split; [by apply H1|done]);
    destruct (op (files w)) as [fs r]; cbn in *; (split; [done|]); intros a [= ->]; by apply H3.
Qed.
Lemma triple_weaken {E A : Type} (P P' : Fs → Prop) (m : M E A) (Q Q' : A → Fs → Prop) (C C' : Fs → Prop) :
  triple P m Q C → (∀ fs, P' fs → P fs) → (∀ a fs, Q a fs → Q' a fs) → (∀ fs, C fs → C' fs) → triple P' m Q' C'.
Proof. intros Hm HP HQ HC w Hw. destruct (Hm w (HP _ Hw)) as [H1 H2]. split; [by apply HC|]. intros a Ha. by apply HQ, H2. Qed.

(** ** The directory and the key *)

Context (dir : str).
Abbreviation cert_path := (join_path dir CA_CERT).
Abbreviation key_path := (join_path dir CA_KEY).

(** The directory is ours, and nobody else can put anything in it. *)
Definition closed (fs : Fs) : Prop := ∃ m, fs !! dir = Some (Directory euid m) ∧ N.land m (oct 0 2 2) = 0%N.
(** The key is in a plain file of ours that nobody else can read or write. *)
Definition key_is (fs : Fs) (text : str) : Prop :=
  ∃ m, fs !! key_path = Some (File euid m text) ∧ N.land m (oct 0 7 7) = 0%N.
Definition private (fs : Fs) : Prop := ∃ text, key_is fs text.

Lemma join_path_app name : ∃ sep, join_path dir name = dir ++ sep ++ name ∧ (sep = [] ∨ sep = lit "/").
Proof. unfold join_path. destruct (_ || _); [exists []|exists (lit "/")]; auto. Qed.
Lemma key_not_dir : key_path ≠ dir.
Proof. destruct (join_path_app CA_KEY) as (sep & -> & _). intros E%(f_equal length). rewrite !length_app in E. change (length CA_KEY) with 23 in E. lia. Qed.
Lemma cert_not_dir : cert_path ≠ dir.
Proof. destruct (join_path_app CA_CERT) as (sep & -> & _). intros E%(f_equal length). rewrite !length_app in E. change (length CA_CERT) with 19 in E. lia. Qed.
Lemma cert_not_key : cert_path ≠ key_path.
Proof. unfold join_path. destruct (_ || _); intros E; apply app_inv_head in E; vm_compute in E; done. Qed.

Section Runs.
Context (fs0 : Fs).
Definition same (fs : Fs) : Prop := ∀ p, p ≠ dir → fs !! p = fs0 !! p.
(** The key is as it was found, or where it should be. *)
Definition key_safe (fs : Fs) : Prop := fs !! key_path = fs0 !! key_path ∨ (closed fs ∧ private fs).

Lemma same_safe fs : same fs → key_safe fs.
Proof. intros H. left. apply H, key_not_dir. Qed.

Lemma mkdir_same fs : same fs → same (mkdir dir fs).1.
Proof.
  intros H p Hp. unfold mkdir. destruct (fs !! dir); [repeat case_match; by apply H|]. cbn.
  rewrite lookup_insert_ne by done. by apply H.
Qed.

Lemma prepare_dir_closes : triple same (prepare_dir dir) (λ _ fs, closed fs ∧ same fs) same.
Proof.
  unfold prepare_dir. eapply triple_bind; [by apply triple_attempt_look|]. intros meta. cbn beta.
  assert (∀ (why : String.string) P (Q : unit → Fs → Prop), (∀ fs, P fs → same fs) → triple P (refuse dir why) Q same) as Hrefuse
    by (intros why P Q HP; apply triple_ret; [done|by intros]).
  cut (triple same
    (let* existed := exists_ dir in
     let* _ := map_err (Io dir) (create_dir_all dir) in
     let* _ := map_err (Io dir) (open_dir dir) in
     let* meta := map_err (Io dir) (dir_metadata dir) in
     if negb (meta.1 =? euid)%N then
       refuse dir "the directory belongs to someone else, who could replace the certificate authority's key"
     else if negb existed then map_err (Io dir) (set_permissions dir (oct 7 0 0))
     else if negb (N.land meta.2 (oct 0 2 2) =? 0)%N then
       refuse dir "the directory can be written to by others, so they could replace the certificate authority's key (chmod go-w it, or pass another --data-dir)"
     else ret (Ok tt)) (λ _ fs, closed fs ∧ same fs) same).
  { intros H. destruct meta as [[| |]|]; try (eapply triple_weaken; [exact H|by intros fs [_ ?]|done|done]).
    apply Hrefuse. by intros fs [_ ?]. }
  clear meta. eapply (triple_bind _ _ _ (λ _, same)).
  { unfold exists_. eapply triple_bind; [by apply triple_attempt_look|]. intros r. apply triple_ret; [by intros fs [_ ?]|by intros a fs _ [_ ?]]. }
  intros existed. eapply (triple_bind _ _ _ (λ _, same)).
  { apply triple_map_err, triple_call; [done|by apply mkdir_same|]. intros fs a H _. by apply mkdir_same. }
  intros []. eapply (triple_bind _ _ _ (λ _, same)).
  { eapply triple_weaken; [apply triple_map_err, (triple_look _ same same); done|done|by intros ? ? [_ ?]|done]. }
  intros []. eapply triple_bind; [apply triple_map_err, (triple_look _ same same); done|].
  intros [o m]. cbn [fst snd]. destruct (N.eqb_spec o euid) as [->|]; cbn [negb]; [|apply Hrefuse; by intros fs [_ ?]].
  destruct existed; cbn [negb].
  - destruct (N.eqb_spec (N.land m (oct 0 2 2)) 0) as [Em|]; cbn [negb]; [|apply Hrefuse; by intros fs [_ ?]].
    apply triple_ret; [by intros fs [_ ?]|]. intros [] fs _ [H1 H2]. split; [|done]. exists m. split; [|done].
    by repeat case_match; simplify_eq.
  - assert (∀ fs f, same fs → same (alter f dir fs)) as Halter.
    { intros fs f H p Hp. rewrite lookup_alter_ne by done. by apply H. }
    apply triple_map_err, triple_call; [by intros fs n [_ ?]|intros fs [_ ?]; cbn; by apply Halter|].
    intros fs [] [H1 H2] _. cbn. split; [|by apply Halter]. exists (oct 7 0 0). split; [|done].
    rewrite lookup_alter. rewrite decide_True by done. repeat case_match; simplify_eq; done.
Qed.

Lemma read_reads p (P C : Fs → Prop) : (∀ fs, P fs → C fs) →
  triple P (read p) (λ r fs, P fs ∧ ∀ s, r = Some s → ∃ q o m, resolve fs p = Some q ∧ fs !! q = Some (File o m s)) C.
Proof.
  intros HC. unfold read. eapply triple_bind; [by apply triple_attempt_look|]. intros r. cbn beta.
  destruct r as [s|[|why]]; apply triple_ret; try (intros fs [_ ?]; by apply HC); intros a fs [= <-] [[H|[why' H]] HP]; (split; [done|]); try done.
  intros s' [= <-]. destruct (resolve fs p) as [q|]; [|done]. destruct (fs !! q) as [[o m x| |]|] eqn:E; try done. injection H as ->. by eexists _, _, _.
Qed.

Lemma read_private_reads (P C : Fs → Prop) : (∀ fs, P fs → C fs) →
  triple P (read_private key_path)
    (λ r fs, P fs ∧ match r with None => fs !! key_path = None | Some s => key_is fs s end) C.
Proof.
  intros HC. unfold read_private. eapply triple_bind; [by apply triple_attempt_look|]. intros r. cbn beta.
  destruct r as [[]|[|why]].
  - eapply triple_bind.
    { apply triple_map_err. eapply triple_weaken;
        [apply (triple_look (λ fs : Fs, match fs !! key_path with Some n => Ok n | None => Err NotFound end) P C HC)|by intros fs [_ ?]|by intros ? ? H; exact H|done]. }
    intros meta. cbn beta. destruct (negb _) eqn:E; [apply triple_ret; [intros fs [_ ?]; by apply HC|by intros]|].
    apply negb_false_iff in E. destruct meta as [o m x| |]; try done. apply andb_true_iff in E as [->%N.eqb_eq E%N.eqb_eq].
    eapply triple_bind; [apply triple_map_err, triple_look; intros fs [_ ?]; by apply HC|].
    intros text. cbn beta. apply triple_ret; [intros fs (_ & _ & ?); by apply HC|].
    intros a fs [= <-] (H1 & H2 & HP). split; [done|]. exists m. split; [|done].
    destruct (fs !! key_path) as [n|] eqn:En; [|done]. by simplify_eq.
  - apply triple_ret; [intros fs [_ ?]; by apply HC|]. intros a fs [= <-] [[H|[why' H]] HP]; [|done]. split; [done|].
    by destruct (fs !! key_path) as [[| |]|].
  - apply triple_ret; [intros fs [_ ?]; by apply HC|]. by intros.
Qed.

(** Besides the directory and the key, nothing has changed. *)
Definition same_but_key (fs : Fs) : Prop := ∀ p, p ≠ dir → p ≠ key_path → fs !! p = fs0 !! p.

Lemma set_text_lookup p s q (fs : Fs) : set_text p s fs !! q =
  match fs !! q with Some (File o m t) => Some (File o m (if decide (p = q) then s else t)) | n => n end.
Proof.
  unfold set_text. rewrite lookup_alter. destruct (decide (p = q)) as [->|]; [by destruct (fs !! q) as [[| |]|]|].
  by destruct (fs !! q) as [[| |]|].
Qed.
Lemma set_text_closed p s fs : closed fs → closed (set_text p s fs).
Proof. intros (m & H & Hm). exists m. split; [|done]. by rewrite set_text_lookup, H. Qed.
Lemma set_text_private p s fs : private fs → private (set_text p s fs).
Proof. intros (x & m & H & Hm). eexists _, m. split; [|done]. by rewrite set_text_lookup, H. Qed.
Lemma set_text_key s fs : private fs → key_is (set_text key_path s fs) s.
Proof. intros (x & m & H & Hm). exists m. split; [|done]. by rewrite set_text_lookup, H, decide_True. Qed.

Lemma opened_private (fs : Fs) : closed fs → (fs !! key_path = None ∨ private fs) → same fs →
  let '(fs', r) := open_truncate key_path (oct 6 0 0) fs in
  ∃ q, r = Ok q ∧ q = key_path ∧ closed fs' ∧ private fs' ∧ same_but_key fs'.
Proof.
  intros Hc Hk Hs. unfold open_truncate. destruct Hk as [E|Hp].
  - rewrite E. eexists. split_and!; [done..| | |].
    + destruct Hc as (m & H & Hm). exists m. split; [|done]. rewrite lookup_insert_ne; [done|apply key_not_dir].
    + eexists [], _. rewrite lookup_insert, decide_True by done. split; [done|].
      apply N.bits_inj_0. intros i. rewrite N.land_spec, N.ldiff_spec.
      destruct (N.lt_ge_cases i 6) as [Hi|Hi].
      * change (oct 6 0 0) with (N.shiftl 6 6). by rewrite N.shiftl_spec_low.
      * rewrite <- (N.mod_small (oct 0 7 7) (2 ^ 6)) by done. by rewrite N.mod_pow2_bits_high, andb_false_r.
    + intros p H1 H2. rewrite lookup_insert_ne by done. by apply Hs.
  - pose proof Hp as (x & m & H & Hm). rewrite H. eexists. split_and!; [done..| | |].
    + by apply set_text_closed.
    + by apply set_text_private.
    + intros p H1 H2. rewrite set_text_lookup, <- (Hs p H1). destruct (fs !! p) as [[| |]|]; try done. by rewrite decide_False.
Qed.

Lemma write_private_stores contents :
  triple (λ fs, closed fs ∧ (fs !! key_path = None ∨ private fs) ∧ same fs) (write_private key_path contents)
    (λ _ fs, closed fs ∧ key_is fs contents ∧ same_but_key fs) key_safe.
Proof.
  unfold write_private. eapply (triple_bind _ _ _ (λ q fs, q = key_path ∧ closed fs ∧ private fs ∧ same_but_key fs)).
  { apply triple_map_err, triple_call; [intros fs n (_ & _ & H); by apply same_safe|..];
      intros fs; [intros (H1 & H2 & H3)|intros a (H1 & H2 & H3)]; pose proof (opened_private fs H1 H2 H3) as H;
      destruct (open_truncate _ _ fs) as [fs' r]; destruct H as (q & -> & -> & ? & ? & ?); cbn; [by right|].
    intros [= <-]. done. }
  intros q. eapply (triple_bind _ _ _ (λ _ fs, closed fs ∧ key_is fs contents ∧ same_but_key fs)).
  { assert (∀ s fs, q = key_path ∧ closed fs ∧ private fs ∧ same_but_key fs →
        closed (set_text q s fs) ∧ key_is (set_text q s fs) s ∧ same_but_key (set_text q s fs)) as Hset.
    { intros s fs (-> & H1 & H2 & H3). split_and!; [by apply set_text_closed|by apply set_text_key|].
      intros p Hd Hk. rewrite set_text_lookup, <- (H3 p Hd Hk). destruct (fs !! p) as [[| |]|]; try done. by rewrite decide_False. }
    apply triple_map_err, triple_call.
    - intros fs n H. destruct (Hset (take n contents) fs H) as (? & ? & _). right. split; [done|by eexists].
    - intros fs H. destruct (Hset contents fs H) as (? & ? & _). right. split; [done|by eexists].
    - intros fs [] H _. by apply Hset. }
  intros []. eapply triple_weaken; [apply triple_map_err, (triple_look _ _ key_safe)|intros fs H; exact H|by intros ? ? [_ ?]|done].
  intros fs (H1 & H2 & _). right. split; [done|by eexists].
Qed.

Lemma opened_any q mode (fs : Fs) k : closed fs → key_is fs k →
  let '(fs', r) := open_truncate q mode fs in
  closed fs' ∧ private fs' ∧
  (∀ q', r = Ok q' → q' = q ∧ (∃ o m t, fs' !! q = Some (File o m t)) ∧ (q ≠ key_path → key_is fs' k)).
Proof.
  intros Hc Hk. pose proof Hk as (mk & Ek & Hmk). pose proof Hc as (md & Ed & Hmd). unfold open_truncate.
  destruct (fs !! q) as [[o m x| |]|] eqn:Eq.
  - split_and!; [by apply set_text_closed|apply set_text_private; by exists k|]. intros q' [= <-]. split_and!; [done|..].
    + eexists o, m, _. rewrite set_text_lookup, Eq. done.
    + intros Hq. exists mk. by rewrite set_text_lookup, Ek, decide_False.
  - split_and!; [done|by exists k|done].
  - split_and!; [done|by exists k|done].
  - assert (∀ p n, fs !! p = Some n → <[q:=File euid (N.ldiff mode umask) []]> fs !! p = Some n) as Hin.
    { intros p n Hp. rewrite lookup_insert_ne; [done|]. by intros ->; rewrite Eq in Hp. }
    split_and!; [exists md; auto|exists k, mk; auto|]. intros q' [= <-]. split_and!; [done| |intros _; exists mk; auto].
    eexists _, _, _. by rewrite lookup_insert, decide_True.
Qed.

Definition no_link : Prop := ∀ q, fs0 !! cert_path ≠ Some (Link q).

Lemma resolve_cert fs : no_link → same_but_key fs → resolve fs cert_path = Some cert_path.
Proof.
  intros Hn Hs. unfold resolve, MAX_LINKS. cbn [follow].
  rewrite (Hs _ cert_not_dir cert_not_key). destruct (fs0 !! cert_path) as [[| |q]|] eqn:E; try done. by destruct (Hn q).
Qed.

Definition cert_is (fs : Fs) (text : str) : Prop := ∃ o m, fs !! cert_path = Some (File o m text).

Lemma write_stores k contents :
  triple (λ fs, closed fs ∧ key_is fs k ∧ same_but_key fs) (write cert_path contents)
    (λ _ fs, closed fs ∧ private fs ∧ (no_link → key_is fs k ∧ cert_is fs contents)) key_safe.
Proof.
  unfold write.
  eapply (triple_bind _ _ _ (λ q fs, closed fs ∧ private fs ∧ (no_link → q = cert_path ∧ key_is fs k ∧ ∃ t, cert_is fs t))).
  { apply triple_map_err, triple_call; [intros fs n (H1 & H2 & _); right; split; [done|by exists k]|..]; intros fs.
    - intros (H1 & H2 & _). unfold open_following. destruct (resolve fs cert_path) as [q|]; [|right; split; [done|by exists k]].
      pose proof (opened_any q (oct 6 6 6) fs k H1 H2) as H. destruct (open_truncate _ _ fs). by right; destruct H as (? & ? & _).
    - intros q (H1 & H2 & H3). unfold open_following. destruct (resolve fs cert_path) as [q'|] eqn:Er; [|done].
      pose proof (opened_any q' (oct 6 6 6) fs k H1 H2) as H. destruct (open_truncate _ _ fs) as [fs' r]. cbn. intros ->.
      destruct H as (? & ? & H). destruct (H q eq_refl) as (-> & (o & m & x & Hf) & Hkey). split_and!; [done..|].
      intros Hn. rewrite resolve_cert in Er by done. injection Er as <-. split_and!; [done|apply Hkey, cert_not_key|by exists x, o, m]. }
  intros q. apply triple_map_err, triple_call.
  - intros fs n (H1 & H2 & _). right. split; [by apply set_text_closed|by apply set_text_private].
  - intros fs (H1 & H2 & _). right. split; [by apply set_text_closed|by apply set_text_private].
  - intros fs [] (H1 & H2 & H3) _. cbn. split_and!; [by apply set_text_closed|by apply set_text_private|].
    intros Hn. destruct (H3 Hn) as (-> & (mk & Ek & Hmk) & x & o & m & Hf). split.
    + exists mk. rewrite set_text_lookup, Ek, decide_False; [done|apply cert_not_key].
    + exists o, m. by rewrite set_text_lookup, Hf, decide_True.
Qed.

Lemma mint_Ok c k d id : mint cert_path key_path c k d = Ok id →
  ∃ key der, key_from_pem k = Some key ∧ pem_to_der c = Some der ∧ chain id !! 1 = Some der ∧ anchor_path id = cert_path.
Proof.
  unfold mint. destruct (key_from_pem k) as [key|]; [|done]. destruct ca_params; [|done]. destruct (generate d); [|done].
  destruct leaf_params; [|done]. cbn. destruct (generate (signed_by _ _ _)); [|done]. cbn.
  destruct (pem_to_der c) as [der|]; [|done]. destruct (der_ok _); [|done]. intros [= <-]. by exists key, der.
Qed.

(** What a run that succeeded leaves behind. *)
Definition left_by (id : Identity) (fs : Fs) : Prop :=
  closed fs ∧ private fs ∧
  (no_link → ∃ k c d, key_is fs k ∧ cert_is fs c ∧ mint cert_path key_path c k d = Ok id).

Lemma load_leaves ca_drawn leaf_drawn : triple same (load_or_create dir ca_drawn leaf_drawn) left_by key_safe.
Proof.
  unfold load_or_create. eapply triple_bind; [eapply triple_weaken; [apply prepare_dir_closes|done|by intros ? ? H; exact H|apply same_safe]|].
  intros []. eapply triple_bind; [apply read_reads; intros fs [_ H]; by apply same_safe|].
  intros stored. cbn beta. eapply triple_bind; [apply read_private_reads; intros fs [[_ H] _]; by apply same_safe|].
  intros key. cbn beta.
  set (P := λ fs : Fs, (((closed fs ∧ same fs) ∧ _) ∧ _)).
  assert (triple P (let* issued := ret (issue_ca ca_drawn) in
      let* _ := write_private key_path issued.2 in
      let* _ := write cert_path issued.1 in
      ret (mint cert_path key_path issued.1 issued.2 leaf_drawn)) left_by key_safe) as Hissue.
  { eapply (triple_bind _ _ _ (λ _, P)); [apply triple_ret; [intros fs [[[_ H] _] _]; by apply same_safe|done]|].
    intros [c k]. cbn [fst snd]. eapply triple_bind.
    { eapply triple_weaken; [apply write_private_stores| |by intros ? ? H; exact H|done].
      intros fs [[[H1 H2] _] H3]. split_and!; [done| |done]. destruct key as [s|]; [right; by exists s|by left]. }
    intros []. eapply triple_bind; [apply write_stores|]. intros []. apply triple_ret.
    - intros fs (H1 & H2 & _). by right.
    - intros id fs Hid (H1 & H2 & H3). split_and!; [done..|]. intros Hn. destruct (H3 Hn) as [Hk Hc]. by exists k, c, leaf_drawn. }
  destruct stored as [c|], key as [k|]; try exact Hissue. clear Hissue. apply triple_ret.
  - intros fs [[[_ H] _] _]. by apply same_safe.
  - intros id fs Hid [[[H1 H2] H3] H4]. split_and!; [done|by exists k|]. intros Hn.
    destruct (H3 c eq_refl) as (q & o & m & Hr & Hq). rewrite resolve_cert in Hr; [|done|intros p ? ?; by apply H2]. injection Hr as <-.
    exists k, c, leaf_drawn. split_and!; [done|by exists o, m|done].
Qed.
End Runs.

(** C18: however a start of the server ends - with a value, an error at any call, or
    the end of the process in the middle of one, with half a file written - the
    authority's key is as it was found, or else in a plain file of the user's that
    nobody else can read or write, in a directory of the user's that nobody else
    can write to; and a start that succeeds has the key there. *)
Theorem key_kept_private (ca_drawn leaf_drawn : result Key str) (w : World) :
  let '(w', r) := load_or_create dir ca_drawn leaf_drawn w in
  (files w' !! key_path = files w !! key_path ∨ (closed (files w') ∧ private (files w'))) ∧
  (∀ id, r = Some (Ok id) → closed (files w') ∧ private (files w')).
Proof.
  destruct (load_leaves (files w) ca_drawn leaf_drawn w) as [H1 H2]; [done|].
  destruct (load_or_create dir ca_drawn leaf_drawn w) as [w' r]. split; [exact H1|]. intros id Hid.
  by destruct (H2 id Hid) as (? & ? & _).
Qed.

(** ** Good luck *)

Lemma run_look {A : Type} (op : Fs → result A IoError) fs : look op (mkWorld fs []) = (mkWorld fs [], Some (op fs)).
Proof. done. Qed.
Lemma run_call {A : Type} (op : Fs → Fs * result A IoError) fs : call op (mkWorld fs []) = (mkWorld (op fs).1 [], Some (op fs).2).
Proof. unfold call, call_with. cbn. by destruct (op fs). Qed.
Lemma resolve_here (fs : Fs) p n : fs !! p = Some n → (∀ q, n ≠ Link q) → resolve fs p = Some p.
Proof. intros H Hn. unfold resolve, MAX_LINKS. cbn [follow]. rewrite H. destruct n as [| |q]; try done. by destruct (Hn q). Qed.

(** [prepare_dir] where there is a directory. *)
Lemma prepare_there fs o m : fs !! dir = Some (Directory o m) →
  prepare_dir dir (mkWorld fs []) =
    (mkWorld fs [], Some (if negb (o =? euid)%N then
        Err (Io dir (OtherError (lit "the directory belongs to someone else, who could replace the certificate authority's key")))
      else if negb (N.land m (oct 0 2 2) =? 0)%N then
        Err (Io dir (OtherError (lit "the directory can be written to by others, so they could replace the certificate authority's key (chmod go-w it, or pass another --data-dir)")))
      else Ok tt)).
Proof.
  intros H. pose proof (resolve_here _ _ _ H ltac:(done)) as Hr.
  unfold prepare_dir, bind, attempt, map_err, exists_, symlink_metadata, create_dir_all, open_dir, dir_metadata, bind, attempt.
  rewrite run_look, H. cbn beta iota. rewrite run_look, Hr, H. cbn beta iota. unfold ret at 1. rewrite run_call.
  unfold mkdir. rewrite H, Hr, H. cbn [fst snd]. rewrite run_look, H, run_look, H. cbn [fst snd negb]. by repeat case_match.
Qed.

Lemma prepare_closed fs : closed fs → prepare_dir dir (mkWorld fs []) = (mkWorld fs [], Some (Ok tt)).
Proof. intros (m & H & Hm). by rewrite (prepare_there _ _ _ H), N.eqb_refl, Hm. Qed.

Lemma read_file_there (fs : Fs) p o m s : fs !! p = Some (File o m s) → read p (mkWorld fs []) = (mkWorld fs [], Some (Ok (Some s))).
Proof. intros H. unfold read, bind, attempt. by rewrite run_look, (resolve_here _ _ _ H ltac:(done)), H. Qed.
Lemma read_nothing (fs : Fs) p : fs !! p = None → read p (mkWorld fs []) = (mkWorld fs [], Some (Ok None)).
Proof. intros H. unfold read, bind, attempt. rewrite run_look. unfold resolve, MAX_LINKS. cbn [follow]. by rewrite H, H. Qed.

Lemma load_stored fs k c ca leaf : closed fs → key_is fs k → cert_is fs c →
  load_or_create dir ca leaf (mkWorld fs []) = (mkWorld fs [], Some (mint cert_path key_path c k leaf)).
Proof.
  intros Hc (mk & Ek & Hmk) (o & m & Ec). unfold load_or_create, bind at 1. rewrite prepare_closed by done.
  unfold bind at 1. rewrite (read_file_there _ _ _ _ _ Ec). unfold bind at 1.
  unfold read_private, bind, attempt, map_err, symlink_metadata. rewrite run_look, Ek. cbn beta iota. rewrite run_look, Ek. cbn beta iota.
  rewrite N.eqb_refl, Hmk. cbn [andb negb N.eqb]. rewrite run_look, Ek. done.
Qed.

(** C19: the authority outlives the server, where the certificate's path is not a
    symbolic link. A start that succeeded, whatever went wrong on the way, can
    be repeated: a next one in which no call to the file system fails (an empty
    list of faults) changes no file, presents the same authority under the same
    path if it succeeds, and succeeds if its own new certificate can be made. *)
Theorem anchor_survives (ca leaf ca' leaf' : result Key str) (w w' : World) (id : Identity) :
  (∀ q, files w !! cert_path ≠ Some (Link q)) →
  load_or_create dir ca leaf w = (w', Some (Ok id)) →
  ∃ r, load_or_create dir ca' leaf' (mkWorld (files w') []) = (mkWorld (files w') [], Some r) ∧
    (∀ id', r = Ok id' → chain id' !! 1 = chain id !! 1 ∧ anchor_path id' = anchor_path id) ∧
    (∀ key, leaf' = Ok key → (∀ p i, ∃ c, signed_by p key i = Ok c) → der_ok (key_der key) = true → ∃ id', r = Ok id').
Proof.
  intros Hn Hl. destruct (load_leaves (files w) ca leaf w) as [_ H]; [done|]. rewrite Hl in H. cbn in H.
  destruct (H id eq_refl) as (Hc & _ & Hi). destruct (Hi Hn) as (k & c & d & Hk & Hce & Hm).
  exists (mint cert_path key_path c k leaf'). split_and!; [by apply load_stored|..].
  - intros id' Hid'. destruct (mint_Ok _ _ _ _ Hm) as (? & der & _ & E1 & -> & ->).
    destruct (mint_Ok _ _ _ _ Hid') as (? & der' & _ & E2 & -> & ->). by simplify_eq.
  - intros key -> Hs Hd. unfold mint in *. destruct (key_from_pem k) as [ck|]; [|done].
    destruct ca_params as [cp|]; [|done]. destruct (generate d); [|done]. destruct leaf_params as [lp|]; [|done]. cbn in *.
    destruct (generate (signed_by lp _ _)) in Hm; [|done]. cbn in Hm. destruct (pem_to_der c); [|done].
    destruct (Hs lp (cp, ck)) as [cert ->]. cbn. by rewrite Hd; eexists.
Qed.

(** C39: A place that is not safe for a key is refused, and left as it is. *)
Theorem unsafe_place_refused (ca leaf : result Key str) (fs : Fs) :
  (∃ q, fs !! dir = Some (Link q)) ∨
  (∃ o m, fs !! dir = Some (Directory o m) ∧ (o ≠ euid ∨ N.land m (oct 0 2 2) ≠ 0%N)) →
  ∃ why, load_or_create dir ca leaf (mkWorld fs []) = (mkWorld fs [], Some (Err (Io dir (OtherError why)))).
Proof.
  intros H. unfold load_or_create, bind at 1. destruct H as [[q H]|(o & m & H & Hb)].
  - unfold prepare_dir at 1, bind at 1, attempt, symlink_metadata. rewrite run_look, H. by eexists.
  - rewrite (prepare_there _ _ _ H). destruct (N.eqb_spec o euid) as [->|]; [|by eexists].
    destruct Hb as [|Hb]; [done|]. rewrite (proj2 (N.eqb_neq _ _) Hb). by eexists.
Qed.

(** ** The first start *)

Lemma prepare_new fs : fs !! dir = None →
  ∃ fs', prepare_dir dir (mkWorld fs []) = (mkWorld fs' [], Some (Ok tt)) ∧ closed fs' ∧ same fs fs'.
Proof.
  intros H. destruct (prepare_dir_closes fs (mkWorld fs [])) as [_ H2]; [done|].
  assert (∃ fs', prepare_dir dir (mkWorld fs []) = (mkWorld fs' [], Some (Ok tt))) as [fs' E].
  { assert (resolve fs dir = Some dir) as Hr by (unfold resolve, MAX_LINKS; cbn [follow]; by rewrite H).
    unfold prepare_dir, bind, attempt, map_err, exists_, symlink_metadata, create_dir_all, open_dir, dir_metadata, set_permissions, bind, attempt.
    rewrite run_look, H. cbn beta iota. rewrite run_look, Hr, H. cbn beta iota. unfold ret at 1. rewrite run_call. unfold mkdir. rewrite H.
    cbn [fst snd]. rewrite run_look, lookup_insert, decide_True by done. rewrite run_look, lookup_insert, decide_True by done.
    cbn [fst snd]. rewrite N.eqb_refl. cbn [negb]. rewrite run_call. by eexists. }
  rewrite E in H2. exists fs'. split; [done|]. by apply (H2 tt).
Qed.

Lemma write_all_runs p s fs : write_all p s (mkWorld fs []) = (mkWorld (set_text p s fs) [], Some (Ok tt)).
Proof. done. Qed.

Lemma write_private_new (fs : Fs) p s : fs !! p = None →
  ∃ fs', write_private p s (mkWorld fs []) = (mkWorld fs' [], Some (Ok tt)) ∧ ∀ q, q ≠ p → fs' !! q = fs !! q.
Proof.
  intros H. unfold write_private, bind, map_err. rewrite run_call. unfold open_truncate. rewrite H. cbn [fst snd].
  rewrite write_all_runs, run_look. eexists. split; [done|]. intros q Hq. rewrite set_text_lookup, lookup_insert_ne by done.
  destruct (fs !! q) as [[| |]|]; try done. by rewrite decide_False.
Qed.

Lemma write_new (fs : Fs) p s : fs !! p = None → ∃ fs', write p s (mkWorld fs []) = (mkWorld fs' [], Some (Ok tt)).
Proof.
  intros H. unfold write, bind, map_err. rewrite run_call. unfold open_following.
  assert (resolve fs p = Some p) as -> by (unfold resolve, MAX_LINKS; cbn [follow]; by rewrite H).
  unfold open_truncate. rewrite H. cbn [fst snd]. rewrite write_all_runs. by eexists.
Qed.

(** A first start works, where there is no directory yet or an empty one of our
    own: both certificates are presented, the new one first, the authority's is
    read back from its file as it was made, and both files are there for the
    next start. *)
Theorem first_start (fs : Fs) (k l : Key) (ca_cert leaf_cert : Cert) (ca leaf : Params) :
  (∀ k, key_from_pem (key_to_pem k) = Some k) → (∀ c, is_pem (cert_pem c) (cert_der c) ∧ Forall byte (cert_der c)) →
  ca_params = Ok ca → leaf_params = Ok leaf →
  self_signed ca k = Ok ca_cert → signed_by leaf l (ca, k) = Ok leaf_cert → der_ok (key_der l) = true →
  (fs !! dir = None ∨ closed fs) → fs !! cert_path = None → fs !! key_path = None →
  ∃ fs', load_or_create dir (Ok k) (Ok l) (mkWorld fs [])
      = (mkWorld fs' [], Some (Ok (mkIdentity [cert_der leaf_cert; cert_der ca_cert] (key_der l) cert_path))) ∧
    closed fs' ∧ key_is fs' (key_to_pem k) ∧ cert_is fs' (cert_pem ca_cert).
Proof.
  intros Hkey Hpem Eca Eleaf Eself Esign Eder Hdir Hcert Hk.
  assert (∃ fs1, prepare_dir dir (mkWorld fs []) = (mkWorld fs1 [], Some (Ok tt)) ∧ closed fs1 ∧ same fs fs1) as (fs1 & E1 & C1 & S1).
  { destruct Hdir as [Hd|Hd]; [by apply prepare_new|]. exists fs. split_and!; [by apply prepare_closed|done|done]. }
  assert (fs1 !! cert_path = None) as Hc1 by (rewrite S1; [done|apply cert_not_dir]).
  assert (fs1 !! key_path = None) as Hk1 by (rewrite S1; [done|apply key_not_dir]).
  destruct (write_private_new fs1 key_path (key_to_pem k) Hk1) as (fs2 & E2 & S2).
  assert (fs2 !! cert_path = None) as Hc2 by (rewrite S2; [done|apply cert_not_key]).
  destruct (write_new fs2 cert_path (cert_pem ca_cert) Hc2) as (fs3 & E3).
  destruct (write_private_stores fs (key_to_pem k) (mkWorld fs1 [])) as [_ H2]; [cbn; auto|]. rewrite E2 in H2.
  destruct (write_stores fs (key_to_pem k) (cert_pem ca_cert) (mkWorld fs2 [])) as [_ H3]; [by apply (H2 tt)|]. rewrite E3 in H3.
  destruct (H3 tt eq_refl) as (C3 & _ & Hn). exists fs3. split; [|split; [done|apply Hn; unfold no_link; by rewrite Hcert]].
  unfold load_or_create, bind at 1. rewrite E1. unfold bind at 1. rewrite (read_nothing fs1 cert_path Hc1). unfold bind at 1.
  assert (read_private key_path (mkWorld fs1 []) = (mkWorld fs1 [], Some (Ok None))) as ->.
  { unfold read_private, bind, attempt. by rewrite run_look, Hk1. }
  unfold bind at 1, ret at 1, issue_ca. cbn [generate rbind]. rewrite Eca. cbn [rbind]. rewrite Eself. cbn [generate rbind fst snd].
  unfold bind at 1. rewrite E2. unfold bind at 1. rewrite E3. unfold ret, mint. rewrite Hkey, Eca. cbn [generate rbind].
  rewrite Eleaf. cbn [rbind]. rewrite Esign. cbn [generate rbind]. destruct (Hpem ca_cert) as [Hp Hb].
  by rewrite (pem_roundtrip _ _ Hp Hb), Eder.
Qed.
End FileSystem.

(** * Examples *)

(** Keys are numbers, and a certificate is the number of the key it is for, or
    a hundred more than that of the key that signed it. *)
Module Toy.
Definition from_pem (s : str) : option N := match s with [k] => Some k | _ => None end.
Definition to_pem (k : N) : str := [k].
Definition der (c : N) : list N := [(c mod 256)%N].
Definition pem (c : N) : str :=
  lit "-----BEGIN CERTIFICATE-----" ++ [10%N] ++ base64 (der c) ++ [10%N] ++ lit "-----END CERTIFICATE-----" ++ [10%N].
Definition self_signed (p : Params) (k : N) : result N str := Ok k.
Definition signed_by (p : Params) (k : N) (issuer : Params * N) : result N str := Ok (100 + issuer.2)%N.
Definition load : str → result N str → result N str → M IdentityError Identity :=
  load_or_create 1000 (oct 0 2 2) (λ _, Ok tt) from_pem to_pem self_signed signed_by pem der to_pem (λ _, true).
Definition dir : str := lit "/data".
Definition cert_at : str := join_path dir CA_CERT.
Definition key_at : str := join_path dir CA_KEY.
Definition ca : Params :=
  mkParams [] VALID_FROM VALID_UNTIL (Some 0%N) [lit "KeyCertSign"; lit "CrlSign"] (Some (lit "ddIRC local server CA")) false.
Definition leaf : Params := mkParams NAMES VALID_FROM VALID_UNTIL None [] (Some (lit "ddIRC local server")) true.

Lemma pem_is_pem c : is_pem (pem c) (der c) ∧ Forall byte (der c).
Proof.
  split.
  - exists [10%N], (lit "CERTIFICATE"), [base64 (der c)]. split_and!; [by left|vm_compute; set_solver|cbn [concat]; by rewrite app_nil_r|].
    cbn [map concat app]. rewrite !app_nil_r. unfold pem. rewrite <- !app_assoc. reflexivity.
  - apply Forall_singleton. unfold byte. by apply N.mod_lt.
Qed.
End Toy.

Lemma first_start_witness : ∃ fs,
  Toy.load Toy.dir (Ok 7%N) (Ok 8%N) (mkWorld ∅ [])
    = (mkWorld fs [], Some (Ok (mkIdentity [[107%N]; [7%N]] [8%N] Toy.cert_at))) ∧
  fs !! Toy.key_at = Some (File 1000 (oct 6 0 0) [7%N]).
Proof.
  destruct (first_start 1000 (oct 0 2 2) (λ _, Ok tt) Toy.from_pem Toy.to_pem Toy.self_signed Toy.signed_by Toy.pem Toy.der Toy.to_pem
    (λ _, true) Toy.dir ∅ 7%N 8%N 7%N 107%N Toy.ca Toy.leaf ltac:(reflexivity) Toy.pem_is_pem ltac:(reflexivity) ltac:(reflexivity)
    ltac:(reflexivity) ltac:(reflexivity) ltac:(reflexivity) ltac:(left; reflexivity) ltac:(reflexivity) ltac:(reflexivity))
    as (fs & H & _).
  exists fs. split; [exact H|].
  assert ((Toy.load Toy.dir (Ok 7%N) (Ok 8%N) (mkWorld ∅ [])).1 = mkWorld fs []) as E by (unfold Toy.load; rewrite H; reflexivity).
  apply (f_equal files) in E. cbn [files] in E. rewrite <- E. vm_compute. reflexivity.
Defined.

(** A start, and the next: one authority, two leaves. *)
Lemma anchor_survives_witness :
  let first := Toy.load Toy.dir (Ok 7%N) (Ok 8%N) (mkWorld ∅ []) in
  ∃ r, Toy.load Toy.dir (Ok 20%N) (Ok 21%N) (mkWorld (files first.1) []) = (mkWorld (files first.1) [], Some r) ∧
    (∀ id', r = Ok id' → chain id' !! 1 = Some [7%N]) ∧ ∃ id', r = Ok id'.
Proof.
  cbv zeta.
  assert (∀ q, files (mkWorld ∅ []) !! join_path Toy.dir CA_CERT ≠ Some (Link q)) as Hn by (intros q; cbn [files]; by rewrite lookup_empty).
  assert (Toy.load Toy.dir (Ok 7%N) (Ok 8%N) (mkWorld ∅ [])
    = ((Toy.load Toy.dir (Ok 7%N) (Ok 8%N) (mkWorld ∅ [])).1, Some (Ok (mkIdentity [[107%N]; [7%N]] [8%N] Toy.cert_at)))) as E
    by (vm_compute; reflexivity).
  destruct (anchor_survives 1000 (oct 0 2 2) (λ _, Ok tt) Toy.from_pem Toy.to_pem Toy.self_signed Toy.signed_by Toy.pem Toy.der Toy.to_pem
    (λ _, true) Toy.dir (Ok 7%N) (Ok 8%N) (Ok 20%N) (Ok 21%N) (mkWorld ∅ [])
    (Toy.load Toy.dir (Ok 7%N) (Ok 8%N) (mkWorld ∅ [])).1 (mkIdentity [[107%N]; [7%N]] [8%N] Toy.cert_at)
    Hn E) as (r & H1 & H2 & H3).
  exists r. split; [exact H1|]. split; [intros id' Hid; exact (proj1 (H2 id' Hid))|].
  apply (H3 21%N); [reflexivity| |reflexivity]. intros p i. eexists. reflexivity.
Defined.

Lemma unsafe_place_refused_witness : ∃ why,
  Toy.load Toy.dir (Ok 7%N) (Ok 8%N) (mkWorld {[ Toy.dir := Directory 1000 (oct 7 7 7) ]} [])
    = (mkWorld {[ Toy.dir := Directory 1000 (oct 7 7 7) ]} [], Some (Err (Io Toy.dir (OtherError why)))).
Proof.
  apply (unsafe_place_refused 1000 (oct 0 2 2) (λ _, Ok tt) Toy.from_pem Toy.to_pem Toy.self_signed Toy.signed_by Toy.pem Toy.der Toy.to_pem
    (λ _, true) Toy.dir (Ok 7%N) (Ok 8%N) {[ Toy.dir := Directory 1000 (oct 7 7 7) ]}).
  right. exists 1000%N, (oct 7 7 7). split; [vm_compute; reflexivity|right; vm_compute; discriminate].
Defined.

(** The key is written before the certificate. A start that has to issue both
    because the key is gone, and ends between the two, leaves the old
    certificate beside the new key: from then on every start takes the pair for
    a stored one and presents the old authority with leaves it did not sign. *)
Example interrupted_reissue_mismatched :
  let found : Fs := {[ Toy.dir := Directory 1000 (oct 7 0 0); Toy.cert_at := File 1000 (oct 6 4 4) (Toy.pem 9) ]} in
  let ended := Toy.load Toy.dir (Ok 7%N) (Ok 8%N) (mkWorld found (replicate 10 Fine ++ [Dies 0])) in
  ended.2 = None ∧
  (Toy.load Toy.dir (Ok 20%N) (Ok 21%N) (mkWorld (files ended.1) [])).2
    = Some (Ok (mkIdentity [Toy.der (100 + 7)%N; Toy.der 9] [21%N] Toy.cert_at)).
Proof. split; vm_compute; reflexivity. Qed.
