(* ===== verification/Format.v ===== *)
(** In-band formatting codes ([ddirc-core/src/text/format.rs]).

    A [Peekable<Chars>] is the list of the characters still to be read; a
    function that advances the iterator returns what is left of it.  The
    [while let] loop of [parse] is [parse_loop], whose fuel is the number of
    characters: every pass reads at least one ([consume_length]). *)
From S2P Require Import Prelude RustStr.

(** * Data *)

Record SpanStyle := mkStyle {
  bold : bool;
  italic : bool;
  underline : bool;
  strikethrough : bool;
  monospace : bool;
  inverse : bool;
  fg : option N;
  bg : option N;
}.

Record TextSpan := mkSpan { text : str; style : SpanStyle }.

#[export] Instance SpanStyle_eq_dec : EqDecision SpanStyle.
Proof. solve_decision. Defined.
#[export] Instance TextSpan_eq_dec : EqDecision TextSpan.
Proof. solve_decision. Defined.

Definition default_style : SpanStyle := mkStyle false false false false false false None None.

Definition BOLD : char := 0x02%N.
Definition COLOR : char := 0x03%N.
Definition HEX_COLOR : char := 0x04%N.
Definition RESET : char := 0x0F%N.
Definition MONOSPACE : char := 0x11%N.
Definition INVERSE : char := 0x16%N.
Definition ITALIC : char := 0x1D%N.
Definition STRIKETHROUGH : char := 0x1E%N.
Definition UNDERLINE : char := 0x1F%N.

Definition is_forbidden (c : char) : bool := (c <? 0x20)%N || (c =? 0x7F)%N.

(** * Parsing *)

(** Updates of one field of the style. *)
Definition toggle_bold (s : SpanStyle) : SpanStyle :=
  mkStyle (negb (bold s)) (italic s) (underline s) (strikethrough s) (monospace s) (inverse s) (fg s) (bg s).
Definition toggle_italic (s : SpanStyle) : SpanStyle :=
  mkStyle (bold s) (negb (italic s)) (underline s) (strikethrough s) (monospace s) (inverse s) (fg s) (bg s).
Definition toggle_underline (s : SpanStyle) : SpanStyle :=
  mkStyle (bold s) (italic s) (negb (underline s)) (strikethrough s) (monospace s) (inverse s) (fg s) (bg s).
Definition toggle_strikethrough (s : SpanStyle) : SpanStyle :=
  mkStyle (bold s) (italic s) (underline s) (negb (strikethrough s)) (monospace s) (inverse s) (fg s) (bg s).
Definition toggle_monospace (s : SpanStyle) : SpanStyle :=
  mkStyle (bold s) (italic s) (underline s) (strikethrough s) (negb (monospace s)) (inverse s) (fg s) (bg s).
Definition toggle_inverse (s : SpanStyle) : SpanStyle :=
  mkStyle (bold s) (italic s) (underline s) (strikethrough s) (monospace s) (negb (inverse s)) (fg s) (bg s).
Definition set_colors (f b : option N) (s : SpanStyle) : SpanStyle :=
  mkStyle (bold s) (italic s) (underline s) (strikethrough s) (monospace s) (inverse s) f b.

(** [flush]: close the pending run, merging it into the last span when the
    styles agree. *)
Definition flush (spans : list TextSpan) (buf : str) (st : SpanStyle) : list TextSpan :=
  if is_empty buf then spans
  else match last spans with
       | Some l =>
           if bool_decide (style l = st)
           then removelast spans ++ [mkSpan (text l ++ buf) (style l)]
           else spans ++ [mkSpan buf st]
       | None => spans ++ [mkSpan buf st]
       end.

(** The loop of [take_digits]; [value] is a [u16] and [seen] at most two. *)
Fixpoint digits_loop (room : nat) (value : N) (chars : str) : N * nat * str :=
  match room, chars with
  | S room, c :: chars' =>
      if is_ascii_digit c then
        let '(v, n, r) := digits_loop room (value * 10 + (c - 48))%N chars' in (v, S n, r)
      else (value, 0, chars)
  | _, _ => (value, 0, chars)
  end.

Definition take_digits (chars : str) : option N * str :=
  let '(value, seen, rest) := digits_loop 2 0%N chars in
  (if Nat.ltb 0 seen then Some (N.min value 255) else None, rest).

Definition take_color (chars : str) : option N * option N * str :=
  match take_digits chars with
  | (None, rest) => (None, None, rest)
  | (Some fg, rest) =>
      match rest with
      | c :: lookahead =>
          if (c =? 0x2C)%N then
            match take_digits lookahead with
            | (Some bg, rest') => (Some fg, Some bg, rest')
            | (None, _) => (Some fg, None, rest)
            end
          else (Some fg, None, rest)
      | [] => (Some fg, None, rest)
      end
  end.

(** [take_six]: all six or none. *)
Fixpoint take_six_loop (n : nat) (lookahead : str) : option str :=
  match n with
  | O => Some lookahead
  | S n =>
      match lookahead with
      | c :: l => if is_ascii_hexdigit c then take_six_loop n l else None
      | [] => None
      end
  end.
Definition take_six (chars : str) : option str := take_six_loop 6 chars.

Definition take_hex_color (chars : str) : str :=
  match take_six chars with
  | None => chars
  | Some rest =>
      match rest with
      | c :: lookahead =>
          if (c =? 0x2C)%N then default rest (take_six lookahead) else rest
      | [] => rest
      end
  end.

(** The locals of [parse]: the spans closed so far, the style in force and
    the pending run. *)
Record Parser := mkParser { p_spans : list TextSpan; p_style : SpanStyle; p_buf : str }.

Definition is_code (c : char) : bool :=
  existsb (N.eqb c)
    [BOLD; ITALIC; UNDERLINE; STRIKETHROUGH; MONOSPACE; INVERSE; RESET; COLOR; HEX_COLOR].

(** The inner [match] on the code: the style it leaves in force and what is
    left to read. *)
Definition apply_code (c : char) (chars : str) (s : SpanStyle) : SpanStyle * str :=
  if (c =? BOLD)%N then (toggle_bold s, chars)
  else if (c =? ITALIC)%N then (toggle_italic s, chars)
  else if (c =? UNDERLINE)%N then (toggle_underline s, chars)
  else if (c =? STRIKETHROUGH)%N then (toggle_strikethrough s, chars)
  else if (c =? MONOSPACE)%N then (toggle_monospace s, chars)
  else if (c =? INVERSE)%N then (toggle_inverse s, chars)
  else if (c =? RESET)%N then (default_style, chars)
  else if (c =? COLOR)%N then
    let '(f, b, chars) := take_color chars in (set_colors f b s, chars)
  else (set_colors None None s, take_hex_color chars).

(** One pass of the loop of [parse], [c] being the character just read. *)
Definition consume (c : char) (chars : str) (p : Parser) : Parser * str :=
  if is_code c then
    let spans := flush (p_spans p) (p_buf p) (p_style p) in
    let '(s, chars) := apply_code c chars (p_style p) in
    (mkParser spans s [], chars)
  else if is_forbidden c then (p, chars)
  else (mkParser (p_spans p) (p_style p) (p_buf p ++ [c]), chars).

Fixpoint parse_loop (fuel : nat) (chars : str) (p : Parser) : Parser :=
  match fuel, chars with
  | S fuel, c :: chars => let '(p, chars) := consume c chars p in parse_loop fuel chars p
  | _, _ => p
  end.

(** The final [flush]. *)
Definition finish (p : Parser) : list TextSpan := flush (p_spans p) (p_buf p) (p_style p).

Definition parse (input : str) : list TextSpan :=
  finish (parse_loop (length input) input (mkParser [] default_style [])).

Definition strip (input : str) : str := concat (map text (parse input)).

(** * Encoding *)

(** [{n:02}]. *)
Definition two_digits (n : N) : str :=
  if (n <? 10)%N then 48%N :: to_dec n else to_dec n.

Definition opens_like_a_background (t : str) : bool :=
  match t with
  | c :: d :: _ => (c =? 0x2C)%N && is_ascii_digit d
  | _ => false
  end.

Definition push_if (b : bool) (c : char) : str := if b then [c] else [].

Definition encode_color (span : TextSpan) : str :=
  match fg (style span) with
  | None => []
  | Some f =>
      COLOR :: two_digits f
      ++ (match bg (style span) with Some b => 0x2C%N :: two_digits b | None => [] end)
      ++ (if bool_decide (bg (style span) = None) && opens_like_a_background (text span)
          then [BOLD; BOLD] else [])
  end.

Definition encode_span (span : TextSpan) : str :=
  let s := style span in
  RESET :: push_if (bold s) BOLD ++ push_if (italic s) ITALIC ++ push_if (underline s) UNDERLINE
  ++ push_if (strikethrough s) STRIKETHROUGH ++ push_if (monospace s) MONOSPACE
  ++ push_if (inverse s) INVERSE ++ encode_color span ++ text span.

Definition encode (spans : list TextSpan) : str := concat (map encode_span spans).

(** * Well-formed spans *)

(** What a colour code can denote: two digits each, and no background without
    a foreground. *)
Definition style_ok (s : SpanStyle) : Prop :=
  match fg s with Some f => (f < 100)%N | None => bg s = None end
  ∧ (∀ b, bg s = Some b → (b < 100)%N).

Definition plain (t : str) : Prop := Forall (λ c, is_forbidden c = false) t.

Definition span_ok (sp : TextSpan) : Prop := text sp ≠ [] ∧ plain (text sp) ∧ style_ok (style sp).

(** No two neighbours share a style. *)
Definition alternating (l : list TextSpan) : Prop :=
  ∀ i a b, l !! i = Some a → l !! S i = Some b → style a ≠ style b.

Definition spans_ok (l : list TextSpan) : Prop := Forall span_ok l ∧ alternating l.

Definition parser_ok (p : Parser) : Prop :=
  spans_ok (p_spans p) ∧ style_ok (p_style p) ∧ plain (p_buf p).

(** * Lemmas: neighbours *)

Lemma alternating_nil : alternating [].
Proof. intros i a b. by rewrite lookup_nil. Qed.

Lemma alternating_prefix l k : alternating (l ++ k) → alternating l.
Proof. intros H i a b Ha Hb. eapply H; by apply lookup_app_l_Some. Qed.

Lemma alternating_snoc l x :
  alternating (l ++ [x]) ↔ alternating l ∧ (∀ y, last l = Some y → style y ≠ style x).
Proof.
  split.
  - intros H. split; [by eapply alternating_prefix|]. intros y Hy.
    rewrite last_lookup in Hy. pose proof (lookup_lt_Some _ _ _ Hy) as Hl.
    apply (H (pred (length l))); [by apply lookup_app_l_Some|].
    rewrite lookup_app_r by lia. replace (S (pred (length l)) - length l) with 0 by lia. done.
  - intros [H1 H2] i a b Ha Hb.
    apply lookup_app_Some in Hb as [Hb|[Hi Hb]].
    + apply (H1 i); [|done]. rewrite lookup_app_l in Ha; [done|]. apply lookup_lt_Some in Hb. lia.
    + apply list_lookup_singleton_Some in Hb as [Hi' <-].
      apply H2. rewrite last_lookup. rewrite lookup_app_l in Ha by lia.
      by replace (pred (length l)) with i by lia.
Qed.

Lemma last_style_eq (l : list TextSpan) x x' :
  style x = style x' → alternating (l ++ [x]) → alternating (l ++ [x']).
Proof. intros E. rewrite !alternating_snoc. by rewrite E. Qed.

(** * Lemmas: the parser keeps its invariant *)

Lemma flush_ok spans buf s :
  spans_ok spans → style_ok s → plain buf → spans_ok (flush spans buf s).
Proof.
  intros [Hf Ha] Hs Hb. unfold flush. destruct (is_empty buf) eqn:E; [done|].
  apply is_empty_false in E.
  destruct (last spans) as [l|] eqn:Hl.
  - apply last_Some in Hl as [init ->]. rewrite Forall_app, Forall_singleton in Hf.
    destruct Hf as [Hf (Hl1 & Hl2 & Hl3)]. case_bool_decide.
    + rewrite removelast_last. split.
      * apply Forall_app. split; [done|]. apply Forall_singleton.
        split; [|split; [by apply Forall_app|done]]. simpl. by destruct (text l).
      * by apply (last_style_eq init l).
    + split; [rewrite !Forall_app, !Forall_singleton; done|].
      apply alternating_snoc. split; [done|]. intros y. rewrite last_snoc. by intros [= <-].
  - apply last_None in Hl as ->. split; [by apply Forall_singleton|].
    by apply (alternating_snoc []).
Qed.

Lemma digits_loop_spec room v chars :
  let '(v', n, r) := digits_loop room v chars in
  n ≤ room ∧ length r + n = length chars ∧ (v' < (v + 1) * 10 ^ N.of_nat n)%N.
Proof.
  revert v chars. induction room as [|room IH]; intros v chars; simpl; [split_and!; lia|].
  destruct chars as [|c chars]; [simpl; split_and!; lia|].
  destruct (is_ascii_digit c) eqn:E; [|simpl; split_and!; lia].
  specialize (IH (v * 10 + (c - 48))%N chars).
  destruct (digits_loop _ _ chars) as [[v' n] r]. destruct IH as (H1 & H2 & H3).
  unfold is_ascii_digit in E. bool_simp. simpl. split_and!; [lia|lia|].
  rewrite Nnat.Nat2N.inj_succ, N.pow_succ_r'.
  eapply N.lt_le_trans; [done|]. rewrite N.mul_assoc. apply N.mul_le_mono_r. lia.
Qed.

Lemma take_digits_spec chars :
  length (take_digits chars).2 ≤ length chars
  ∧ (∀ v, (take_digits chars).1 = Some v → (v < 100)%N).
Proof.
  unfold take_digits. pose proof (digits_loop_spec 2 0 chars) as H.
  destruct (digits_loop 2 0 chars) as [[v n] r]. destruct H as (H1 & H2 & H3). simpl.
  split; [lia|]. intros w. case_match; [|done]. intros [= <-].
  assert (v < 100)%N; [|lia]. eapply N.lt_le_trans; [exact H3|].
  destruct n as [|[|[|]]]; simpl; lia.
Qed.

Lemma take_color_spec chars :
  let '(f, b, r) := take_color chars in
  length r ≤ length chars ∧ style_ok (set_colors f b default_style).
Proof.
  unfold take_color, style_ok. pose proof (take_digits_spec chars) as [H1 H2].
  destruct (take_digits chars) as [[f|] r]; simpl in *; [|done].
  specialize (H2 f eq_refl).
  destruct r as [|c l]; [done|]. simpl in *. destruct (c =? 44)%N; [|done].
  pose proof (take_digits_spec l) as [H3 H4].
  destruct (take_digits l) as [[b|] r']; simpl in *; [|done].
  split; [lia|]. split; [done|]. intros ? [= <-]. auto.
Qed.

Lemma take_six_length chars r : take_six chars = Some r → length r ≤ length chars.
Proof.
  unfold take_six. generalize 6 as n. intros n. revert chars.
  induction n as [|n IH]; intros chars; simpl; [by intros [= ->]|].
  destruct chars as [|c l]; [done|]. case_match; [|done]. intros Hr%IH. simpl. lia.
Qed.

Lemma take_hex_color_length chars : length (take_hex_color chars) ≤ length chars.
Proof.
  unfold take_hex_color. destruct (take_six chars) as [r|] eqn:E; [|done].
  apply take_six_length in E. destruct r as [|c l]; [done|]. case_match; [|done].
  destruct (take_six l) as [r'|] eqn:E'; [|done]. apply take_six_length in E'. simpl in *. lia.
Qed.

Lemma apply_code_ok c chars s :
  style_ok s →
  style_ok (apply_code c chars s).1 ∧ length (apply_code c chars s).2 ≤ length chars.
Proof.
  intros Hs. unfold apply_code. repeat case_match; simpl; try done.
  - pose proof (take_color_spec chars) as H'. simplify_eq.
    repeat match goal with H : take_color _ = _ |- _ => rewrite H in * end. naive_solver.
  - split; [done|apply take_hex_color_length].
Qed.

Lemma consume_ok c chars p :
  parser_ok p → parser_ok (consume c chars p).1.
Proof.
  intros (H1 & H2 & H3). unfold consume. destruct (is_code c).
  - pose proof (apply_code_ok c chars _ H2) as [Hs _].
    destruct (apply_code c chars (p_style p)) as [s r]. simpl in *.
    split_and!; [by apply flush_ok|done|constructor].
  - destruct (is_forbidden c) eqn:E; [done|]. split_and!; [done|done|].
    simpl. apply Forall_app. split; [done|by constructor].
Qed.

Lemma consume_length c chars p : length (consume c chars p).2 ≤ length chars.
Proof.
  unfold consume. destruct (is_code c); [|by case_match].
  assert (length (apply_code c chars (p_style p)).2 ≤ length chars) as H; [|by case_match].
  unfold apply_code. repeat case_match; simpl; try done; [|apply take_hex_color_length].
  pose proof (take_color_spec chars) as H'. by simplify_eq; case_match; simplify_eq; destruct H'.
Qed.

Lemma parse_loop_ok fuel chars p : parser_ok p → parser_ok (parse_loop fuel chars p).
Proof.
  revert chars p. induction fuel as [|fuel IH]; intros chars p Hp; [done|].
  destruct chars as [|c chars]; [done|]. simpl. pose proof (consume_ok c chars p Hp).
  destruct (consume c chars p). by apply IH.
Qed.

(** * Lemmas: the loop, read one character at a time *)

(** The loop of [parse] with the fuel it runs with. *)
Definition run (chars : str) (p : Parser) : Parser := parse_loop (length chars) chars p.

Lemma parse_loop_fuel fuel chars p :
  length chars ≤ fuel → parse_loop fuel chars p = run chars p.
Proof.
  unfold run. revert chars p. induction fuel as [fuel IH] using lt_wf_ind. intros chars p Hl.
  destruct chars as [|c chars]; [by destruct fuel|].
  destruct fuel as [|fuel]; simpl in *; [lia|].
  pose proof (consume_length c chars p). destruct (consume c chars p) as [p' r]. simpl in *.
  rewrite (IH fuel), (IH (length chars)) by lia. done.
Qed.

Lemma run_cons c r p : run (c :: r) p = run (consume c r p).2 (consume c r p).1.
Proof.
  unfold run at 1. simpl. pose proof (consume_length c r p).
  destruct (consume c r p) as [p' r']. by apply parse_loop_fuel.
Qed.

Lemma plain_not_code c : is_forbidden c = false → is_code c = false.
Proof.
  intros H. unfold is_forbidden in H. bool_simp. unfold is_code. simpl.
  unfold BOLD, ITALIC, UNDERLINE, STRIKETHROUGH, MONOSPACE, INVERSE, RESET, COLOR, HEX_COLOR.
  repeat match goal with |- context [(c =? ?k)%N] => destruct (N.eqb_spec c k); [lia|] end. done.
Qed.

Lemma run_text t r spans s buf :
  plain t → run (t ++ r) (mkParser spans s buf) = run r (mkParser spans s (buf ++ t)).
Proof.
  intros Ht. revert buf. induction Ht as [|c t Hc Ht IH]; intros buf; simpl; [by rewrite app_nil_r|].
  rewrite run_cons. unfold consume. rewrite plain_not_code, Hc by done. simpl.
  rewrite IH. by rewrite <- (assoc_L (++)).
Qed.

Lemma run_code c r p :
  is_code c = true →
  run (c :: r) p
  = run (apply_code c r (p_style p)).2 (mkParser (finish p) (apply_code c r (p_style p)).1 []).
Proof.
  intros Hc. rewrite run_cons. unfold consume. rewrite Hc.
  by destruct (apply_code c r (p_style p)).
Qed.

(** An attribute code between runs only changes the style. *)
Lemma run_push_if b c f r spans s :
  is_code c = true → apply_code c r s = (f s, r) →
  run (push_if b c ++ r) (mkParser spans s []) = run r (mkParser spans (if b then f s else s) []).
Proof. intros Hc Ha. destruct b; [|done]. simpl. rewrite run_code by done. simpl. by rewrite Ha. Qed.

(** * Lemmas: colours *)

Lemma two_digits_spec n :
  (n < 100)%N → two_digits n = [48 + n / 10; 48 + n mod 10]%N.
Proof.
  intros Hn.
  assert (∀ k, k ∈ seq 0 100 → two_digits (N.of_nat k) = [48 + N.of_nat k / 10; 48 + N.of_nat k mod 10]%N) as H.
  { apply Forall_forall. vm_compute. repeat constructor. }
  specialize (H (N.to_nat n)). rewrite N2Nat.id in H. apply H, elem_of_seq. lia.
Qed.

Lemma digit_char d : (d < 10)%N → is_ascii_digit (48 + d) = true.
Proof. intros. unfold is_ascii_digit. apply andb_true_iff. split; apply N.leb_le; lia. Qed.

Lemma take_digits_two n r : (n < 100)%N → take_digits (two_digits n ++ r) = (Some n, r).
Proof.
  intros Hn. rewrite two_digits_spec by done. unfold take_digits. simpl.
  assert (n / 10 < 10)%N by (apply N.Div0.div_lt_upper_bound; lia).
  assert (n mod 10 < 10)%N by (apply N.mod_lt; lia).
  pose proof (N.div_mod n 10 ltac:(lia)).
  rewrite !digit_char by done. cbn [Nat.ltb Nat.leb].
  generalize dependent (n / 10)%N. generalize dependent (n mod 10)%N.
  intros m Hm q Hq E. do 2 f_equal. lia.
Qed.

(** What may follow a colour without a background. *)
Definition no_background (r : str) : Prop := opens_like_a_background r = false.

Lemma take_digits_None r :
  match r with [] => True | c :: _ => is_ascii_digit c = false end → take_digits r = (None, r).
Proof. destruct r as [|c r]; [done|]. intros H. unfold take_digits. simpl. by rewrite H. Qed.

Lemma take_color_fg f r :
  (f < 100)%N → no_background r → take_color (two_digits f ++ r) = (Some f, None, r).
Proof.
  intros Hf Hr. unfold take_color. rewrite take_digits_two by done.
  unfold no_background, opens_like_a_background in Hr.
  destruct r as [|c l]; [done|]. destruct (c =? 44)%N; [|done].
  rewrite take_digits_None; [done|]. by destruct l.
Qed.

Lemma take_color_both f b r :
  (f < 100)%N → (b < 100)%N →
  take_color (two_digits f ++ 44%N :: two_digits b ++ r) = (Some f, Some b, r).
Proof. intros. unfold take_color. rewrite take_digits_two by done. simpl. by rewrite take_digits_two. Qed.

Lemma run_color f b t r spans s :
  style_ok (set_colors f b s) → plain t → t ≠ [] → no_background (t ++ r) ∨ opens_like_a_background t = true →
  fg s = None → bg s = None →
  run (encode_color (mkSpan t (set_colors f b s)) ++ t ++ r) (mkParser spans s [])
  = run r (mkParser spans (set_colors f b s) t).
Proof.
  intros [Hf Hb] Ht Hne Hr Hfs Hbs. unfold encode_color. simpl.
  destruct f as [f|]; simpl in *.
  - destruct b as [b|]; simpl.
    + rewrite run_code, app_nil_r by done. cbn [p_style apply_code].
      rewrite <- (assoc_L (++)). cbn [app].
      assert (apply_code COLOR (two_digits f ++ 44%N :: two_digits b ++ t ++ r) s
        = (set_colors (Some f) (Some b) s, t ++ r)) as ->.
      { unfold apply_code. cbn. by rewrite take_color_both by auto. }
      simpl. by rewrite run_text.
    + rewrite run_code by done. cbn [p_style].
      destruct (opens_like_a_background t) eqn:Ho.
      * rewrite <- (assoc_L (++)). cbn [app].
        assert (apply_code COLOR (two_digits f ++ BOLD :: BOLD :: t ++ r) s
          = (set_colors (Some f) None s, BOLD :: BOLD :: t ++ r)) as ->.
        { unfold apply_code. cbn. by rewrite take_color_fg. }
        cbn [fst snd]. do 2 (rewrite run_code by done; simpl). rewrite run_text by done.
        unfold toggle_bold, set_colors. simpl. by rewrite negb_involutive.
      * rewrite app_nil_r.
        assert (apply_code COLOR (two_digits f ++ t ++ r) s
          = (set_colors (Some f) None s, t ++ r)) as ->.
        { unfold apply_code. cbn. rewrite take_color_fg; [done|done|]. by destruct Hr. }
        simpl. by rewrite run_text.
  - subst b. simpl. rewrite run_text by done. destruct s. simpl in *. by subst.
Qed.

Lemma opens_app t r :
  t ≠ [] → match r with [] => True | c :: _ => is_ascii_digit c = false end →
  no_background (t ++ r) ∨ opens_like_a_background t = true.
Proof.
  intros Ht Hr. destruct t as [|c [|d t]]; [done| |].
  - left. unfold no_background. simpl. destruct r; [done|]. by rewrite Hr, andb_false_r.
  - simpl. destruct ((c =? 44)%N && is_ascii_digit d) eqn:E; [by right|left]. exact E.
Qed.

(** Reading back one encoded span: the pending run is closed and the span
    becomes the pending run. *)
Lemma run_encode_span sp r p :
  span_ok sp → match r with [] => True | c :: _ => is_ascii_digit c = false end →
  run (encode_span sp ++ r) p = run r (mkParser (finish p) (style sp) (text sp)).
Proof.
  destruct sp as [t [b i u k m v f g]]. intros (Hne & Ht & Hs) Hr. unfold encode_span. simpl in *.
  rewrite run_code by done. cbn [apply_code p_style fst snd]. simpl.
  rewrite <- !(assoc_L (++)).
  rewrite (run_push_if b BOLD toggle_bold) by done.
  rewrite (run_push_if i ITALIC toggle_italic) by done.
  rewrite (run_push_if u UNDERLINE toggle_underline) by done.
  rewrite (run_push_if k STRIKETHROUGH toggle_strikethrough) by done.
  rewrite (run_push_if m MONOSPACE toggle_monospace) by done.
  rewrite (run_push_if v INVERSE toggle_inverse) by done.
  match goal with |- run _ (mkParser _ ?s _) = _ =>
    assert (s = mkStyle b i u k m v None None) as -> by (by destruct b, i, u, k, m, v) end.
  exact (run_color f g t r _ (mkStyle b i u k m v None None) Hs Ht Hne (opens_app t r Hne Hr) eq_refl eq_refl).
Qed.

Lemma finish_snoc spans sp :
  text sp ≠ [] → alternating (spans ++ [sp]) →
  finish (mkParser spans (style sp) (text sp)) = spans ++ [sp].
Proof.
  intros Hne Ha. unfold finish, flush. simpl.
  destruct (is_empty (text sp)) eqn:E; [by apply is_empty_true in E|].
  apply alternating_snoc in Ha as [_ Ha]. destruct sp as [t s]. simpl in *.
  destruct (last spans) as [y|] eqn:Hy; [|done]. rewrite bool_decide_false; [done|]. by apply Ha.
Qed.

Lemma run_encode spans p :
  Forall span_ok spans → alternating (finish p ++ spans) →
  finish (run (encode spans) p) = finish p ++ spans.
Proof.
  intros Hf. revert p. induction Hf as [|sp l Hsp Hl IH]; intros p Ha.
  { by rewrite app_nil_r. }
  change (encode (sp :: l)) with (encode_span sp ++ encode l). rewrite run_encode_span; [|done|by destruct l].
  rewrite cons_middle, (assoc_L (++)) in Ha.
  assert (finish (mkParser (finish p) (style sp) (text sp)) = finish p ++ [sp]) as E.
  { apply finish_snoc; [by destruct Hsp|]. by eapply alternating_prefix. }
  rewrite IH by (by rewrite E). rewrite E. by rewrite <- (assoc_L (++)).
Qed.

Lemma parse_spans_ok input : spans_ok (parse input).
Proof.
  unfold parse, finish.
  pose proof (parse_loop_ok (length input) input (mkParser [] default_style [])) as (H1 & H2 & H3).
  { split_and!; [split; [constructor|apply alternating_nil]|done|constructor]. }
  by apply flush_ok.
Qed.

Lemma parse_encode_ok spans : spans_ok spans → parse (encode spans) = spans.
Proof.
  intros [Hf Ha]. unfold parse. fold (run (encode spans) (mkParser [] default_style [])).
  by rewrite run_encode.
Qed.

(** * Lemmas: what text survives *)

(** The text read so far, runs and pending characters together. *)
Definition shown (p : Parser) : str := concat (map text (p_spans p)) ++ p_buf p.

Lemma flush_shown spans buf s :
  concat (map text (flush spans buf s)) = concat (map text spans) ++ buf.
Proof.
  unfold flush. destruct (is_empty buf) eqn:E; [apply is_empty_true in E as ->; by rewrite app_nil_r|].
  destruct (last spans) as [l|] eqn:Hl; [|by rewrite map_app, concat_app; simpl; rewrite app_nil_r].
  apply last_Some in Hl as [init ->]. case_bool_decide; [rewrite removelast_last|];
    rewrite !map_app, !concat_app; simpl; rewrite !app_nil_r; by rewrite <- ?(assoc_L (++)).
Qed.

Lemma digits_loop_suffix room v chars : (digits_loop room v chars).2 `suffix_of` chars.
Proof.
  revert v chars. induction room as [|room IH]; intros v [|c chars]; simpl; try done.
  destruct (is_ascii_digit c); [|done]. specialize (IH (v * 10 + (c - 48))%N chars).
  destruct (digits_loop _ _ chars) as [[??]?]. by apply suffix_cons_r.
Qed.

Lemma take_digits_suffix chars : (take_digits chars).2 `suffix_of` chars.
Proof.
  unfold take_digits. pose proof (digits_loop_suffix 2 0 chars).
  by destruct (digits_loop 2 0 chars) as [[??]?].
Qed.

Lemma take_six_suffix chars r : take_six chars = Some r → r `suffix_of` chars.
Proof.
  unfold take_six. generalize 6 as n. intros n. revert chars.
  induction n as [|n IH]; intros chars; simpl; [by intros [= ->]|].
  destruct chars as [|c l]; [done|]. destruct (is_ascii_hexdigit c); [|done].
  intros Hr%IH. by apply suffix_cons_r.
Qed.

Lemma apply_code_suffix c chars s : (apply_code c chars s).2 `suffix_of` chars.
Proof.
  unfold apply_code. do 7 (case_match; [done|]). case_match.
  - unfold take_color. pose proof (take_digits_suffix chars) as Hd1.
    destruct (take_digits chars) as [[f|] r]; simpl in *; [|done].
    destruct r as [|k l]; [done|]. destruct (k =? 44)%N; [|done].
    pose proof (take_digits_suffix l) as Hd2. destruct (take_digits l) as [[b|] r']; simpl in *; [|done].
    trans l; [done|]. trans (k :: l); [by apply suffix_cons_r|done].
  - simpl. unfold take_hex_color. destruct (take_six chars) as [r|] eqn:E; [|done].
    apply take_six_suffix in E. destruct r as [|k l]; [done|]. destruct (k =? 44)%N; [|done].
    destruct (take_six l) as [r'|] eqn:E'; [|done]. apply take_six_suffix in E'. simpl.
    trans l; [done|]. trans (k :: l); [by apply suffix_cons_r|done].
Qed.

Lemma consume_shown c chars p :
  shown (consume c chars p).1 = shown p ++ (if is_forbidden c then [] else [c])
  ∧ (consume c chars p).2 `suffix_of` chars.
Proof.
  unfold consume. destruct (is_code c) eqn:Hc.
  - destruct (is_forbidden c) eqn:Hf; [|apply plain_not_code in Hf; congruence].
    pose proof (apply_code_suffix c chars (p_style p)).
    destruct (apply_code c chars (p_style p)) as [s r]. split; [|done].
    unfold shown. simpl. by rewrite flush_shown, !app_nil_r.
  - destruct (is_forbidden c); [by rewrite app_nil_r|]. split; [|done].
    unfold shown. simpl. by rewrite (assoc_L (++)).
Qed.

Lemma run_shown chars p : ∃ t, shown (run chars p) = shown p ++ t ∧ t `sublist_of` chars.
Proof.
  revert p. induction chars as [chars IH] using (induction_ltof1 _ length). unfold ltof in IH. intros p.
  destruct chars as [|c chars]; [exists []; by rewrite app_nil_r|].
  rewrite run_cons. pose proof (consume_length c chars p). pose proof (consume_shown c chars p) as [H1 H2].
  destruct (IH (consume c chars p).2 ltac:(simpl; lia) (consume c chars p).1) as (t & Ht & Hs).
  rewrite Ht, H1, <- (assoc_L (++)). eexists. split; [done|].
  change (c :: chars) with ([c] ++ chars). apply sublist_app; [destruct (is_forbidden c); [apply sublist_nil_l|done]|].
  etrans; [exact Hs|]. clear -H2. revert H2. generalize ((consume c chars p).2).
  intros q [k ->]. by apply sublist_inserts_l.
Qed.

Lemma strip_run input : strip input = shown (run input (mkParser [] default_style [])).
Proof. unfold strip, parse, finish. by rewrite flush_shown. Qed.

Lemma strip_plain input : plain (strip input).
Proof.
  destruct (parse_spans_ok input) as [H _]. unfold strip. induction H as [|sp l (_ & Hp & _) Hl IH]; simpl.
  { constructor. } apply Forall_app. by split.
Qed.

Lemma strip_plain_id t : plain t → strip t = t.
Proof.
  intros Ht. rewrite strip_run, <- (app_nil_r t) at 1. rewrite run_text by done. done.
Qed.

(** * Properties *)

(** Whatever a server sends, the spans [parse] hands to the UI hold no
    control character (line break and tab included), none is empty, no two
    neighbours share a style, and colours are of two digits with no background
    alone; the text they show is made of characters of the message in their
    order, and stripping it again changes nothing. *)
Theorem parse_output_safe (input : str) :
  spans_ok (parse input)
  ∧ strip input `sublist_of` input
  ∧ plain (strip input) ∧ strip (strip input) = strip input.
Proof.
  split_and!; [apply parse_spans_ok| |apply strip_plain|apply strip_plain_id, strip_plain].
  rewrite strip_run. by destruct (run_shown input (mkParser [] default_style [])) as (t & -> & Hs).
Qed.

(** A message saved as codes and read back has the spans it had; and the
    spans [encode] preserves are exactly the well-formed ones. *)
Theorem format_roundtrip :
  (∀ input, parse (encode (parse input)) = parse input)
  ∧ (∀ spans, parse (encode spans) = spans ↔ spans_ok spans).
Proof.
  split; [intros; apply parse_encode_ok, parse_spans_ok|].
  intros spans. split; [intros <-; apply parse_spans_ok|apply parse_encode_ok].
Qed.
