(* ===== verification/Reply.v ===== *)
(** Replies written in the text of a message ([ddirc-core/src/text/reply.rs]).

    [char::is_alphanumeric] is a table of the Unicode standard, so it is a
    parameter here; the one thing relied on is that the colon is not in it. *)
From S2P Require Import Prelude RustStr.

(** * Data *)

Definition MAX_EXCERPT : nat := 40.
Definition OPEN : char := 0xAB%N.
Definition CLOSE : char := 0xBB%N.
Definition ELLIPSIS : char := 0x2026%N.
Definition MAX_NICK : nat := 64.

Record ReplyRef := mkReplyRef { msgid : option str; nick : str; excerpt_of : str }.

#[export] Instance ReplyRef_eq_dec : EqDecision ReplyRef.
Proof. solve_decision. Defined.

(** * Writing *)

(** The [match] of the [map] in [excerpt]. *)
Definition flat_char (c : char) : char :=
  if (c =? CLOSE)%N then 0x22%N else if is_control c then 0x20%N else c.

Definition excerpt (text : str) : str :=
  let flat := map flat_char text in
  let flat := join (lit " ") (split_whitespace flat) in
  let head := take MAX_EXCERPT flat in
  if is_empty (drop MAX_EXCERPT flat) then head else trim_end head ++ [ELLIPSIS].

Definition format_reply (nick excerpt body : str) : str :=
  nick ++ lit ": " ++ [OPEN] ++ excerpt ++ [CLOSE] ++ lit " " ++ body.

(** * Reading *)

(** [str::split_once] on a string pattern. *)
Fixpoint split_once_str (pat s : str) : option (str * str) :=
  match strip_prefix pat s with
  | Some r => Some ([], r)
  | None =>
      match s with
      | [] => None
      | c :: s =>
          match split_once_str pat s with
          | Some (l, r) => Some (c :: l, r)
          | None => None
          end
      end
  end.

Section Reply.
Context (is_alphanumeric : char → bool).

Definition is_nick_char (c : char) : bool :=
  is_alphanumeric c || contains_char c (lit "-_[]\`^{}|").

Definition parse_reply (text : str) : option (ReplyRef * str) :=
  match split_once_str (lit ": ") text with
  | None => None
  | Some (nick, rest) =>
      if is_empty nick || Nat.ltb MAX_NICK (length nick) || negb (forallb is_nick_char nick) then None
      else match strip_prefix [OPEN] rest with
           | None => None
           | Some rest =>
               match split_once CLOSE rest with
               | None => None
               | Some (quoted, body) =>
                   if Nat.ltb (MAX_EXCERPT + 1) (length quoted) || contains_char OPEN quoted then None
                   else Some (mkReplyRef None nick quoted,
                              default body (strip_prefix (lit " ") body))
               end
           end
  end.

(** A nick the parser believes. *)
Definition believable (nick : str) : Prop :=
  nick ≠ [] ∧ length nick ≤ MAX_NICK ∧ forallb is_nick_char nick = true.
End Reply.

(** * Lemmas: splitting *)

(** A match of the pattern, and nothing earlier. *)
Lemma split_once_str_unfold pat s :
  split_once_str pat s =
  match strip_prefix pat s with
  | Some r => Some ([], r)
  | None => match s with
            | [] => None
            | c :: s => match split_once_str pat s with
                        | Some (l, r) => Some (c :: l, r)
                        | None => None
                        end
            end
  end.
Proof. by destruct s. Qed.

Lemma split_once_str_Some pat s l r : split_once_str pat s = Some (l, r) → s = l ++ pat ++ r.
Proof.
  revert l. induction s as [|c s IH]; intros l; rewrite split_once_str_unfold;
    destruct (strip_prefix _ _) as [r'|] eqn:E; try done;
    try (intros [= <- <-]; by apply strip_prefix_Some in E).
  destruct (split_once_str pat s) as [[l' r']|]; [|done]. intros [= <- <-]. by rewrite (IH l').
Qed.

(** The first [": "] is the one after a prefix without colons. *)
Lemma split_once_str_colon l r :
  58%N ∉ l → split_once_str (lit ": ") (l ++ lit ": " ++ r) = Some (l, r).
Proof.
  induction l as [|c l IH]; intros Hl; [done|].
  rewrite split_once_str_unfold.
  replace (strip_prefix _ _) with (@None str).
  - cbn [app]. rewrite IH by set_solver. done.
  - destruct (strip_prefix _ _) eqn:E; [|done]. apply strip_prefix_Some in E. simplify_eq/=. set_solver.
Qed.

(** * Lemmas: excerpts *)

Lemma elem_of_join c sep l : c ∈ join sep l → c ∈ sep ∨ ∃ w, w ∈ l ∧ c ∈ w.
Proof.
  induction l as [|w l IH]; simpl; [set_solver|].
  destruct l as [|w' l]; [set_solver|]. rewrite !elem_of_app. intros [?|[?|H]]; [set_solver..|].
  apply IH in H. set_solver.
Qed.

Lemma elem_of_words_aux c p s acc w :
  w ∈ words_aux p s acc → c ∈ w → c ∈ s ∨ c ∈ acc.
Proof.
  revert acc. induction s as [|a s IH]; intros acc; simpl.
  - destruct (is_empty acc); [set_solver|]. rewrite list_elem_of_singleton. intros ->.
    rewrite elem_of_rev. set_solver.
  - destruct (p a).
    + destruct (is_empty acc).
      * intros Hw Hc. destruct (IH [] Hw Hc); set_solver.
      * rewrite elem_of_cons. intros [->|Hw] Hc; [|destruct (IH [] Hw Hc); set_solver].
        rewrite elem_of_rev in Hc. set_solver.
    + intros Hw Hc. destruct (IH _ Hw Hc); set_solver.
Qed.

(** Every character of an excerpt is one of the message, flattened, or one the
    excerpt adds. *)
Lemma elem_of_excerpt c t :
  c ∈ excerpt t → c = ELLIPSIS ∨ c = 32%N ∨ ∃ a, a ∈ t ∧ c = flat_char a.
Proof.
  unfold excerpt. set (flat := join _ _).
  assert (∀ n, c ∈ take n flat → c = 32%N ∨ ∃ a, a ∈ t ∧ c = flat_char a) as Hflat.
  { intros n Hc%elem_of_take. destruct Hc as (i & Hc & _). apply list_elem_of_lookup_2 in Hc.
    apply elem_of_join in Hc as [Hc|(w & Hw & Hc)]; [left; by apply list_elem_of_singleton in Hc|].
    right. destruct (elem_of_words_aux c _ _ _ _ Hw Hc) as [H|H]; [|by apply not_elem_of_nil in H].
    apply list_elem_of_fmap in H as (a & -> & Ha). eauto. }
  destruct (is_empty _); [intros; right; eauto|].
  rewrite elem_of_app, list_elem_of_singleton. intros [Hc%trim_end_elem|Hc]; [right; eauto|by left].
Qed.

Lemma flat_char_safe a : flat_char a ≠ CLOSE ∧ is_control (flat_char a) = false.
Proof.
  unfold flat_char. destruct (N.eqb_spec a CLOSE); [done|]. destruct (is_control a) eqn:E; done.
Qed.

Lemma excerpt_safe t c : c ∈ excerpt t → c ≠ CLOSE ∧ is_control c = false.
Proof.
  intros [->|[->|(a & _ & ->)]]%elem_of_excerpt; [done..|apply flat_char_safe].
Qed.

Lemma excerpt_length t : length (excerpt t) ≤ MAX_EXCERPT + 1.
Proof.
  unfold excerpt. set (flat := join _ _).
  assert (length (take MAX_EXCERPT flat) ≤ MAX_EXCERPT) by (rewrite length_take; lia).
  destruct (is_empty _); [lia|]. rewrite length_app. cbn [length].
  pose proof (trim_end_length (take MAX_EXCERPT flat)). lia.
Qed.

(** * Properties *)

Section Properties.
Context (is_alphanumeric : char → bool).
Hypothesis colon_not_alphanumeric : is_alphanumeric 58%N = false.
Abbreviation parse_reply := (parse_reply is_alphanumeric).
Abbreviation believable := (believable is_alphanumeric).

Lemma believable_no_colon n : believable n → 58%N ∉ n.
Proof.
  intros (_ & _ & H) Hin. apply forallb_Forall_true in H. rewrite Forall_forall in H.
  apply H in Hin. unfold is_nick_char in Hin. by rewrite colon_not_alphanumeric in Hin.
Qed.

Lemma believable_test n :
  believable n →
  is_empty n || Nat.ltb MAX_NICK (length n) || negb (forallb (is_nick_char is_alphanumeric) n) = false.
Proof.
  intros (H1 & H2 & H3). apply is_empty_false in H1. rewrite H1, H3. simpl. rewrite orb_false_r.
  apply Nat.ltb_ge. lia.
Qed.

Lemma parse_written n e b :
  believable n → CLOSE ∉ e →
  parse_reply (n ++ lit ": " ++ [OPEN] ++ e ++ [CLOSE] ++ b)
  = if Nat.ltb (MAX_EXCERPT + 1) (length e) || contains_char OPEN e then None
    else Some (mkReplyRef None n e, default b (strip_prefix (lit " ") b)).
Proof.
  intros Hn Hc. unfold Reply.parse_reply.
  rewrite split_once_str_colon by (by apply believable_no_colon).
  rewrite believable_test by done.
  replace (strip_prefix [OPEN] _) with (Some (e ++ CLOSE :: b)) by done.
  by rewrite (proj2 (split_once_spec _ _ e b)).
Qed.

(** What [parse_reply] accepts is what [format_reply] writes (with or
    without the space before the body), for a believable nick and a quote that
    is short and holds no quotation mark; and it gives back the three parts. *)
Theorem parse_reply_exact (text body : str) (r : ReplyRef) :
  parse_reply text = Some (r, body) ↔
  msgid r = None ∧ believable (nick r)
  ∧ length (excerpt_of r) ≤ MAX_EXCERPT + 1 ∧ (OPEN ∉ excerpt_of r) ∧ (CLOSE ∉ excerpt_of r)
  ∧ (text = format_reply (nick r) (excerpt_of r) body
     ∨ text = nick r ++ lit ": " ++ [OPEN] ++ excerpt_of r ++ [CLOSE] ++ body
       ∧ starts_with (lit " ") body = false).
Proof.
  split.
  - unfold Reply.parse_reply. destruct (split_once_str _ text) as [[n rest]|] eqn:Hs; [|done].
    apply split_once_str_Some in Hs as ->.
    destruct (is_empty n || _ || _) eqn:Hn; [done|].
    destruct (strip_prefix _ rest) as [rest'|] eqn:Ho; [|done]. apply strip_prefix_Some in Ho as ->.
    destruct (split_once CLOSE rest') as [[q b]|] eqn:Hc; [|done]. apply split_once_spec in Hc as [-> Hc].
    destruct (Nat.ltb _ _ || _) eqn:Hq; [done|].
    destruct (strip_prefix (lit " ") b) as [b'|] eqn:Hb; cbn [from_option]; intros [= <- <-]; cbn [msgid nick excerpt_of];
      apply orb_false_iff in Hn as [[Hn1 Hn2]%orb_false_iff Hn3], Hq as [Hq1 Hq2];
      apply is_empty_false in Hn1; apply Nat.ltb_ge in Hn2, Hq1; apply contains_char_false in Hq2;
      apply negb_false_iff in Hn3; split_and!; try done.
    + left. apply strip_prefix_Some in Hb as ->. done.
    + right. split; [done|]. by apply strip_prefix_None.
  - destruct r as [m n e]. cbn [msgid nick excerpt_of]. intros (-> & Hn & Hl & Ho & Hc & Ht).
    assert (∃ b, text = n ++ lit ": " ++ [OPEN] ++ e ++ [CLOSE] ++ b ∧ default b (strip_prefix (lit " ") b) = body)
      as (b & -> & Hb).
    { destruct Ht as [->|[-> Hb]]; [by exists (lit " " ++ body)|]. exists body. split; [done|].
      destruct (strip_prefix _ _) eqn:E; [|done]. apply strip_prefix_Some in E as ->. by cbn in Hb. }
    rewrite parse_written by done.
    apply contains_char_false in Ho. rewrite Ho, orb_false_r.
    destruct (Nat.ltb_spec (MAX_EXCERPT + 1) (length e)); [lia|]. by rewrite Hb.
Qed.

(** A reply written to any message comes back as the reply it is, with
    the same nick, excerpt and body, unless the excerpt holds an opening
    quotation mark, when it is not recognised at all. *)
Theorem reply_roundtrip (n original body : str) :
  believable n →
  parse_reply (format_reply n (excerpt original) body)
  = if contains_char OPEN (excerpt original) then None
    else Some (mkReplyRef None n (excerpt original), body).
Proof.
  intros Hn. unfold format_reply. rewrite parse_written; [|done|by intros [? _]%excerpt_safe].
  pose proof (excerpt_length original).
  by destruct (Nat.ltb_spec (MAX_EXCERPT + 1) (length (excerpt original))); [lia|].
Qed.
End Properties.

(** * Witnesses *)

Definition ascii_alphanumeric (c : char) : bool :=
  is_ascii_digit c || is_ascii_uppercase c || is_ascii_lowercase c.

Lemma believable_alice : believable ascii_alphanumeric (lit "alice").
Proof. split_and!; [done|vm_compute; lia|done]. Qed.

Lemma parse_reply_exact_witness :
  parse_reply ascii_alphanumeric (format_reply (lit "alice") (lit "hi") (lit "hello"))
  = Some (mkReplyRef None (lit "alice") (lit "hi"), lit "hello").
Proof.
  apply (parse_reply_exact ascii_alphanumeric eq_refl _ _ (mkReplyRef None (lit "alice") (lit "hi"))).
  split_and!; [done|apply believable_alice|vm_compute; lia|..|by left];
    apply contains_char_false; vm_compute; reflexivity.
Defined.

(** A quoted word in the original is enough for the reply not to be one. *)
Lemma reply_roundtrip_witness :
  parse_reply ascii_alphanumeric
    (format_reply (lit "alice") (excerpt (lit "see " ++ [OPEN] ++ lit "x" ++ [CLOSE])) (lit "ok")) = None.
Proof. rewrite (reply_roundtrip ascii_alphanumeric eq_refl); [reflexivity|apply believable_alice]. Defined.
