(* ===== verification/Media.v ===== *)
(** Removing metadata from media files: what the four formats share
    ([ddirc-core/src/media/mod.rs]).

    Bytes are numbers.  Each format's [strip] is a loop over the file with a
    cursor [i]; here the cursor is the suffix [bytes[i..]] still to be read, so
    [bytes.get(i + a..i + a + n)] is [get rest a n].  One pass of a loop is a
    function [body] from the suffix to a [Pass]; [walk] is the loop.  Indexing
    that panics in Rust is [Err Panic], and a loop that does not end would be
    [Err Loop].  [usize] is 64 bits wide. *)
From S2P Require Import Prelude RustStr.

Abbreviation byte := N (only parsing).
Abbreviation bytes := (list N).

(** * Data *)

Inductive MediaKind := Jpeg | Png | Gif | WebP.

#[export] Instance MediaKind_eq_dec : EqDecision MediaKind.
Proof. solve_decision. Defined.

Definition as_str (k : MediaKind) : str :=
  match k with
  | Jpeg => lit "JPEG" | Png => lit "PNG" | Gif => lit "GIF" | WebP => lit "WebP"
  end.

Record Removed := mkRemoved { what : str; r_bytes : N }.
Record Stripped := mkStripped { kind : MediaKind; s_bytes : bytes; removed : list Removed }.

Inductive StripError :=
  | Empty
  | Unsupported
  | Malformed (kind detail : str).

Definition malformed (k : MediaKind) (detail : str) : StripError := Malformed (as_str k) detail.

Definition removed_sum (l : list Removed) : N := foldr (λ r n, (r_bytes r + n)%N) 0%N l.
Definition removed_bytes (s : Stripped) : N := removed_sum (removed s).
Definition was_already_clean (s : Stripped) : bool := is_empty (removed s).

(** How a call may end other than by a value: an error it returns, a panic, or
    not at all. *)
Inductive Exit := Returned (e : StripError) | Panic | Loop.

(** * Reading bytes *)

Definition blen (l : bytes) : N := N.of_nat (length l).

(** [bytes.get(a..a + n)]. *)
Definition get (l : bytes) (a n : N) : option bytes :=
  if (a + n <=? blen l)%N then Some (take (N.to_nat n) (drop (N.to_nat a) l)) else None.

(** [&bytes[a..a + n]]. *)
Definition index (l : bytes) (a n : N) : result bytes Exit :=
  match get l a n with Some s => Ok s | None => Err Panic end.

(** [bytes.get(a)] and [bytes[a]]. *)
Definition get1 (l : bytes) (a : N) : option byte := l !! N.to_nat a.
Definition index1 (l : bytes) (a : N) : result byte Exit :=
  match get1 l a with Some b => Ok b | None => Err Panic end.

(** [bytes[n..]]: the cursor moved [n] bytes on. *)
Definition skip (n : N) (l : bytes) : bytes := drop (N.to_nat n) l.

(** [u32::from_be_bytes], [u32::from_le_bytes], [u16::from_be_bytes]. *)
Definition be (b : bytes) : N := foldl (λ v x, (v * 256 + x)%N) 0%N b.
Definition le (b : bytes) : N := be (rev b).

(** [u32::to_le_bytes] of [n as u32]. *)
Definition to_le32 (n : N) : bytes :=
  [n mod 256; (n / 256) mod 256; (n / 65536) mod 256; (n / 16777216) mod 256]%N.

Definition usize_max : N := (2 ^ 64 - 1)%N.
Definition checked_add (a b : N) : option N :=
  if (a + b <=? usize_max)%N then Some (a + b)%N else None.

(** * Loops *)

(** What one pass of a loop does: it copies bytes to the output, records what
    it leaves out, and goes on at a suffix or ends the loop. *)
Inductive Pass :=
  | Continue (rest out : bytes) (rm : list Removed)
  | Break (out : bytes) (rm : list Removed).

Fixpoint walk_loop (fuel : nat) (body : bytes → result Pass Exit) (rest out : bytes)
    (rm : list Removed) : result (bytes * list Removed) Exit :=
  match fuel with
  | O => Err Loop
  | S fuel =>
      p <-? body rest;
      match p with
      | Continue rest o r => walk_loop fuel body rest (out ++ o) (rm ++ r)
      | Break o r => Ok (out ++ o, rm ++ r)
      end
  end.

(** Every pass of the loops below moves the cursor, so as many passes as there
    are bytes left, and one more, are enough ([walk_total]). *)
Definition walk (body : bytes → result Pass Exit) (rest : bytes) : result (bytes * list Removed) Exit :=
  walk_loop (S (length rest)) body rest [] [].

(** * Detection *)

Definition PNG_SIGNATURE : bytes := [0x89; 0x50; 0x4E; 0x47; 0x0D; 0x0A; 0x1A; 0x0A]%N.

Definition detect (b : bytes) : option MediaKind :=
  if starts_with [0xFF; 0xD8; 0xFF]%N b then Some Jpeg
  else if starts_with PNG_SIGNATURE b then Some Png
  else if starts_with (lit "GIF87a") b || starts_with (lit "GIF89a") b then Some Gif
  else if starts_with (lit "RIFF") b && bool_decide (get b 8 4 = Some (lit "WEBP")) then Some WebP
  else None.

(** * What a format promises *)

(** The promises the theorems about [strip] rest on: a pass neither panics nor
    stands still, and reading back what it copied copies it again and leaves
    nothing out. *)
Class Container (body : bytes → result Pass Exit) : Prop := {
  ct_returns rest e : body rest = Err e → ∃ k d, e = Returned (Malformed k d);
  ct_progress rest rest' o rm : body rest = Ok (Continue rest' o rm) → length rest' < length rest;
  ct_replay rest rest' o rm s p :
    body rest = Ok (Continue rest' o rm) → o ≠ [] → body s = Ok p →
    body (o ++ s) = Ok (Continue s o []);
  ct_replay_end rest o rm : body rest = Ok (Break o rm) → body o = Ok (Break o []);
}.

(** Every byte read is copied or counted as removed ([slack := false]), or at
    least no more bytes are counted than there were. *)
Class Accounted (slack : bool) (body : bytes → result Pass Exit) : Prop := {
  ac_continue rest rest' o rm :
    body rest = Ok (Continue rest' o rm) →
    (blen o + removed_sum rm + blen rest' <= blen rest)%N
    ∧ (slack = false → blen o + removed_sum rm + blen rest' = blen rest)%N;
  ac_break rest o rm :
    body rest = Ok (Break o rm) →
    (blen o + removed_sum rm <= blen rest)%N
    ∧ (slack = false → blen o + removed_sum rm = blen rest)%N;
}.

(** The bytes copied are bytes read, in their order. *)
Class Verbatim (body : bytes → result Pass Exit) : Prop := {
  vb_continue rest rest' o rm :
    body rest = Ok (Continue rest' o rm) → ∃ seg, rest = seg ++ rest' ∧ o `sublist_of` seg;
  vb_break rest o rm : body rest = Ok (Break o rm) → o `sublist_of` rest;
}.

(** * Lemmas: reading *)

Lemma blen_app a b : blen (a ++ b) = (blen a + blen b)%N.
Proof. unfold blen. rewrite length_app. lia. Qed.

Lemma removed_sum_app a b : removed_sum (a ++ b) = (removed_sum a + removed_sum b)%N.
Proof. induction a as [|r a IH]; simpl; [done|]. rewrite IH. lia. Qed.

Lemma get_Some l a n s :
  get l a n = Some s →
  (a + n <= blen l)%N ∧ blen s = n ∧ l = take (N.to_nat a) l ++ s ++ drop (N.to_nat (a + n)) l.
Proof.
  unfold get, blen. destruct (N.leb_spec (a + n) (N.of_nat (length l))) as [Hl|]; [|done].
  intros [= <-]. split; [done|]. split.
  - rewrite length_take, length_drop. lia.
  - rewrite N2Nat.inj_add, <- drop_drop, take_drop, take_drop. done.
Qed.

(** A segment read at the cursor. *)
Lemma get_front l n s : get l 0 n = Some s → l = s ++ skip n l ∧ blen s = n.
Proof. intros (_ & Hs & Hl)%get_Some. split; [exact Hl|done]. Qed.

(** Reads inside a segment see the same bytes whatever follows it. *)
Lemma get_replay rest t c a n s :
  get rest 0 t = Some c → (a + n <= t)%N → get (c ++ s) a n = get rest a n.
Proof.
  intros H Hn. pose proof (get_front _ _ _ H) as [Hr Hc]. unfold get.
  assert (blen c <= blen rest)%N by (rewrite Hr, blen_app; lia).
  rewrite blen_app. destruct (N.leb_spec (a + n) (blen c + blen s)); [|lia].
  destruct (N.leb_spec (a + n) (blen rest)); [|lia]. f_equal.
  rewrite Hr. unfold blen in *. rewrite !drop_app_le, !take_app_le by (rewrite ?length_drop; lia). done.
Qed.

Lemma get1_replay rest t c a s :
  get rest 0 t = Some c → (a < t)%N → get1 (c ++ s) a = get1 rest a.
Proof.
  intros H Ha. pose proof (get_front _ _ _ H) as [Hr Hc]. unfold get1. rewrite Hr.
  unfold blen in Hc. by rewrite !lookup_app_l by lia.
Qed.

Lemma get_all l : get l 0 (blen l) = Some l.
Proof.
  unfold get. rewrite N.leb_refl. unfold blen. simpl. rewrite Nat2N.id. by rewrite firstn_all.
Qed.

Lemma skip_app_exact c s n : blen c = n → skip n (c ++ s) = s.
Proof. intros <-. unfold skip, blen. rewrite Nat2N.id. apply drop_app_length. Qed.

Lemma get_app_exact c s n : blen c = n → get (c ++ s) 0 n = Some c.
Proof.
  intros <-. unfold get. rewrite blen_app. destruct (N.leb_spec (0 + blen c) (blen c + blen s)); [|lia].
  unfold blen. rewrite Nat2N.id. change (N.to_nat 0) with 0. by rewrite drop_0, take_app_length.
Qed.

Lemma blen_skip n l : (n <= blen l)%N → (blen (skip n l) = blen l - n)%N.
Proof. unfold blen, skip. rewrite length_drop. lia. Qed.

Lemma is_empty_blen {A} (l : list A) : is_empty l = false ↔ 0 < length l.
Proof. destruct l; simpl; split; (done || lia). Qed.

Lemma checked_add_Some a b t : checked_add a b = Some t → t = (a + b)%N.
Proof. unfold checked_add. destruct (a + b <=? usize_max)%N; [by intros [= <-]|done]. Qed.

(** * Lemmas: loops *)

Section Walk.
Context (body : bytes → result Pass Exit).

(** The loop without the accumulators. *)
Lemma walk_loop_acc fuel rest out rm :
  walk_loop fuel body rest out rm
  = (r <-? walk_loop fuel body rest [] []; Ok (out ++ r.1, rm ++ r.2)).
Proof.
  revert rest out rm. induction fuel as [|fuel IH]; intros rest out rm; simpl; [done|].
  destruct (body rest) as [[rest' o r|o r]|e]; simpl; [|done..].
  rewrite IH, (IH _ o r). destruct (walk_loop fuel body rest' [] []); simpl; [|done].
  by rewrite !(assoc_L (++)).
Qed.

Context `{!Container body}.

Lemma walk_loop_fuel fuel rest :
  length rest < fuel → walk_loop fuel body rest [] [] = walk body rest.
Proof.
  unfold walk. revert rest. induction fuel as [fuel IH] using lt_wf_ind. intros rest Hf.
  destruct fuel as [|fuel]; [lia|]. cbn [walk_loop].
  destruct (body rest) as [[rest' o r|o r]|e] eqn:E; cbn [rbind]; [|done..].
  pose proof (ct_progress _ _ _ _ E).
  rewrite (walk_loop_acc fuel), (walk_loop_acc (length rest)).
  rewrite (IH fuel), (IH (length rest)) by lia. done.
Qed.

(** One pass, then the loop from where it went on. *)
Lemma walk_unfold rest :
  walk body rest =
  (p <-? body rest;
   match p with
   | Continue rest o r => w <-? walk body rest; Ok (o ++ w.1, r ++ w.2)
   | Break o r => Ok (o, r)
   end).
Proof.
  unfold walk at 1. cbn [walk_loop].
  destruct (body rest) as [[rest' o r|o r]|e] eqn:E; cbn [rbind]; [|done..].
  pose proof (ct_progress _ _ _ _ E). rewrite walk_loop_acc, walk_loop_fuel by lia. done.
Qed.

Lemma walk_total rest e : walk body rest = Err e → ∃ k d, e = Returned (Malformed k d).
Proof.
  induction rest as [rest IH] using (induction_ltof1 _ length). unfold ltof in IH.
  rewrite walk_unfold. destruct (body rest) as [[rest' o r|o r]|x] eqn:E; cbn [rbind]; [|done|].
  - pose proof (ct_progress _ _ _ _ E) as Hp. specialize (IH _ Hp).
    destruct (walk body rest'); [done|]. intros [= ->]. by apply IH.
  - intros [= ->]. by eapply ct_returns.
Qed.

(** Cleaning what was cleaned finds nothing. *)
Lemma walk_replay rest out rm : walk body rest = Ok (out, rm) → walk body out = Ok (out, []).
Proof.
  revert out rm. induction rest as [rest IH] using (induction_ltof1 _ length). unfold ltof in IH.
  intros out rm. rewrite walk_unfold.
  destruct (body rest) as [[rest' o r|o r]|x] eqn:E; cbn [rbind]; [| |done].
  - pose proof (ct_progress _ _ _ _ E) as Hp.
    destruct (walk body rest') as [[out' rm']|] eqn:Ew; cbn [rbind fst snd]; [|done].
    intros [= <- <-]. specialize (IH _ Hp _ _ Ew).
    destruct o as [|x o]; [done|]. rewrite walk_unfold.
    pose proof IH as IH'. rewrite walk_unfold in IH'. destruct (body out') as [p|] eqn:Eb; [|done].
    rewrite (ct_replay _ _ _ _ _ _ E ltac:(done) Eb). cbn [rbind]. rewrite IH. done.
  - intros [= <- <-]. rewrite walk_unfold. apply ct_replay_end in E. by rewrite E.
Qed.

Lemma walk_accounted slack `{!Accounted slack body} rest out rm :
  walk body rest = Ok (out, rm) →
  (blen out + removed_sum rm <= blen rest)%N
  ∧ (slack = false → blen out + removed_sum rm = blen rest)%N.
Proof.
  revert out rm. induction rest as [rest IH] using (induction_ltof1 _ length). unfold ltof in IH.
  intros out rm. rewrite walk_unfold.
  destruct (body rest) as [[rest' o r|o r]|x] eqn:E; cbn [rbind]; [| |done].
  - pose proof (ct_progress _ _ _ _ E) as Hp. apply (ac_continue (slack := slack)) in E as [E1 E2].
    destruct (walk body rest') as [[out' rm']|] eqn:Ew; cbn [rbind fst snd]; [|done].
    intros [= <- <-]. destruct (IH _ Hp _ _ Ew) as [H1 H2].
    rewrite blen_app, removed_sum_app. split; [lia|]. intros Hs. specialize (E2 Hs). specialize (H2 Hs). lia.
  - intros [= <- <-]. by eapply ac_break.
Qed.

Lemma walk_verbatim `{!Verbatim body} rest out rm :
  walk body rest = Ok (out, rm) → out `sublist_of` rest.
Proof.
  revert out rm. induction rest as [rest IH] using (induction_ltof1 _ length). unfold ltof in IH.
  intros out rm. rewrite walk_unfold.
  destruct (body rest) as [[rest' o r|o r]|x] eqn:E; cbn [rbind]; [| |done].
  - pose proof (ct_progress _ _ _ _ E) as Hp. apply vb_continue in E as (seg & -> & Hs).
    destruct (walk body rest') as [[out' rm']|] eqn:Ew; cbn [rbind fst snd]; [|done].
    intros [= <- <-]. apply sublist_app; [done|]. by eapply IH.
  - intros [= <- <-]. by eapply vb_break.
Qed.
End Walk.
