(* ===== verification/MediaPng.v ===== *)
(** PNG: a signature, then length-prefixed chunks
    ([ddirc-core/src/media/png.rs]). *)
From S2P Require Import Prelude RustStr Media.

Definition SIGNATURE : N := 8.

Definition describe (kind : bytes) : option str :=
  if bool_decide (kind = lit "tEXt") || bool_decide (kind = lit "zTXt") then Some (lit "text")
  else if bool_decide (kind = lit "iTXt") then Some (lit "text")
  else if bool_decide (kind = lit "eXIf") then Some (lit "EXIF")
  else if bool_decide (kind = lit "tIME") then Some (lit "timestamp")
  else None.

Definition bad {A} (detail : str) : result A Exit := Err (Returned (malformed Png detail)).

(** One pass of the [while i < bytes.len()] loop. *)
Definition body (rest : bytes) : result Pass Exit :=
  if is_empty rest then Ok (Break [] [])
  else
    match be <$> get rest 0 4 with
    | None => bad (lit "truncated chunk length")
    | Some length =>
        match get rest 4 4 with
        | None => bad (lit "truncated chunk type")
        | Some kind =>
            match checked_add length 12 with
            | None => bad (lit "impossible chunk length")
            | Some total =>
                match get rest 0 total with
                | None => bad (lit "chunk runs past the end")
                | Some chunk =>
                    let out := match describe kind with Some _ => [] | None => chunk end in
                    let rm := match describe kind with
                              | Some what => [mkRemoved what total]
                              | None => []
                              end in
                    let rest := skip total rest in
                    if bool_decide (kind = lit "IEND") then
                      Ok (Break out (rm ++
                            if is_empty rest then []
                            else [mkRemoved (lit "data after the end of the image") (blen rest)]))
                    else Ok (Continue rest out rm)
                end
            end
        end
    end.

Definition strip (b : bytes) : result Stripped Exit :=
  signature <-? index b 0 SIGNATURE;
  if (blen b <=? SIGNATURE)%N then bad (lit "no chunks after the signature")
  else
    r <-? walk body (skip SIGNATURE b);
    Ok (mkStripped Png (signature ++ r.1) r.2).

(** * Lemmas *)

(** What a pass that goes through did: it read one chunk. *)
Lemma png_body_chunk rest p :
  body rest = Ok p → rest ≠ [] →
  ∃ length kind chunk,
    be <$> get rest 0 4 = Some length ∧ get rest 4 4 = Some kind
    ∧ checked_add length 12 = Some (length + 12)%N ∧ get rest 0 (length + 12) = Some chunk
    ∧ p = (let out := match describe kind with Some _ => [] | None => chunk end in
           let rm := match describe kind with Some what => [mkRemoved what (length + 12)] | None => [] end in
           let rest := skip (length + 12) rest in
           if bool_decide (kind = lit "IEND") then
             Break out (rm ++ if is_empty rest then []
                              else [mkRemoved (lit "data after the end of the image") (blen rest)])
           else Continue rest out rm).
Proof.
  intros H Hne. unfold body in H. apply is_empty_false in Hne. rewrite Hne in H.
  destruct (be <$> get rest 0 4) as [n|] eqn:E1; [|done].
  destruct (get rest 4 4) as [k|] eqn:E2; [|done].
  destruct (checked_add n 12) as [t|] eqn:E3; [|done].
  pose proof (checked_add_Some _ _ _ E3) as ->.
  destruct (get rest 0 (n + 12)) as [c|] eqn:E4; [|done].
  exists n, k, c. split_and!; [done..|]. by case_bool_decide; simplify_eq/=.
Qed.

(** Reading a chunk that was kept. *)
Lemma body_replay rest n k c s :
  be <$> get rest 0 4 = Some n → get rest 4 4 = Some k → checked_add n 12 = Some (n + 12)%N →
  get rest 0 (n + 12) = Some c → describe k = None →
  body (c ++ s) =
  Ok (if bool_decide (k = lit "IEND") then
        Break c (if is_empty s then [] else [mkRemoved (lit "data after the end of the image") (blen s)])
      else Continue s c []).
Proof.
  intros H1 H2 H3 H4 Hd. destruct (get_front _ _ _ H4) as [_ Hc]. unfold body.
  assert (is_empty (c ++ s) = false) as ->.
  { apply is_empty_false. destruct c; [|done]. unfold blen in Hc. simpl in Hc. lia. }
  rewrite !(get_replay _ _ _ _ _ _ H4) by lia. rewrite H1, H2, H3.
  rewrite get_app_exact, skip_app_exact by done. rewrite Hd. by case_bool_decide.
Qed.

Lemma describe_IEND : describe (lit "IEND") = None.
Proof. done. Qed.

#[export] Instance png_container : Container body.
Proof.
  split.
  - intros rest e. unfold body, bad. repeat case_match; intros; simplify_eq; eauto.
  - intros rest rest' o rm H. destruct (decide (rest = [])) as [->|Hne]; [done|].
    apply png_body_chunk in H as (n & k & c & _ & _ & _ & H & E); [|done].
    apply get_Some in H as (Hl & _ & _).
    case_bool_decide; simplify_eq/=. unfold skip, blen in *. rewrite length_drop. lia.
  - intros rest rest' o rm s p H Ho _. destruct (decide (rest = [])) as [->|Hne]; [done|].
    apply png_body_chunk in H as (n & k & c & H1 & H2 & H3 & H4 & E); [|done].
    case_bool_decide as Hk; simplify_eq/=. destruct (describe k) eqn:Hd; [done|].
    rewrite (body_replay _ _ _ _ s H1 H2 H3 H4 Hd). by rewrite bool_decide_false.
  - intros rest o rm H. destruct (decide (rest = [])) as [->|Hne]; [by injection H as <- <-|].
    apply png_body_chunk in H as (n & k & c & H1 & H2 & H3 & H4 & E); [|done].
    case_bool_decide as Hk; simplify_eq/=. 
    rewrite <- (app_nil_r c). rewrite (body_replay _ _ _ _ [] H1 H2 H3 H4 describe_IEND).
    rewrite app_nil_r. done.
Qed.

#[export] Instance png_accounted : Accounted false body.
Proof.
  split.
  - intros rest rest' o rm H. destruct (decide (rest = [])) as [->|Hne]; [done|].
    apply png_body_chunk in H as (n & k & c & _ & _ & _ & H & E); [|done].
    pose proof (get_Some _ _ _ _ H) as (Hl & Hc & _).
    case_bool_decide; simplify_eq/=. rewrite blen_skip by lia.
    destruct (describe k); cbn [removed_sum foldr r_bytes]; rewrite ?Hc; change (blen []) with 0%N; lia.
  - intros rest o rm H. destruct (decide (rest = [])) as [->|Hne]; [by injection H as <- <-|].
    apply png_body_chunk in H as (n & k & c & _ & _ & _ & H & E); [|done].
    pose proof (get_Some _ _ _ _ H) as (Hl & Hc & _).
    case_bool_decide; simplify_eq/=.
    assert (removed_sum (if is_empty (skip (n + 12) rest) then []
      else [mkRemoved (lit "data after the end of the image") (blen (skip (n + 12) rest))])
      = blen (skip (n + 12) rest)) as ->.
    { destruct (skip (n + 12) rest); simpl; [done|]. lia. }
    rewrite blen_skip, Hc by lia. lia.
Qed.

#[export] Instance png_verbatim : Verbatim body.
Proof.
  split.
  - intros rest rest' o rm H. destruct (decide (rest = [])) as [->|Hne]; [done|].
    apply png_body_chunk in H as (n & k & c & _ & _ & _ & H & E); [|done].
    apply get_front in H as [Hr _]. case_bool_decide; simplify_eq/=.
    exists c. split; [done|]. destruct (describe k); [apply sublist_nil_l|done].
  - intros rest o rm H. destruct (decide (rest = [])) as [->|Hne]; [by injection H as <- <-|].
    apply png_body_chunk in H as (n & k & c & _ & _ & _ & H & E); [|done].
    apply get_front in H as [Hr _]. case_bool_decide; simplify_eq/=.
    rewrite Hr. by apply sublist_inserts_r.
Qed.
