(* ===== verification/MediaJpeg.v ===== *)
(** JPEG: a chain of marker segments, then the compressed image
    ([ddirc-core/src/media/jpeg.rs]). *)
From S2P Require Import Prelude RustStr Media.

Definition is_standalone (marker : byte) : bool :=
  (marker =? 0x01)%N || ((0xD0 <=? marker)%N && (marker <=? 0xD8)%N).

Definition is_rendering_segment (marker : byte) (payload : bytes) : bool :=
  if (marker =? 0xE0)%N then starts_with (lit "JFIF" ++ [0%N]) payload
  else if (marker =? 0xE2)%N then starts_with (lit "ICC_PROFILE" ++ [0%N]) payload
  else if (marker =? 0xEE)%N then starts_with (lit "Adobe") payload
  else false.

Definition describe (marker : byte) (payload : bytes) : str :=
  if (marker =? 0xFE)%N then lit "comment"
  else if (marker =? 0xE0)%N then lit "thumbnail"
  else if (marker =? 0xE1)%N && starts_with (lit "Exif" ++ [0%N; 0%N]) payload then lit "EXIF"
  else if (marker =? 0xE1)%N && starts_with (lit "http://ns.adobe.com/xap/") payload then lit "XMP"
  else if (marker =? 0xE1)%N then lit "application data"
  else if (marker =? 0xED)%N then lit "Photoshop/IPTC data"
  else if (marker =? 0xE2)%N then lit "multi-picture data"
  else lit "application data".

Definition bad {A} (detail : str) : result A Exit := Err (Returned (malformed Jpeg detail)).

(** The inner [while] over fill bytes. *)
Definition skip_fill (rest : bytes) : bytes := drop_while (N.eqb 0xFF) rest.

(** The test [is_metadata] of [strip]. *)
Definition is_metadata (marker : byte) (payload : bytes) : bool :=
  ((marker =? 0xFE)%N || ((0xE0 <=? marker)%N && (marker <=? 0xEF)%N))
  && negb (is_rendering_segment marker payload).

(** One pass of the [loop], the cursor at the fill bytes. *)
Definition body (rest : bytes) : result Pass Exit :=
  let r := skip_fill rest in
  if (blen r =? blen rest)%N then bad (lit "expected a marker")
  else
    match r with
    | [] => bad (lit "truncated at a marker")
    | marker :: r =>
        if is_standalone marker then Ok (Continue r [0xFF%N; marker] [])
        else
          match be <$> get r 0 2 with
          | None => bad (lit "truncated segment length")
          | Some length =>
              if (length <? 2)%N then bad (lit "impossible segment length")
              else
                match get r 2 (length - 2) with
                | None => bad (lit "segment runs past the end")
                | Some payload =>
                    if (marker =? 0xDA)%N then Ok (Break (0xFF%N :: marker :: r) [])
                    else if is_metadata marker payload then
                      Ok (Continue (skip length r) [] [mkRemoved (describe marker payload) (length + 2)])
                    else
                      segment <-? index r 0 length;
                      Ok (Continue (skip length r) (0xFF%N :: marker :: segment) [])
                end
          end
    end.

Definition strip (b : bytes) : result Stripped Exit :=
  start <-? index b 0 2;
  r <-? walk body (skip 2 b);
  Ok (mkStripped Jpeg (start ++ r.1) r.2).

(** * Lemmas *)

Lemma skip_fill_spec rest :
  ∃ k, rest = replicate k 0xFF%N ++ skip_fill rest
       ∧ match skip_fill rest with [] => True | m :: _ => m ≠ 0xFF%N end.
Proof.
  induction rest as [|b rest (k & Hk & Hm)]; [by exists 0|]. unfold skip_fill in *.
  cbn [drop_while]. destruct (N.eqb_spec 0xFF b) as [<-|Hb].
  - exists (S k). cbn [replicate app]. by rewrite <- Hk.
  - exists 0. done.
Qed.

Lemma skip_fill_marker m r : m ≠ 0xFF%N → skip_fill (0xFF%N :: m :: r) = m :: r.
Proof. intros Hm. unfold skip_fill. cbn [drop_while]. rewrite N.eqb_refl. by destruct (N.eqb_spec 0xFF m). Qed.

(** A pass that goes through read at least one fill byte and a marker. *)
Lemma body_marker rest p :
  body rest = Ok p →
  ∃ k m r, rest = replicate (S k) 0xFF%N ++ m :: r ∧ m ≠ 0xFF%N ∧ skip_fill rest = m :: r.
Proof.
  intros H. unfold body in H. destruct (skip_fill_spec rest) as (k & Hk & Hm).
  destruct (N.eqb_spec (blen (skip_fill rest)) (blen rest)) as [|Hl]; [done|].
  destruct (skip_fill rest) as [|m r] eqn:E; [done|].
  destruct k as [|k]; [by rewrite Hk in Hl|]. by exists k, m, r.
Qed.

(** The pass from the marker on does not depend on the fill bytes. *)
Lemma body_from_marker k m r :
  m ≠ 0xFF%N → body (replicate (S k) 0xFF%N ++ m :: r) = body (0xFF%N :: m :: r).
Proof.
  intros Hm. unfold body. rewrite skip_fill_marker by done.
  assert (skip_fill (replicate (S k) 0xFF%N ++ m :: r) = m :: r) as ->.
  { clear -Hm. induction k as [|k IH]; [by apply skip_fill_marker|]. exact IH. }
  assert (∀ l, l ≠ [] → (blen (m :: r) =? blen (l ++ m :: r))%N = false) as H.
  { intros [|x l] Hl; [done|]. apply N.eqb_neq. unfold blen. simpl. rewrite length_app. simpl. lia. }
  rewrite H by done. change (0xFF%N :: m :: r) with ([0xFF%N] ++ m :: r). by rewrite (H [0xFF%N]).
Qed.

Lemma body_unfold m r :
  m ≠ 0xFF%N →
  body (0xFF%N :: m :: r) =
  if is_standalone m then Ok (Continue r [0xFF%N; m] [])
  else
    match be <$> get r 0 2 with
    | None => bad (lit "truncated segment length")
    | Some length =>
        if (length <? 2)%N then bad (lit "impossible segment length")
        else
          match get r 2 (length - 2) with
          | None => bad (lit "segment runs past the end")
          | Some payload =>
              if (m =? 0xDA)%N then Ok (Break (0xFF%N :: m :: r) [])
              else if is_metadata m payload then
                Ok (Continue (skip length r) [] [mkRemoved (describe m payload) (length + 2)])
              else
                segment <-? index r 0 length;
                Ok (Continue (skip length r) (0xFF%N :: m :: segment) [])
          end
    end.
Proof.
  intros Hm. unfold body. rewrite skip_fill_marker by done.
  destruct (N.eqb_spec (blen (m :: r)) (blen (0xFF%N :: m :: r))) as [E|]; [|done].
  unfold blen in E. simpl in E. lia.
Qed.

(** Reading the payload bounds the segment, so copying it cannot panic. *)
Lemma segment_in_bounds r n payload :
  (2 <= n)%N → get r 2 (n - 2) = Some payload → ∃ seg, get r 0 n = Some seg.
Proof.
  intros Hn (Hl & _)%get_Some. unfold get. replace (0 + n)%N with (2 + (n - 2))%N by lia.
  apply N.leb_le in Hl. rewrite Hl. eauto.
Qed.

Lemma jpeg_body_returns rest e : body rest = Err e → ∃ k d, e = Returned (Malformed k d).
Proof.
  unfold body, bad. destruct (blen _ =? _)%N; [intros [= <-]; eauto|].
  destruct (skip_fill rest) as [|m r]; [intros [= <-]; eauto|].
  destruct (is_standalone m); [done|].
  destruct (be <$> get r 0 2) as [n|]; [|intros [= <-]; eauto].
  destruct (N.ltb_spec n 2); [intros [= <-]; eauto|].
  destruct (get r 2 (n - 2)) as [pl|] eqn:E; [|intros [= <-]; eauto].
  apply segment_in_bounds in E as [seg Hs]; [|lia]. unfold index. rewrite Hs.
  destruct (m =? 218)%N; [done|]. by destruct (is_metadata m pl).
Qed.

(** The four ways a pass ends, the fill bytes set aside. *)
Inductive Seen (m : byte) (r : bytes) : Pass → Prop :=
  | SeenStandalone : is_standalone m = true → Seen m r (Continue r [0xFF%N; m] [])
  | SeenScan n pl :
      is_standalone m = false → be <$> get r 0 2 = Some n → (2 <= n)%N → get r 2 (n - 2) = Some pl →
      m = 0xDA%N → Seen m r (Break (0xFF%N :: m :: r) [])
  | SeenMetadata n pl :
      is_standalone m = false → be <$> get r 0 2 = Some n → (2 <= n)%N → get r 2 (n - 2) = Some pl →
      m ≠ 0xDA%N → is_metadata m pl = true →
      Seen m r (Continue (skip n r) [] [mkRemoved (describe m pl) (n + 2)])
  | SeenKept n pl seg :
      is_standalone m = false → be <$> get r 0 2 = Some n → (2 <= n)%N → get r 2 (n - 2) = Some pl →
      m ≠ 0xDA%N → is_metadata m pl = false → get r 0 n = Some seg →
      Seen m r (Continue (skip n r) (0xFF%N :: m :: seg) []).

Lemma jpeg_body_seen rest p :
  body rest = Ok p →
  ∃ k m r, rest = replicate (S k) 0xFF%N ++ m :: r ∧ m ≠ 0xFF%N ∧ Seen m r p.
Proof.
  intros H. pose proof (body_marker _ _ H) as (k & m & r & -> & Hm & _).
  exists k, m, r. split; [done|]. split; [done|].
  rewrite body_from_marker, body_unfold in H by done.
  destruct (is_standalone m) eqn:Hs; [injection H as <-; by constructor|].
  destruct (be <$> get r 0 2) as [n|] eqn:Hn; [|done].
  destruct (N.ltb_spec n 2); [done|].
  destruct (get r 2 (n - 2)) as [pl|] eqn:Hp; [|done].
  destruct (N.eqb_spec m 218); [injection H as <-; by eapply SeenScan|].
  destruct (is_metadata m pl) eqn:Hmd; [injection H as <-; by eapply SeenMetadata|].
  unfold index in H. destruct (get r 0 n) as [seg|] eqn:Hg; [|done].
  injection H as <-. by eapply SeenKept.
Qed.

#[export] Instance jpeg_container : Container body.
Proof.
  split.
  - apply jpeg_body_returns.
  - intros rest rest' o rm (k & m & r & -> & _ & H)%jpeg_body_seen.
    rewrite length_app. simpl. inversion H; subst; unfold skip; rewrite ?length_drop; lia.
  - intros rest rest' o rm s p (k & m & r & -> & Hm & H)%jpeg_body_seen Ho _.
    inversion H as [Hs|?|?|n pl seg Hs Hn Hle Hp Hda Hmd Hseg]; subst; [|done|].
    + cbn [app]. rewrite body_unfold by done. by rewrite Hs.
    + cbn [app]. rewrite body_unfold by done.
      destruct (get_front _ _ _ Hseg) as [_ Hl].
      rewrite Hs, (get_replay _ _ _ _ _ _ Hseg), Hn by lia. destruct (N.ltb_spec n 2); [lia|].
      rewrite (get_replay _ _ _ _ _ _ Hseg), Hp by lia.
      destruct (N.eqb_spec m 218); [done|]. rewrite Hmd. unfold index.
      by rewrite get_app_exact, skip_app_exact.
  - intros rest o rm (k & m & r & -> & Hm & H)%jpeg_body_seen.
    inversion H as [|n pl Hs Hn Hle Hp Hda| |]; subst. rewrite body_unfold by done.
    rewrite Hs, Hn. destruct (N.ltb_spec n 2); [lia|]. by rewrite Hp.
Qed.

#[export] Instance jpeg_accounted : Accounted true body.
Proof.
  split.
  - intros rest rest' o rm (k & m & r & -> & _ & H)%jpeg_body_seen. split; [|done].
    rewrite blen_app. inversion H as [|?|n pl Hs Hn Hle Hp|n pl seg Hs Hn Hle Hp Hda Hmd Hseg]; subst.
    + unfold blen. simpl. lia.
    + pose proof (segment_in_bounds _ _ _ Hle Hp) as [seg (Hb & _)%get_Some].
      cbn [removed_sum foldr r_bytes]. rewrite blen_skip by lia. unfold blen in *. simpl. lia.
    + apply get_Some in Hseg as (Hb & Hl & _). cbn [removed_sum foldr].
      rewrite blen_skip by lia. unfold blen in *. simpl. lia.
  - intros rest o rm (k & m & r & -> & _ & H)%jpeg_body_seen. split; [|done].
    rewrite blen_app. inversion H; subst. unfold blen. simpl. lia.
Qed.

#[export] Instance jpeg_verbatim : Verbatim body.
Proof.
  assert (∀ k (m : byte) l s, l `sublist_of` s → 255%N :: m :: l `sublist_of` (replicate (S k) 255%N ++ m :: s)) as Hfill.
  { intros k m l s Hs. cbn [replicate app]. apply sublist_skip. apply sublist_inserts_l. by apply sublist_skip. }
  split.
  - intros rest rest' o rm (k & m & r & -> & _ & H)%jpeg_body_seen.
    inversion H as [|?|n pl Hs Hn Hle Hp|n pl seg Hs Hn Hle Hp Hda Hmd Hseg]; subst.
    + exists (replicate (S k) 255%N ++ [m]). rewrite <- (assoc_L (++)). split; [done|]. by apply Hfill.
    + pose proof (segment_in_bounds _ _ _ Hle Hp) as [seg [Hr _]%get_front].
      exists (replicate (S k) 255%N ++ m :: seg). rewrite <- (assoc_L (++)). simpl.
      split; [by rewrite <- Hr|apply sublist_nil_l].
    + apply get_front in Hseg as [Hr _].
      exists (replicate (S k) 255%N ++ m :: seg). rewrite <- (assoc_L (++)).
      split; [simpl; by rewrite <- Hr|]. by apply Hfill.
  - intros rest o rm (k & m & r & -> & _ & H)%jpeg_body_seen. inversion H; subst. by apply Hfill.
Qed.
