(* ===== verification/MediaGif.v ===== *)
(** GIF: a header, then blocks up to a trailer
    ([ddirc-core/src/media/gif.rs]). *)
From S2P Require Import Prelude RustStr Media.

Definition HEADER : N := 13.
Definition EXTENSION : byte := 0x21%N.
Definition IMAGE : byte := 0x2C%N.
Definition TRAILER : byte := 0x3B%N.
Definition COMMENT : byte := 0xFE%N.
Definition APPLICATION : byte := 0xFF%N.

Definition bad {A} (detail : str) : result A Exit := Err (Returned (malformed Gif detail)).

(** The [loop] of [end_of_sub_blocks], from the cursor it is given: how many
    bytes the chain takes. *)
Fixpoint sub_blocks_loop (fuel : nat) (l : bytes) : result N Exit :=
  match fuel with
  | O => Err Loop
  | S fuel =>
      match l with
      | [] => bad (lit "unterminated block")
      | len :: l =>
          if (len =? 0)%N then Ok 1%N
          else if (blen l <? len)%N then bad (lit "block runs past the end")
          else n <-? sub_blocks_loop fuel (skip len l); Ok (1 + len + n)%N
      end
  end.
Definition sub_blocks (l : bytes) : result N Exit := sub_blocks_loop (S (length l)) l.

(** Both positions are counted from the start of [l]. *)
Definition end_of_sub_blocks (l : bytes) (i : N) : result N Exit :=
  n <-? sub_blocks (skip i l); Ok (i + n)%N.

(** [3 * (1usize << ((packed & 0b111) + 1))], when the table is there. *)
Definition color_table (packed : byte) : N :=
  if (N.land packed 128 =? 0)%N then 0%N else (3 * 2 ^ (N.land packed 7 + 1))%N.

Definition is_xmp (label : byte) (rest : bytes) : bool :=
  (label =? APPLICATION)%N && bool_decide (get rest 3 11 = Some (lit "XMP DataXMP")).

(** One pass of the [loop], the cursor at a block. *)
Definition body (rest : bytes) : result Pass Exit :=
  match get1 rest 0 with
  | None => bad (lit "ended without a trailer")
  | Some block =>
      if (block =? TRAILER)%N then
        let tail := skip 1 rest in
        Ok (Break [TRAILER]
              (if is_empty tail then []
               else [mkRemoved (lit "data after the end of the image") (blen tail)]))
      else if (block =? EXTENSION)%N then
        match get1 rest 1 with
        | None => bad (lit "truncated extension")
        | Some label =>
            end_ <-? end_of_sub_blocks rest 2;
            if (label =? COMMENT)%N || is_xmp label rest then
              Ok (Continue (skip end_ rest) []
                    [mkRemoved (if (label =? COMMENT)%N then lit "comment" else lit "XMP") end_])
            else
              kept <-? index rest 0 end_;
              Ok (Continue (skip end_ rest) kept [])
        end
      else if (block =? IMAGE)%N then
        match get1 rest 9 with
        | None => bad (lit "truncated image descriptor")
        | Some packed =>
            let data := (10 + color_table packed)%N in
            if (blen rest <=? data)%N then bad (lit "truncated image data")
            else
              end_ <-? end_of_sub_blocks rest (data + 1);
              kept <-? index rest 0 end_;
              Ok (Continue (skip end_ rest) kept [])
        end
      else bad (lit "unknown block")
  end.

Definition strip (b : bytes) : result Stripped Exit :=
  if (blen b <=? HEADER)%N then bad (lit "truncated header")
  else
    packed <-? index1 b 10;
    let i := (HEADER + color_table packed)%N in
    if (blen b <? i)%N then bad (lit "colour table runs past the end")
    else
      header <-? index b 0 i;
      r <-? walk body (skip i b);
      Ok (mkStripped Gif (header ++ r.1) r.2).

(** * Lemmas: sub-blocks *)

Lemma skip_length n l : (n <= blen l)%N → (0 < n)%N → length (skip n l) < length l.
Proof. unfold skip, blen. rewrite length_drop. lia. Qed.

Lemma sub_blocks_loop_returns fuel l e :
  length l < fuel → sub_blocks_loop fuel l = Err e → ∃ k d, e = Returned (Malformed k d).
Proof.
  revert l. induction fuel as [|fuel IH]; intros l Hl; [lia|]. simpl.
  destruct l as [|len l]; [intros [= <-]; eauto|].
  destruct (N.eqb_spec len 0); [done|]. destruct (N.ltb_spec (blen l) len); [intros [= <-]; eauto|].
  pose proof (skip_length len l ltac:(lia) ltac:(lia)). simpl in Hl.
  destruct (sub_blocks_loop fuel (skip len l)) eqn:E; [done|]. intros [= ->]. eapply IH; [|done]. lia.
Qed.

(** A chain is a segment, and reading it back takes as many bytes whatever
    follows it. *)
Lemma sub_blocks_loop_replay fuel l n :
  sub_blocks_loop fuel l = Ok n →
  ∃ c, get l 0 n = Some c ∧ (1 <= n)%N
       ∧ ∀ fuel' s, length (c ++ s) < fuel' → sub_blocks_loop fuel' (c ++ s) = Ok n.
Proof.
  revert l n. induction fuel as [|fuel IH]; intros l n; [done|]. simpl.
  destruct l as [|len l]; [done|]. destruct (N.eqb_spec len 0) as [->|Hlen].
  { intros [= <-]. exists [0%N]. split_and!; [by apply (get_app_exact [0%N] l)|done|].
    intros [|fuel'] s Hf; [lia|done]. }
  destruct (N.ltb_spec (blen l) len) as [|Hl]; [done|].
  destruct (sub_blocks_loop fuel (skip len l)) as [m|] eqn:E; [|done]. cbn [rbind]. intros [= <-].
  destruct (IH _ _ E) as (c & Hc & Hm & Hre). apply get_front in Hc as [Hr Hcl].
  set (blk := take (N.to_nat len) l).
  assert (blen blk = len) as Hblk by (unfold blen, blk in *; rewrite length_take; lia).
  assert (l = blk ++ c ++ skip m (skip len l)) as Hsplit.
  { rewrite <- Hr. unfold blk, skip. by rewrite take_drop. }
  exists (len :: blk ++ c). split_and!.
  - rewrite Hsplit at 1. rewrite (assoc_L (++)). apply (get_app_exact (len :: blk ++ c)).
    unfold blen in *. simpl. rewrite length_app. lia.
  - lia.
  - intros [|fuel'] s Hf; [lia|]. cbn [app sub_blocks_loop].
    destruct (N.eqb_spec len 0); [done|]. rewrite <- (assoc_L (++)), !blen_app, Hblk.
    destruct (N.ltb_spec (len + (blen c + blen s)) len); [lia|].
    rewrite skip_app_exact by done. rewrite Hre; [done|].
    simpl in Hf. rewrite !length_app in *. unfold blen in Hblk. lia.
Qed.

Lemma sub_blocks_replay l n :
  sub_blocks l = Ok n → ∃ c, get l 0 n = Some c ∧ (1 <= n)%N ∧ ∀ s, sub_blocks (c ++ s) = Ok n.
Proof.
  intros (c & H1 & H2 & H3)%sub_blocks_loop_replay. exists c. split_and!; [done..|].
  intros s. apply H3. lia.
Qed.

Lemma end_of_sub_blocks_replay l i n :
  (i <= blen l)%N → end_of_sub_blocks l i = Ok n →
  (i < n)%N ∧ ∃ c, get l 0 n = Some c ∧ ∀ s, end_of_sub_blocks (c ++ s) i = Ok n.
Proof.
  intros Hi. unfold end_of_sub_blocks. destruct (sub_blocks (skip i l)) as [m|] eqn:E; [|done].
  cbn [rbind]. intros [= <-]. apply sub_blocks_replay in E as (c & Hc & Hm & Hre).
  split; [lia|]. apply get_front in Hc as [Hr Hcl].
  set (pre := take (N.to_nat i) l).
  assert (blen pre = i) as Hpre by (unfold blen, pre in *; rewrite length_take; lia).
  assert (l = pre ++ c ++ skip m (skip i l)) as Hsplit.
  { rewrite <- Hr. unfold pre, skip. by rewrite take_drop. }
  exists (pre ++ c). split.
  - rewrite Hsplit at 1. rewrite (assoc_L (++)). apply get_app_exact. rewrite blen_app. lia.
  - intros s. rewrite <- (assoc_L (++)), skip_app_exact by done. by rewrite Hre.
Qed.

(** A chain of sub-blocks, each under its length, and an empty one. *)
Inductive Chain : bytes → Prop :=
  | chain_end : Chain [0%N]
  | chain_more d rest : d ≠ [] → Chain rest → Chain (blen d :: d ++ rest).

Lemma sub_blocks_chain fuel l n :
  sub_blocks_loop fuel l = Ok n → ∃ c, l = c ++ skip n l ∧ blen c = n ∧ Chain c.
Proof.
  revert l n. induction fuel as [|fuel IH]; intros l n; [done|]. simpl.
  destruct l as [|len l]; [done|]. destruct (N.eqb_spec len 0) as [->|Hlen].
  { intros [= <-]. exists [0%N]. split_and!; [done..|constructor]. }
  destruct (N.ltb_spec (blen l) len) as [|Hl]; [done|].
  destruct (sub_blocks_loop fuel (skip len l)) as [m|] eqn:E; [|done]. cbn [rbind]. intros [= <-].
  destruct (IH _ _ E) as (c & Hc & Hm & Hch). set (d := take (N.to_nat len) l).
  assert (blen d = len) as Hd by (unfold blen, d in *; rewrite length_take; lia).
  assert (l = d ++ skip len l) as Hsplit by (unfold d, skip; by rewrite take_drop).
  exists (len :: d ++ c). split_and!.
  - change ((len :: d ++ c) ++ ?x) with (len :: (d ++ c) ++ x). f_equal. rewrite Hsplit at 1. rewrite Hc at 1.
    rewrite <- (assoc_L (++)). do 2 f_equal. unfold skip. rewrite drop_drop.
    replace (N.to_nat (1 + len + m)) with (S (N.to_nat len + N.to_nat m)) by lia. done.
  - unfold blen in *. simpl. rewrite length_app. lia.
  - rewrite <- Hd at 1. constructor; [|done]. intros E0. rewrite E0 in Hd. done.
Qed.

Lemma end_of_sub_blocks_chain l i n :
  (i <= blen l)%N → end_of_sub_blocks l i = Ok n →
  ∃ c, get l 0 n = Some (take (N.to_nat i) l ++ c) ∧ Chain c.
Proof.
  intros Hi. unfold end_of_sub_blocks. destruct (sub_blocks (skip i l)) as [m|] eqn:E; [|done].
  cbn [rbind]. intros [= <-]. apply sub_blocks_chain in E as (c & Hc & Hm & Hch). exists c. split; [|done].
  rewrite <- (take_drop (N.to_nat i) l) at 1. change (drop (N.to_nat i) l) with (skip i l). rewrite Hc at 1.
  rewrite (assoc_L (++)). apply get_app_exact. rewrite blen_app. unfold blen in *. rewrite length_take. lia.
Qed.

Lemma end_of_sub_blocks_returns l i e : end_of_sub_blocks l i = Err e → ∃ k d, e = Returned (Malformed k d).
Proof.
  unfold end_of_sub_blocks, sub_blocks. destruct (sub_blocks_loop _ _) eqn:E; [done|].
  intros [= ->]. by apply sub_blocks_loop_returns in E; [|lia].
Qed.

(** * Lemmas: blocks *)

(** A pass that goes through starts at one of the three introducers. *)
Lemma body_introducer s p :
  body s = Ok p → ∃ h t, s = h :: t ∧ (h = TRAILER ∨ h = EXTENSION ∨ h = IMAGE).
Proof.
  unfold body. destruct s as [|h t]; [done|]. cbn [get1 lookup list_lookup N.to_nat].
  change (get1 (h :: t) 0) with (Some h). cbn beta iota.
  intros H. exists h, t. split; [done|].
  destruct (N.eqb_spec h TRAILER); [by left|]. destruct (N.eqb_spec h EXTENSION); [by right; left|].
  destruct (N.eqb_spec h IMAGE); [by right; right|]. done.
Qed.

(** The name of an XMP block cannot be completed by the next block. *)
Lemma xmp_within c s p :
  (3 <= blen c)%N → body s = Ok p → get (c ++ s) 3 11 = Some (lit "XMP DataXMP") → (14 <= blen c)%N.
Proof.
  intros Hn Hs Hx. destruct (N.le_gt_cases 14 (blen c)) as [Hge|Hlt]; [done|exfalso].
  apply body_introducer in Hs as (h & t & -> & Hh). set (n := blen c) in *.
  apply get_Some in Hx as (Hle & _ & Hsplit).
  assert (lit "XMP DataXMP" !! N.to_nat (n - 3) = Some h) as Hl.
  { assert ((c ++ h :: t) !! N.to_nat n = Some h) as E.
    { unfold n, blen in *. rewrite lookup_app_r by lia. by replace (N.to_nat _ - length c) with 0 by lia. }
    rewrite Hsplit in E. rewrite blen_app in Hle. unfold n, blen in *.
    rewrite lookup_app_r in E by (rewrite length_take, length_app; lia).
    rewrite length_take, length_app in E. cbn [length] in E, Hle.
    rewrite lookup_app_l in E by (change (length (lit "XMP DataXMP")) with 11; lia).
    replace (N.to_nat (N.of_nat (length c) - 3))
      with (N.to_nat (N.of_nat (length c)) - N.to_nat 3 `min` (length c + S (length t))) by lia. exact E. }
  assert (Forall (λ b, b ≠ TRAILER ∧ b ≠ EXTENSION ∧ b ≠ IMAGE) (lit "XMP DataXMP")) as Hf.
  { repeat constructor; done. }
  rewrite Forall_lookup in Hf. apply Hf in Hl. naive_solver.
Qed.

Lemma is_xmp_replay label rest n c s p :
  get rest 0 n = Some c → (3 <= n)%N → body s = Ok p →
  is_xmp label rest = false → is_xmp label (c ++ s) = false.
Proof.
  intros Hc Hn Hs. unfold is_xmp. destruct (label =? APPLICATION)%N; [|done]. cbn [andb].
  rewrite !bool_decide_eq_false. intros Hx Hx'. destruct (get_front _ _ _ Hc) as [_ Hl].
  assert (3 <= blen c)%N as H3 by (by rewrite Hl). pose proof (xmp_within c s p H3 Hs Hx') as Hge. apply Hx. rewrite <- Hx'. symmetry. eapply get_replay; [done|lia].
Qed.

(** The ways a pass ends. *)
Inductive Seen (rest : bytes) : Pass → Prop :=
  | SeenTrailer t :
      rest = TRAILER :: t →
      Seen rest (Break [TRAILER]
        (if is_empty t then [] else [mkRemoved (lit "data after the end of the image") (blen t)]))
  | SeenDropped n c w :
      get rest 0 n = Some c → (0 < n)%N → Seen rest (Continue (skip n rest) [] [mkRemoved w n])
  | SeenKept n c :
      get rest 0 n = Some c → (0 < n)%N →
      (∀ s p, body s = Ok p → body (c ++ s) = Ok (Continue s c [])) →
      Seen rest (Continue (skip n rest) c []).

Lemma extension_seen rest label p :
  get1 rest 0 = Some EXTENSION → get1 rest 1 = Some label → body rest = Ok p → Seen rest p.
Proof.
  intros H0 H1. unfold body at 1. rewrite H0, H1. cbn [N.eqb].
  change (EXTENSION =? TRAILER)%N with false. change (EXTENSION =? EXTENSION)%N with true. cbn iota.
  destruct (end_of_sub_blocks rest 2) as [n|] eqn:E; [|done]. cbn [rbind].
  assert (2 <= blen rest)%N by (apply lookup_lt_Some in H1; unfold blen; lia).
  apply end_of_sub_blocks_replay in E as (Hn & c & Hc & Hre); [|done].
  destruct ((label =? COMMENT)%N || is_xmp label rest) eqn:Hm.
  { intros [= <-]. eapply SeenDropped; [done|lia]. }
  apply orb_false_iff in Hm as [Hm1 Hm2]. unfold index. rewrite Hc. cbn [rbind]. intros [= <-].
  apply SeenKept; [done|lia|]. intros s q Hs.
  unfold body. rewrite !(get1_replay _ _ _ _ s Hc), H0, H1 by lia.
  change (EXTENSION =? TRAILER)%N with false. change (EXTENSION =? EXTENSION)%N with true. cbn iota.
  rewrite Hre. cbn [rbind]. rewrite Hm1, (is_xmp_replay _ _ _ _ _ _ Hc ltac:(lia) Hs Hm2). cbn [orb].
  destruct (get_front _ _ _ Hc) as [_ Hl]. unfold index. by rewrite get_app_exact, skip_app_exact.
Qed.

Lemma image_seen rest packed p :
  get1 rest 0 = Some IMAGE → get1 rest 9 = Some packed → body rest = Ok p → Seen rest p.
Proof.
  intros H0 H9. unfold body at 1. rewrite H0, H9.
  change (IMAGE =? TRAILER)%N with false. change (IMAGE =? EXTENSION)%N with false.
  change (IMAGE =? IMAGE)%N with true. cbn iota.
  destruct (N.leb_spec (blen rest) (10 + color_table packed)) as [|Hd]; [done|].
  destruct (end_of_sub_blocks rest _) as [n|] eqn:E; [|done]. cbn [rbind].
  apply end_of_sub_blocks_replay in E as (Hn & c & Hc & Hre); [|lia].
  unfold index. rewrite Hc. cbn [rbind]. intros [= <-]. apply SeenKept; [done|lia|]. intros s q Hs.
  destruct (get_front _ _ _ Hc) as [_ Hl].
  unfold body. rewrite !(get1_replay _ _ _ _ s Hc), H0, H9 by lia.
  change (IMAGE =? TRAILER)%N with false. change (IMAGE =? EXTENSION)%N with false.
  change (IMAGE =? IMAGE)%N with true. cbn iota. rewrite blen_app.
  destruct (N.leb_spec (blen c + blen s) (10 + color_table packed)); [lia|].
  rewrite Hre. cbn [rbind]. unfold index. by rewrite get_app_exact, skip_app_exact.
Qed.

Lemma gif_body_seen rest p : body rest = Ok p → Seen rest p.
Proof.
  intros H. destruct (body_introducer _ _ H) as (h & t & -> & [->|[->| ->]]).
  - unfold body in H. cbn in H. injection H as <-. by constructor.
  - destruct (get1 (EXTENSION :: t) 1) eqn:E; [by eapply extension_seen|].
    unfold body in H. by rewrite E in H.
  - destruct (get1 (IMAGE :: t) 9) eqn:E; [by eapply image_seen|].
    unfold body in H. by rewrite E in H.
Qed.

Lemma gif_body_returns rest e : body rest = Err e → ∃ k d, e = Returned (Malformed k d).
Proof.
  unfold body. destruct (get1 rest 0) as [h|] eqn:H0; [|intros [= <-]; eauto].
  destruct (h =? TRAILER)%N; [done|]. destruct (h =? EXTENSION)%N.
  - destruct (get1 rest 1) as [label|] eqn:H1; [|intros [= <-]; eauto].
    destruct (end_of_sub_blocks rest 2) as [n|] eqn:E; cbn [rbind].
    + apply end_of_sub_blocks_replay in E as (_ & c & Hc & _).
      * unfold index. rewrite Hc. by case_match.
      * apply lookup_lt_Some in H1. unfold blen. lia.
    + intros [= <-]. by eapply end_of_sub_blocks_returns.
  - destruct (h =? IMAGE)%N; [|intros [= <-]; eauto].
    destruct (get1 rest 9) as [packed|]; [|intros [= <-]; eauto].
    destruct (N.leb_spec (blen rest) (10 + color_table packed)); [intros [= <-]; eauto|].
    destruct (end_of_sub_blocks rest _) as [n|] eqn:E; cbn [rbind].
    + apply end_of_sub_blocks_replay in E as (_ & c & Hc & _); [|lia]. unfold index. by rewrite Hc.
    + intros [= <-]. by eapply end_of_sub_blocks_returns.
Qed.

#[export] Instance gif_container : Container body.
Proof.
  split.
  - apply gif_body_returns.
  - intros rest rest' o rm H%gif_body_seen.
    inversion H as [|n c w Hc Hn|n c Hc Hn _]; subst; apply get_Some in Hc as (? & _);
      by apply skip_length; [lia|].
  - intros rest rest' o rm s p H%gif_body_seen Ho Hs. inversion H as [| |n c Hc Hn Hre]; subst; [done|eauto].
  - intros rest o rm H%gif_body_seen. by inversion H; subst.
Qed.

#[export] Instance gif_accounted : Accounted false body.
Proof.
  split.
  - intros rest rest' o rm H%gif_body_seen.
    inversion H as [|n c w Hc Hn|n c Hc Hn _]; subst; apply get_Some in Hc as (? & Hl & _);
      cbn [removed_sum foldr r_bytes]; rewrite blen_skip by lia; change (blen []) with 0%N; lia.
  - intros rest o rm H%gif_body_seen. inversion H as [t Ht| |]; subst.
    destruct t; unfold blen; simpl; lia.
Qed.

#[export] Instance gif_verbatim : Verbatim body.
Proof.
  split.
  - intros rest rest' o rm H%gif_body_seen.
    inversion H as [|n c w Hc Hn|n c Hc Hn _]; subst; apply get_front in Hc as [Hr _]; eexists;
      (split; [exact Hr|]); [apply sublist_nil_l|done].
  - intros rest o rm H%gif_body_seen. inversion H as [t Ht| |]; subst.
    apply sublist_skip, sublist_nil_l.
Qed.
