(* ===== verification/MediaWebp.v ===== *)
(** WebP: a RIFF container of four-character chunks
    ([ddirc-core/src/media/webp.rs]). *)
From S2P Require Import Prelude RustStr Media.

Definition HEADER : N := 12.
Definition FLAG_EXIF : byte := 8%N.
Definition FLAG_XMP : byte := 4%N.

Definition describe (kind : bytes) : option str :=
  if bool_decide (kind = lit "EXIF") then Some (lit "EXIF")
  else if bool_decide (kind = lit "XMP ") then Some (lit "XMP")
  else None.

Definition bad {A} (detail : str) : result A Exit := Err (Returned (malformed WebP detail)).

(** [*flags &= !(FLAG_EXIF | FLAG_XMP)] on a [u8]. *)
Definition clear_flags (flags : byte) : byte :=
  N.land flags (N.lxor 255 (N.lor FLAG_EXIF FLAG_XMP)).

(** A chunk as it is copied: the announcement of what the file contains is
    corrected, when the chunk has one. *)
Definition copied (kind chunk : bytes) : bytes :=
  if bool_decide (kind = lit "VP8X") then alter clear_flags 8 chunk else chunk.

(** One pass of the [while i < bytes.len()] loop. *)
Definition body (rest : bytes) : result Pass Exit :=
  if is_empty rest then Ok (Break [] [])
  else
    match get rest 0 4 with
    | None => bad (lit "truncated chunk type")
    | Some kind =>
        match le <$> get rest 4 4 with
        | None => bad (lit "truncated chunk size")
        | Some size =>
            let padded := (size + N.land size 1)%N in
            match checked_add padded 8 with
            | None => bad (lit "impossible chunk size")
            | Some total =>
                match get rest 0 total with
                | None => bad (lit "chunk runs past the end")
                | Some chunk =>
                    match describe kind with
                    | Some what => Ok (Continue (skip total rest) [] [mkRemoved what total])
                    | None => Ok (Continue (skip total rest) (copied kind chunk) [])
                    end
                end
            end
        end
    end.

Definition strip (b : bytes) : result Stripped Exit :=
  if (blen b <=? HEADER)%N then bad (lit "no chunks after the header")
  else
    r <-? walk body (skip HEADER b);
    let payload := r.1 in
    Ok (mkStripped WebP (lit "RIFF" ++ to_le32 (blen payload + 4) ++ lit "WEBP" ++ payload) r.2).

(** * Lemmas *)

Lemma copied_length kind chunk : blen (copied kind chunk) = blen chunk.
Proof. unfold copied. case_bool_decide; [|done]. unfold blen. by rewrite length_alter. Qed.

(** The framing of a chunk is copied as it is. *)
Lemma copied_front kind chunk s a n :
  (a + n <= 8)%N → get (copied kind chunk ++ s) a n = get (chunk ++ s) a n.
Proof.
  intros Hn. unfold get. rewrite !blen_app, copied_length. destruct (_ <=? _)%N; [|done]. f_equal.
  apply list_eq. intros i. destruct (decide (i < N.to_nat n)) as [Hi|].
  - rewrite !lookup_take_lt, !lookup_drop by done. unfold copied. case_bool_decide; [|done].
    destruct (decide (N.to_nat a + i < length chunk)) as [Hl|].
    + rewrite !lookup_app_l by (rewrite ?length_alter; done). by rewrite list_lookup_alter_ne by lia.
    + rewrite !lookup_app_r by (rewrite ?length_alter; lia). by rewrite length_alter.
  - by rewrite !lookup_take_ge by lia.
Qed.

Lemma clear_flags_idemp f : clear_flags (clear_flags f) = clear_flags f.
Proof. unfold clear_flags. by rewrite <- N.land_assoc, N.land_diag. Qed.

Lemma copied_idemp kind chunk : copied kind (copied kind chunk) = copied kind chunk.
Proof.
  unfold copied. case_bool_decide; [|done]. apply list_eq. intros i.
  destruct (decide (i = 8)) as [->|]; [|by rewrite !list_lookup_alter_ne].
  rewrite !list_lookup_alter. destruct (chunk !! 8) as [f|]; [|done]. simpl. by rewrite clear_flags_idemp.
Qed.

(** What a pass that goes through did: it read one chunk. *)
Lemma webp_body_chunk rest p :
  body rest = Ok p → rest ≠ [] →
  ∃ kind size total chunk,
    get rest 0 4 = Some kind ∧ le <$> get rest 4 4 = Some size
    ∧ checked_add (size + N.land size 1) 8 = Some total ∧ (8 <= total)%N
    ∧ get rest 0 total = Some chunk
    ∧ p = match describe kind with
          | Some what => Continue (skip total rest) [] [mkRemoved what total]
          | None => Continue (skip total rest) (copied kind chunk) []
          end.
Proof.
  intros H Hne. unfold body in H. apply is_empty_false in Hne. rewrite Hne in H.
  destruct (get rest 0 4) as [k|] eqn:E1; [|done].
  destruct (le <$> get rest 4 4) as [n|] eqn:E2; [|done].
  destruct (checked_add _ 8) as [t|] eqn:E3; [|done].
  destruct (get rest 0 t) as [c|] eqn:E4; [|done].
  exists k, n, t, c. split_and!; [done..| |done|].
  - apply checked_add_Some in E3 as ->. lia.
  - by destruct (describe k); simplify_eq.
Qed.

Lemma body_continue rest rest' o rm :
  body rest = Ok (Continue rest' o rm) → rest ≠ [].
Proof. by intros H ->. Qed.

Lemma body_break rest o rm : body rest = Ok (Break o rm) → rest = [] ∧ o = [] ∧ rm = [].
Proof.
  intros H. destruct (decide (rest = [])) as [->|Hne]; [by injection H as <- <-|].
  apply webp_body_chunk in H as (? & ? & ? & ? & _ & _ & _ & _ & _ & E); [|done]. by case_match.
Qed.

#[export] Instance webp_container : Container body.
Proof.
  split.
  - intros rest e. unfold body, bad. repeat case_match; intros; simplify_eq; eauto.
  - intros rest rest' o rm H. pose proof (body_continue _ _ _ _ H).
    apply webp_body_chunk in H as (k & n & t & c & _ & _ & _ & Ht & H4 & E); [|done].
    apply get_Some in H4 as (Hl & _).
    case_match; simplify_eq; unfold skip, blen in *; rewrite length_drop; lia.
  - intros rest rest' o rm s p H Ho _. pose proof (body_continue _ _ _ _ H).
    apply webp_body_chunk in H as (k & n & t & c & H1 & H2 & H3 & Ht & H4 & E); [|done].
    destruct (describe k) eqn:Hd; simplify_eq.
    destruct (get_front _ _ _ H4) as [_ Hc]. unfold body.
    assert (is_empty (copied k c ++ s) = false) as ->.
    { apply is_empty_false. by destruct (copied k c). }
    rewrite !copied_front, !(get_replay _ _ _ _ _ _ H4) by lia. rewrite H1, H2, H3.
    rewrite get_app_exact, skip_app_exact by (by rewrite copied_length). by rewrite Hd, copied_idemp.
  - intros rest o rm (-> & -> & ->)%body_break. done.
Qed.

#[export] Instance webp_accounted : Accounted false body.
Proof.
  split.
  - intros rest rest' o rm H. pose proof (body_continue _ _ _ _ H).
    apply webp_body_chunk in H as (k & n & t & c & _ & _ & _ & Ht & H4 & E); [|done].
    apply get_Some in H4 as (Hl & Hc & _).
    case_match; simplify_eq; rewrite blen_skip by lia; cbn [removed_sum foldr r_bytes];
      change (blen []) with 0%N; rewrite ?copied_length; lia.
  - intros rest o rm (-> & -> & ->)%body_break. done.
Qed.
