(* ===== verification/MediaStrip.v ===== *)
(** Cleaning a file: dispatch by content and the properties of the result
    ([ddirc-core/src/media/mod.rs], [strip]). *)
From S2P Require Import Prelude RustStr Media MediaPng MediaJpeg MediaGif MediaWebp.

Definition strip (b : bytes) : result Stripped Exit :=
  if is_empty b then Err (Returned Empty)
  else
    match detect b with
    | None => Err (Returned Unsupported)
    | Some Jpeg => MediaJpeg.strip b
    | Some Png => MediaPng.strip b
    | Some Gif => MediaGif.strip b
    | Some WebP => MediaWebp.strip b
    end.

(** * Lemmas: detection *)

Lemma detect_jpeg b : detect b = Some Jpeg → ∃ r, b = [0xFF; 0xD8]%N ++ 0xFF%N :: r.
Proof.
  unfold detect. destruct (starts_with [255; 216; 255]%N b) eqn:E; [|by repeat case_match].
  apply starts_with_app in E as [r ->]. by exists r.
Qed.

Lemma detect_png b : detect b = Some Png → ∃ r, b = PNG_SIGNATURE ++ r.
Proof.
  unfold detect. destruct (starts_with [255; 216; 255]%N b); [done|].
  destruct (starts_with PNG_SIGNATURE b) eqn:E; [|by repeat case_match].
  by apply starts_with_app in E.
Qed.

Lemma detect_gif b :
  detect b = Some Gif ↔ ∃ r, b = lit "GIF87a" ++ r ∨ b = lit "GIF89a" ++ r.
Proof.
  split.
  - unfold detect. destruct (starts_with [255; 216; 255]%N b); [done|].
    destruct (starts_with PNG_SIGNATURE b); [done|].
    destruct (starts_with (lit "GIF87a") b) eqn:E1; [apply starts_with_app in E1 as [r ->]; eauto|].
    destruct (starts_with (lit "GIF89a") b) eqn:E2; [apply starts_with_app in E2 as [r ->]; eauto|].
    simpl. by case_match.
  - by intros [r [-> | ->]].
Qed.

Lemma detect_jpeg_app r : detect ([0xFF; 0xD8; 0xFF]%N ++ r) = Some Jpeg.
Proof. done. Qed.
Lemma detect_png_app r : detect (PNG_SIGNATURE ++ r) = Some Png.
Proof. done. Qed.
Lemma detect_webp_app l r : length l = 4 → detect (lit "RIFF" ++ l ++ lit "WEBP" ++ r) = Some WebP.
Proof.
  intros Hl. destruct l as [|a [|b [|c [|d [|]]]]]; try done. unfold detect.
  assert (get (lit "RIFF" ++ [a; b; c; d] ++ lit "WEBP" ++ r) 8 4 = Some (lit "WEBP")) as ->; [|done].
  unfold get. rewrite !blen_app. change (blen (lit "RIFF")) with 4%N. change (blen (lit "WEBP")) with 4%N.
  change (blen [a; b; c; d]) with 4%N. by destruct (N.leb_spec (8 + 4) (4 + (4 + (4 + blen r)))); [|lia].
Qed.

(** * Lemmas: each format *)

Lemma png_returns b e : detect b = Some Png → MediaPng.strip b = Err e → ∃ k d, e = Returned (Malformed k d).
Proof.
  intros [r ->]%detect_png. unfold MediaPng.strip, index. rewrite get_app_exact by done. cbn [rbind].
  destruct (_ <=? _)%N; [intros [= <-]; eauto|].
  destruct (walk _ _) eqn:E; [done|]. intros [= ->]. by eapply (walk_total MediaPng.body).
Qed.

Lemma jpeg_returns b e : detect b = Some Jpeg → MediaJpeg.strip b = Err e → ∃ k d, e = Returned (Malformed k d).
Proof.
  intros [r ->]%detect_jpeg. unfold MediaJpeg.strip, index. rewrite get_app_exact by done. cbn [rbind].
  destruct (walk _ _) eqn:E; [done|]. intros [= ->]. by eapply (walk_total MediaJpeg.body).
Qed.

Lemma gif_returns b e : MediaGif.strip b = Err e → ∃ k d, e = Returned (Malformed k d).
Proof.
  unfold MediaGif.strip. destruct (N.leb_spec (blen b) MediaGif.HEADER) as [|Hl]; [intros [= <-]; eauto|].
  unfold index1, get1. destruct (lookup_lt_is_Some_2 b (N.to_nat 10)) as [x Hx].
  { unfold MediaGif.HEADER, blen in Hl. lia. }
  rewrite Hx. cbn [rbind]. destruct (N.ltb_spec (blen b) (MediaGif.HEADER + color_table x)) as [|Hi];
    [intros [= <-]; eauto|].
  unfold index, get. apply N.leb_le in Hi. rewrite N.add_0_l, Hi. cbn [rbind].
  destruct (walk _ _) eqn:E; [done|]. intros [= ->]. by eapply (walk_total MediaGif.body).
Qed.

Lemma webp_returns b e : MediaWebp.strip b = Err e → ∃ k d, e = Returned (Malformed k d).
Proof.
  unfold MediaWebp.strip. destruct (_ <=? _)%N; [intros [= <-]; eauto|].
  destruct (walk _ _) eqn:E; [done|]. intros [= ->]. by eapply (walk_total MediaWebp.body).
Qed.

(** What each format writes: its header, then what the loop kept. *)
Lemma png_shape b s :
  detect b = Some Png → MediaPng.strip b = Ok s →
  ∃ rest out rm, b = PNG_SIGNATURE ++ rest ∧ walk MediaPng.body rest = Ok (out, rm)
                 ∧ s = mkStripped Png (PNG_SIGNATURE ++ out) rm.
Proof.
  intros [r ->]%detect_png. unfold MediaPng.strip, index. rewrite get_app_exact by done. cbn [rbind].
  destruct (_ <=? _)%N; [done|]. rewrite skip_app_exact by done.
  destruct (walk _ r) as [[out rm]|] eqn:E; [|done]. intros [= <-]. eauto 10.
Qed.

Lemma jpeg_shape b s :
  detect b = Some Jpeg → MediaJpeg.strip b = Ok s →
  ∃ rest out rm, b = [0xFF; 0xD8]%N ++ rest ∧ walk MediaJpeg.body rest = Ok (out, rm)
                 ∧ s = mkStripped Jpeg ([0xFF; 0xD8]%N ++ out) rm.
Proof.
  intros [r ->]%detect_jpeg. unfold MediaJpeg.strip, index. rewrite get_app_exact by done. cbn [rbind].
  rewrite skip_app_exact by done.
  destruct (walk _ _) as [[out rm]|] eqn:E; [|done]. intros [= <-]. eauto 10.
Qed.

Lemma gif_shape b s :
  MediaGif.strip b = Ok s →
  ∃ x header rest out rm,
    get1 b 10 = Some x ∧ blen header = (MediaGif.HEADER + color_table x)%N ∧ b = header ++ rest
    ∧ walk MediaGif.body rest = Ok (out, rm) ∧ s = mkStripped Gif (header ++ out) rm.
Proof.
  unfold MediaGif.strip. destruct (_ <=? _)%N; [done|].
  unfold index1. destruct (get1 b 10) as [x|]; [|done]. cbn [rbind].
  destruct (_ <? _)%N; [done|]. unfold index. destruct (get b 0 _) as [h|] eqn:Eh; [|done]. cbn [rbind].
  apply get_front in Eh as [Hb Hh].
  destruct (walk _ _) as [[out rm]|] eqn:E; [|done]. intros [= <-].
  exists x, h, (skip (MediaGif.HEADER + color_table x) b), out, rm. by rewrite <- Hb.
Qed.

Lemma webp_shape b s :
  MediaWebp.strip b = Ok s →
  ∃ out rm, (MediaWebp.HEADER < blen b)%N ∧ walk MediaWebp.body (skip MediaWebp.HEADER b) = Ok (out, rm)
            ∧ s = mkStripped WebP (lit "RIFF" ++ to_le32 (blen out + 4) ++ lit "WEBP" ++ out) rm.
Proof.
  unfold MediaWebp.strip. destruct (N.leb_spec (blen b) MediaWebp.HEADER); [done|].
  destruct (walk _ _) as [[out rm]|] eqn:E; [|done]. intros [= <-]. eauto 10.
Qed.

Lemma strip_Ok b s :
  strip b = Ok s →
  (detect b = Some Jpeg ∧ MediaJpeg.strip b = Ok s) ∨ (detect b = Some Png ∧ MediaPng.strip b = Ok s)
  ∨ (detect b = Some Gif ∧ MediaGif.strip b = Ok s) ∨ (detect b = Some WebP ∧ MediaWebp.strip b = Ok s).
Proof. unfold strip. destruct (is_empty b); [done|]. destruct (detect b) as [[]|]; naive_solver. Qed.

Lemma strip_detected b k :
  b ≠ [] → detect b = Some k →
  strip b = match k with
            | Jpeg => MediaJpeg.strip b | Png => MediaPng.strip b
            | Gif => MediaGif.strip b | WebP => MediaWebp.strip b
            end.
Proof. intros Hb Hk. apply is_empty_false in Hb. unfold strip. rewrite Hb, Hk. by destruct k. Qed.

(** ** Cleaning again *)

Lemma png_again b s :
  detect b = Some Png → MediaPng.strip b = Ok s → (8 < blen (s_bytes s))%N →
  strip (s_bytes s) = Ok (mkStripped (kind s) (s_bytes s) []).
Proof.
  intros Hd H Hl. destruct (png_shape _ _ Hd H) as (rest & out & rm & -> & Hw & ->). cbn [s_bytes kind] in *.
  rewrite (strip_detected _ Png) by done. unfold MediaPng.strip, index.
  rewrite get_app_exact by done. cbn [rbind]. rewrite blen_app in *.
  destruct (N.leb_spec (blen PNG_SIGNATURE + blen out) SIGNATURE); [unfold SIGNATURE in *; lia|].
  rewrite skip_app_exact by done. by rewrite (walk_replay MediaPng.body _ _ _ Hw).
Qed.

Lemma jpeg_again b s :
  detect b = Some Jpeg → MediaJpeg.strip b = Ok s →
  strip (s_bytes s) = Ok (mkStripped (kind s) (s_bytes s) []).
Proof.
  intros Hd H. destruct (jpeg_shape _ _ Hd H) as (rest & out & rm & -> & Hw & ->). cbn [s_bytes kind] in *.
  apply (walk_replay MediaJpeg.body) in Hw.
  assert (∃ t, out = 0xFF%N :: t) as [t ->].
  { rewrite (walk_unfold MediaJpeg.body) in Hw. destruct (MediaJpeg.body out) eqn:E; [|done].
    apply MediaJpeg.body_marker in E as (k & m & r & -> & _). eexists. done. }
  rewrite (strip_detected _ Jpeg) by done. unfold MediaJpeg.strip, index.
  rewrite get_app_exact, skip_app_exact by done. cbn [rbind]. by rewrite Hw.
Qed.

Lemma gif_again b s :
  detect b = Some Gif → MediaGif.strip b = Ok s →
  strip (s_bytes s) = Ok (mkStripped (kind s) (s_bytes s) []).
Proof.
  intros Hd H. destruct (gif_shape _ _ H) as (x & h & rest & out & rm & Hx & Hh & -> & Hw & ->).
  cbn [s_bytes kind]. apply (walk_replay MediaGif.body) in Hw.
  assert (out ≠ []) as Hne.
  { intros ->. rewrite (walk_unfold MediaGif.body) in Hw. done. }
  assert (MediaGif.HEADER <= blen h)%N as Hhl by lia. unfold MediaGif.HEADER, blen in Hhl.
  assert (detect (h ++ out) = Some Gif) as Hd'.
  { apply detect_gif. apply detect_gif in Hd as [r Hd].
    assert (∀ p, length p = 6 → h ++ rest = p ++ r → h = p ++ drop 6 h) as Hp.
    { intros p Hp E. apply (f_equal (take 6)) in E. rewrite take_app_le in E by lia.
      rewrite take_app_length' in E by done. rewrite <- (take_drop 6 h) at 1. by rewrite E. }
    exists (drop 6 h ++ out).
    destruct Hd as [E|E]; apply Hp in E; try done; [left|right]; by rewrite (assoc_L (++)), <- E. }
  rewrite (strip_detected _ Gif); [|by destruct h|done].
  unfold MediaGif.strip. rewrite blen_app.
  destruct (N.leb_spec (blen h + blen out) MediaGif.HEADER).
  { destruct out; [done|]. unfold MediaGif.HEADER, blen in *. simpl in *. lia. }
  unfold index1. replace (get1 (h ++ out) 10) with (get1 (h ++ rest) 10).
  2: { unfold get1. by rewrite !lookup_app_l by lia. }
  rewrite Hx. cbn [rbind]. destruct (N.ltb_spec (blen h + blen out) (MediaGif.HEADER + color_table x)); [lia|].
  unfold index. rewrite get_app_exact, skip_app_exact by done. cbn [rbind]. by rewrite Hw.
Qed.

Lemma webp_again b s :
  MediaWebp.strip b = Ok s → (12 < blen (s_bytes s))%N →
  strip (s_bytes s) = Ok (mkStripped (kind s) (s_bytes s) []).
Proof.
  intros H Hl. destruct (webp_shape _ _ H) as (out & rm & _ & Hw & ->). cbn [s_bytes kind] in *.
  rewrite (strip_detected _ WebP) by (done || by apply detect_webp_app). unfold MediaWebp.strip.
  set (hd := lit "RIFF" ++ to_le32 (blen out + 4) ++ lit "WEBP").
  assert (lit "RIFF" ++ to_le32 (blen out + 4) ++ lit "WEBP" ++ out = hd ++ out) as E.
  { unfold hd. by rewrite <- !(assoc_L (++)). }
  rewrite E in *. destruct (N.leb_spec (blen (hd ++ out)) MediaWebp.HEADER); [unfold MediaWebp.HEADER in *; lia|].
  rewrite skip_app_exact by done. rewrite (walk_replay MediaWebp.body _ _ _ Hw). cbn [rbind fst snd].
  by rewrite E.
Qed.

Lemma strip_nonempty b s : strip b = Ok s → b ≠ [].
Proof. intros H ->. done. Qed.

Lemma strip_fails b x :
  strip b = Err x → ∃ e, x = Returned e ∧ (e = Empty ↔ b = []) ∧ (e = Unsupported ↔ b ≠ [] ∧ detect b = None).
Proof.
  destruct (decide (b = [])) as [->|Hb]; [intros [= <-]; eexists; split; [done|]; naive_solver|].
  destruct (detect b) as [k|] eqn:Hd.
  - rewrite (strip_detected _ k) by done. intros He.
    assert (∃ k d, x = Returned (Malformed k d)) as (k' & d & ->).
    { destruct k; [by eapply jpeg_returns|by eapply png_returns|by eapply gif_returns|by eapply webp_returns]. }
    eexists. split; [done|]. naive_solver.
  - apply is_empty_false in Hb as Hb'. unfold strip. rewrite Hb', Hd. intros [= <-]. eexists. split; [done|]. naive_solver.
Qed.

(** * What a cleaned file is

    A file of each kind taken apart as its format has it, and what of it tells
    about a person: said apart from the cleaner, from the list of what goes and
    what is kept in the head of [media/mod.rs]. *)

(** A part of a file: what kind it is, what it holds, its bytes in the file, and
    its bytes once the way it is written is put in order. *)
Record Part := mkPart { p_tag : bytes; p_data : bytes; p_read : bytes; p_copied : bytes }.

(** EXIF, XMP, IPTC and Photoshop data, text, comments, thumbnails and
    timestamps. The application segments of a JPEG that change how it is drawn
    stay. *)
Definition rendering : list (byte * bytes) :=
  [(0xE0%N, lit "JFIF" ++ [0%N]); (0xE2%N, lit "ICC_PROFILE" ++ [0%N]); (0xEE%N, lit "Adobe")].
Definition metadata (k : MediaKind) (tag data : bytes) : bool :=
  match k, tag with
  | Jpeg, [m] =>
      (m =? 0xFE)%N
      || ((0xE0 <=? m)%N && (m <=? 0xEF)%N && negb (existsb (λ r, (m =? r.1)%N && starts_with r.2 data) rendering))
  | Png, _ => bool_decide (tag ∈ [lit "tEXt"; lit "zTXt"; lit "iTXt"; lit "eXIf"; lit "tIME"])
  | Gif, [0x21; label]%N =>
      (label =? 0xFE)%N || ((label =? 0xFF)%N && bool_decide (take 11 (drop 1 data) = lit "XMP DataXMP"))
  | WebP, _ => bool_decide (tag ∈ [lit "EXIF"; lit "XMP "])
  | _, _ => false
  end.

(** The flags of a [VP8X] chunk that announce EXIF and XMP are cleared. *)
Definition unannounced (tag data : bytes) : bytes :=
  if bool_decide (tag = lit "VP8X") then alter (λ flags, N.land flags 0xF3) 0 data else data.

Definition is_part (k : MediaKind) (p : Part) : Prop :=
  match k with
  | Jpeg => ∃ fill marker len,
      p_tag p = [marker] ∧ marker ≠ 0xFF%N ∧ marker ≠ 0xDA%N ∧
      (is_standalone marker = true ∧ len = [] ∧ p_data p = [] ∨
       is_standalone marker = false ∧ blen len = 2%N ∧ be len = (blen (p_data p) + 2)%N) ∧
      p_copied p = 0xFF%N :: marker :: len ++ p_data p ∧ p_read p = replicate fill 0xFF%N ++ p_copied p
  | Png => ∃ len crc,
      blen len = 4%N ∧ blen (p_tag p) = 4%N ∧ blen crc = 4%N ∧ be len = blen (p_data p) ∧ p_tag p ≠ lit "IEND" ∧
      p_read p = len ++ p_tag p ++ p_data p ++ crc ∧ p_copied p = p_read p
  | Gif =>
      p_copied p = p_read p ∧ p_read p = p_tag p ++ p_data p ∧
      ((∃ label, p_tag p = [0x21%N; label] ∧ Chain (p_data p)) ∨
       (p_tag p = [0x2C%N] ∧ ∃ place packed table lzw chain,
          blen place = 8%N ∧ blen table = color_table packed ∧ Chain chain ∧
          p_data p = place ++ packed :: table ++ lzw :: chain))
  | WebP => ∃ len pad,
      blen (p_tag p) = 4%N ∧ blen len = 4%N ∧ le len = blen (p_data p) ∧ blen pad = N.land (blen (p_data p)) 1 ∧
      p_read p = p_tag p ++ len ++ p_data p ++ pad ∧
      p_copied p = p_tag p ++ len ++ unannounced (p_tag p) (p_data p) ++ pad
  end.

(** What ends a file, as it is read and as it is copied: a JPEG's image from the
    start of its scan, a PNG's last chunk and a GIF's trailer without what
    follows. *)
Definition is_ending (k : MediaKind) (read copied : bytes) : Prop :=
  match k with
  | Jpeg => ∃ fill scan, copied = 0xFF%N :: 0xDA%N :: scan ∧ read = replicate fill 0xFF%N ++ copied
  | Png =>
      (read = [] ∧ copied = []) ∨
      ∃ len data crc tail, blen len = 4%N ∧ blen crc = 4%N ∧ be len = blen data ∧
        copied = len ++ lit "IEND" ++ data ++ crc ∧ read = copied ++ tail
  | Gif => copied = [0x3B%N] ∧ ∃ tail, read = 0x3B%N :: tail
  | WebP => read = [] ∧ copied = []
  end.

(** What a file begins with; a WebP's length is written anew. *)
Definition is_header (k : MediaKind) (read copied : bytes) : Prop :=
  match k with
  | Jpeg => read = [0xFF; 0xD8]%N ∧ copied = read
  | Png => read = PNG_SIGNATURE ∧ copied = read
  | Gif => copied = read ∧ ∃ packed, read !! 10 = Some packed ∧ blen read = (13 + color_table packed)%N
  | WebP => blen read = 12%N ∧ ∃ len, blen len = 4%N ∧ copied = lit "RIFF" ++ len ++ lit "WEBP"
  end.

Definition kept (k : MediaKind) (ps : list Part) : list Part :=
  List.filter (λ p, negb (metadata k (p_tag p) (p_data p))) ps.

(** ** One pass, and the loop *)

Class Cleans (k : MediaKind) (body : bytes → result Pass Exit) : Prop := {
  cl_continue rest rest' o rm q :
    body rest = Ok (Continue rest' o rm) → body rest' = Ok q →
    ∃ p, is_part k p ∧ rest = p_read p ++ rest' ∧ o = (if metadata k (p_tag p) (p_data p) then [] else p_copied p);
  cl_break rest o rm : body rest = Ok (Break o rm) → is_ending k rest o;
}.

Lemma walk_cleans k body `{!Container body, !Cleans k body} rest out rm :
  walk body rest = Ok (out, rm) →
  ∃ ps e e', Forall (is_part k) ps ∧ is_ending k e e' ∧
    rest = concat (map p_read ps) ++ e ∧ out = concat (map p_copied (kept k ps)) ++ e'.
Proof.
  revert out rm. induction rest as [rest IH] using (induction_ltof1 _ length). unfold ltof in IH.
  intros out rm. rewrite (walk_unfold body).
  destruct (body rest) as [[rest' o r|o r]|x] eqn:E; cbn [rbind]; [| |done].
  - pose proof (ct_progress _ _ _ _ E) as Hp.
    destruct (walk body rest') as [[out' rm']|] eqn:Ew; cbn [rbind fst snd]; [|done]. intros [= <- <-].
    destruct (IH _ Hp _ _ Ew) as (ps & e & e' & Hps & He & -> & ->).
    rewrite (walk_unfold body) in Ew. destruct (body (concat (map p_read ps) ++ e)) as [q|] eqn:Eq; [|done].
    destruct (cl_continue _ _ _ _ q E Eq) as (p & H1 & -> & ->).
    exists (p :: ps), e, e'. split_and!; [by constructor|done|cbn; by rewrite (assoc_L (++))|].
    unfold kept. cbn [List.filter]. destruct (metadata k (p_tag p) (p_data p)); cbn; [done|by rewrite (assoc_L (++))].
  - intros [= <- <-]. apply cl_break in E. exists [], rest, o. done.
Qed.

(** A piece of a piece. *)
Lemma get_within rest t c a n x :
  get rest 0 t = Some c → (a + n <= t)%N → get rest a n = Some x →
  c = take (N.to_nat a) c ++ x ++ drop (N.to_nat (a + n)) c ∧ blen x = n.
Proof.
  intros Hc Hn Hx. rewrite <- (get_replay _ _ _ _ _ [] Hc Hn), app_nil_r in Hx.
  by apply get_Some in Hx as (_ & ? & ?).
Qed.

Lemma get_two rest t c x y n m :
  get rest 0 t = Some c → (n + m <= t)%N → get rest 0 n = Some x → get rest n m = Some y →
  ∃ z, c = x ++ y ++ z ∧ blen x = n ∧ blen y = m ∧ (blen z = t - n - m)%N.
Proof.
  intros Hc Ht Hx Hy. pose proof (get_front _ _ _ Hc) as [_ Hl].
  assert (0 + n <= t)%N as H0 by lia. destruct (get_within _ _ _ _ _ _ Hc H0 Hx) as [Ex Hbx].
  destruct (get_within _ _ _ _ _ _ Hc Ht Hy) as [Ey Hby]. exists (drop (N.to_nat (n + m)) c).
  assert (take (N.to_nat n) c = x) as E.
  { rewrite Ex. change (take (N.to_nat 0) c) with (@nil N). cbn [app]. unfold blen in Hbx.
    rewrite take_app_le by lia. apply take_ge. lia. }
  rewrite E in Ey. split_and!; [exact Ey|done|done|]. unfold blen in *. rewrite length_drop. lia.
Qed.

Lemma split_at {n : N} (z : bytes) : (n <= blen z)%N → ∃ a b, z = a ++ b ∧ blen a = n ∧ (blen b = blen z - n)%N.
Proof.
  intros H. exists (take (N.to_nat n) z), (drop (N.to_nat n) z). rewrite take_drop. unfold blen in *.
  rewrite length_take, length_drop. split_and!; [done|lia..].
Qed.

#[export] Instance png_cleans : Cleans Png MediaPng.body.
Proof.
  assert (∀ k, match MediaPng.describe k with Some _ => true | None => false end
    = bool_decide (k ∈ [lit "tEXt"; lit "zTXt"; lit "iTXt"; lit "eXIf"; lit "tIME"])) as Hd.
  { intros k. symmetry. destruct (MediaPng.describe k) eqn:E; unfold MediaPng.describe in E;
      [apply bool_decide_eq_true|apply bool_decide_eq_false]; rewrite !elem_of_cons, elem_of_nil;
      repeat (case_bool_decide; cbn [orb] in E; try done; try tauto). }
  split.
  - intros rest rest' o rm q H _. destruct (decide (rest = [])) as [->|Hne]; [done|].
    apply MediaPng.png_body_chunk in H as (n & k & c & H1 & H2 & _ & H4 & E); [|done].
    destruct (get rest 0 4) as [len|] eqn:Hlen; [|done]. injection H1 as H1.
    assert (4 + 4 <= n + 12)%N as Hle by lia. destruct (get_two _ _ _ _ _ _ _ H4 Hle Hlen H2) as (z & Ec & Hb1 & Hb2 & Hz).
    destruct (@split_at n z) as (data & crc & -> & Hdata & Hcrc); [lia|]. rewrite blen_app in *.
    destruct (get_front _ _ _ H4) as [Hr _]. case_bool_decide as Hk; [done|]. injection E as -> -> ->. subst n.
    exists (mkPart k data c c). cbn [p_read p_copied p_tag p_data]. split_and!; [|done|].
    + exists len, crc. split_and!; try done; lia.
    + cbn [metadata]. rewrite <- Hd. by destruct (MediaPng.describe k).
  - intros rest o rm H. destruct (decide (rest = [])) as [->|Hne]; [injection H as <- <-; by left|].
    apply MediaPng.png_body_chunk in H as (n & k & c & H1 & H2 & _ & H4 & E); [|done].
    destruct (get rest 0 4) as [len|] eqn:Hlen; [|done]. injection H1 as H1.
    assert (4 + 4 <= n + 12)%N as Hle by lia. destruct (get_two _ _ _ _ _ _ _ H4 Hle Hlen H2) as (z & Ec & Hb1 & Hb2 & Hz).
    destruct (@split_at n z) as (data & crc & -> & Hdata & Hcrc); [lia|]. rewrite blen_app in *.
    destruct (get_front _ _ _ H4) as [Hr _]. case_bool_decide as Hk; [|done]. subst k. injection E as -> ->. right.
    exists len, data, crc, (skip (n + 12) rest). split_and!; try done; lia.
Qed.

#[export] Instance webp_cleans : Cleans WebP MediaWebp.body.
Proof.
  split; [|intros rest o rm (-> & -> & _)%MediaWebp.body_break; done].
  intros rest rest' o rm q H _. pose proof (MediaWebp.body_continue _ _ _ _ H).
  apply MediaWebp.webp_body_chunk in H as (k & n & t & c & H1 & H2 & Ht%checked_add_Some & H8 & H4 & E); [|done].
  destruct (get rest 4 4) as [len|] eqn:Hlen; [|done]. injection H2 as H2.
  change 8%N with (4 + 4)%N in H8. destruct (get_two _ _ _ _ _ _ _ H4 H8 H1 Hlen) as (z & Ec & Hb1 & Hb2 & Hz).
  destruct (@split_at n z) as (data & pad & -> & Hdata & Hpad); [lia|]. rewrite blen_app in *.
  destruct (get_front _ _ _ H4) as [Hr _].
  assert (blen pad = N.land (blen data) 1) as Hp by (rewrite Hdata; lia).
  assert (data = [] → pad = []) as Hnil by (intros ->; by destruct pad).
  exists (mkPart k data c (MediaWebp.copied k c)). cbn [p_read p_copied p_tag p_data]. split_and!.
  - exists len, pad. cbn [p_read p_copied p_tag p_data]. split_and!; [done|done|congruence|done|done|]. subst c. unfold MediaWebp.copied, unannounced.
    case_bool_decide; [|done]. unfold blen in *. rewrite (assoc_L (++)).
    rewrite alter_app_r_alt by (rewrite length_app; lia). rewrite length_app, <- (assoc_L (++)). do 2 f_equal.
    replace (8 - _) with 0 by lia. destruct data as [|x data]; [|done]. by rewrite Hnil.
  - destruct (MediaWebp.describe k); simplify_eq; done.
  - cbn [metadata]. assert (∀ b : bool, (if MediaWebp.describe k then true else false) = b → o = if b then [] else MediaWebp.copied k c)
      as Ho by (intros b <-; by destruct (MediaWebp.describe k); simplify_eq).
    apply Ho. symmetry. unfold MediaWebp.describe.
    repeat case_bool_decide; rewrite ?elem_of_cons, ?elem_of_nil in *; try done; naive_solver.
Qed.

(** The cleaner's test of a JPEG segment is the one above. *)
Lemma jpeg_metadata m pl : is_metadata m pl = metadata Jpeg [m] pl.
Proof.
  unfold is_metadata, is_rendering_segment, metadata, rendering. cbn [existsb fst snd].
  destruct (N.eqb_spec m 254) as [->|]; [done|]. cbn [orb]. f_equal. f_equal.
  destruct (N.eqb_spec m 224) as [->|]; cbn [andb]; [by rewrite !orb_false_r|].
  destruct (N.eqb_spec m 226) as [->|]; cbn [andb]; [by rewrite !orb_false_r|].
  destruct (N.eqb_spec m 238) as [->|]; cbn [andb]; by rewrite ?orb_false_r.
Qed.

#[export] Instance jpeg_cleans : Cleans Jpeg MediaJpeg.body.
Proof.
  assert (∀ r n pl, be <$> get r 0 2 = Some n → (2 <= n)%N → get r 2 (n - 2) = Some pl →
    ∃ len, blen len = 2%N ∧ be len = n ∧ (blen pl = n - 2)%N ∧ r = len ++ pl ++ skip n r ∧
           ∀ seg, get r 0 n = Some seg → seg = len ++ pl) as Hseg.
  { intros r n pl H1 Hn Hp. destruct (get r 0 2) as [len|] eqn:Hlen; [|done]. injection H1 as H1.
    destruct (MediaJpeg.segment_in_bounds _ _ _ Hn Hp) as [seg Hs]. assert (2 + (n - 2) <= n)%N as Hle by lia.
    destruct (get_two _ _ _ _ _ _ _ Hs Hle Hlen Hp) as (z & Ez & Hb1 & Hb2 & Hz).
    assert (z = []) as -> by (destruct z; [done|]; unfold blen in Hz; simpl in Hz; lia). rewrite app_nil_r in Ez.
    destruct (get_front _ _ _ Hs) as [Hr _]. exists len.
    split_and!; [done..|by rewrite (assoc_L (++)), <- Ez|]. intros seg' Hs'. congruence. }
  assert (∀ k (m : byte) t, replicate (S k) 0xFF%N ++ m :: t = replicate k 0xFF%N ++ 0xFF%N :: m :: t) as Hfill.
  { intros k m t. rewrite replicate_S_end. by rewrite <- (assoc_L (++)). }
  split.
  - intros rest rest' o rm q (k & m & r & -> & Hm & H)%MediaJpeg.jpeg_body_seen _. rewrite Hfill.
    inversion H as [Hs|?|n pl Hs Hn Hle Hp Hda Hmd|n pl seg Hs Hn Hle Hp Hda Hmd Hg]; subst.
    + exists (mkPart [m] [] (replicate k 0xFF%N ++ [0xFF%N; m]) [0xFF%N; m]). cbn [p_read p_copied p_tag p_data].
      assert (m ≠ 0xDA%N) by (intros ->; done). split_and!.
      * exists k, m, []. split_and!; [done..|by left|done|done].
      * by rewrite <- (assoc_L (++)).
      * rewrite <- jpeg_metadata. unfold is_metadata. replace (_ || _) with false; [done|].
        unfold is_standalone in Hs. apply orb_true_iff in Hs. rewrite andb_true_iff, N.eqb_eq, !N.leb_le in Hs.
        symmetry. apply orb_false_iff. rewrite andb_false_iff, N.eqb_neq, !N.leb_gt. lia.
    + destruct (Hseg _ _ _ Hn Hle Hp) as (len & Hb & He & Hpl & Hr & _).
      exists (mkPart [m] pl (replicate k 0xFF%N ++ 0xFF%N :: m :: len ++ pl) (0xFF%N :: m :: len ++ pl)).
      cbn [p_read p_copied p_tag p_data]. split_and!.
      * exists k, m, len. split_and!; [done..| |done|done]. right. cbn [p_data]. split_and!; [done..|lia].
      * rewrite <- (assoc_L (++)). cbn [app]. rewrite <- (assoc_L (++)). by rewrite <- Hr.
      * by rewrite <- jpeg_metadata, Hmd.
    + destruct (Hseg _ _ _ Hn Hle Hp) as (len & Hb & He & Hpl & Hr & Hsg). rewrite (Hsg _ Hg).
      exists (mkPart [m] pl (replicate k 0xFF%N ++ 0xFF%N :: m :: len ++ pl) (0xFF%N :: m :: len ++ pl)).
      cbn [p_read p_copied p_tag p_data]. split_and!.
      * exists k, m, len. split_and!; [done..| |done|done]. right. cbn [p_data]. split_and!; [done..|lia].
      * rewrite <- (assoc_L (++)). cbn [app]. rewrite <- (assoc_L (++)). by rewrite <- Hr.
      * by rewrite <- jpeg_metadata, Hmd.
  - intros rest o rm (k & m & r & -> & Hm & H)%MediaJpeg.jpeg_body_seen. rewrite Hfill.
    inversion H; subst. by exists k, r.
Qed.

Lemma xmp_named label c rest' q :
  (1 <= blen c)%N → MediaGif.body rest' = Ok q →
  is_xmp label (0x21%N :: label :: c ++ rest') = (label =? 0xFF)%N && bool_decide (take 11 (drop 1 c) = lit "XMP DataXMP").
Proof.
  intros Hc Hq. unfold is_xmp. change MediaGif.APPLICATION with 0xFF%N. f_equal. apply bool_decide_ext.
  change (0x21%N :: label :: c ++ rest') with ((0x21%N :: label :: c) ++ rest').
  assert (14 <= blen (0x21%N :: label :: c) →
    get ((0x21%N :: label :: c) ++ rest') 3 11 = Some (take 11 (drop 1 c)))%N as Hget.
  { intros Hl. unfold get. rewrite blen_app. destruct (N.leb_spec (3 + 11) (blen (0x21%N :: label :: c) + blen rest')); [|lia].
    unfold blen in Hl. cbn [length] in Hl. change (N.to_nat 11) with 11. change (N.to_nat 3) with 3.
    destruct c as [|x c]; [cbn in Hl; lia|]. cbn [length] in Hl. change (drop 1 (x :: c)) with c.
    change (drop 3 _) with (c ++ rest'). by rewrite take_app_le by lia. }
  split.
  - intros Hx. assert (3 <= blen (0x21%N :: label :: c))%N as H3 by (unfold blen in *; cbn [length]; lia).
    pose proof (MediaGif.xmp_within _ _ _ H3 Hq Hx) as Hl. rewrite (Hget Hl) in Hx. by injection Hx.
  - intros Hx. rewrite Hget; [by rewrite Hx|]. apply (f_equal length) in Hx. rewrite length_take, length_drop in Hx.
    change (length (lit "XMP DataXMP")) with 11 in Hx. unfold blen. cbn [length]. lia.
Qed.

Lemma chain_nonempty c : MediaGif.Chain c → (1 <= blen c)%N.
Proof. destruct 1; unfold blen; cbn [length]; lia. Qed.

(** An image block before its chain. *)
Lemma image_block pre packed :
  blen pre = (11 + color_table packed)%N → get1 pre 0 = Some 0x2C%N → get1 pre 9 = Some packed →
  ∃ place table lzw, pre = 0x2C%N :: place ++ packed :: table ++ [lzw] ∧ blen place = 8%N ∧ blen table = color_table packed.
Proof.
  intros Hl H0 H9. unfold get1 in *. change (N.to_nat 9) with 9 in H9. change (N.to_nat 0) with 0 in H0.
  destruct pre as [|x pre]; [done|]. cbn in H0. injection H0 as ->. cbn in H9.
  pose proof (take_drop_middle pre 8 packed H9) as Hm. unfold blen in Hl. cbn [length] in Hl.
  destruct (@split_at (color_table packed) (drop 9 pre)) as (table & rest & Et & Hbt & Hbr).
  { unfold blen. rewrite length_drop. lia. }
  assert (∃ lzw, rest = [lzw]) as [lzw ->].
  { unfold blen in Hbr. rewrite length_drop in Hbr. destruct rest as [|y [|]]; cbn [length] in Hbr; [lia|by exists y|lia]. }
  exists (take 8 pre), table, lzw. rewrite <- Et. rewrite Hm. split_and!; [done| |done].
  apply lookup_lt_Some in H9. unfold blen. rewrite length_take. lia.
Qed.

#[export] Instance gif_cleans : Cleans Gif MediaGif.body.
Proof.
  split.
  - intros rest rest' o rm q H Hq. pose proof H as Hb.
    destruct (MediaGif.body_introducer _ _ H) as (h & t & -> & Hh). unfold MediaGif.body in Hb.
    change (get1 (h :: t) 0) with (Some h) in Hb. cbn iota beta in Hb. destruct Hh as [->|[->| ->]]; [done|..].
    + change (MediaGif.EXTENSION =? MediaGif.TRAILER)%N with false in Hb. rewrite N.eqb_refl in Hb. cbn iota in Hb.
      destruct t as [|label r]; [done|]. change (get1 (MediaGif.EXTENSION :: label :: r) 1) with (Some label) in Hb.
      cbn iota beta in Hb. destruct (MediaGif.end_of_sub_blocks _ 2) as [n|] eqn:En; [|done]. cbn [rbind] in Hb.
      apply MediaGif.end_of_sub_blocks_chain in En as (c & Hc & Hch); [|unfold blen; cbn [length]; lia].
      change (take (N.to_nat 2) (MediaGif.EXTENSION :: label :: r)) with [0x21%N; label] in Hc.
      destruct (get_front _ _ _ Hc) as [Hr _]. unfold index in Hb. rewrite Hc in Hb. cbn [rbind] in Hb.
      assert (rest' = skip n (MediaGif.EXTENSION :: label :: r)) as Er by (destruct (_ || _) in Hb; by injection Hb).
      rewrite <- Er in *. change MediaGif.EXTENSION with 0x21%N in *. cbn [app] in Hr.
      exists (mkPart [0x21%N; label] c (0x21%N :: label :: c) (0x21%N :: label :: c)). cbn [p_read p_copied p_tag p_data].
      split_and!; [split_and!; [done|done|left; eauto]|done|]. cbn [metadata].
      rewrite Hr, (xmp_named _ _ _ _ (chain_nonempty _ Hch) Hq) in Hb. change MediaGif.COMMENT with 0xFE%N in Hb.
      by destruct (_ || _); injection Hb as <- <-.
    + change (MediaGif.IMAGE =? MediaGif.TRAILER)%N with false in Hb.
      change (MediaGif.IMAGE =? MediaGif.EXTENSION)%N with false in Hb. rewrite N.eqb_refl in Hb. cbn iota in Hb.
      destruct (get1 (MediaGif.IMAGE :: t) 9) as [packed|] eqn:H9; [|done].
      destruct (N.leb_spec (blen (MediaGif.IMAGE :: t)) (10 + color_table packed)) as [|Hl]; [done|].
      destruct (MediaGif.end_of_sub_blocks _ _) as [n|] eqn:En; [|done]. cbn [rbind] in Hb.
      apply MediaGif.end_of_sub_blocks_chain in En as (c & Hc & Hch); [|lia].
      destruct (get_front _ _ _ Hc) as [Hr _]. unfold index in Hb. rewrite Hc in Hb. injection Hb as <- <- _.
      set (pre := take _ (MediaGif.IMAGE :: t)) in *.
      destruct (image_block pre packed) as (place & table & lzw & Ep & H1 & H2).
      { unfold pre, blen in *. rewrite length_take. lia. }
      { unfold pre, get1. by rewrite lookup_take_lt by lia. }
      { unfold pre, get1 in *. by rewrite lookup_take_lt by lia. }
      exists (mkPart [0x2C%N] (place ++ packed :: table ++ lzw :: c) (pre ++ c) (pre ++ c)). cbn [p_read p_copied p_tag p_data].
      split_and!; [|done|done]. split_and!; [done| |right; split; [done|]; by exists place, packed, table, lzw, c].
      rewrite Ep. cbn [app]. by rewrite <- (assoc_L (++)), <- app_comm_cons, <- (assoc_L (++)).
  - intros rest o rm H%MediaGif.gif_body_seen. inversion H as [t Ht| |]; subst. split; [done|by exists t].
Qed.

(** * Properties *)

(** Cleaning any bytes at all neither panics nor runs for ever: it gives
    a cleaned file or one of the errors, [Empty] exactly for no bytes and
    [Unsupported] exactly for bytes of none of the four formats. *)
Theorem strip_returns (b : bytes) :
  ((∃ s, strip b = Ok s) ∨ (∃ e, strip b = Err (Returned e)))
  ∧ (strip b = Err (Returned Empty) ↔ b = [])
  ∧ (strip b = Err (Returned Unsupported) ↔ b ≠ [] ∧ detect b = None).
Proof.
  destruct (strip b) as [s|x] eqn:E.
  - destruct (strip_Ok b s E) as [[Hd _]|[[Hd _]|[[Hd _]|[Hd _]]]]; split_and!; try naive_solver.
    all: split; [done|]; intros ->; by destruct (strip_nonempty [] s E).
  - destruct (strip_fails b x E) as (e & -> & H1 & H2). split_and!; naive_solver.
Qed.

(** Cleaning what was cleaned finds nothing to remove and changes nothing. (A PNG
    or WebP of which no chunk was kept has no image, and is refused.) *)
Lemma strip_again (b : bytes) (s : Stripped) :
  strip b = Ok s →
  (match kind s with Png => 8 | WebP => 12 | _ => 0 end < blen (s_bytes s))%N →
  strip (s_bytes s) = Ok (mkStripped (kind s) (s_bytes s) []).
Proof.
  intros [[Hd H]|[[Hd H]|[[Hd H]|[Hd H]]]]%strip_Ok Hl.
  - by eapply jpeg_again.
  - pose proof (png_shape _ _ Hd H) as (? & ? & ? & _ & _ & E). rewrite E in Hl. eapply png_again; [done..|]. by rewrite E.
  - by eapply gif_again.
  - pose proof (webp_shape _ _ H) as (? & ? & _ & _ & E). rewrite E in Hl. eapply webp_again; [done|]. by rewrite E.
Qed.


(** Nothing is invented and nothing is lost unsaid.  The output and the
    bytes reported as removed make up the input, exactly but for the fill bytes
    a JPEG may have; and, but for the flags and lengths WebP rewrites, the
    output is made of bytes of the input in their order. *)
Theorem strip_accounts (b : bytes) (s : Stripped) :
  strip b = Ok s →
  (blen (s_bytes s) + removed_bytes s <= blen b)%N
  ∧ (kind s ≠ Jpeg → blen (s_bytes s) + removed_bytes s = blen b)%N
  ∧ (kind s ≠ WebP → s_bytes s `sublist_of` b).
Proof.
  intros [[Hd H]|[[Hd H]|[[Hd H]|[Hd H]]]]%strip_Ok.
  - destruct (jpeg_shape _ _ Hd H) as (rest & out & rm & -> & Hw & ->). unfold removed_bytes. simpl.
    pose proof (walk_accounted _ true _ _ _ Hw) as [H1 _]. pose proof (walk_verbatim _ _ _ _ Hw).
    change (255%N :: 216%N :: out) with ([255; 216]%N ++ out).
    change (255%N :: 216%N :: rest) with ([255; 216]%N ++ rest). rewrite !blen_app.
    split_and!; [lia|done|]. intros _. by apply sublist_app.
  - destruct (png_shape _ _ Hd H) as (rest & out & rm & -> & Hw & ->). unfold removed_bytes. cbn [s_bytes removed kind].
    pose proof (walk_accounted _ false _ _ _ Hw) as [H1 H2]. pose proof (walk_verbatim _ _ _ _ Hw).
    rewrite !blen_app. specialize (H2 eq_refl). split_and!; [lia..|]. intros _. by apply sublist_app.
  - destruct (gif_shape _ _ H) as (x & h & rest & out & rm & _ & _ & -> & Hw & ->). unfold removed_bytes.
    cbn [s_bytes removed kind].
    pose proof (walk_accounted _ false _ _ _ Hw) as [H1 H2]. pose proof (walk_verbatim _ _ _ _ Hw).
    rewrite !blen_app. specialize (H2 eq_refl). split_and!; [lia..|]. intros _. by apply sublist_app.
  - destruct (webp_shape _ _ H) as (out & rm & Hl & Hw & ->). unfold removed_bytes. cbn [s_bytes removed kind].
    pose proof (walk_accounted _ false _ _ _ Hw) as [H1 H2]. specialize (H2 eq_refl).
    rewrite blen_skip in H1, H2 by lia. unfold MediaWebp.HEADER in *. rewrite !blen_app.
    change (blen (lit "RIFF")) with 4%N. change (blen (lit "WEBP")) with 4%N.
    change (blen (to_le32 (blen out + 4))) with 4%N. split_and!; [lia..|done].
Qed.

Lemma le_to_le32 n : (n < 2 ^ 32)%N → le (to_le32 n) = n.
Proof.
  intros Hn. unfold le, to_le32, be. simpl.
  pose proof (N.div_mod n 256 ltac:(lia)) as E1.
  pose proof (N.div_mod (n / 256) 256 ltac:(lia)) as E2.
  pose proof (N.div_mod (n / 65536) 256 ltac:(lia)) as E3.
  assert (n / 65536 = n / 256 / 256)%N as F1 by (by rewrite N.Div0.div_div).
  assert (n / 16777216 = n / 65536 / 256)%N as F2 by (by rewrite N.Div0.div_div).
  assert (n / 16777216 < 256)%N as F3 by (apply N.Div0.div_lt_upper_bound; lia).
  rewrite (N.mod_small (n / 16777216)) by done. rewrite F2 in *. rewrite F1 in *.
  generalize dependent (n mod 256)%N. generalize dependent ((n / 256) mod 256)%N.
  generalize dependent ((n / 256 / 256) mod 256)%N. intros. lia.
Qed.

(** A cleaned WebP announces the length it has: its second field counts
    what follows it, whatever the input's field said. *)
Theorem webp_length_rebuilt (b : bytes) (s : Stripped) :
  strip b = Ok s → kind s = WebP → (blen b < 2 ^ 32)%N →
  (8 <= blen (s_bytes s))%N ∧ le <$> get (s_bytes s) 4 4 = Some (blen (s_bytes s) - 8)%N.
Proof.
  intros [[Hd H]|[[Hd H]|[[Hd H]|[Hd H]]]]%strip_Ok Hk Hb.
  - pose proof (jpeg_shape _ _ Hd H) as (? & ? & ? & _ & _ & E). by rewrite E in Hk.
  - pose proof (png_shape _ _ Hd H) as (? & ? & ? & _ & _ & E). by rewrite E in Hk.
  - pose proof (gif_shape _ _ H) as (? & ? & ? & ? & ? & _ & _ & _ & _ & E). by rewrite E in Hk.
  - destruct (webp_shape _ _ H) as (out & rm & Hl & Hw & ->). cbn [s_bytes].
    pose proof (walk_accounted _ false _ _ _ Hw) as [H1 _]. rewrite blen_skip in H1 by lia.
    unfold MediaWebp.HEADER in *.
    set (n := (blen out + 4)%N).
    assert (blen (lit "RIFF" ++ to_le32 n ++ lit "WEBP" ++ out) = blen out + 12)%N as El.
    { rewrite !blen_app. change (blen (lit "RIFF")) with 4%N. change (blen (lit "WEBP")) with 4%N.
      change (blen (to_le32 n)) with 4%N. lia. }
    rewrite El. split; [lia|]. unfold get. rewrite El.
    destruct (N.leb_spec (4 + 4) (blen out + 12)); [|lia].
    change (take _ _) with (to_le32 n). simpl. rewrite le_to_le32 by (unfold n; lia). f_equal. unfold n. lia.
Qed.

(** ** Data after the end of the image *)

(** A JPEG of one empty scan, and a PNG of its end marker alone. *)
Definition jpeg_min : bytes := [0xFF; 0xD8; 0xFF; 0xDA; 0x00; 0x02; 0xFF; 0xD9]%N.
Definition png_min : bytes := PNG_SIGNATURE ++ [0; 0; 0; 0]%N ++ lit "IEND" ++ [0xAE; 0x42; 0x60; 0x82]%N.

(** What follows the end of the image is dropped from a PNG and reported,
    but kept in a JPEG and not reported: whatever is appended there (a second
    picture with its own EXIF, say) is sent. *)
Theorem appended_data (t : bytes) :
  t ≠ [] →
  strip (jpeg_min ++ t) = Ok (mkStripped Jpeg (jpeg_min ++ t) [])
  ∧ strip (png_min ++ t)
    = Ok (mkStripped Png png_min [mkRemoved (lit "data after the end of the image") (blen t)]).
Proof.
  intros Ht. split.
  - rewrite (strip_detected _ Jpeg) by done. unfold MediaJpeg.strip, index.
    change (jpeg_min ++ t) with ([0xFF; 0xD8]%N ++ (0xFF :: 0xDA :: [0; 2] ++ [0xFF; 0xD9] ++ t)%N).
    rewrite get_app_exact, skip_app_exact by done. cbn [rbind]. rewrite (walk_unfold MediaJpeg.body).
    rewrite MediaJpeg.body_unfold by done. change (is_standalone 218) with false. cbn iota.
    rewrite get_app_exact by done. cbn [fmap option_fmap option_map].
    change (be [0; 2]%N <? 2)%N with false. cbn iota.
    assert (get ([0; 2] ++ [255; 217] ++ t)%N 2 (be [0; 2]%N - 2) = Some []) as ->; [|done].
    unfold get. rewrite blen_app. change (blen [0; 2]%N) with 2%N. change (be [0; 2]%N - 2)%N with 0%N.
    by destruct (N.leb_spec (2 + 0) (2 + blen ([255; 217]%N ++ t))); [|lia].
  - assert (strip (png_min ++ t) = MediaPng.strip (png_min ++ t)) as -> by done.
    unfold MediaPng.strip, index, png_min. rewrite <- (assoc_L (++)).
    rewrite get_app_exact, skip_app_exact by done. cbn [rbind].
    set (c := [0; 0; 0; 0]%N ++ lit "IEND" ++ [0xAE; 0x42; 0x60; 0x82]%N).
    rewrite (blen_app PNG_SIGNATURE).
    destruct (N.leb_spec (blen PNG_SIGNATURE + blen (c ++ t)) SIGNATURE) as [Hl|_].
    { rewrite blen_app in Hl. change (blen PNG_SIGNATURE) with 8%N in Hl. change (blen c) with 12%N in Hl.
      unfold SIGNATURE in Hl. lia. }
    rewrite (walk_unfold MediaPng.body).
    rewrite (MediaPng.body_replay c 0 (lit "IEND") c t) by done.
    rewrite bool_decide_true by done. destruct t; done.
Qed.

(** * Witnesses *)

Definition chunk (k d : bytes) : bytes := [0; 0; 0; N.of_nat (length d)]%N ++ k ++ d ++ [1; 2; 3; 4]%N.
Definition photo_png : bytes :=
  PNG_SIGNATURE ++ chunk (lit "IHDR") [7]%N ++ chunk (lit "eXIf") (lit "GPS") ++ chunk (lit "IEND") [] ++ lit "tail".
Definition photo_webp : bytes :=
  lit "RIFF" ++ [0; 0; 0; 0]%N ++ lit "WEBP" ++ lit "VP8X" ++ [1; 0; 0; 0; 12; 0]%N
  ++ lit "EXIF" ++ [3; 0; 0; 0]%N ++ lit "GPS" ++ [0]%N.

Definition clean_png : Stripped :=
  mkStripped Png (PNG_SIGNATURE ++ chunk (lit "IHDR") [7]%N ++ chunk (lit "IEND") [])
    [mkRemoved (lit "EXIF") 15; mkRemoved (lit "data after the end of the image") 4].
Definition clean_webp : Stripped :=
  mkStripped WebP (lit "RIFF" ++ [14; 0; 0; 0]%N ++ lit "WEBP" ++ lit "VP8X" ++ [1; 0; 0; 0; 0; 0]%N)
    [mkRemoved (lit "EXIF") 12].

(** A JPEG with EXIF between its header and its scan. *)
Definition photo_jpeg : bytes :=
  [0xFF; 0xD8; 0xFF; 0xE0; 0x00; 0x07]%N ++ lit "JFIF" ++ [0]%N
  ++ [0xFF; 0xFF; 0xE1; 0x00; 0x0B]%N ++ lit "Exif" ++ [0; 0]%N ++ lit "GPS" ++ [0xFF; 0xDA; 0x00; 0x02; 0xFF; 0xD9]%N.
Example photo_jpeg_clean :
  strip photo_jpeg = Ok (mkStripped Jpeg
    ([0xFF; 0xD8; 0xFF; 0xE0; 0x00; 0x07]%N ++ lit "JFIF" ++ [0]%N ++ [0xFF; 0xDA; 0x00; 0x02; 0xFF; 0xD9]%N)
    [mkRemoved (lit "EXIF") 13]).
Proof. vm_compute. reflexivity. Qed.


Lemma strip_accounts_witness :
  s_bytes clean_png `sublist_of` photo_png ∧ (blen (s_bytes clean_png) + removed_bytes clean_png = blen photo_png)%N.
Proof.
  destruct (strip_accounts photo_png clean_png ltac:(vm_compute; reflexivity)) as (_ & H1 & H2).
  split; [apply H2; discriminate|apply H1; discriminate].
Defined.

Lemma webp_length_rebuilt_witness :
  (8 <= blen (s_bytes clean_webp))%N ∧ le <$> get (s_bytes clean_webp) 4 4 = Some 14%N.
Proof.
  exact (webp_length_rebuilt photo_webp clean_webp ltac:(vm_compute; reflexivity) eq_refl ltac:(vm_compute; reflexivity)).
Defined.

Lemma appended_data_witness :
  strip (jpeg_min ++ lit "Exif") = Ok (mkStripped Jpeg (jpeg_min ++ lit "Exif") []).
Proof. exact (proj1 (appended_data (lit "Exif") ltac:(discriminate))). Defined.
