(* ===== verification/ISupport.v ===== *)
(** RPL_ISUPPORT: what a server says of itself
    ([ddirc-core/src/state/isupport.rs]). *)
From S2P Require Import Prelude RustStr.

(** * Case mapping *)

Inductive CaseMapping := Ascii | Rfc1459 | Rfc1459Strict.
Definition default_casemapping : CaseMapping := Rfc1459.

#[export] Instance CaseMapping_eq_dec : EqDecision CaseMapping.
Proof. solve_decision. Defined.

Definition from_token (token : str) : option CaseMapping :=
  let t := to_ascii_lowercase token in
  if bool_decide (t = lit "ascii") then Some Ascii
  else if bool_decide (t = lit "rfc1459") then Some Rfc1459
  else if bool_decide (t = lit "rfc1459-strict") || bool_decide (t = lit "strict-rfc1459")
  then Some Rfc1459Strict
  else None.

(** The [match] of [normalize], arm by arm. *)
Definition normalize_char (m : CaseMapping) (c : char) : char :=
  let rfc := match m with Ascii => false | _ => true end in
  if is_ascii_uppercase c then char_lower c
  else if rfc && (c =? 0x5B)%N then 0x7B%N
  else if rfc && (c =? 0x5D)%N then 0x7D%N
  else if rfc && (c =? 0x5C)%N then 0x7C%N
  else if (match m with Rfc1459 => true | _ => false end) && (c =? 0x7E)%N then 0x5E%N
  else c.

Definition normalize (m : CaseMapping) (name : str) : str := map (normalize_char m) name.

Definition name_eq (m : CaseMapping) (a b : str) : bool :=
  bool_decide (normalize m a = normalize m b).

(** * Prefixes *)

Record Prefixes := mkPrefixes { pairs : list (char * char) }.
Definition default_prefixes : Prefixes := mkPrefixes [(ch "o", ch "@"); (ch "v", ch "+")].

Definition prefixes_parse (spec : str) : option Prefixes :=
  let spec := trim spec in
  if is_empty spec then Some (mkPrefixes [])
  else
    match strip_prefix (lit "(") spec with
    | None => None
    | Some rest =>
        match split_once (ch ")") rest with
        | None => None
        | Some (modes, prefixes) =>
            if negb (Nat.eqb (length modes) (length prefixes)) then None
            else Some (mkPrefixes (zip modes prefixes))
        end
    end.

Definition prefix_for_mode (p : Prefixes) (mode : char) : option char :=
  snd <$> List.find (λ mp, (mp.1 =? mode)%N) (pairs p).
Definition is_prefix_mode (p : Prefixes) (mode : char) : bool :=
  existsb (λ mp, (mp.1 =? mode)%N) (pairs p).
Definition is_prefix_char (p : Prefixes) (c : char) : bool :=
  existsb (λ mp, (mp.2 =? c)%N) (pairs p).

(** [Iterator::position]. *)
Fixpoint position {A} (f : A → bool) (l : list A) : option nat :=
  match l with
  | [] => None
  | x :: l => if f x then Some 0 else S <$> position f l
  end.

Definition rank (p : Prefixes) (prefix : char) : option nat :=
  position (λ mp, (mp.2 =? prefix)%N) (pairs p).

(** [rank(c).unwrap_or(usize::MAX)]; [None] is the largest key. *)
Definition rank_le (p : Prefixes) (a b : char) : bool :=
  match rank p a, rank p b with
  | Some i, Some j => Nat.leb i j
  | Some _, None => true
  | None, None => true
  | None, Some _ => false
  end.

(** [min_by_key], which keeps the first of equal elements. *)
Fixpoint min_by (le : char → char → bool) (l : list char) : option char :=
  match l with
  | [] => None
  | x :: l => match min_by le l with
              | None => Some x
              | Some y => if le x y then Some x else Some y
              end
  end.

Definition highest (p : Prefixes) (held : list char) : option char :=
  min_by (rank_le p) (List.filter (is_prefix_char p) held).

Definition split_prefixes (p : Prefixes) (name : str) : list char * str :=
  (take_while (is_prefix_char p) name, drop_while (is_prefix_char p) name).

(** * Channel modes *)

Record ChanModes := mkChanModes {
  list_modes : str;
  always_param : str;
  param_when_set : str;
  no_param : str;
}.
Definition default_chanmodes : ChanModes :=
  mkChanModes (lit "beI") (lit "k") (lit "l") (lit "imnpstr").

Definition chanmodes_parse (spec : str) : option ChanModes :=
  match split (ch ",") spec with
  | a :: b :: c :: d :: _ => Some (mkChanModes a b c d)
  | _ => None
  end.

Definition takes_parameter (m : ChanModes) (mode : char) (adding : bool) : bool :=
  if contains_char mode (list_modes m) || contains_char mode (always_param m) then true
  else if contains_char mode (param_when_set m) then adding
  else false.

Definition is_known (m : ChanModes) (mode : char) : bool :=
  contains_char mode (list_modes m) || contains_char mode (always_param m)
  || contains_char mode (param_when_set m) || contains_char mode (no_param m).

(** * The settings *)

Record ISupport := mkISupport {
  casemapping : CaseMapping;
  prefixes : Prefixes;
  chanmodes : ChanModes;
  network : option str;
  channel_len : option N;
  nick_len : option N;
}.
Definition default_isupport : ISupport :=
  mkISupport default_casemapping default_prefixes default_chanmodes None None None.

Definition set_casemapping x (s : ISupport) := mkISupport x (prefixes s) (chanmodes s) (network s) (channel_len s) (nick_len s).
Definition set_prefixes x (s : ISupport) := mkISupport (casemapping s) x (chanmodes s) (network s) (channel_len s) (nick_len s).
Definition set_chanmodes x (s : ISupport) := mkISupport (casemapping s) (prefixes s) x (network s) (channel_len s) (nick_len s).
Definition set_network x (s : ISupport) := mkISupport (casemapping s) (prefixes s) (chanmodes s) x (channel_len s) (nick_len s).
Definition set_channel_len x (s : ISupport) := mkISupport (casemapping s) (prefixes s) (chanmodes s) (network s) x (nick_len s).
Definition set_nick_len x (s : ISupport) := mkISupport (casemapping s) (prefixes s) (chanmodes s) (network s) (channel_len s) x.

Definition reset (key : str) (s : ISupport) : ISupport :=
  let k := to_ascii_uppercase key in
  if bool_decide (k = lit "PREFIX") then set_prefixes default_prefixes s
  else if bool_decide (k = lit "CHANMODES") then set_chanmodes default_chanmodes s
  else if bool_decide (k = lit "CASEMAPPING") then set_casemapping default_casemapping s
  else if bool_decide (k = lit "NETWORK") then set_network None s
  else if bool_decide (k = lit "CHANNELLEN") then set_channel_len None s
  else if bool_decide (k = lit "NICKLEN") then set_nick_len None s
  else s.

(** The [match] on the key of [apply]. *)
Definition set_token (key : str) (value : option str) (s : ISupport) : ISupport :=
  let k := to_ascii_uppercase key in
  if bool_decide (k = lit "PREFIX") then
    match value ≫= prefixes_parse with Some p => set_prefixes p s | None => s end
  else if bool_decide (k = lit "CHANMODES") then
    match value ≫= chanmodes_parse with Some c => set_chanmodes c s | None => s end
  else if bool_decide (k = lit "CASEMAPPING") then
    match value ≫= from_token with Some m => set_casemapping m s | None => s end
  else if bool_decide (k = lit "NETWORK") then set_network value s
  else if bool_decide (k = lit "CHANNELLEN") then set_channel_len (value ≫= parse_unsigned u64_max) s
  else if bool_decide (k = lit "NICKLEN") then set_nick_len (value ≫= parse_unsigned u64_max) s
  else s.

(** One pass of the loop of [apply]. *)
Definition apply_token (s : ISupport) (token : str) : ISupport :=
  if contains_char 32%N token then s
  else
    let '(key, value) := match split_once (ch "=") token with
                         | Some (k, v) => (k, Some v)
                         | None => (token, None)
                         end in
    match strip_prefix (lit "-") key with
    | Some key => reset key s
    | None => set_token key value s
    end.

Definition apply (tokens : list str) (s : ISupport) : ISupport := foldl apply_token s tokens.

(** * Lemmas *)

(** A character no arm of the [match] changes. *)
Definition settled (m : CaseMapping) (c : char) : Prop :=
  is_ascii_uppercase c = false
  ∧ (m ≠ Ascii → c ≠ 0x5B%N ∧ c ≠ 0x5D%N ∧ c ≠ 0x5C%N) ∧ (m = Rfc1459 → c ≠ 0x7E%N).

Lemma normalize_char_settled m c : settled m c → normalize_char m c = c.
Proof.
  intros (H1 & H2 & H3). unfold normalize_char. rewrite H1.
  destruct m; cbn [andb]; [done|..]; destruct H2 as (Ha & Hb & Hc); try done;
    apply N.eqb_neq in Ha, Hb, Hc; rewrite Ha, Hb, Hc; [|done].
  specialize (H3 eq_refl). apply N.eqb_neq in H3. by rewrite H3.
Qed.

Lemma settled_normalize m c : settled m (normalize_char m c).
Proof.
  unfold normalize_char. destruct (is_ascii_uppercase c) eqn:Hu.
  - unfold char_lower. rewrite Hu. unfold is_ascii_uppercase in *. bool_simp.
    split; [apply andb_false_iff; right; apply N.leb_gt; lia|]. split; intros _; split_and?; lia.
  - destruct m; cbn [andb]; [by split_and!|..];
      (destruct (N.eqb_spec c 91); [by split_and!|]; destruct (N.eqb_spec c 93); [by split_and!|];
       destruct (N.eqb_spec c 92); [by split_and!|]); [|by split_and!].
    destruct (N.eqb_spec c 126); by split_and!.
Qed.

Lemma normalize_char_idemp m c : normalize_char m (normalize_char m c) = normalize_char m c.
Proof. apply normalize_char_settled, settled_normalize. Qed.

Lemma normalize_idemp m s : normalize m (normalize m s) = normalize m s.
Proof. unfold normalize. rewrite map_map. apply map_ext. intros. apply normalize_char_idemp. Qed.

Lemma normalize_length m s : length (normalize m s) = length s.
Proof. apply length_map. Qed.

Lemma split_prefixes_app p name : (split_prefixes p name).1 ++ (split_prefixes p name).2 = name.
Proof.
  unfold split_prefixes. simpl. induction name as [|c s IH]; simpl; [done|].
  destruct (is_prefix_char p c); simpl; [by rewrite IH|done].
Qed.

Lemma position_Some {A} (f : A → bool) l i :
  position f l = Some i → ∃ x, l !! i = Some x ∧ f x = true ∧ ∀ j y, j < i → l !! j = Some y → f y = false.
Proof.
  revert i. induction l as [|x l IH]; intros i; simpl; [done|]. destruct (f x) eqn:E.
  - intros [= <-]. exists x. split_and!; [done..|]. lia.
  - intros (k & Hk & ->)%fmap_Some. destruct (IH _ Hk) as (y & H1 & H2 & H3).
    exists y. split_and!; [done..|]. intros [|j] z Hj Hz; simpl in *; [by simplify_eq|].
    eapply H3; [|done]. lia.
Qed.

Lemma position_None {A} (f : A → bool) l : position f l = None ↔ existsb f l = false.
Proof.
  induction l as [|x l IH]; simpl; [done|]. destruct (f x); [done|]. rewrite fmap_None. done.
Qed.

Lemma rank_is_Some p c : is_Some (rank p c) ↔ is_prefix_char p c = true.
Proof.
  unfold rank, is_prefix_char. destruct (position _ (pairs p)) eqn:E.
  - split; [|by eauto]. intros _. apply not_false_is_true. intros H%position_None. congruence.
  - apply position_None in E. rewrite E. split; [by intros []|done].
Qed.

Lemma prefix_mode_iff p mode : is_prefix_mode p mode = true ↔ is_Some (prefix_for_mode p mode).
Proof.
  unfold is_prefix_mode, prefix_for_mode. rewrite fmap_is_Some.
  induction (pairs p) as [|mp l IH]; simpl; [split; [done|by intros []]|].
  destruct (mp.1 =? mode)%N; simpl; [split; eauto|]. done.
Qed.
