(* ===== verification/Session.v ===== *)
(** Session state: channels, members, privileges and topics
    ([ddirc-core/src/state/mod.rs]).

    A [HashMap] is a [gmap]; where the source collects from one, the order of
    the result is not determined, and it is the order of [map_to_list] here.
    Operations that answer something return it with the new session.
    [char::to_lowercase] and [char::is_alphanumeric] are Unicode tables, so
    they are parameters of the definitions that use them. *)
From S2P Require Import Prelude RustStr ISupport.

(** * Bounds *)

Definition MAX_CHANNELS : nat := 512.
Definition MAX_MEMBERS : N := 20000.
Definition MAX_TOPIC : nat := 1000.
Definition MAX_NICK : nat := 64.
Definition MAX_CHANNEL_NAME : nat := 200.

Definition truncate (value : str) (max_chars : nat) : str := take max_chars value.
Arguments truncate : simpl never.

(** * Members *)

Record Member := mkMember { m_nick : str; m_prefixes : gset N; m_away : bool }.

Definition new_member (nick : str) : Member := mkMember (truncate nick MAX_NICK) ∅ false.

Definition member_set_nick x (m : Member) := mkMember x (m_prefixes m) (m_away m).
Definition member_set_prefixes x (m : Member) := mkMember (m_nick m) x (m_away m).
Definition member_set_away x (m : Member) := mkMember (m_nick m) (m_prefixes m) x.

Definition display_prefix (p : Prefixes) (m : Member) : option char :=
  highest p (elements (m_prefixes m)).

(** [unwrap_or(usize::MAX).min(0xffff)]. *)
Definition sort_rank (p : Prefixes) (m : Member) : N :=
  match display_prefix p m ≫= rank p with
  | Some r => N.min (N.of_nat r) 0xffff
  | None => 0xffff
  end.

(** [HEX[(rank >> shift) & 0xf]] for each shift. *)
Definition hex4 (r : N) : str :=
  map (λ shift, hex_digit (N.land (N.shiftr r shift) 0xf)) [12; 8; 4; 0]%N.

Section Lowercase.
Context (to_lowercase : char → str).

Definition lowercase (s : str) : str := concat (map to_lowercase s).

Definition sort_key (p : Prefixes) (m : Member) : str :=
  hex4 (sort_rank p m) ++ [1%N] ++ lowercase (m_nick m).
End Lowercase.

(** * Channels *)

Record Channel := mkChannel {
  c_name : str;
  c_topic : option str;
  c_members : gmap str Member;
  c_names_in_progress : bool;
}.

Definition new_channel (name : str) : Channel :=
  mkChannel (truncate name MAX_CHANNEL_NAME) None ∅ false.

Definition set_members (f : gmap str Member → gmap str Member) (c : Channel) : Channel :=
  mkChannel (c_name c) (c_topic c) (f (c_members c)) (c_names_in_progress c).
Definition set_topic t (c : Channel) : Channel :=
  mkChannel (c_name c) t (c_members c) (c_names_in_progress c).
Definition set_in_progress b (c : Channel) : Channel :=
  mkChannel (c_name c) (c_topic c) (c_members c) b.

Definition member_count (c : Channel) : N := N.of_nat (size (c_members c)).

(** The comparator of [sort_by]: the keys, as strings. *)
Definition key_le (a b : str * Member) : Prop := str_le a.1 b.1.
#[export] Instance key_le_dec : RelDecision key_le.
Proof. intros a b. unfold key_le. apply _. Defined.

Definition sorted_members (to_lowercase : char → str) (p : Prefixes) (c : Channel) : list Member :=
  let keyed := map (λ km, (sort_key to_lowercase p km.2, km.2)) (map_to_list (c_members c)) in
  map snd (merge_sort key_le keyed).

(** * The session *)

Record Session := mkSession {
  s_nick : str;
  s_isupport : ISupport;
  s_channels : gmap str Channel;
}.

Definition new_session (nick : str) : Session := mkSession (truncate nick MAX_NICK) default_isupport ∅.

Definition set_channels (f : gmap str Channel → gmap str Channel) (s : Session) : Session :=
  mkSession (s_nick s) (s_isupport s) (f (s_channels s)).
Definition set_nick (nick : str) (s : Session) : Session :=
  mkSession (truncate nick MAX_NICK) (s_isupport s) (s_channels s).

Definition mapping (s : Session) : CaseMapping := casemapping (s_isupport s).
Definition normalize_name (s : Session) (name : str) : str := normalize (mapping s) name.
Definition is_self (s : Session) (nick : str) : bool := name_eq (mapping s) nick (s_nick s).
Definition same_nick (s : Session) (a b : str) : bool := name_eq (mapping s) a b.
Definition channel (s : Session) (name : str) : option Channel := s_channels s !! normalize_name s name.

(** [collect] into a map: later entries replace earlier ones. *)
Definition collect {A} (l : list (str * A)) : gmap str A := foldl (λ m kv, <[kv.1 := kv.2]> m) ∅ l.

Definition rekey_members (m : CaseMapping) (ms : gmap str Member) : gmap str Member :=
  collect (map (λ km, (normalize m (m_nick km.2), km.2)) (map_to_list ms)).

Definition rekey (s : Session) : Session :=
  let m := mapping s in
  set_channels (λ cs,
    collect (map (λ kc, (normalize m (c_name kc.2), set_members (rekey_members m) kc.2))
               (map_to_list cs))) s.

Definition on_isupport (tokens : list str) (s : Session) : Session :=
  let before := mapping s in
  let s := mkSession (s_nick s) (apply tokens (s_isupport s)) (s_channels s) in
  if decide (mapping s = before) then s else rekey s.

(** * Membership *)

(** What follows the creation of the channel in [on_join]. *)
Definition join_member (key member_key nick : str) (s : Session) : bool * Session :=
  match s_channels s !! key with
  | None => (false, s)
  | Some chan =>
      if (MAX_MEMBERS <=? member_count chan)%N && bool_decide (c_members chan !! member_key = None)
      then (false, s)
      else (true, set_channels <[key := set_members <[member_key := new_member nick]> chan]> s)
  end.

Definition on_join (chan nick : str) (s : Session) : bool * Session :=
  let key := normalize_name s chan in
  if bool_decide (s_channels s !! key = None) then
    if negb (is_self s nick) || Nat.leb MAX_CHANNELS (size (s_channels s)) then (false, s)
    else join_member key (normalize_name s nick) nick (set_channels <[key := new_channel chan]> s)
  else join_member key (normalize_name s nick) nick s.

Definition on_part (chan nick : str) (s : Session) : bool * Session :=
  let key := normalize_name s chan in
  if is_self s nick then
    (bool_decide (is_Some (s_channels s !! key)), set_channels (delete key) s)
  else
    let member_key := normalize_name s nick in
    match s_channels s !! key with
    | None => (false, s)
    | Some c => (bool_decide (is_Some (c_members c !! member_key)),
                 set_channels <[key := set_members (delete member_key) c]> s)
    end.

(** [values_mut().filter_map(f).collect()]: [f] changes a channel and answers
    its name, or answers nothing and leaves it. *)
Definition each_channel (f : Channel → option Channel) (s : Session) : list str * Session :=
  (omap (λ kc, c_name <$> f kc.2) (map_to_list (s_channels s)),
   set_channels (fmap (λ c, default c (f c))) s).

Definition on_quit (nick : str) (s : Session) : list str * Session :=
  if is_self s nick then
    (map (λ kc, c_name kc.2) (map_to_list (s_channels s)), set_channels (λ _, ∅) s)
  else
    let member_key := normalize_name s nick in
    each_channel (λ c, if bool_decide (is_Some (c_members c !! member_key))
                       then Some (set_members (delete member_key) c) else None) s.

(** The closure of [on_nick_change]. *)
Definition rename_member (old_key new_key new_display : str) (c : Channel) : option Channel :=
  match c_members c !! old_key with
  | None => None
  | Some m => Some (set_members (λ ms, <[new_key := member_set_nick new_display m]> (delete old_key ms)) c)
  end.

Definition on_nick_change (old new : str) (s : Session) : list str * Session :=
  let s := if is_self s old then set_nick new s else s in
  each_channel
    (rename_member (normalize_name s old) (normalize_name s new) (truncate new MAX_NICK)) s.

(** * Names *)

(** The [for] loop of [on_names_reply] over the entries. *)
Fixpoint names_loop (m : CaseMapping) (p : Prefixes) (entries : list str) (ms : gmap str Member) :
    gmap str Member :=
  match entries with
  | [] => ms
  | entry :: entries =>
      if (MAX_MEMBERS <=? N.of_nat (size ms))%N then ms
      else
        let '(found, nick) := split_prefixes p entry in
        if is_empty nick then names_loop m p entries ms
        else
          let key := normalize m nick in
          let member := default (new_member nick) (ms !! key) in
          let member := member_set_prefixes (m_prefixes member ∪ list_to_set found) member in
          names_loop m p entries (<[key := member]> ms)
  end.

(** What follows the creation of the channel in [on_names_reply]. *)
Definition names_channel (key names : str) (s : Session) : Session :=
  match s_channels s !! key with
  | None => s
  | Some chan =>
      let chan := if c_names_in_progress chan then chan
                  else set_members (λ _, ∅) (set_in_progress true chan) in
      set_channels
        <[key := set_members (names_loop (mapping s) (prefixes (s_isupport s)) (split_whitespace names)) chan]> s
  end.

Definition on_names_reply (chan names : str) (s : Session) : Session :=
  let key := normalize_name s chan in
  if bool_decide (s_channels s !! key = None) then
    if Nat.leb MAX_CHANNELS (size (s_channels s)) then s
    else names_channel key names (set_channels <[key := new_channel chan]> s)
  else names_channel key names s.

Definition on_end_of_names (chan : str) (s : Session) : Session :=
  set_channels (alter (set_in_progress false) (normalize_name s chan)) s.

Definition on_topic (chan topic : str) (s : Session) : Session :=
  set_channels (alter (set_topic (Some (truncate topic MAX_TOPIC))) (normalize_name s chan)) s.

(** * Modes *)

(** Grant or take one privilege, if the target is a member. *)
Definition set_privilege (m : CaseMapping) (adding : bool) (prefix : char) (target : str)
    (ms : gmap str Member) (changed : list str) : gmap str Member * list str :=
  match ms !! normalize m target with
  | None => (ms, changed)
  | Some member =>
      let held := if adding then {[prefix]} ∪ m_prefixes member else m_prefixes member ∖ {[prefix]} in
      (<[normalize m target := member_set_prefixes held member]> ms, changed ++ [m_nick member])
  end.

(** The loop of [on_mode]; [params] is the iterator over the arguments. *)
Fixpoint mode_loop (i : ISupport) (modes : str) (params : list str) (adding : bool)
    (ms : gmap str Member) (changed : list str) : gmap str Member * list str :=
  match modes with
  | [] => (ms, changed)
  | mode :: modes =>
      if (mode =? 0x2B)%N then mode_loop i modes params true ms changed
      else if (mode =? 0x2D)%N then mode_loop i modes params false ms changed
      else if is_prefix_mode (prefixes i) mode then
        match params with
        | [] => (ms, changed)
        | target :: params =>
            match prefix_for_mode (prefixes i) mode with
            | None => mode_loop i modes params adding ms changed
            | Some prefix =>
                let '(ms, changed) := set_privilege (casemapping i) adding prefix target ms changed in
                mode_loop i modes params adding ms changed
            end
        end
      else if takes_parameter (chanmodes i) mode adding then
        match params with
        | [] => (ms, changed)
        | _ :: params => mode_loop i modes params adding ms changed
        end
      else mode_loop i modes params adding ms changed
  end.

Definition on_mode (chan modes : str) (params : list str) (s : Session) : list str * Session :=
  let key := normalize_name s chan in
  match s_channels s !! key with
  | None => ([], s)
  | Some c =>
      let '(ms, changed) := mode_loop (s_isupport s) modes params true (c_members c) [] in
      (changed, set_channels <[key := set_members (λ _, ms) c]> s)
  end.

(** * Presence *)

Definition away_member (key : str) (away : bool) (c : Channel) : option Channel :=
  match c_members c !! key with
  | None => None
  | Some m => if Bool.eqb (m_away m) away then None
              else Some (set_members <[key := member_set_away away m]> c)
  end.

Definition set_away (nick : str) (away : bool) (s : Session) : list str * Session :=
  each_channel (away_member (normalize_name s nick) away) s.

Definition known_nick (nick : str) (s : Session) : option str :=
  m_nick <$> head (omap (λ kc, c_members kc.2 !! normalize_name s nick) (map_to_list (s_channels s))).

(** * Mentions *)

(** [match_indices]: where the pattern occurs, left to right, no two
    occurrences overlapping.  [at] is the position of [hay] in the whole. *)
Fixpoint match_indices (fuel : nat) (needle hay : str) (at_ : nat) : list nat :=
  match fuel with
  | O => []
  | S fuel =>
      match strip_prefix needle hay with
      | Some rest => at_ :: match_indices fuel needle rest (at_ + length needle)
      | None =>
          match hay with
          | [] => []
          | _ :: hay => match_indices fuel needle hay (S at_)
          end
      end
  end.

Section Mention.
Context (is_alphanumeric : char → bool).

Definition is_nick_char (c : char) : bool :=
  is_alphanumeric c || contains_char c (lit "[]\`_^{|}-").

(** [!before.is_some_and(is_nick_char)] and the like. *)
Definition not_nick (o : option char) : bool :=
  match o with Some c => negb (is_nick_char c) | None => true end.

Definition is_mention (text : str) (s : Session) : bool :=
  let haystack := normalize (mapping s) text in
  let needle := normalize (mapping s) (s_nick s) in
  if is_empty needle then false
  else existsb (λ i, not_nick (last (take i haystack)) && not_nick (haystack !! (i + length needle)))
         (match_indices (S (length haystack)) needle haystack 0).
End Mention.
