(* ===== verification/SessionInv.v ===== *)
(** What the session keeps true whatever a server sends: its bounds, and that
    everything is filed under the normalised form of its name. *)
From S2P Require Import Prelude RustStr ISupport Session.

(** * The invariant *)

(** Filed under the normalised form of a name of which at most [max]
    characters are kept for display. *)
Definition filed (m : CaseMapping) (max : nat) (key shown : str) : Prop :=
  ∃ full, key = normalize m full ∧ shown = truncate full max.

Definition member_ok (m : CaseMapping) (key : str) (mem : Member) : Prop :=
  filed m MAX_NICK key (m_nick mem).

Definition members_ok (m : CaseMapping) (ms : gmap str Member) : Prop :=
  (N.of_nat (size ms) <= MAX_MEMBERS)%N ∧ map_Forall (member_ok m) ms.

Definition channel_ok (m : CaseMapping) (key : str) (c : Channel) : Prop :=
  filed m MAX_CHANNEL_NAME key (c_name c)
  ∧ (∀ t, c_topic c = Some t → length t ≤ MAX_TOPIC)
  ∧ members_ok m (c_members c).

Definition session_ok (s : Session) : Prop :=
  length (s_nick s) ≤ MAX_NICK
  ∧ size (s_channels s) ≤ MAX_CHANNELS
  ∧ map_Forall (channel_ok (mapping s)) (s_channels s).

(** * Every operation a server's line leads to *)

Inductive Op :=
  | OpNick (nick : str)
  | OpIsupport (tokens : list str)
  | OpJoin (chan nick : str)
  | OpPart (chan nick : str)
  | OpQuit (nick : str)
  | OpNickChange (old new : str)
  | OpNames (chan names : str)
  | OpEndOfNames (chan : str)
  | OpTopic (chan topic : str)
  | OpMode (chan modes : str) (params : list str)
  | OpAway (nick : str) (away : bool).

Definition run_op (s : Session) (o : Op) : Session :=
  match o with
  | OpNick nick => set_nick nick s
  | OpIsupport tokens => on_isupport tokens s
  | OpJoin chan nick => (on_join chan nick s).2
  | OpPart chan nick => (on_part chan nick s).2
  | OpQuit nick => (on_quit nick s).2
  | OpNickChange old new => (on_nick_change old new s).2
  | OpNames chan names => on_names_reply chan names s
  | OpEndOfNames chan => on_end_of_names chan s
  | OpTopic chan topic => on_topic chan topic s
  | OpMode chan modes params => (on_mode chan modes params s).2
  | OpAway nick away => (set_away nick away s).2
  end.

(** * Lemmas: names and sizes *)

Lemma truncate_length s n : length (truncate s n) ≤ n.
Proof. unfold truncate. rewrite length_take. lia. Qed.

Lemma truncate_id s n : length s ≤ n → truncate s n = s.
Proof. intros. by apply take_ge. Qed.

Lemma filed_self m max s : filed m max (normalize m s) (truncate s max).
Proof. by exists s. Qed.

Lemma filed_shown m m' max key shown : filed m max key shown → filed m' max (normalize m' shown) shown.
Proof.
  intros (full & _ & ->). exists (truncate full max). split; [done|].
  symmetry. apply truncate_id, truncate_length.
Qed.

Lemma size_insert_le {A} (m : gmap str A) k x : size (<[k := x]> m) ≤ S (size m).
Proof. rewrite map_size_insert. unfold id. case_match; lia. Qed.

Lemma size_insert_present {A} (m : gmap str A) k x : is_Some (m !! k) → size (<[k := x]> m) = size m.
Proof. intros H. rewrite map_size_insert. destruct H as [? ->]. done. Qed.

Lemma size_delete_le {A} (m : gmap str A) k : size (delete k m) ≤ size m.
Proof. rewrite map_size_delete. unfold id. case_match; lia. Qed.

Lemma collect_lookup {A} (l : list (str * A)) k v : collect l !! k = Some v → (k, v) ∈ l.
Proof.
  unfold collect. induction l as [|[k' v'] l IH] using rev_ind; [simpl; by rewrite lookup_empty|].
  rewrite foldl_snoc. simpl. rewrite elem_of_app, list_elem_of_singleton.
  intros [[-> ->]|[_ H]]%lookup_insert_Some; [by right|left; by apply IH].
Qed.

Lemma collect_size {A} (l : list (str * A)) : size (collect l) ≤ length l.
Proof.
  unfold collect. induction l as [|[k v] l IH] using rev_ind; [done|].
  rewrite foldl_snoc, length_app. simpl. etrans; [apply size_insert_le|]. lia.
Qed.

(** * Lemmas: the members of one channel *)

Lemma members_ok_empty m : members_ok m ∅.
Proof. split; [by rewrite map_size_empty|apply map_Forall_empty]. Qed.

Lemma members_ok_delete m k ms : members_ok m ms → members_ok m (delete k ms).
Proof.
  intros [H1 H2]. split; [|by apply map_Forall_delete]. pose proof (size_delete_le ms k). lia.
Qed.

Lemma members_ok_insert m k mem ms :
  members_ok m ms → member_ok m k mem →
  (is_Some (ms !! k) ∨ N.of_nat (size ms) < MAX_MEMBERS)%N → members_ok m (<[k := mem]> ms).
Proof.
  intros [H1 H2] Hm Hs. split; [|by apply map_Forall_insert_2].
  destruct Hs as [Hs|Hs]; [by rewrite size_insert_present|].
  pose proof (size_insert_le ms k mem). lia.
Qed.

Lemma members_ok_update m k mem mem' ms :
  members_ok m ms → ms !! k = Some mem → m_nick mem' = m_nick mem → members_ok m (<[k := mem']> ms).
Proof.
  intros Hm Hk Hn. apply members_ok_insert; [done| |left; eauto].
  unfold member_ok. rewrite Hn. destruct Hm as [_ Hm]. by apply (Hm k mem).
Qed.

Lemma members_ok_rename m old new mem ms :
  members_ok m ms → ms !! old = Some mem →
  members_ok m (<[normalize m new := member_set_nick (truncate new MAX_NICK) mem]> (delete old ms)).
Proof.
  intros Hm Ho. destruct Hm as [H1 H2]. split.
  - pose proof (size_insert_le (delete old ms) (normalize m new) (member_set_nick (truncate new MAX_NICK) mem)) as Hs.
    rewrite map_size_delete_Some in Hs by eauto.
    assert (size ms ≠ 0); [|lia]. intros E%map_size_empty_inv. rewrite E in Ho. by rewrite lookup_empty in Ho.
  - apply map_Forall_insert_2; [apply filed_self|]. by apply map_Forall_delete.
Qed.

Lemma rekey_members_ok m m' ms : members_ok m ms → members_ok m' (rekey_members m' ms).
Proof.
  intros [H1 H2]. unfold rekey_members. split.
  - etrans; [|exact H1]. pose proof (collect_size (map (λ km, (normalize m' (m_nick km.2), km.2)) (map_to_list ms))) as Hs.
    rewrite length_map, length_map_to_list in Hs. lia.
  - intros k mem Hk%collect_lookup. apply list_elem_of_fmap in Hk as ([k' mem'] & [= -> ->] & Hin).
    apply elem_of_map_to_list in Hin. eapply filed_shown. by apply H2.
Qed.

Lemma names_loop_ok m p entries ms : members_ok m ms → members_ok m (names_loop m p entries ms).
Proof.
  revert ms. induction entries as [|e l IH]; intros ms Hm; simpl; [done|].
  destruct (N.leb_spec MAX_MEMBERS (N.of_nat (size ms))); [done|].
  destruct (is_empty _); [by apply IH|]. apply IH.
  apply members_ok_insert; [done| |by right].
  destruct (ms !! _) as [mem|] eqn:E; simpl; [|apply filed_self].
  destruct Hm as [_ Hm]. exact (Hm _ _ E).
Qed.

Lemma set_privilege_ok m adding prefix target ms changed :
  members_ok m ms → members_ok m (set_privilege m adding prefix target ms changed).1.
Proof.
  intros Hm. unfold set_privilege. destruct (ms !! normalize m target) as [mem|] eqn:E; [|done].
  by eapply members_ok_update.
Qed.

Lemma mode_loop_ok i modes params adding ms changed :
  members_ok (casemapping i) ms →
  members_ok (casemapping i) (mode_loop i modes params adding ms changed).1.
Proof.
  revert params adding ms changed. induction modes as [|mode modes IH]; intros params adding ms changed Hm;
    simpl; [done|].
  destruct (_ =? _)%N; [by apply IH|]. destruct (_ =? _)%N; [by apply IH|].
  destruct (is_prefix_mode _ _).
  - destruct params as [|target params]; [done|]. destruct (prefix_for_mode _ _) as [pc|]; [|by apply IH].
    pose proof (set_privilege_ok (casemapping i) adding pc target ms changed Hm).
    destruct (set_privilege _ _ _ _ _ _) as [ms' ch']. by apply IH.
  - destruct (takes_parameter _ _ _); [|by apply IH]. destruct params; [done|by apply IH].
Qed.

(** * Lemmas: the channels *)

Lemma channel_ok_members m k c f :
  channel_ok m k c → members_ok m (f (c_members c)) → channel_ok m k (set_members f c).
Proof. intros (H1 & H2 & _) H. done. Qed.

Lemma new_channel_ok m name : channel_ok m (normalize m name) (new_channel name).
Proof. split_and!; [apply filed_self|done|apply members_ok_empty]. Qed.

Lemma session_ok_set s f :
  session_ok s → size (f (s_channels s)) ≤ MAX_CHANNELS →
  map_Forall (channel_ok (mapping s)) (f (s_channels s)) → session_ok (set_channels f s).
Proof. by intros (H1 & _ & _) H2 H3. Qed.

(** Changing a channel that is there. *)
Lemma session_ok_update s k c c' :
  session_ok s → s_channels s !! k = Some c → channel_ok (mapping s) k c' →
  session_ok (set_channels <[k := c']> s).
Proof.
  intros Hs Hk Hc. pose proof Hs as (_ & H2 & H3). apply session_ok_set; [done|..].
  - by rewrite size_insert_present by eauto.
  - by apply map_Forall_insert_2.
Qed.

Lemma session_ok_new s name :
  session_ok s → size (s_channels s) < MAX_CHANNELS →
  session_ok (set_channels <[normalize_name s name := new_channel name]> s).
Proof.
  intros Hs Hl. pose proof Hs as (_ & _ & H3). apply session_ok_set; [done|..].
  - pose proof (size_insert_le (s_channels s) (normalize_name s name) (new_channel name)). lia.
  - apply map_Forall_insert_2; [apply new_channel_ok|done].
Qed.

Lemma session_ok_alter s k f :
  session_ok s → (∀ c, channel_ok (mapping s) k c → channel_ok (mapping s) k (f c)) →
  session_ok (set_channels (alter f k) s).
Proof.
  intros Hs Hf. pose proof Hs as (_ & H2 & H3). apply session_ok_set; [done|..].
  - rewrite <- size_dom, (dom_alter_L (D := gset str)), size_dom. done.
  - intros k' c' [(-> & c & Hc & ->)|[Hk Hc]]%lookup_alter_Some; [apply Hf|]; by apply H3.
Qed.

Lemma each_channel_ok s f :
  session_ok s → (∀ k c c', channel_ok (mapping s) k c → f c = Some c' → channel_ok (mapping s) k c') →
  session_ok (each_channel f s).2.
Proof.
  intros Hs Hf. pose proof Hs as (_ & H2 & H3). apply session_ok_set; [done|..].
  - by rewrite map_size_fmap.
  - intros k c' (c & <- & Hc)%lookup_fmap_Some. apply H3 in Hc.
    destruct (f c) as [c'|] eqn:E; simpl; [by eapply Hf|done].
Qed.
