(* ===== verification/SessionProps.v ===== *)
(** Properties of the session. *)
From S2P Require Import Prelude RustStr ISupport Session SessionInv.

(** * Lemmas: every operation keeps the invariant *)

Lemma join_member_ok key nick s :
  session_ok s → session_ok (join_member key (normalize_name s nick) nick s).2.
Proof.
  intros Hs. unfold join_member. destruct (s_channels s !! key) as [c|] eqn:E; [|done].
  pose proof Hs as (_ & _ & H3). pose proof (H3 _ _ E) as Hc.
  destruct (_ && _) eqn:Hg; [done|]. eapply session_ok_update; [done..|].
  apply channel_ok_members; [done|]. destruct Hc as (_ & _ & Hm).
  apply members_ok_insert; [done|apply filed_self|].
  apply andb_false_iff in Hg as [Hg|Hg].
  - apply N.leb_gt in Hg. by right.
  - apply bool_decide_eq_false in Hg. left. by apply not_eq_None_Some.
Qed.

Lemma on_join_ok chan nick s : session_ok s → session_ok (on_join chan nick s).2.
Proof.
  intros Hs. unfold on_join. case_bool_decide; [|by apply join_member_ok].
  destruct (_ || _) eqn:E; [done|]. apply orb_false_iff in E as [_ E%Nat.leb_gt].
  apply (join_member_ok _ nick (set_channels <[normalize_name s chan := new_channel chan]> s)).
  by apply session_ok_new.
Qed.

Lemma on_part_ok chan nick s : session_ok s → session_ok (on_part chan nick s).2.
Proof.
  intros Hs. pose proof Hs as (_ & H2 & H3). unfold on_part. destruct (is_self s nick).
  - apply session_ok_set; [done| |by apply map_Forall_delete].
    pose proof (size_delete_le (s_channels s) (normalize_name s chan)). lia.
  - destruct (s_channels s !! _) as [c|] eqn:E; [|done]. eapply session_ok_update; [done..|].
    pose proof (H3 _ _ E) as Hc. apply channel_ok_members; [done|]. by apply members_ok_delete, Hc.
Qed.

Lemma on_quit_ok nick s : session_ok s → session_ok (on_quit nick s).2.
Proof.
  intros Hs. unfold on_quit. destruct (is_self s nick).
  - apply session_ok_set; [done|rewrite map_size_empty; lia|apply map_Forall_empty].
  - apply each_channel_ok; [done|]. intros k c c' Hc. case_bool_decide; [|done]. intros [= <-].
    apply channel_ok_members; [done|]. by apply members_ok_delete, Hc.
Qed.

Lemma set_nick_ok nick s : session_ok s → session_ok (set_nick nick s).
Proof. intros (_ & H2 & H3). split_and!; [apply truncate_length|done|done]. Qed.

Lemma on_nick_change_ok old new s : session_ok s → session_ok (on_nick_change old new s).2.
Proof.
  intros Hs. unfold on_nick_change. set (s' := if is_self s old then set_nick new s else s).
  assert (session_ok s') as Hs' by (unfold s'; destruct (is_self s old); [by apply set_nick_ok|done]).
  apply each_channel_ok; [done|]. intros k c c' Hc. unfold rename_member.
  destruct (c_members c !! _) as [m|] eqn:E; [|done]. intros [= <-].
  apply channel_ok_members; [done|]. apply members_ok_rename; [apply Hc|done].
Qed.

Lemma names_channel_ok key names s : session_ok s → session_ok (names_channel key names s).
Proof.
  intros Hs. unfold names_channel. destruct (s_channels s !! key) as [c|] eqn:E; [|done].
  pose proof Hs as (_ & _ & H3). pose proof (H3 _ _ E) as Hc. eapply session_ok_update; [done..|].
  destruct (c_names_in_progress c).
  - apply channel_ok_members; [done|]. by apply names_loop_ok, Hc.
  - apply channel_ok_members; [|apply names_loop_ok, members_ok_empty].
    destruct Hc as (H1 & H2 & _). by split_and!; [..|apply members_ok_empty].
Qed.

Lemma on_names_reply_ok chan names s : session_ok s → session_ok (on_names_reply chan names s).
Proof.
  intros Hs. unfold on_names_reply. case_bool_decide; [|by apply names_channel_ok].
  destruct (Nat.leb_spec MAX_CHANNELS (size (s_channels s))); [done|].
  apply names_channel_ok. by apply session_ok_new.
Qed.

Lemma on_topic_ok chan topic s : session_ok s → session_ok (on_topic chan topic s).
Proof.
  intros Hs. apply session_ok_alter; [done|]. intros c (H1 & _ & H3). split_and!; [done| |done].
  intros t E. assert (t = truncate topic MAX_TOPIC) as -> by (unfold set_topic in E; cbn [c_topic] in E; congruence).
  apply truncate_length.
Qed.

Lemma on_mode_ok chan modes params s : session_ok s → session_ok (on_mode chan modes params s).2.
Proof.
  intros Hs. unfold on_mode. destruct (s_channels s !! _) as [c|] eqn:E; [|done].
  pose proof Hs as (_ & _ & H3). pose proof (H3 _ _ E) as Hc.
  pose proof (mode_loop_ok (s_isupport s) modes params true (c_members c) []) as Hm.
  destruct (mode_loop _ _ _ _ _ _) as [ms changed]. simpl in *.
  eapply session_ok_update; [done..|]. apply channel_ok_members; [done|]. apply Hm, Hc.
Qed.

Lemma set_away_ok nick away s : session_ok s → session_ok (set_away nick away s).2.
Proof.
  intros Hs. apply each_channel_ok; [done|]. intros k c c' Hc. unfold away_member.
  destruct (c_members c !! _) as [m|] eqn:E; [|done]. destruct (Bool.eqb _ _); [done|]. intros [= <-].
  apply channel_ok_members; [done|]. eapply members_ok_update; [apply Hc|done|done].
Qed.

Lemma rekey_ok m s :
  length (s_nick s) ≤ MAX_NICK → size (s_channels s) ≤ MAX_CHANNELS →
  map_Forall (channel_ok m) (s_channels s) → session_ok (rekey s).
Proof.
  intros H1 H2 H3. split_and!; [done|..]; simpl.
  - etrans; [apply collect_size|]. by rewrite length_map, length_map_to_list.
  - intros k c Hk%collect_lookup. apply list_elem_of_fmap in Hk as ([k' c'] & [= -> ->] & Hin).
    apply elem_of_map_to_list in Hin. destruct (H3 _ _ Hin) as (Hf & Ht & Hm).
    split_and!; [by eapply filed_shown|done|by eapply rekey_members_ok].
Qed.

Lemma on_isupport_ok tokens s : session_ok s → session_ok (on_isupport tokens s).
Proof.
  intros (H1 & H2 & H3). unfold on_isupport. destruct (decide _) as [E|_].
  - split_and!; [done|done|]. simpl. by rewrite E.
  - by eapply rekey_ok.
Qed.

Lemma run_op_ok s o : session_ok s → session_ok (run_op s o).
Proof.
  destruct o; cbn [run_op]; auto using set_nick_ok, on_isupport_ok, on_join_ok, on_part_ok, on_quit_ok,
    on_nick_change_ok, on_names_reply_ok, on_topic_ok, on_mode_ok, set_away_ok.
  intros Hs. apply session_ok_alter; [done|]. intros c Hc. exact Hc.
Qed.

(** * Properties *)

(** C32: whatever lines a server sends, in whatever order, the session stays
    within its bounds (channels, members of a channel, lengths of topics, nicks
    and channel names), and every channel and member is filed under the
    normalised form of its name in the mapping now in force. *)
Theorem session_bounded (nick : str) (ops : list Op) :
  session_ok (foldl run_op (new_session nick) ops).
Proof.
  apply foldl_ind.
  - split_and!; [apply truncate_length|simpl; rewrite map_size_empty; lia|apply map_Forall_empty].
  - intros s o _. apply run_op_ok.
Qed.

(** ** Modes *)

(** A mode string read as its changes, each with its direction. *)
Fixpoint directed (adding : bool) (modes : str) : list (bool * char) :=
  match modes with
  | [] => []
  | c :: modes =>
      if (c =? 0x2B)%N then directed true modes
      else if (c =? 0x2D)%N then directed false modes
      else (adding, c) :: directed adding modes
  end.

(** The changes that take an argument, by what the server said of its modes. *)
Definition wants (i : ISupport) (am : bool * char) : bool :=
  is_prefix_mode (prefixes i) am.2 || takes_parameter (chanmodes i) am.2 am.1.

(** Changes and arguments paired off in order. *)
Definition aligned (i : ISupport) (adding : bool) (modes : str) (params : list str) :
    list (bool * char * str) :=
  zip (List.filter (wants i) (directed adding modes)) params.

Definition grant (i : ISupport) (acc : gmap str Member * list str) (x : bool * char * str) :
    gmap str Member * list str :=
  let '(adding, mode, target) := x in
  match prefix_for_mode (prefixes i) mode with
  | Some prefix => set_privilege (casemapping i) adding prefix target acc.1 acc.2
  | None => acc
  end.

Lemma mode_loop_aligned i modes params adding ms changed :
  mode_loop i modes params adding ms changed = foldl (grant i) (ms, changed) (aligned i adding modes params).
Proof.
  unfold aligned. revert params adding ms changed.
  induction modes as [|mode modes IH]; intros params adding ms changed; [done|].
  cbn [mode_loop directed]. destruct (mode =? 43)%N; [apply IH|]. destruct (mode =? 45)%N; [apply IH|].
  cbn [List.filter]. unfold wants at 1. cbn [fst snd].
  destruct (is_prefix_mode (prefixes i) mode) eqn:Hp; cbn [orb].
  - destruct params as [|target params]; [done|]. simpl.
    destruct (prefix_for_mode (prefixes i) mode) as [pc|]; [|apply IH].
    destruct (set_privilege _ _ _ _ _ _). apply IH.
  - destruct (takes_parameter (chanmodes i) mode adding); [|apply IH].
    destruct params as [|target params]; [done|]. simpl.
    destruct (prefix_for_mode (prefixes i) mode) as [pc|] eqn:E; [|apply IH].
    assert (is_prefix_mode (prefixes i) mode = true) by (apply prefix_mode_iff; eauto). congruence.
Qed.

Lemma grant_other i acc x k :
  k ≠ normalize (casemapping i) x.2 ∨ is_prefix_mode (prefixes i) x.1.2 = false →
  (grant i acc x).1 !! k = acc.1 !! k.
Proof.
  destruct x as [[adding mode] target]. cbn [fst snd grant]. intros Hk.
  destruct (prefix_for_mode _ mode) as [pc|] eqn:E; [|done].
  assert (is_prefix_mode (prefixes i) mode = true) as Hm by (apply prefix_mode_iff; eauto).
  destruct Hk as [Hk|Hk]; [|congruence]. unfold set_privilege.
  destruct (acc.1 !! normalize _ target); [|done]. simpl. by rewrite lookup_insert_ne.
Qed.

Lemma foldl_grant_other i l acc k :
  Forall (λ x, k ≠ normalize (casemapping i) x.2 ∨ is_prefix_mode (prefixes i) x.1.2 = false) l →
  (foldl (grant i) acc l).1 !! k = acc.1 !! k.
Proof.
  intros Hl. revert acc. induction Hl as [|x l Hx Hl IH]; intros acc; [done|]. simpl.
  rewrite IH. by apply grant_other.
Qed.

(** Arguments of MODE go to the changes that take one, in order, by the
    server's own PREFIX and CHANMODES: the members and the reported nicks are
    those of pairing the argument-taking changes with the arguments and
    applying the privileges one by one.  A member no privilege change is paired
    with is untouched. *)
Theorem on_mode_aligned (chan modes : str) (params : list str) (s : Session) (c : Channel) :
  channel s chan = Some c →
  let i := s_isupport s in
  let pairs := aligned i true modes params in
  let '(changed, s') := on_mode chan modes params s in
  ∃ c', channel s' chan = Some c'
    ∧ (c_members c', changed) = foldl (grant i) (c_members c, []) pairs
    ∧ ∀ k, (∀ adding mode target, (adding, mode, target) ∈ pairs → k = normalize (casemapping i) target →
              is_prefix_mode (prefixes i) mode = false) →
           c_members c' !! k = c_members c !! k.
Proof.
  unfold channel. intros Hc. cbv zeta. unfold on_mode. rewrite Hc, mode_loop_aligned.
  destruct (foldl _ _ _) as [ms changed] eqn:E. simpl. unfold normalize_name at 1. simpl.
  rewrite lookup_insert_eq. eexists. split; [done|]. split; [done|]. intros k Hk. cbn [c_members set_members].
  change ms with ((ms, changed).1). rewrite <- E. rewrite foldl_grant_other; [done|].
  apply Forall_forall. intros [[adding mode] target] Hin. cbn [fst snd].
  destruct (decide (k = normalize (casemapping (s_isupport s)) target)) as [->|]; [right; by eapply Hk|by left].
Qed.

(** ** Names *)

Lemma names_loop_full m p entries ms :
  (MAX_MEMBERS <= N.of_nat (size ms))%N → names_loop m p entries ms = ms.
Proof. intros H. destruct entries; [done|]. simpl. apply N.leb_le in H. by rewrite H. Qed.

Lemma names_loop_app m p e1 e2 ms :
  names_loop m p (e1 ++ e2) ms = names_loop m p e2 (names_loop m p e1 ms).
Proof.
  revert ms. induction e1 as [|e e1 IH]; intros ms; [done|]. simpl.
  destruct (N.leb_spec MAX_MEMBERS (N.of_nat (size ms))); [by rewrite names_loop_full|].
  destruct (is_empty _); apply IH.
Qed.

(** What the entries of a burst say of the member under [k]. *)
Definition named (m : CaseMapping) (p : Prefixes) (k entry : str) : Prop :=
  (split_prefixes p entry).2 ≠ [] ∧ normalize m (split_prefixes p entry).2 = k.

Lemma names_loop_spec m p entries ms :
  (N.of_nat (size ms + length entries) <= MAX_MEMBERS)%N →
  ∀ k, (is_Some (names_loop m p entries ms !! k) ↔ is_Some (ms !! k) ∨ ∃ e, e ∈ entries ∧ named m p k e)
  ∧ ∀ mem c, names_loop m p entries ms !! k = Some mem →
      (c ∈ m_prefixes mem ↔
         (∃ mem0, ms !! k = Some mem0 ∧ c ∈ m_prefixes mem0)
         ∨ ∃ e, e ∈ entries ∧ named m p k e ∧ c ∈ (split_prefixes p e).1).
Proof.
  revert ms. induction entries as [|e entries IH]; intros ms Hl k.
  { simpl. split; [set_solver|]. intros mem c Hm. set_solver. }
  cbn [length] in Hl. cbn [names_loop]. destruct (N.leb_spec MAX_MEMBERS (N.of_nat (size ms))); [lia|].
  pose proof (split_prefixes_app p e) as _. destruct (split_prefixes p e) as [found nick] eqn:Es.
  cbn [fst snd] in *. destruct (is_empty nick) eqn:En.
  - apply is_empty_true in En as ->.
    assert (¬ named m p k e) as Hn by (intros [? _]; by rewrite Es in *).
    specialize (IH ms ltac:(lia) k) as [H1 H2]. split.
    + rewrite H1. set_solver.
    + intros mem c Hm. rewrite (H2 mem c Hm). set_solver.
  - apply is_empty_false in En. set (mem0 := default (new_member nick) (ms !! normalize m nick)).
    set (mem1 := member_set_prefixes _ mem0).
    assert (size (<[normalize m nick := mem1]> ms) ≤ S (size ms)) by apply size_insert_le.
    specialize (IH (<[normalize m nick := mem1]> ms) ltac:(lia) k) as [H1 H2].
    assert (named m p k e ↔ normalize m nick = k) as Hn by (unfold named; rewrite Es; naive_solver).
    split.
    + rewrite H1, lookup_insert_is_Some'. setoid_rewrite elem_of_cons. naive_solver.
    + intros mem c Hm. rewrite (H2 mem c Hm). clear H1 H2 Hm.
      destruct (decide (normalize m nick = k)) as [Hk|Hk].
      * subst k. rewrite lookup_insert_eq.
        assert (c ∈ m_prefixes mem1 ↔ (∃ mem0, ms !! normalize m nick = Some mem0 ∧ c ∈ m_prefixes mem0) ∨ c ∈ found) as Hc.
        { unfold mem1, mem0. simpl. rewrite elem_of_union, elem_of_list_to_set.
          destruct (ms !! normalize m nick); simpl; [naive_solver|]. set_solver. }
        setoid_rewrite elem_of_cons. split.
        -- intros [(? & [= <-] & H')|(e' & He & Hn' & Hc')]; [apply Hc in H' as [?|?]; [by left|]|eauto 6].
           right. exists e. rewrite Es. naive_solver.
        -- intros [H'|(e' & [->|He] & Hn' & Hc')]; [left|left|right; by exists e'].
           ++ exists mem1. split; [done|]. apply Hc. by left.
           ++ exists mem1. split; [done|]. apply Hc. right. by rewrite Es in Hc'.
      * rewrite lookup_insert_ne by done. setoid_rewrite elem_of_cons. naive_solver.
Qed.

Definition names_burst (chan : str) (lines : list str) (s : Session) : Session :=
  foldl (λ s l, on_names_reply chan l s) s lines.

Lemma on_names_reply_present chan line s c :
  channel s chan = Some c →
  let start := if c_names_in_progress c then c_members c else ∅ in
  ∃ c', channel (on_names_reply chan line s) chan = Some c' ∧ c_names_in_progress c' = true
    ∧ s_isupport (on_names_reply chan line s) = s_isupport s
    ∧ c_members c' = names_loop (mapping s) (prefixes (s_isupport s)) (split_whitespace line) start.
Proof.
  unfold channel. intros Hc. cbv zeta. unfold on_names_reply. rewrite bool_decide_false by congruence.
  unfold names_channel. rewrite Hc. unfold normalize_name at 1, mapping at 1. simpl.
  fold (mapping s) (normalize_name s chan). rewrite lookup_insert_eq.
  eexists. split; [done|]. destruct (c_names_in_progress c) eqn:E; simpl; [|done]. by rewrite E.
Qed.

Lemma names_burst_in_progress chan lines s c :
  channel s chan = Some c → c_names_in_progress c = true →
  ∃ c', channel (names_burst chan lines s) chan = Some c' ∧ s_isupport (names_burst chan lines s) = s_isupport s
    ∧ c_members c' = names_loop (mapping s) (prefixes (s_isupport s)) (concat (map split_whitespace lines)) (c_members c).
Proof.
  revert s c. induction lines as [|l lines IH]; intros s c Hc Hp; [eexists; by split_and!|].
  destruct (on_names_reply_present chan l s c Hc) as (c1 & H1 & H2 & H3 & H4). rewrite Hp in H4.
  destruct (IH _ _ H1 H2) as (c' & H5 & H6 & H7). exists c'. split; [done|].
  change (names_burst chan (l :: lines) s) with (names_burst chan lines (on_names_reply chan l s)).
  split; [by rewrite H6|]. cbn [map concat]. rewrite names_loop_app, <- H4. rewrite H7.
  unfold mapping. by rewrite H3.
Qed.

Lemma channel_end_of_names chan s : channel (on_end_of_names chan s) chan = set_in_progress false <$> channel s chan.
Proof. unfold channel, on_end_of_names, normalize_name, mapping. simpl. apply lookup_alter_eq. Qed.

(** A NAMES burst replaces the roster.  Whatever the channel held before,
    after the lines of a burst and its end the members are those the lines name
    and no others, each with every prefix the lines give them. *)
Theorem names_burst_replaces (chan : str) (lines : list str) (s : Session) (c : Channel) :
  channel s chan = Some c → c_names_in_progress c = false → lines ≠ [] →
  let entries := concat (map split_whitespace lines) in
  (N.of_nat (length entries) <= MAX_MEMBERS)%N →
  ∃ c', channel (on_end_of_names chan (names_burst chan lines s)) chan = Some c'
    ∧ c_names_in_progress c' = false
    ∧ ∀ k, (is_Some (c_members c' !! k) ↔ ∃ e, e ∈ entries ∧ named (mapping s) (prefixes (s_isupport s)) k e)
      ∧ ∀ mem x, c_members c' !! k = Some mem →
          (x ∈ m_prefixes mem ↔
           ∃ e, e ∈ entries ∧ named (mapping s) (prefixes (s_isupport s)) k e
                ∧ x ∈ (split_prefixes (prefixes (s_isupport s)) e).1).
Proof.
  intros Hc Hp Hl. destruct lines as [|l lines]; [done|]. intros entries Hn.
  destruct (on_names_reply_present chan l s c Hc) as (c1 & H1 & H2 & H3 & H4). rewrite Hp in H4.
  destruct (names_burst_in_progress chan lines _ _ H1 H2) as (c' & H5 & H6 & H7).
  exists (set_in_progress false c'). rewrite channel_end_of_names.
  change (names_burst chan (l :: lines) s) with (names_burst chan lines (on_names_reply chan l s)).
  rewrite H5. split; [done|]. split; [done|]. intros k. cbn [c_members set_in_progress].
  rewrite H7. unfold mapping at 1 3. rewrite H3. fold (mapping s). rewrite H4.
  rewrite <- names_loop_app. change (_ ++ _) with entries.
  pose proof (names_loop_spec (mapping s) (prefixes (s_isupport s)) entries ∅) as Hs.
  rewrite map_size_empty in Hs. specialize (Hs Hn k) as [Hs1 Hs2]. split.
  - rewrite Hs1, lookup_empty. split; [intros [[]|?]; done|by right].
  - intros mem x Hm. rewrite (Hs2 mem x Hm). setoid_rewrite lookup_empty. naive_solver.
Qed.

(** ** Nick changes *)

Lemma each_channel_lookup f s k c :
  s_channels s !! k = Some c → s_channels (each_channel f s).2 !! k = Some (default c (f c)).
Proof. intros H. simpl. by rewrite lookup_fmap, H. Qed.

Lemma each_channel_reported f s k c c' :
  s_channels s !! k = Some c → f c = Some c' → c_name c' ∈ (each_channel f s).1.
Proof.
  intros H Hf. apply list_elem_of_omap. exists (k, c). split; [by apply elem_of_map_to_list|].
  simpl. by rewrite Hf.
Qed.

(** A nick change carries a member over as they are: in every channel
    that knew them, the new nick holds the same privileges and away state, the
    old nick is gone, nobody else is touched, and the channel is reported; when
    it is our own nick, the session takes it. *)
Theorem nick_change_preserves (old new : str) (s : Session) (k : str) (c : Channel) (m : Member) :
  s_channels s !! k = Some c → c_members c !! normalize_name s old = Some m →
  let '(names, s') := on_nick_change old new s in
  c_name c ∈ names
  ∧ s_nick s' = (if is_self s old then truncate new MAX_NICK else s_nick s)
  ∧ ∃ c' m', s_channels s' !! k = Some c' ∧ c_name c' = c_name c ∧ c_topic c' = c_topic c
    ∧ c_members c' !! normalize_name s new = Some m'
    ∧ m_nick m' = truncate new MAX_NICK ∧ m_prefixes m' = m_prefixes m ∧ m_away m' = m_away m
    ∧ (normalize_name s old ≠ normalize_name s new → c_members c' !! normalize_name s old = None)
    ∧ (∀ o, o ≠ normalize_name s old → o ≠ normalize_name s new → c_members c' !! o = c_members c !! o).
Proof.
  intros Hk Hm. unfold on_nick_change.
  set (s1 := if is_self s old then set_nick new s else s).
  assert (s_channels s1 = s_channels s ∧ ∀ x, normalize_name s1 x = normalize_name s x) as [Hs1 Hn].
  { unfold s1. by destruct (is_self s old). }
  rewrite !Hn. set (f := rename_member _ _ _).
  assert (f c = Some (set_members (λ ms, <[normalize_name s new := member_set_nick (truncate new MAX_NICK) m]>
    (delete (normalize_name s old) ms)) c)) as Hf by (unfold f, rename_member; by rewrite Hm).
  rewrite <- Hs1 in Hk. pose proof (each_channel_reported f s1 k c _ Hk Hf) as Hr.
  pose proof (each_channel_lookup f s1 k c Hk) as Hl. rewrite Hf in Hl. cbn [from_option id] in Hl.
  destruct (each_channel f s1) as [names s'] eqn:E. cbn [fst snd] in *. split; [exact Hr|]. split.
  { assert (s_nick s' = s_nick s1) as ->; [|unfold s1; by destruct (is_self s old)].
    unfold each_channel in E. by injection E as _ <-. }
  eexists _, _. split; [exact Hl|]. cbn [c_name c_topic set_members c_members].
  rewrite lookup_insert_eq. split_and!; [done..| |].
  - intros Hne. rewrite lookup_insert_ne by done. apply lookup_delete_eq.
  - intros o H1 H2. rewrite lookup_insert_ne, lookup_delete_ne by done. done.
Qed.
