(* ===== verification/SessionText.v ===== *)
(** Order of the roster, and mentions. *)
From S2P Require Import Prelude RustStr ISupport Session SessionInv SessionProps.

(** * Privileges *)

Lemma rank_le_total p a b : rank_le p a b = false → rank_le p b a = true.
Proof.
  unfold rank_le. destruct (rank p a), (rank p b); try done.
  rewrite Nat.leb_gt, Nat.leb_le. lia.
Qed.

Lemma rank_le_trans p a b c : rank_le p a b = true → rank_le p b c = true → rank_le p a c = true.
Proof.
  unfold rank_le. destruct (rank p a), (rank p b), (rank p c); try done.
  rewrite !Nat.leb_le. lia.
Qed.

Lemma rank_le_refl p a : rank_le p a a = true.
Proof. unfold rank_le. destruct (rank p a); [apply Nat.leb_refl|done]. Qed.

Lemma min_by_spec p l c :
  min_by (rank_le p) l = Some c → c ∈ l ∧ ∀ x, x ∈ l → rank_le p c x = true.
Proof.
  revert c. induction l as [|x l IH]; intros c; simpl; [done|].
  destruct (min_by (rank_le p) l) as [y|] eqn:E.
  - destruct (IH y eq_refl) as [H1 H2]. destruct (rank_le p x y) eqn:Hxy; intros [= <-].
    + split; [left|]. intros z [->|Hz]%elem_of_cons; [apply rank_le_refl|].
      eapply rank_le_trans; [done|by apply H2].
    + split; [by right|]. intros z [->|Hz]%elem_of_cons; [by apply rank_le_total|by apply H2].
  - intros [= <-]. destruct l as [|z l]; [|simpl in E; by repeat case_match].
    split; [left|]. intros z ->%list_elem_of_singleton. apply rank_le_refl.
Qed.

Lemma min_by_None le l : min_by le l = None ↔ l = [].
Proof. destruct l as [|x l]; simpl; [done|]. split; [|done]. by repeat case_match. Qed.

Lemma elem_of_filter_list (f : char → bool) l c : c ∈ List.filter f l ↔ c ∈ l ∧ f c = true.
Proof. rewrite !list_elem_of_In. apply filter_In. Qed.

(** The prefix shown for a member is one they hold, of those the server
    knows the most privileged; none is shown exactly when they hold none. *)
Theorem highest_is_most_privileged (p : Prefixes) (held : list char) :
  (highest p held = None ↔ ∀ c, c ∈ held → is_prefix_char p c = false)
  ∧ ∀ c, highest p held = Some c →
      c ∈ held ∧ ∃ i, rank p c = Some i
      ∧ ∀ x j, x ∈ held → rank p x = Some j → i ≤ j.
Proof.
  unfold highest. split.
  - rewrite min_by_None. split.
    + intros H c Hc. apply not_true_is_false. intros Hp.
      assert (c ∈ List.filter (is_prefix_char p) held) as Hin by (by apply elem_of_filter_list).
      rewrite H in Hin. by apply not_elem_of_nil in Hin.
    + intros H. destruct (List.filter _ held) as [|x l] eqn:E; [done|].
      assert (x ∈ List.filter (is_prefix_char p) held) as Hin by (rewrite E; left).
      apply elem_of_filter_list in Hin as [H1 H2]. by rewrite H in H2.
  - intros c [Hin Hmin]%min_by_spec. apply elem_of_filter_list in Hin as [H1 H2].
    split; [done|]. apply rank_is_Some in H2 as [i Hi]. exists i. split; [done|]. intros x j Hx Hj.
    assert (rank_le p c x = true) as Hle.
    { apply Hmin, elem_of_filter_list. split; [done|]. apply rank_is_Some. eauto. }
    unfold rank_le in Hle. rewrite Hi, Hj in Hle. by apply Nat.leb_le.
Qed.

(** * The order of the roster *)

Lemma hex_digit_lt a b : (a < 16)%N → (b < 16)%N → (hex_digit a <? hex_digit b)%N = (a <? b)%N.
Proof.
  intros Ha Hb. apply eq_true_iff_eq. rewrite !N.ltb_lt. unfold hex_digit.
  destruct (N.ltb_spec a 10), (N.ltb_spec b 10); lia.
Qed.

Lemma hex_digit_eq a b : (a < 16)%N → (b < 16)%N → (hex_digit a =? hex_digit b)%N = (a =? b)%N.
Proof.
  intros Ha Hb. apply eq_true_iff_eq. rewrite !N.eqb_eq. unfold hex_digit.
  destruct (N.ltb_spec a 10), (N.ltb_spec b 10); lia.
Qed.

Lemma hex4_digits r :
  (r <= 0xffff)%N →
  ∃ a b c d, (a < 16)%N ∧ (b < 16)%N ∧ (c < 16)%N ∧ (d < 16)%N
    ∧ hex4 r = map hex_digit [a; b; c; d] ∧ r = (((a * 16 + b) * 16 + c) * 16 + d)%N.
Proof.
  intros Hr.
  assert (∀ s, N.land (N.shiftr r s) 0xf = (r / 2 ^ s) mod 16)%N as Hd.
  { intros s. change 0xf%N with (N.ones 4). by rewrite N.land_ones, N.shiftr_div_pow2. }
  exists ((r / 2 ^ 12) mod 16)%N, ((r / 2 ^ 8) mod 16)%N, ((r / 2 ^ 4) mod 16)%N, ((r / 2 ^ 0) mod 16)%N.
  split_and!; try (apply N.mod_lt; lia); [unfold hex4; simpl; by rewrite !Hd|].
  change (2 ^ 12)%N with (16 * 16 * 16)%N. change (2 ^ 8)%N with (16 * 16)%N. change (2 ^ 4)%N with 16%N.
  change (2 ^ 0)%N with 1%N. rewrite N.div_1_r, <- !N.Div0.div_div.
  pose proof (N.div_mod r 16 ltac:(lia)). pose proof (N.div_mod (r / 16) 16 ltac:(lia)).
  pose proof (N.div_mod (r / 16 / 16) 16 ltac:(lia)).
  rewrite (N.mod_small (r / 16 / 16 / 16)).
  - generalize dependent (r / 16 / 16 / 16)%N. generalize dependent ((r / 16 / 16) mod 16)%N.
    generalize dependent ((r / 16) mod 16)%N. generalize dependent (r mod 16)%N. intros. lia.
  - rewrite !N.Div0.div_div. apply N.Div0.div_lt_upper_bound. lia.
Qed.

Lemma str_leb_cons x y a b : str_leb (x :: a) (y :: b) = (x <? y)%N || ((x =? y)%N && str_leb a b).
Proof. done. Qed.

Lemma hex4_order r1 r2 a b :
  (r1 <= 0xffff)%N → (r2 <= 0xffff)%N →
  str_leb (hex4 r1 ++ a) (hex4 r2 ++ b) = (r1 <? r2)%N || ((r1 =? r2)%N && str_leb a b).
Proof.
  intros (a1 & b1 & c1 & d1 & ? & ? & ? & ? & -> & E1)%hex4_digits.
  intros (a2 & b2 & c2 & d2 & ? & ? & ? & ? & -> & E2)%hex4_digits.
  cbn [map app]. rewrite !str_leb_cons, !hex_digit_lt, !hex_digit_eq by done.
  destruct (N.ltb_spec r1 r2), (N.eqb_spec r1 r2), (N.ltb_spec a1 a2), (N.eqb_spec a1 a2),
    (N.ltb_spec b1 b2), (N.eqb_spec b1 b2), (N.ltb_spec c1 c2), (N.eqb_spec c1 c2),
    (N.ltb_spec d1 d2), (N.eqb_spec d1 d2); cbn [orb andb]; try lia; done.
Qed.

Lemma sort_rank_bound p m : (sort_rank p m <= 0xffff)%N.
Proof. unfold sort_rank. case_match; lia. Qed.

#[export] Instance str_le_total : Total str_le.
Proof.
  intros a. unfold str_le. induction a as [|x a IH]; intros b; [by left|].
  destruct b as [|y b]; [by right|]. rewrite !str_leb_cons.
  destruct (N.ltb_spec x y), (N.ltb_spec y x); [by left|by left|by right|].
  assert (x = y) as -> by lia. rewrite N.eqb_refl. cbn. apply IH.
Qed.

#[export] Instance key_le_total : Total key_le.
Proof. intros a b. apply str_le_total. Qed.

Section Roster.
Context (to_lowercase : char → str).
Abbreviation lowercase := (lowercase to_lowercase).
Abbreviation sort_key := (sort_key to_lowercase).

(** Privilege first, then nick regardless of case. *)
Definition roster_le (p : Prefixes) (a b : Member) : Prop :=
  (sort_rank p a < sort_rank p b)%N
  ∨ (sort_rank p a = sort_rank p b ∧ str_le (lowercase (m_nick a)) (lowercase (m_nick b))).

Lemma sort_key_le p a b : str_le (sort_key p a) (sort_key p b) ↔ roster_le p a b.
Proof.
  unfold roster_le, str_le, Session.sort_key.
  rewrite hex4_order by apply sort_rank_bound. cbn [app]. rewrite str_leb_cons. cbn [N.ltb N.eqb].
  rewrite orb_true_iff, andb_true_iff, N.ltb_lt, N.eqb_eq. done.
Qed.

Lemma Sorted_undecorate p (l : list (str * Member)) :
  Forall (λ km, km.1 = sort_key p km.2) l → Sorted key_le l → Sorted (roster_le p) (map snd l).
Proof.
  intros Hf Hs. induction Hs as [|x l Hs IH Hh]; simpl; [constructor|].
  apply Forall_cons in Hf as [Hx Hf]. constructor; [by apply IH|].
  destruct Hh as [|y l Hxy]; simpl; constructor. apply Forall_cons in Hf as [Hy _].
  unfold key_le in Hxy. rewrite Hx, Hy in Hxy. by apply sort_key_le.
Qed.

(** The roster is every member once, in order of privilege and then of
    nick regardless of case; and the key a member carries as a string sorts
    them the same way, so a list kept in order by keys agrees with it. *)
Theorem roster_sorted (p : Prefixes) (c : Channel) :
  Sorted (roster_le p) (sorted_members to_lowercase p c)
  ∧ sorted_members to_lowercase p c ≡ₚ map snd (map_to_list (c_members c))
  ∧ ∀ a b, str_le (sort_key p a) (sort_key p b) ↔ roster_le p a b.
Proof.
  unfold sorted_members. set (keyed := map _ (map_to_list (c_members c))).
  assert (merge_sort key_le keyed ≡ₚ keyed) as Hp by apply merge_sort_Permutation.
  split_and!.
  - apply Sorted_undecorate; [|apply Sorted_merge_sort; apply _]. rewrite Hp.
    apply Forall_forall. intros km (km' & -> & _)%list_elem_of_fmap. done.
  - rewrite Hp. unfold keyed. rewrite map_map. done.
  - intros. apply sort_key_le.
Qed.
End Roster.

(** * Mentions *)

Section Mention.
Context (is_alphanumeric : char → bool).
Abbreviation is_nick_char := (is_nick_char is_alphanumeric).
Abbreviation not_nick := (not_nick is_alphanumeric).
Abbreviation is_mention := (is_mention is_alphanumeric).

(** An occurrence that starts inside an earlier one is preceded by a character
    of the nick. *)
Lemma overlap_not_bounded needle pre rest a b :
  Forall (λ c, is_nick_char c = true) needle →
  pre ++ needle ++ rest = a ++ b → length pre < length a → length a < length pre + length needle →
  not_nick (last a) = false.
Proof.
  intros Hn E H1 H2. rewrite last_lookup.
  assert (a !! pred (length a) = needle !! (pred (length a) - length pre)) as ->.
  { assert ((pre ++ needle ++ rest) !! pred (length a) = a !! pred (length a)) as <-
      by (rewrite E; by rewrite lookup_app_l by lia).
    rewrite lookup_app_r by lia. by rewrite lookup_app_l by lia. }
  destruct (lookup_lt_is_Some_2 needle (pred (length a) - length pre)) as [c Hc]; [lia|].
  rewrite Hc. rewrite Forall_lookup in Hn. unfold Session.not_nick. by rewrite (Hn _ _ Hc).
Qed.

Section Occurrences.
Context (needle : str).
Hypothesis needle_nonempty : needle ≠ [].
Hypothesis needle_nick : Forall (λ c, is_nick_char c = true) needle.

(** Whether the text around an occurrence of [needle] at [i] makes it a word. *)
Definition bounded (hay : str) (i : nat) : bool :=
  not_nick (last (take i hay)) && not_nick (hay !! (i + length needle)).

Definition word_at (hay : str) (i : nat) : Prop :=
  ∃ a b, hay = a ++ needle ++ b ∧ length a = i ∧ bounded hay i = true.

Lemma match_indices_complete fuel pre hay :
  length hay < fuel →
  (existsb (bounded (pre ++ hay)) (match_indices fuel needle hay (length pre)) = true
   ↔ ∃ i, length pre ≤ i ∧ word_at (pre ++ hay) i).
Proof.
  revert pre hay. induction fuel as [|fuel IH]; intros pre hay Hf; [lia|]. cbn [match_indices].
  destruct (strip_prefix needle hay) as [rest|] eqn:E.
  - apply strip_prefix_Some in E as ->. cbn [existsb].
    assert (0 < length needle) by (by destruct needle; simpl; [|lia]).
    rewrite length_app in Hf. specialize (IH (pre ++ needle) rest ltac:(lia)).
    rewrite length_app, <- (assoc_L (++)) in IH. rewrite orb_true_iff, IH. split.
    + intros [Hb|(i & Hi & Hw)]; [|exists i; split; [lia|done]].
      exists (length pre). split; [done|]. by exists pre, rest.
    + intros (i & Hi & Hw). destruct (decide (i = length pre)) as [->|Hne].
      { left. by destruct Hw as (? & ? & _ & _ & Hb). }
      destruct (decide (length pre + length needle ≤ i)); [right; eauto|].
      destruct Hw as (a & b & Ea & <- & Hb). exfalso.
      assert (not_nick (last a) = false) as Hl by (eapply overlap_not_bounded; [done|exact Ea|lia|lia]).
      unfold bounded in Hb. rewrite Ea, take_app_length, Hl in Hb. done.
  - destruct hay as [|c hay].
    + split; [done|]. intros (i & Hi & a & b & Ea & <- & _). rewrite app_nil_r in Ea.
      apply (f_equal length) in Ea. rewrite !length_app in Ea. destruct needle; [done|]. simpl in *. lia.
    + specialize (IH (pre ++ [c]) hay). rewrite length_app, <- (assoc_L (++)) in IH. simpl in IH, Hf.
      rewrite Nat.add_1_r in IH. rewrite IH by lia. split.
      * intros (i & Hi & Hw). exists i. split; [lia|done].
      * intros (i & Hi & Hw). exists i. split; [|done].
        destruct (decide (i = length pre)) as [->|]; [|lia]. exfalso.
        destruct Hw as (a & b & Ea & Hl & _). symmetry in Hl. apply app_inj_1 in Ea as [-> Ea]; [|done].
        apply strip_prefix_Some in Ea. congruence.
Qed.
End Occurrences.

(** A message mentions us exactly when our nick occurs in it, case aside,
    with no nick character before or after: a nick that is part of a longer
    word does not count, and the left-to-right search misses no occurrence that
    does. *)
Theorem is_mention_exact (text : str) (s : Session) :
  s_nick s ≠ [] → Forall (λ c, is_nick_char c = true) (normalize (mapping s) (s_nick s)) →
  is_mention text s = true ↔
  ∃ a b, normalize (mapping s) text = a ++ normalize (mapping s) (s_nick s) ++ b
         ∧ not_nick (last a) = true ∧ not_nick (head b) = true.
Proof.
  intros Hne Hn. unfold Session.is_mention.
  set (hay := normalize (mapping s) text). set (needle := normalize (mapping s) (s_nick s)) in *.
  assert (needle ≠ []) as Hne' by (unfold needle, normalize; by destruct (s_nick s)).
  destruct (is_empty needle) eqn:E; [by apply is_empty_true in E|].
  pose proof (match_indices_complete needle Hne' Hn (S (length hay)) [] hay ltac:(lia)) as H.
  cbn [app length] in H. unfold bounded in H. rewrite H.
  assert (∀ a b, hay = a ++ needle ++ b → hay !! (length a + length needle) = head b) as Hh.
  { intros a b ->. rewrite lookup_app_r by lia. rewrite lookup_app_r by lia.
    replace (length a + length needle - length a - length needle) with 0 by lia. by destruct b. }
  split.
  - intros (i & _ & a & b & Ea & <- & Hb). exists a, b. split; [done|]. unfold bounded in Hb.
    rewrite (Hh _ _ Ea) in Hb. rewrite Ea, take_app_length in Hb. by apply andb_true_iff in Hb.
  - intros (a & b & Ea & H1 & H2). exists (length a). split; [lia|]. exists a, b. split_and!; [done..|].
    unfold bounded. rewrite (Hh _ _ Ea), Ea, take_app_length, H1, H2. done.
Qed.
End Mention.

(** * A session in which the hypotheses of the properties hold. *)

(** We are in #test with alice. *)
Definition demo : Session :=
  foldl run_op (new_session (lit "ddirc"))
    [OpIsupport [lit "PREFIX=(ov)@+"; lit "CHANMODES=beI,k,l,imnpst"];
     OpJoin (lit "#test") (lit "ddirc"); OpJoin (lit "#Test") (lit "Alice")].

Definition demo_channel : Channel := default (new_channel []) (channel demo (lit "#test")).
Lemma demo_in : channel demo (lit "#test") = Some demo_channel.
Proof. vm_compute. reflexivity. Qed.

(** The argument of [+b] is not taken for the nick of [+o]. *)
Lemma on_mode_aligned_witness :
  ∃ c' changed, (on_mode (lit "#TEST") (lit "+bo") [lit "*!*@spam"; lit "alice"] demo).1 = changed
    ∧ changed = [lit "Alice"] ∧ channel (on_mode (lit "#TEST") (lit "+bo") [lit "*!*@spam"; lit "alice"] demo).2 (lit "#TEST") = Some c'
    ∧ m_prefixes <$> (c_members c' !! lit "alice") = Some {[ch "@"]}.
Proof.
  pose proof (on_mode_aligned (lit "#TEST") (lit "+bo") [lit "*!*@spam"; lit "alice"] demo demo_channel demo_in) as H.
  cbv zeta in H. destruct (on_mode _ _ _ demo) as [changed s'] eqn:E. destruct H as (c' & H1 & H2 & _).
  exists c', changed. cbn [fst snd]. split; [done|].
  pose proof (f_equal fst H2) as H3. pose proof (f_equal snd H2) as H4. cbn [fst snd] in H3, H4.
  split; [rewrite H4; vm_compute; reflexivity|]. split; [exact H1|]. rewrite H3. vm_compute. reflexivity.
Defined.

Lemma names_burst_replaces_witness :
  ∃ c', channel (on_end_of_names (lit "#test") (names_burst (lit "#test") [lit "@bob +carol"; lit "dave"] demo)) (lit "#test") = Some c'
    ∧ c_members c' !! lit "alice" = None ∧ is_Some (c_members c' !! lit "bob").
Proof.
  destruct (names_burst_replaces (lit "#test") [lit "@bob +carol"; lit "dave"] demo demo_channel demo_in
    ltac:(vm_compute; reflexivity) ltac:(discriminate) ltac:(vm_compute; discriminate)) as (c' & H1 & _ & H2).
  exists c'. split; [exact H1|]. split.
  - apply eq_None_not_Some. rewrite (proj1 (H2 (lit "alice"))). intros (e & He & _ & Hn).
    assert (concat (map split_whitespace [lit "@bob +carol"; lit "dave"]) = [lit "@bob"; lit "+carol"; lit "dave"]) as E
      by (vm_compute; reflexivity).
    rewrite E in He. rewrite !elem_of_cons in He.
    destruct He as [->|[->|[->|He]]]; [revert Hn; vm_compute; discriminate..|]. by apply not_elem_of_nil in He.
  - apply (H2 (lit "bob")). exists (lit "@bob"). split; [apply list_elem_of_In; vm_compute; left; reflexivity|split; [vm_compute; discriminate|vm_compute; reflexivity]].
Defined.

Definition demo_alice : Member := default (new_member []) (c_members demo_channel !! lit "alice").

Lemma nick_change_preserves_witness :
  c_name demo_channel ∈ (on_nick_change (lit "alice") (lit "Alicia") demo).1.
Proof.
  pose proof (nick_change_preserves (lit "alice") (lit "Alicia") demo (lit "#test") demo_channel demo_alice demo_in
    ltac:(vm_compute; reflexivity)) as H.
  destruct (on_nick_change _ _ demo) as [names s']. exact (proj1 H).
Defined.

Definition ascii_alphanumeric (c : char) : bool :=
  is_ascii_digit c || is_ascii_uppercase c || is_ascii_lowercase c.

(** The nick as a word of its own, in another case. *)
Lemma is_mention_exact_witness : is_mention ascii_alphanumeric (lit "hey DDirc!") demo = true.
Proof.
  apply (is_mention_exact ascii_alphanumeric (lit "hey DDirc!") demo).
  - vm_compute. discriminate.
  - apply forallb_Forall_true. vm_compute. reflexivity.
  - exists (lit "hey "), (lit "!"). split_and!; vm_compute; reflexivity.
Defined.
