(* ===== verification/Sasl.v ===== *)
(** Capability negotiation and SASL PLAIN ([ddirc-core/src/conn/sasl.rs]).

    The negotiator is a state machine without I/O: each operation takes it and
    returns what to send, the outcome if the negotiation ended, and the new
    state.  Base64 is a third-party crate, so its encoder is a parameter; its
    output is ASCII, so the bytes the source chunks are its characters. *)
From S2P Require Import Prelude RustStr Proto.
Import Proto.

(** * Data *)

Definition MAX_CAPABILITY_BYTES : nat := 8 * 1024.
Definition AUTHENTICATE_CHUNK : nat := 400.
Definition EXTRA_CAPABILITIES : list str :=
  [lit "away-notify"; lit "message-tags"; lit "server-time"].

Record Credentials := mkCredentials { account : str; password : str }.

Inductive NotAttempted := NoCredentials | Unsupported.
Inductive SaslOutcome :=
  | Authenticated
  | NotAttemptedBecause (reason : NotAttempted)
  | Rejected (reason : str).

Record SaslStep := mkStep { to_send : list Command; outcome : option SaslOutcome }.

Definition nothing : SaslStep := mkStep [] None.
Definition send_one (cmd : Command) : SaslStep := mkStep [cmd] None.
Definition CAP_END : Command := CAP None CapEND None None.
Definition finish (o : SaslOutcome) : SaslStep := mkStep [CAP_END] (Some o).

Inductive State :=
  | New | AwaitingCapabilities | AwaitingAck | AwaitingChallenge | AwaitingResult | Finished.
#[export] Instance State_eq_dec : EqDecision State.
Proof. solve_decision. Defined.

Record SaslNegotiator := mkNegotiator {
  state : State;
  credentials : option Credentials;
  offered : str;
  requested_sasl : bool;
  without_sasl : NotAttempted;
  acked : list str;
}.

Definition set_state x (n : SaslNegotiator) := mkNegotiator x (credentials n) (offered n) (requested_sasl n) (without_sasl n) (acked n).
Definition drop_credentials (n : SaslNegotiator) := mkNegotiator (state n) None (offered n) (requested_sasl n) (without_sasl n) (acked n).
Definition set_offered x (n : SaslNegotiator) := mkNegotiator (state n) (credentials n) x (requested_sasl n) (without_sasl n) (acked n).
Definition set_request b w (n : SaslNegotiator) := mkNegotiator (state n) (credentials n) (offered n) b w (acked n).
Definition set_acked x (n : SaslNegotiator) := mkNegotiator (state n) (credentials n) (offered n) (requested_sasl n) (without_sasl n) x.

Definition new (c : option Credentials) : SaslNegotiator := mkNegotiator New c [] false NoCredentials [].

Definition granted (capability : str) (n : SaslNegotiator) : bool :=
  existsb (λ c, eq_ignore_ascii_case c capability) (acked n).

Definition is_finished (n : SaslNegotiator) : bool := bool_decide (state n = Finished).

(** * Capabilities *)

Definition contains_capability (list wanted : str) : bool :=
  existsb (λ token,
    let token := trim_start_matches (λ c, contains_char c (lit "-~=")) token in
    let name := match split (ch "=") token with name :: _ => name | [] => token end in
    eq_ignore_ascii_case name wanted) (split_whitespace list).

Definition start (n : SaslNegotiator) : Command * SaslNegotiator :=
  (CAP None CapLS (Some (lit "302")) None, set_state AwaitingCapabilities n).

Definition abandon (n : SaslNegotiator) : SaslStep * SaslNegotiator :=
  if decide (state n = Finished) then (nothing, n)
  else
    let unanswered := match state n with New | AwaitingCapabilities => true | _ => false end in
    let o := if requested_sasl n || (unanswered && bool_decide (is_Some (credentials n)))
             then Rejected (lit "server did not finish capability negotiation in time")
             else NotAttemptedBecause (without_sasl n) in
    (finish o, drop_credentials (set_state Finished n)).

(** Finish without touching the rest: the early returns of the handlers. *)
Definition finish_with (o : SaslOutcome) (n : SaslNegotiator) : SaslStep * SaslNegotiator :=
  (finish o, set_state Finished n).

Definition request_sasl_or_finish (n : SaslNegotiator) : SaslStep * SaslNegotiator :=
  let without := match credentials n with None => NoCredentials | Some _ => Unsupported end in
  let requested := bool_decide (is_Some (credentials n)) && contains_capability (offered n) (lit "sasl") in
  let n := set_request requested without n in
  let wanted := (if requested then [lit "sasl"] else [])
                ++ List.filter (contains_capability (offered n)) EXTRA_CAPABILITIES in
  if is_empty wanted then finish_with (NotAttemptedBecause without) n
  else (send_one (CAP None CapREQ None (Some (join (lit " ") wanted))), set_state AwaitingAck n).

Definition on_cap (sub : CapSubCommand) (arg suffix : option str) (n : SaslNegotiator) :
    SaslStep * SaslNegotiator :=
  let payload := default (default [] arg) suffix in
  let more_to_come := bool_decide (is_Some suffix) && bool_decide (arg = Some (lit "*")) in
  match sub, state n with
  | CapLS, AwaitingCapabilities =>
      if Nat.ltb MAX_CAPABILITY_BYTES (str_len (offered n) + str_len payload) then
        finish_with (Rejected (lit "server sent an oversized capability list")) n
      else
        let sep := if is_empty (offered n) then [] else lit " " in
        let n := set_offered (offered n ++ sep ++ payload) n in
        if more_to_come then (nothing, n) else request_sasl_or_finish n
  | CapACK, AwaitingAck =>
      let caps := List.filter (λ cap, negb (starts_with_char (ch "-") cap)) (split_ascii_whitespace payload) in
      let n := set_acked (acked n ++ map to_ascii_lowercase caps) n in
      if negb (requested_sasl n) then finish_with (NotAttemptedBecause (without_sasl n)) n
      else if negb (contains_capability payload (lit "sasl")) then
        finish_with (Rejected (lit "server acknowledged unexpected capabilities")) n
      else (send_one (AUTHENTICATE (lit "PLAIN")), set_state AwaitingChallenge n)
  | CapNAK, AwaitingAck =>
      if negb (requested_sasl n) then finish_with (NotAttemptedBecause (without_sasl n)) n
      else finish_with (Rejected (lit "server refused the sasl capability")) n
  | _, _ => (nothing, n)
  end.

(** * Authentication *)

Section Base64.
Context (base64 : str → str).

(** [slice::chunks]: pieces of [n] elements, the last one shorter. *)
Fixpoint chunks (fuel n : nat) (l : str) : list str :=
  match fuel, l with
  | S fuel, _ :: _ => take n l :: chunks fuel n (drop n l)
  | _, _ => []
  end.

Definition encode_plain (account password : str) : list Command :=
  let raw := [0%N] ++ account ++ [0%N] ++ password in
  let encoded := base64 raw in
  if is_empty encoded then [AUTHENTICATE (lit "+")]
  else
    map AUTHENTICATE (chunks (length encoded) AUTHENTICATE_CHUNK encoded)
    ++ (if Nat.eqb (Nat.modulo (length encoded) AUTHENTICATE_CHUNK) 0 then [AUTHENTICATE (lit "+")] else []).

Definition on_authenticate (payload : str) (n : SaslNegotiator) : SaslStep * SaslNegotiator :=
  if negb (bool_decide (state n = AwaitingChallenge)) || negb (bool_decide (trim payload = lit "+"))
  then (nothing, n)
  else
    match credentials n with
    | None => finish_with (NotAttemptedBecause NoCredentials) n
    | Some c => (mkStep (encode_plain (account c) (password c)) None, set_state AwaitingResult n)
    end.

Definition MAX_REASON : nat := 200.
Definition sasl_failure_reason (response : Response) (args : list str) : str :=
  let text := match last args with
              | Some s => if is_empty s then lit "SASL authentication failed" else s
              | None => lit "SASL authentication failed"
              end in
  let reason := take MAX_REASON text in
  match response with
  | ERR_NICKLOCKED => reason ++ lit " (nick is account-locked)"
  | _ => reason
  end.

Definition on_response (response : Response) (args : list str) (n : SaslNegotiator) :
    SaslStep * SaslNegotiator :=
  match response with
  | RPL_SASLSUCCESS =>
      if decide (state n = AwaitingResult) then
        (finish Authenticated, drop_credentials (set_state Finished n))
      else (nothing, n)
  | ERR_SASLFAIL | ERR_SASLTOOLONG | ERR_SASLABORT | ERR_SASLALREADY | ERR_NICKLOCKED =>
      if negb (bool_decide (state n = AwaitingResult)) && negb (bool_decide (state n = AwaitingChallenge))
      then (nothing, n)
      else (finish (Rejected (sasl_failure_reason response args)), drop_credentials (set_state Finished n))
  | _ => (nothing, n)
  end.

Definition advance (m : Message) (n : SaslNegotiator) : SaslStep * SaslNegotiator :=
  if decide (state n = Finished) then (nothing, n)
  else
    match command m with
    | CAP _ sub arg suffix => on_cap sub arg suffix n
    | AUTHENTICATE payload => on_authenticate payload n
    | Reply response args => on_response response args n
    | _ => (nothing, n)
    end.

(** * Runs *)

(** What the caller does after [start]: it feeds messages, and may lose
    patience. *)
Inductive Input := Received (m : Message) | LostPatience.

Definition react (i : Input) (n : SaslNegotiator) : SaslStep * SaslNegotiator :=
  match i with Received m => advance m n | LostPatience => abandon n end.

(** All the steps of a run, in order, and the negotiator at its end. *)
Fixpoint run (n : SaslNegotiator) (inputs : list Input) : list SaslStep * SaslNegotiator :=
  match inputs with
  | [] => ([], n)
  | i :: inputs =>
      let '(s, n) := react i n in
      let '(steps, n) := run n inputs in
      (s :: steps, n)
  end.

Definition started (c : option Credentials) : SaslNegotiator := (start (new c)).2.
End Base64.
