(* ===== verification/SaslProps.v ===== *)
(** Properties of capability negotiation and SASL. *)
From S2P Require Import Prelude RustStr Proto Sasl.
Import Proto.

Section Sasl.
Context (base64 : str → str).
Abbreviation advance := (advance base64).
Abbreviation react := (react base64).
Abbreviation run := (run base64).

(** * Lemmas: one step *)

(** A step that does not end the negotiation. *)
Definition quiet (s : SaslStep) : Prop := outcome s = None ∧ CAP_END ∉ to_send s.

(** The step ended the negotiation and said so, or did not end it. *)
Definition settles (r : SaslStep * SaslNegotiator) : Prop :=
  (state r.2 ≠ Finished ∧ quiet r.1) ∨ (state r.2 = Finished ∧ ∃ o, r.1 = finish o).

Lemma settles_nothing n : state n ≠ Finished → settles (nothing, n).
Proof. intros H. left. split; [done|]. split; [done|]. apply not_elem_of_nil. Qed.

Lemma settles_finish o n : settles (finish_with o n).
Proof. right. eauto. Qed.

Lemma settles_send cmd n : state n ≠ Finished → cmd ≠ CAP_END → settles (send_one cmd, n).
Proof. intros H Hc. left. split; [done|]. split; [done|]. set_solver. Qed.

Lemma request_settles n : settles (request_sasl_or_finish n).
Proof.
  unfold request_sasl_or_finish. destruct (is_empty _); [apply settles_finish|].
  by apply settles_send.
Qed.

Lemma on_cap_settles sub arg suffix n : state n ≠ Finished → settles (on_cap sub arg suffix n).
Proof.
  intros H. unfold on_cap. destruct sub; try (by apply settles_nothing).
  - destruct (state n) eqn:Es; try (by apply settles_nothing; rewrite Es).
    destruct (Nat.ltb _ _); [apply settles_finish|].
    destruct (_ && _); [apply settles_nothing; simpl; congruence|apply request_settles].
  - destruct (state n) eqn:Es; try (by apply settles_nothing; rewrite Es).
    destruct (negb _); [apply settles_finish|]. destruct (negb _); [apply settles_finish|].
    by apply settles_send.
  - destruct (state n) eqn:Es; try (by apply settles_nothing; rewrite Es).
    destruct (negb _); apply settles_finish.
Qed.

Lemma CAP_END_not_payload a p : CAP_END ∉ encode_plain base64 a p.
Proof.
  unfold encode_plain. destruct (is_empty _).
  - intros H%list_elem_of_singleton. done.
  - rewrite elem_of_app. intros [(x & H & _)%list_elem_of_fmap|H]; [done|].
    destruct (Nat.eqb _ _); [by apply list_elem_of_singleton in H|by apply not_elem_of_nil in H].
Qed.

Lemma react_settles i n : state n ≠ Finished → settles (react i n).
Proof.
  intros H. destruct i as [m|]; simpl.
  - unfold Sasl.advance. destruct (decide _); [done|].
    destruct (command m); try (by apply settles_nothing); [by apply on_cap_settles| |].
    + unfold on_authenticate. destruct (_ || _); [by apply settles_nothing|].
      destruct (credentials n); [|apply settles_finish]. left. split; [done|].
      split; [done|apply CAP_END_not_payload].
    + unfold on_response. destruct response; try (by apply settles_nothing).
      { destruct (decide _); [right; eauto|by apply settles_nothing]. }
      all: destruct (_ && _); [by apply settles_nothing|right; eauto].
  - unfold abandon. destruct (decide _); [done|]. right. eauto.
Qed.

Lemma react_finished i n : state n = Finished → react i n = (nothing, n).
Proof. intros H. destruct i; simpl; unfold Sasl.advance, abandon; by rewrite decide_True. Qed.

(** * Lemmas: runs *)

Lemma run_finished inputs n : state n = Finished → run n inputs = (replicate (length inputs) nothing, n).
Proof.
  intros H. induction inputs as [|i l IH]; [done|]. cbn [Sasl.run length replicate].
  rewrite react_finished by done. by rewrite IH.
Qed.

Lemma run_shape inputs n :
  state n ≠ Finished →
  let '(steps, n') := run n inputs in
  (state n' ≠ Finished ∧ Forall quiet steps)
  ∨ (state n' = Finished ∧ ∃ before o k, steps = before ++ finish o :: replicate k nothing ∧ Forall quiet before).
Proof.
  revert n. induction inputs as [|i l IH]; intros n Hn; [by left|]. cbn [Sasl.run].
  pose proof (react_settles i n Hn) as Hs. destruct (react i n) as [s n1].
  unfold settles in Hs. cbn [fst snd] in Hs. destruct Hs as [[H1 H2]|[H1 [o ->]]].
  - specialize (IH n1 H1). destruct (run n1 l) as [steps n2].
    destruct IH as [[H3 H4]|(H3 & before & o & k & -> & H4)].
    + left. split; [done|by constructor].
    + right. split; [done|]. exists (s :: before), o, k. split; [done|by constructor].
  - rewrite run_finished by done. right. split; [done|]. by exists [], o, (length l).
Qed.

Lemma run_app l1 l2 n :
  run n (l1 ++ l2) = ((run n l1).1 ++ (run (run n l1).2 l2).1, (run (run n l1).2 l2).2).
Proof.
  revert n. induction l1 as [|i l1 IH]; intros n; [simpl; by destruct (run n l2)|].
  cbn [app Sasl.run]. destruct (react i n) as [s n1]. rewrite IH.
  by destruct (run n1 l1) as [steps n2].
Qed.

(** * Lemmas: what a state implies *)

Definition consented (n : SaslNegotiator) : Prop :=
  is_Some (credentials n) ∧ contains_capability (offered n) (lit "sasl") = true.

(** SASL is under way only if the server offered it and there are credentials;
    the capability list stays bounded. *)
Record inv (n : SaslNegotiator) : Prop := {
  inv_bound : str_len (offered n) ≤ MAX_CAPABILITY_BYTES + 1;
  inv_early : state n = New ∨ state n = AwaitingCapabilities → requested_sasl n = false;
  inv_requested : requested_sasl n = true → state n ≠ Finished → consented n;
  inv_late : state n = AwaitingChallenge ∨ state n = AwaitingResult → requested_sasl n = true;
}.

Lemma inv_finished n : str_len (offered n) ≤ MAX_CAPABILITY_BYTES + 1 → state n = Finished → inv n.
Proof. intros H1 H2. split; [done|..]; rewrite ?H2; [by intros []|done|by intros []]. Qed.

Lemma str_len_lit_space : str_len (lit " ") = 1.
Proof. done. Qed.

Lemma offered_bound n payload :
  (MAX_CAPABILITY_BYTES <? str_len (offered n) + str_len payload) = false →
  str_len (offered n ++ (if is_empty (offered n) then [] else lit " ") ++ payload) ≤ MAX_CAPABILITY_BYTES + 1.
Proof.
  intros H%Nat.ltb_ge. rewrite !str_len_app. destruct (is_empty (offered n)); [cbn [str_len]; lia|].
  rewrite str_len_lit_space. lia.
Qed.

Lemma request_inv n : str_len (offered n) ≤ MAX_CAPABILITY_BYTES + 1 → inv (request_sasl_or_finish n).2.
Proof.
  intros Hb. unfold request_sasl_or_finish. destruct (is_empty _); [by apply inv_finished|].
  split; simpl; [done|by intros []| |by intros []].
  intros [H1%bool_decide_eq_true H2]%andb_true_iff _. done.
Qed.

Lemma on_cap_inv sub arg suffix n : inv n → inv (on_cap sub arg suffix n).2.
Proof.
  intros Hi. pose proof Hi as [Hb He Hr Hl]. unfold on_cap. destruct sub; try done.
  - destruct (state n) eqn:Es; try done. destruct (Nat.ltb _ _) eqn:Hlt; [by apply inv_finished|].
    pose proof (offered_bound _ _ Hlt) as Hb'.
    destruct (_ && _); [|by apply request_inv].
    split; simpl; [done|intros _; apply He; auto| |by rewrite Es; intros []].
    rewrite He by auto. done.
  - destruct (state n) eqn:Es; try done. destruct (negb _) eqn:Hq; [by apply inv_finished|].
    apply negb_false_iff in Hq. destruct (negb _); [by apply inv_finished|].
    split; simpl in *; [done|by intros []| |done]. intros _ _. by apply Hr.
  - destruct (state n) eqn:Es; try done. destruct (negb _); by apply inv_finished.
Qed.

Lemma react_inv i n : inv n → inv (react i n).2.
Proof.
  intros Hi. destruct i as [m|]; simpl.
  - unfold Sasl.advance. destruct (decide _); [done|].
    destruct (command m); try done; [by apply on_cap_inv| |].
    + unfold on_authenticate. destruct (_ || _) eqn:Hg; [done|].
      apply orb_false_iff in Hg as [Hg%negb_false_iff%bool_decide_eq_true _].
      pose proof Hi as [Hb He Hr Hl].
      destruct (credentials n); [|by apply inv_finished].
      split; simpl; [done|by intros []| |intros _; apply Hl; auto]. intros Hq _. by apply Hr.
    + unfold on_response. pose proof Hi as [Hb He Hr Hl].
      destruct response; try done; [destruct (decide _); [by apply inv_finished|done]|..];
        (destruct (_ && _); [done|by apply inv_finished]).
  - unfold abandon. pose proof Hi as []. destruct (decide _); [done|]. by apply inv_finished.
Qed.

Lemma run_inv inputs n : inv n → inv (run n inputs).2.
Proof.
  revert n. induction inputs as [|i l IH]; intros n Hn; [done|]. cbn [Sasl.run].
  pose proof (react_inv i n Hn). destruct (react i n) as [s n1]. specialize (IH n1).
  destruct (run n1 l). by apply IH.
Qed.

Lemma started_inv c : inv (started c).
Proof. split; simpl; [lia|done|done|by intros []]. Qed.

Lemma encode_plain_authenticates a p x :
  x ∈ encode_plain base64 a p → ∃ q, x = AUTHENTICATE q.
Proof.
  unfold encode_plain. destruct (is_empty _).
  - intros ->%list_elem_of_singleton. eauto.
  - rewrite elem_of_app. intros [(q & -> & _)%list_elem_of_fmap|H]; [eauto|].
    destruct (Nat.eqb _ _); [apply list_elem_of_singleton in H; eauto|by apply not_elem_of_nil in H].
Qed.

(** Only one step of the exchange sends AUTHENTICATE from a CAP line. *)
Lemma on_cap_authenticate sub arg suffix n p :
  AUTHENTICATE p ∈ to_send (on_cap sub arg suffix n).1 →
  p = lit "PLAIN" ∧ sub = CapACK ∧ state n = AwaitingAck ∧ requested_sasl n = true
  ∧ state (on_cap sub arg suffix n).2 = AwaitingChallenge.
Proof.
  assert (∀ l, (AUTHENTICATE p ∉ [CAP_END]) ∧ (AUTHENTICATE p ∉ [CAP None CapREQ None (Some l)])) as Hno.
  { intros l. split; by intros H%list_elem_of_singleton. }
  unfold on_cap. destruct sub; try (by intros H%not_elem_of_nil); destruct (state n) eqn:Es;
    try (by intros H%not_elem_of_nil).
  - destruct (Nat.ltb _ _); [by intros H%(Hno [])|]. destruct (_ && _); [by intros H%not_elem_of_nil|].
    unfold request_sasl_or_finish. destruct (is_empty _); [by intros H%(Hno [])|].
    intros H. by apply Hno in H.
  - cbn [requested_sasl set_acked]. destruct (requested_sasl n) eqn:Hq; cbn [negb]; [|by intros H%(Hno [])].
    destruct (negb _); [by intros H%(Hno [])|]. intros [= ->]%list_elem_of_singleton. done.
  - destruct (negb _); by intros H%(Hno []).
Qed.

(** * Properties *)

(** C31: however a server answers, a negotiation ends at most once.  Until it
    ends no step reports an outcome or sends CAP END; the step that ends it
    does both and nothing else; and after it nothing is sent or reported,
    whatever arrives.  A caller that loses patience always ends it. *)
Theorem sasl_one_outcome (c : option Credentials) (inputs : list Input) :
  (let '(steps, n) := run (started c) inputs in
   (state n ≠ Finished ∧ Forall quiet steps)
   ∨ (state n = Finished
      ∧ ∃ before o k, steps = before ++ finish o :: replicate k nothing ∧ Forall quiet before))
  ∧ state (run (started c) (inputs ++ [LostPatience])).2 = Finished.
Proof.
  split; [by apply run_shape|]. rewrite run_app. cbn [snd]. simpl.
  unfold abandon. by destruct (decide _).
Qed.

(** ** What a run sends *)

Definition is_auth (cmd : Command) : bool := match cmd with AUTHENTICATE _ => true | _ => false end.
(** All the AUTHENTICATE lines of a run, in the order they are sent. *)
Definition auths (steps : list SaslStep) : list Command := List.filter is_auth (concat (map to_send steps)).

Definition before_mechanism (n : SaslNegotiator) : bool :=
  match state n with New | AwaitingCapabilities | AwaitingAck => true | _ => false end.

(** What may still be sent from a state. *)
Definition may_send (n : SaslNegotiator) (l : list Command) : Prop :=
  let secret l := ∃ cr, credentials n = Some cr ∧ l = encode_plain base64 (account cr) (password cr) in
  match state n with
  | New | AwaitingCapabilities | AwaitingAck =>
      l = [] ∨ l = [AUTHENTICATE (lit "PLAIN")] ∨ ∃ l', l = AUTHENTICATE (lit "PLAIN") :: l' ∧ secret l'
  | AwaitingChallenge => l = [] ∨ secret l
  | AwaitingResult | Finished => l = []
  end.

Lemma may_send_nothing n : may_send n [].
Proof. unfold may_send. destruct (state n); auto. Qed.

(** A step that sends no AUTHENTICATE: nothing more may be sent after it than
    before. *)
Definition still (r : SaslStep * SaslNegotiator) (n : SaslNegotiator) : Prop :=
  List.filter is_auth (to_send r.1) = [] ∧
  (state r.2 = Finished ∨
   (state r.2 = state n ∨ before_mechanism r.2 = true ∧ before_mechanism n = true) ∧ credentials r.2 = credentials n).

Lemma still_may r n l : still r n → may_send r.2 l → may_send n l.
Proof.
  intros [_ [Hf|[H Hc]]] Hl.
  - unfold may_send at 1 in Hl. rewrite Hf in Hl. cbn in Hl. subst. apply may_send_nothing.
  - unfold may_send, before_mechanism in *. rewrite Hc in Hl. destruct H as [Hs|[H1 H2]]; [by rewrite Hs in Hl|].
    by destruct (state r.2), (state n).
Qed.

Lemma encode_plain_auths a p : List.filter is_auth (encode_plain base64 a p) = encode_plain base64 a p.
Proof.
  assert (∀ l, List.filter is_auth (map AUTHENTICATE l) = map AUTHENTICATE l) as Hm by (induction l as [|x l IH]; cbn; congruence).
  unfold encode_plain. destruct (is_empty _); [done|]. rewrite List.filter_app, Hm. by destruct (Nat.eqb _ _).
Qed.

Lemma still_stays s n : List.filter is_auth (to_send s) = [] → still (s, n) n.
Proof. intros H. split; [done|]. right. split; [by left|done]. Qed.
Lemma still_finish o n n' : state n' = Finished → still (finish o, n') n.
Proof. intros H. split; [done|by left]. Qed.

Lemma on_cap_sends sub arg suffix n :
  still (on_cap sub arg suffix n) n ∨
  (before_mechanism n = true ∧ (on_cap sub arg suffix n).1 = send_one (AUTHENTICATE (lit "PLAIN")) ∧
   state (on_cap sub arg suffix n).2 = AwaitingChallenge ∧ credentials (on_cap sub arg suffix n).2 = credentials n).
Proof.
  unfold on_cap. destruct sub; try (left; by apply still_stays); destruct (state n) eqn:Es; try (left; by apply still_stays).
  - left. destruct (Nat.ltb _ _); [by apply still_finish|]. destruct (_ && _).
    + split; [done|]. right. split; [right|done]. unfold before_mechanism. cbn. by rewrite Es.
    + unfold request_sasl_or_finish. destruct (is_empty _); [by apply still_finish|].
      split; [done|]. right. split; [right|done]. unfold before_mechanism. by rewrite Es.
  - destruct (negb _); [left; by apply still_finish|]. destruct (negb _); [left; by apply still_finish|].
    right. unfold before_mechanism. by rewrite Es.
  - left. destruct (negb _); by apply still_finish.
Qed.

Lemma react_sends i n :
  still (react i n) n ∨
  (before_mechanism n = true ∧ (react i n).1 = send_one (AUTHENTICATE (lit "PLAIN")) ∧
   state (react i n).2 = AwaitingChallenge ∧ credentials (react i n).2 = credentials n) ∨
  (state n = AwaitingChallenge ∧ state (react i n).2 = AwaitingResult ∧
   ∃ cr, credentials n = Some cr ∧ to_send (react i n).1 = encode_plain base64 (account cr) (password cr)).
Proof.
  destruct i as [m|]; simpl.
  2: { left. unfold abandon. destruct (decide _); [by apply still_stays|by apply still_finish]. }
  unfold Sasl.advance. destruct (decide _); [left; by apply still_stays|].
  destruct (command m); try (left; by apply still_stays).
  - match goal with |- context [on_cap ?a ?b ?c n] => destruct (on_cap_sends a b c n) as [?|?]; auto end.
  - unfold on_authenticate. destruct (_ || _) eqn:Hg; [left; by apply still_stays|].
    apply orb_false_iff in Hg as [Hg%negb_false_iff%bool_decide_eq_true _].
    destruct (credentials n) as [cr|]; [|left; by apply still_finish]. right; right. split_and!; [done|done|]. by exists cr.
  - left. unfold on_response. destruct response; try (by apply still_stays);
      [destruct (decide _); [by apply still_finish|by apply still_stays]|..];
      (destruct (_ && _); [by apply still_stays|by apply still_finish]).
Qed.

Lemma run_sends inputs n : may_send n (auths (run n inputs).1).
Proof.
  revert n. induction inputs as [|i inputs IH]; intros n; [apply may_send_nothing|]. cbn [Sasl.run].
  pose proof (react_sends i n) as H. destruct (react i n) as [s n1]. specialize (IH n1).
  destruct (run n1 inputs) as [steps n2]. unfold auths. cbn [fst snd map concat] in *. rewrite List.filter_app. fold (auths steps).
  destruct H as [Hs|[(Hb & -> & Hc & Hcr)|(Hc & Hr & cr & Hcr & ->)]].
  - pose proof (proj1 Hs) as E. cbn [fst] in E. rewrite E. by apply (still_may _ _ _ Hs).
  - unfold may_send in IH. rewrite Hc in IH. cbn in IH. rewrite Hcr in IH. unfold may_send, before_mechanism in *. cbn.
    destruct (state n); try done; (destruct IH as [->|IH]; [auto|]; right; right; by eexists).
  - unfold may_send in IH. rewrite Hr in IH. cbn in IH. rewrite IH, app_nil_r, encode_plain_auths.
    unfold may_send. rewrite Hc. cbn. right. by exists cr.
Qed.

(** C30: no server gets the credentials without asking for them the right way,
    nor twice.  All the AUTHENTICATE lines of a whole run, whatever arrives in
    it, are none, or the mechanism, or the mechanism and after it the
    credentials, once.  In every state a run can reach they are sent only if
    there are credentials and the server offered SASL: the mechanism only on
    the acknowledgement of a request for it, the credentials only on the empty
    challenge that follows.  The success numeric counts only once the
    credentials were sent.  What is kept of the server's list stays within one
    byte of its bound. *)
Theorem secrets_follow_consent (c : option Credentials) (inputs : list Input) (i : Input) :
  (auths (run (started c) inputs).1 = []
   ∨ auths (run (started c) inputs).1 = [AUTHENTICATE (lit "PLAIN")]
   ∨ ∃ cr, c = Some cr ∧
       auths (run (started c) inputs).1 = AUTHENTICATE (lit "PLAIN") :: encode_plain base64 (account cr) (password cr)) ∧
  let n := (run (started c) inputs).2 in
  let '(s, n') := react i n in
  str_len (offered n) ≤ MAX_CAPABILITY_BYTES + 1
  ∧ (outcome s = Some Authenticated → state n = AwaitingResult ∧ consented n)
  ∧ ∀ p, AUTHENTICATE p ∈ to_send s →
      consented n
      ∧ ((p = lit "PLAIN" ∧ state n = AwaitingAck ∧ state n' = AwaitingChallenge)
         ∨ (state n = AwaitingChallenge ∧ state n' = AwaitingResult
            ∧ ∃ m q, i = Received m ∧ command m = AUTHENTICATE q ∧ trim q = lit "+")).
Proof.
  split; [destruct (run_sends inputs (started c)) as [H|[H|(l & H & cr & Hc & ->)]]; eauto 10|].
  cbv zeta. pose proof (run_inv inputs _ (started_inv c)) as Hi. set (n := (run (started c) inputs).2) in *.
  destruct (react i n) as [s n'] eqn:E. destruct Hi as [Hb He Hr Hl]. split; [done|].
  match goal with |- ?G => assert (∀ r, (nothing, r) = (s, n') → G) as Hno end.
  { intros r [= <- <-]. split; [done|]. by intros p Hp%not_elem_of_nil. }
  destruct i as [m|]; simpl in E.
  2: { unfold abandon in E. destruct (decide _); [exact (Hno _ E)|].
       injection E as <- <-. split; [by destruct (_ || _)|]. intros p [=]%list_elem_of_singleton. }
  unfold Sasl.advance in E. destruct (decide _) as [|Hf]; [exact (Hno _ E)|].
  destruct (command m) as [? sub arg suffix| | | | | | | | | | | | | | | | | | | |payload| |response args| |] eqn:Em;
    try (exact (Hno _ E)).
  - split.
    + intros Ho. exfalso. revert Ho. replace s with (on_cap sub arg suffix n).1 by (by rewrite E). clear.
      unfold on_cap. destruct sub; try done; destruct (state n); try done;
        repeat first [destruct (negb _)|destruct (Nat.ltb _ _)|destruct (_ && _)]; try done.
      unfold request_sasl_or_finish. by destruct (is_empty _).
    + intros p Hp. destruct (on_cap_authenticate sub arg suffix n p) as (-> & _ & H1 & H2 & H3); [by rewrite E|].
      split; [apply Hr; [done|congruence]|]. left. split_and!; [done..|]. by rewrite E in H3.
  - unfold on_authenticate in E. destruct (_ || _) eqn:Hg; [exact (Hno _ E)|].
    apply orb_false_iff in Hg as [Hg1%negb_false_iff%bool_decide_eq_true Hg2%negb_false_iff%bool_decide_eq_true].
    destruct (credentials n) as [cr|] eqn:Hc.
    + injection E as <- <-. split; [done|]. intros p Hp. split; [apply Hr; [apply Hl; auto|congruence]|].
      right. split_and!; [done..|]. eauto.
    + injection E as <- <-. split; [done|]. by intros p [=]%list_elem_of_singleton.
  - unfold on_response in E. destruct response; try (exact (Hno _ E)).
    { destruct (decide _) as [Hs|]; [|exact (Hno _ E)].
      injection E as <- <-. split; [intros _; split; [done|apply Hr; [apply Hl; auto|congruence]]|].
      by intros p [=]%list_elem_of_singleton. }
    all: destruct (_ && _); [exact (Hno _ E)|];
      injection E as <- <-; (split; [done|]); by intros p [=]%list_elem_of_singleton.
Qed.

(** Whether an input is a CAP line. *)
Definition is_cap (i : Input) : bool :=
  match i with Received m => match command m with CAP _ _ _ _ => true | _ => false end | _ => false end.

Lemma on_cap_credentials sub arg suffix n : credentials (on_cap sub arg suffix n).2 = credentials n.
Proof.
  unfold on_cap. destruct sub; try done; destruct (state n); try done;
    repeat first [destruct (negb _)|destruct (Nat.ltb _ _)|destruct (_ && _)]; try done.
  unfold request_sasl_or_finish. by destruct (is_empty _).
Qed.

(** When a negotiation ends by success, by a failure numeric or by loss
    of patience, the password is dropped with it; when it ends by a CAP line (a
    refusal, an oversized list, nothing worth asking for), it is kept. *)
Theorem password_at_the_end (i : Input) (n : SaslNegotiator) :
  state n ≠ Finished → state (react i n).2 = Finished →
  credentials (react i n).2 = if is_cap i then credentials n else None.
Proof.
  intros Hn. destruct i as [m|]; simpl.
  2: { unfold abandon. by destruct (decide _). }
  unfold Sasl.advance. destruct (decide _); [done|].
  destruct (command m); try done; [intros _; apply on_cap_credentials| |].
  - unfold on_authenticate. destruct (_ || _); [done|]. destruct (credentials n) eqn:E; [done|]. intros _. exact E.
  - unfold on_response. destruct response; try done; [by destruct (decide _)|..]; by destruct (_ && _).
Qed.

(** ** The credentials on the wire *)

(** What a server puts together: payloads of exactly 400 bytes go on, a
    shorter one ends, and a lone plus sign stands for an empty one. *)
Fixpoint reassemble (cmds : list Command) : option str :=
  match cmds with
  | AUTHENTICATE p :: rest =>
      let p' := if bool_decide (p = lit "+") then [] else p in
      if Nat.ltb (length p') AUTHENTICATE_CHUNK then
        match rest with [] => Some p' | _ => None end
      else if Nat.eqb (length p') AUTHENTICATE_CHUNK then
        match reassemble rest with Some r => Some (p' ++ r) | None => None end
      else None
  | _ => None
  end.

(** The documented length of padded base64. *)
Hypothesis base64_length : ∀ s, Nat.modulo (length (base64 s)) 4 = 0.

Lemma chunks_fuel fuel k l :
  0 < k → length l ≤ fuel → chunks fuel k l = chunks (length l) k l.
Proof.
  intros Hk. revert l. induction fuel as [fuel IH] using lt_wf_ind. intros l Hl.
  destruct l as [|x l]; [by destruct fuel|]. destruct fuel as [|fuel]; cbn [length] in *; [lia|].
  cbn [chunks]. f_equal.
  assert (length (drop k (x :: l)) ≤ length l) by (rewrite length_drop; cbn [length]; lia).
  rewrite (IH fuel), (IH (length l)) by lia. done.
Qed.

Lemma chunks_step k l :
  0 < k → l ≠ [] → chunks (length l) k l = take k l :: chunks (length (drop k l)) k (drop k l).
Proof.
  intros Hk Hl. destruct l as [|x l]; [done|]. cbn [chunks length].
  rewrite (chunks_fuel (length l)); [done|done|]. rewrite length_drop. cbn [length]. lia.
Qed.

Lemma reassemble_step p rest :
  p ≠ lit "+" →
  reassemble (AUTHENTICATE p :: rest) =
  if Nat.ltb (length p) AUTHENTICATE_CHUNK then match rest with [] => Some p | _ => None end
  else if Nat.eqb (length p) AUTHENTICATE_CHUNK then
    match reassemble rest with Some r => Some (p ++ r) | None => None end
  else None.
Proof. intros Hp. cbn [reassemble]. by rewrite (bool_decide_false (p = lit "+")). Qed.

Lemma chunk_mod k : Nat.modulo (k + AUTHENTICATE_CHUNK) AUTHENTICATE_CHUNK = Nat.modulo k AUTHENTICATE_CHUNK
  ∧ Nat.modulo (k + AUTHENTICATE_CHUNK) 4 = Nat.modulo k 4.
Proof.
  split; [|unfold AUTHENTICATE_CHUNK].
  - pose proof (Nat.Div0.mod_add k 1 AUTHENTICATE_CHUNK) as H. by rewrite Nat.mul_1_l in H.
  - exact (Nat.Div0.mod_add k 100 4).
Qed.

Lemma reassemble_chunks e :
  Nat.modulo (length e) 4 = 0 →
  reassemble (map AUTHENTICATE (chunks (length e) AUTHENTICATE_CHUNK e)
              ++ (if Nat.eqb (Nat.modulo (length e) AUTHENTICATE_CHUNK) 0 then [AUTHENTICATE (lit "+")] else []))
  = Some e.
Proof.
  induction e as [e IH] using (induction_ltof1 _ length). unfold ltof in IH. intros H4.
  destruct (decide (e = [])) as [->|Hne]; [done|].
  assert (0 < AUTHENTICATE_CHUNK) as Hpos by (unfold AUTHENTICATE_CHUNK; lia).
  assert (take AUTHENTICATE_CHUNK e ≠ lit "+") as Hp.
  { intros E. assert (length (take AUTHENTICATE_CHUNK e) = 1) as El by (by rewrite E).
    rewrite length_take in El. unfold AUTHENTICATE_CHUNK in El. assert (length e = 1) as El' by lia.
    by rewrite El' in H4. }
  rewrite chunks_step by done. cbn [map app]. rewrite reassemble_step by done. rewrite length_take.
  destruct (Nat.ltb_spec (AUTHENTICATE_CHUNK `min` length e) AUTHENTICATE_CHUNK) as [Hlt|Hge].
  - rewrite drop_ge, take_ge by lia. rewrite Nat.mod_small by lia.
    by destruct (Nat.eqb_spec (length e) 0); [destruct e|].
  - rewrite (proj2 (Nat.eqb_eq _ _)) by lia.
    assert (length e = length (drop AUTHENTICATE_CHUNK e) + AUTHENTICATE_CHUNK) as Hd by (rewrite length_drop; lia).
    rewrite Hd, (proj1 (chunk_mod _)). rewrite IH; [by rewrite take_drop|lia|].
    rewrite Hd in H4. by rewrite (proj2 (chunk_mod _)) in H4.
Qed.

Lemma chunks_bound fuel k l : Forall (λ c, length c ≤ k) (chunks fuel k l).
Proof.
  revert l. induction fuel as [|fuel IH]; intros [|x l]; cbn [chunks]; try constructor; [|apply IH].
  rewrite length_take. lia.
Qed.

(** The credentials reach the server whole.  Putting the AUTHENTICATE
    payloads together the way SASL prescribes gives the base64 of the account
    and the password, an exact multiple of the chunk included, and no payload
    is longer than a chunk; so a server that decodes it and splits it at the
    NULs has the account and the password. *)
Theorem encode_plain_roundtrip (decode : str → option str) (a p : str) :
  (∀ s, decode (base64 s) = Some s) → (0%N ∉ a) →
  Forall (λ cmd, ∃ q, cmd = AUTHENTICATE q ∧ length q ≤ AUTHENTICATE_CHUNK) (encode_plain base64 a p)
  ∧ ∃ raw, (reassemble (encode_plain base64 a p) ≫= decode) = Some raw
    ∧ split_once 0%N raw = Some ([], a ++ 0%N :: p) ∧ split_once 0%N (a ++ 0%N :: p) = Some (a, p).
Proof.
  intros Hd Ha. unfold encode_plain. set (e := base64 _).
  assert (Nat.modulo (length e) 4 = 0) as H4 by apply base64_length.
  assert (decode e = Some ([0%N] ++ a ++ [0%N] ++ p)) as Hde by apply Hd.
  pose proof (reassemble_chunks e H4) as Hre.
  assert (length (lit "+") ≤ AUTHENTICATE_CHUNK) as Hplus by (unfold AUTHENTICATE_CHUNK; simpl; lia).
  split.
  - destruct (is_empty e); [constructor; [eauto|constructor]|]. apply Forall_app. split.
    + apply Forall_forall. intros x (q & -> & Hq)%list_elem_of_fmap. exists q. split; [done|].
      pose proof (chunks_bound (length e) AUTHENTICATE_CHUNK e) as Hb. rewrite Forall_forall in Hb. by apply Hb.
    + destruct (Nat.eqb _ _); [constructor; [eauto|constructor]|constructor].
  - exists ([0%N] ++ a ++ [0%N] ++ p). split.
    + destruct (is_empty e) eqn:Ee; [|by rewrite Hre].
      assert (reassemble [AUTHENTICATE (lit "+")] = Some e) as ->; [|exact Hde].
      apply is_empty_true in Ee. by rewrite Ee.
    + split; apply split_once_spec; (split; [done|]); [apply not_elem_of_nil|done].
Qed.
End Sasl.

(** * Witnesses *)

(** A stand-in for base64 with the lengths of padded base64: every character
    four times. *)
Definition quadruple (s : str) : str := concat (map (λ c, [c; c; c; c]) s).
Fixpoint every_fourth (s : str) : str :=
  match s with a :: _ :: _ :: _ :: s => a :: every_fourth s | _ => [] end.

Lemma quadruple_length s : Nat.modulo (length (quadruple s)) 4 = 0.
Proof.
  unfold quadruple. induction s as [|c s IH]; [done|]. cbn [map concat app length].
  replace (S (S (S (S (length (concat (map (λ c, [c; c; c; c]) s)))))))
    with (length (concat (map (λ c, [c; c; c; c]) s)) + 1 * 4) by lia.
  by rewrite Nat.Div0.mod_add.
Qed.
Lemma every_fourth_quadruple s : every_fourth (quadruple s) = s.
Proof. unfold quadruple. induction s as [|c s IH]; [done|]. cbn. by rewrite IH. Qed.

Definition demo_credentials : Credentials := mkCredentials (lit "ddirc") (lit "hunter2").

Lemma encode_plain_roundtrip_witness :
  ∃ raw, (reassemble (encode_plain quadruple (lit "ddirc") (lit "hunter2")) ≫= λ s, Some (every_fourth s)) = Some raw
    ∧ split_once 0%N raw = Some ([], lit "ddirc" ++ 0%N :: lit "hunter2").
Proof.
  destruct (encode_plain_roundtrip quadruple quadruple_length (λ s, Some (every_fourth s)) (lit "ddirc") (lit "hunter2"))
    as (_ & raw & H1 & H2 & _).
  - intros s. by rewrite every_fourth_quadruple.
  - apply contains_char_false. vm_compute. reflexivity.
  - exists raw. split; [exact H1|exact H2].
Defined.

(** The request for SASL is refused: the negotiation is over and the password
    is still there. *)
Definition nak : Input := Received (mkMessage None (CAP None CapNAK None (Some (lit "sasl")))).
Definition awaiting_ack : SaslNegotiator :=
  (run quadruple (started (Some demo_credentials))
     [Received (mkMessage None (CAP None CapLS (Some (lit "sasl")) None))]).2.

Lemma password_at_the_end_witness :
  credentials (react quadruple nak awaiting_ack).2 = Some demo_credentials.
Proof.
  rewrite (password_at_the_end quadruple nak awaiting_ack); [reflexivity|discriminate|reflexivity].
Defined.
