(* ===== verification/Offer.v ===== *)
(** Reading a DCC offer off the wire ([ddirc-core/src/dcc/offer.rs]).

    Parsing an address literal is [str::parse::<IpAddr>] of the standard
    library; it is a parameter here, and nothing is assumed of it. *)
From S2P Require Import Prelude RustStr.

(** * File names *)

Definition is_separator (c : char) : bool := (c =? 0x2F)%N || (c =? 0x5C)%N.

(** [rsplit(['/', '\\']).next()]: what follows the last separator. *)
Definition bare_name (name : str) : str :=
  rev (take_while (λ c, negb (is_separator c)) (rev name)).

Definition is_reserved (c : char) : bool := contains_char c (lit "<>:|?*" ++ [0x22%N]).
Definition replace_reserved (c : char) : char := if is_reserved c then 0x5F%N else c.

(** What Windows would drop from the end of a name. *)
Definition is_trailing (c : char) : bool := (c =? 0x2E)%N || (c =? 0x20)%N.

Definition device_suffixes : list str :=
  map lit ["0"; "1"; "2"; "3"; "4"; "5"; "6"; "7"; "8"; "9"]%string ++ [[0xB9%N]; [0xB2%N]; [0xB3%N]].

Definition is_device_stem (stem : str) : bool :=
  bool_decide (stem ∈ map lit ["CON"; "PRN"; "AUX"; "NUL"; "CONIN$"; "CONOUT$"]%string)
  || existsb (λ prefix,
       match strip_prefix prefix stem with
       | Some rest => bool_decide (rest ∈ device_suffixes)
       | None => false
       end) (map lit ["COM"; "LPT"]%string).

(** [name.split('.').next()], trimmed and upper-cased. *)
Definition device_stem (name : str) : str :=
  to_ascii_uppercase (trim_end_matches (N.eqb 0x20) (take_while (λ c, negb (c =? 0x2E)%N) name)).

Definition is_windows_device_name (name : str) : bool := is_device_stem (device_stem name).

(** A name this program gives an unfinished download. *)
Definition is_partial_name (name : str) : bool :=
  let lower := to_ascii_lowercase name in
  ends_with (lit ".part") lower || ends_with (lit ".part.from") lower.

Definition safe_filename (name : str) : option str :=
  let bare := bare_name name in
  if is_empty bare || bool_decide (bare = lit ".") || bool_decide (bare = lit "..") then None
  else if Nat.ltb 255 (str_len bare) then None
  else if existsb is_control bare then None
  else
    let replaced := map replace_reserved bare in
    let trimmed := trim_end_matches is_trailing replaced in
    if is_empty trimmed then None
    else
      let name := if is_partial_name trimmed then trimmed ++ lit "_" else trimmed in
      let name := if is_windows_device_name name then lit "_" ++ name else name in
      if Nat.leb (str_len name) 255 then Some name else None.

(** * Offers *)

(** [split_at_checked], at a byte position. *)
Definition split_at_checked (s : str) (i : nat) : option (str * str) :=
  match byte_prefix s i with
  | Some head => Some (head, drop (length head) s)
  | None => None
  end.

Definition strip_keyword (s keyword : str) : option str :=
  let s := trim_start s in
  match split_at_checked s (str_len keyword) with
  | None => None
  | Some (head, rest) =>
      if negb (eq_ignore_ascii_case head keyword) then None
      else if negb (starts_with_char 0x20%N rest) then None
      else Some (trim_start rest)
  end.

(** The quotation mark is dropped after a quoted name; the space that ends a
    bare one stays, and is skipped with the other blanks. *)
Definition take_filename (s : str) : option (str * str) :=
  match strip_prefix [0x22%N] s with
  | Some rest => split_once 0x22%N rest
  | None =>
      match split_once 0x20%N s with
      | Some (name, rest) => Some (name, 0x20%N :: rest)
      | None => None
      end
  end.

(** [iter.next().and_then(|s| s.parse::<u64>().ok())]. *)
Definition optional_u64 (arg : option str) : option N := arg ≫= parse_unsigned u64_max.

Section Address.
Context {IpAddr : Type} (v4 : N → IpAddr) (parse_ip : str → option IpAddr).

Definition is_bracket (c : char) : bool := (c =? 0x5B)%N || (c =? 0x5D)%N.

(** [trim_matches(['[', ']'])] in the second form. *)
Definition parse_addr (s : str) : option IpAddr :=
  match parse_unsigned u32_max s with
  | Some packed => Some (v4 packed)
  | None => parse_ip (trim_end_matches is_bracket (trim_start_matches is_bracket s))
  end.

Record DccOffer := mkOffer {
  filename : str;
  addr : option IpAddr;
  port : option N;
  size : option N;
  token : option N;
}.

Definition is_reverse (o : DccOffer) : bool := bool_decide (is_Some (token o)).

Definition parse_send (body : str) : option DccOffer :=
  rest ← strip_keyword body (lit "DCC");
  rest ← strip_keyword rest (lit "SEND");
  '(name, rest) ← take_filename rest;
  filename ← safe_filename name;
  let args := split_whitespace rest in
  a ← args !! 0;
  p ← args !! 1;
  port ← parse_unsigned u16_max p;
  let size := optional_u64 (args !! 2) in
  let token := optional_u64 (args !! 3) in
  if (port =? 0)%N then
    t ← token; Some (mkOffer filename None None size (Some t))
  else
    ip ← parse_addr a; Some (mkOffer filename (Some ip) (Some port) size None).
End Address.
Arguments DccOffer : clear implicits.

Record ResumeMessage := mkResume {
  r_filename : str;
  r_port : N;
  r_position : N;
  r_token : option N;
}.

Definition parse_resume_like (body keyword : str) : option ResumeMessage :=
  rest ← strip_keyword body (lit "DCC");
  rest ← strip_keyword rest keyword;
  '(name, rest) ← take_filename rest;
  filename ← safe_filename name;
  let args := split_whitespace rest in
  p ← args !! 0;
  port ← parse_unsigned u16_max p;
  q ← args !! 1;
  position ← parse_unsigned u64_max q;
  Some (mkResume filename port position (optional_u64 (args !! 2))).

Definition parse_resume (body : str) : option ResumeMessage := parse_resume_like body (lit "RESUME").
Definition parse_accept (body : str) : option ResumeMessage := parse_resume_like body (lit "ACCEPT").

(** * Properties of DCC offers. *)

(** A name that may be created in a directory, on any platform, without
    escaping it, naming a device or passing for one of our own files. *)
Record safe_name (f : str) : Prop := {
  sn_nonempty : f ≠ [];
  sn_chars : Forall (λ c, is_separator c = false ∧ is_control c = false ∧ is_reserved c = false) f;
  sn_length : str_len f ≤ 255;
  sn_last : ∀ c, last f = Some c → is_trailing c = false;
  sn_device : is_windows_device_name f = false;
  sn_partial : is_partial_name f = false;
}.

(** * Lemmas: characters *)

Lemma underscore_fine :
  is_separator 0x5F = false ∧ is_control 0x5F = false ∧ is_reserved 0x5F = false ∧ is_trailing 0x5F = false.
Proof. done. Qed.

Lemma replace_reserved_fine c :
  is_separator c = false → is_control c = false →
  let d := replace_reserved c in is_separator d = false ∧ is_control d = false ∧ is_reserved d = false.
Proof. intros H1 H2. unfold replace_reserved. by destruct (is_reserved c) eqn:E. Qed.

Lemma replace_reserved_id c : is_reserved c = false → replace_reserved c = c.
Proof. unfold replace_reserved. by intros ->. Qed.

Lemma bare_name_no_separator name : Forall (λ c, is_separator c = false) (bare_name name).
Proof.
  unfold bare_name. apply Forall_rev. eapply Forall_impl; [apply take_while_forall|].
  simpl. intros c H. by apply negb_true_iff.
Qed.

Lemma take_while_all f s : Forall (λ c, f c = true) s → take_while f s = s.
Proof. induction 1 as [|c s Hc Hs IH]; simpl; [done|]. by rewrite Hc, IH. Qed.

Lemma bare_name_id name : Forall (λ c, is_separator c = false) name → bare_name name = name.
Proof.
  intros H. unfold bare_name. rewrite take_while_all; [apply rev_involutive|].
  apply Forall_rev. eapply Forall_impl; [done|]. simpl. by intros c ->.
Qed.

(** * Lemmas: marked names *)

Lemma last_app_ne {A} (l k : list A) : k ≠ [] → last (l ++ k) = last k.
Proof. intros H. destruct (last k) as [x|] eqn:E; [|by apply last_None in E].
  apply last_Some in E as [k' ->]. by rewrite (assoc_L (++)), last_snoc.
Qed.

(** A name ending in an underscore is not one of our own. *)
Lemma marked_not_partial f : last f = Some 0x5F%N → is_partial_name f = false.
Proof.
  intros [l ->]%last_Some. unfold is_partial_name, ends_with, to_ascii_lowercase.
  rewrite map_app, rev_app_distr. done.
Qed.

(** A mark in front does not make a name one of our own. *)
Lemma starts_with_snoc p s c :
  starts_with p s = false → last p ≠ Some c → starts_with p (s ++ [c]) = false.
Proof.
  revert s. induction p as [|a p IH]; intros s; [done|]. destruct s as [|b s]; cbn [starts_with app].
  - intros _ Hl. destruct (N.eqb_spec a c) as [->|]; [|done]. by destruct p.
  - intros H Hl. destruct (a =? b)%N; [|done]. cbn [andb] in *. apply IH; [done|]. by destruct p.
Qed.

Lemma partial_cons f : is_partial_name f = false → is_partial_name (0x5F%N :: f) = false.
Proof.
  unfold is_partial_name, ends_with, to_ascii_lowercase. cbn [map rev].
  intros [H1 H2]%orb_false_iff. by rewrite !starts_with_snoc.
Qed.

(** A mark in front makes a device name an ordinary one. *)
Lemma marked_not_device f : is_windows_device_name (0x5F%N :: f) = false.
Proof.
  unfold is_windows_device_name.
  assert (∃ r, device_stem (0x5F%N :: f) = 0x5F%N :: r) as [r ->].
  { unfold device_stem. change (take_while (λ c, negb (c =? 46)%N) (95%N :: f))
      with (95%N :: take_while (λ c, negb (c =? 46)%N) f).
    set (s := 95%N :: take_while _ f).
    assert (∃ k, trim_end_matches (N.eqb 32) s = 95%N :: k) as [k ->]; [|by eexists].
    destruct (trim_end_matches_prefix (N.eqb 32) s) as [t Ht].
    destruct (trim_end_matches (N.eqb 32) s) as [|x k] eqn:E; [|injection Ht as <- _; eauto].
    exfalso. unfold trim_end_matches in E. apply (f_equal (@rev N)) in E. rewrite rev_involutive in E. change (rev []) with (@nil N) in E.
    assert (95%N ∈ rev s) as Hin by (apply elem_of_rev; left).
    rewrite <- (take_while_app (N.eqb 32) (rev s)), E, app_nil_r in Hin.
    pose proof (take_while_forall (N.eqb 32) (rev s)) as Hf. rewrite Forall_forall in Hf.
    by apply Hf in Hin. }
  unfold is_device_stem. rewrite bool_decide_false; [done|].
  intros (x & H & Hx)%list_elem_of_fmap. revert H.
  assert (Forall (λ s, lit s ≠ 95%N :: r) ["CON"; "PRN"; "AUX"; "NUL"; "CONIN$"; "CONOUT$"]%string) as Hf
    by (repeat constructor; discriminate).
  rewrite Forall_forall in Hf. intros H. by apply (Hf x).
Qed.

(** * Lemmas: [safe_filename] *)

Lemma str_len_cons_ascii c s : (c < 128)%N → str_len (c :: s) = S (str_len s).
Proof. intros H. cbn [str_len]. unfold len_utf8. apply N.ltb_lt in H. by rewrite H. Qed.

(** The last two steps make a trimmed name safe. *)
Lemma mark_safe f :
  f ≠ [] → Forall (λ c, is_separator c = false ∧ is_control c = false ∧ is_reserved c = false) f →
  (∀ c, last f = Some c → is_trailing c = false) →
  let g := if is_partial_name f then f ++ lit "_" else f in
  let h := if is_windows_device_name g then lit "_" ++ g else g in
  str_len h ≤ 255 → safe_name h.
Proof.
  intros Hne Hch Hlast g h Hlen.
  assert (g ≠ [] ∧ Forall (λ c, is_separator c = false ∧ is_control c = false ∧ is_reserved c = false) g
    ∧ (∀ c, last g = Some c → is_trailing c = false) ∧ is_partial_name g = false) as (G1 & G2 & G3 & G4).
  { unfold g. destruct (is_partial_name f) eqn:Hp; [|done].
    change (lit "_") with [0x5F%N]. split_and!.
    - by destruct f.
    - apply Forall_app. split; [done|]. by repeat constructor.
    - intros c. rewrite last_snoc. by intros [= <-].
    - apply marked_not_partial. apply last_snoc. }
  unfold h in *. destruct (is_windows_device_name g) eqn:Hd; [|by split].
  split; [done| |done| |apply marked_not_device|by apply partial_cons].
  - constructor; [done|exact G2].
  - intros c. destruct g as [|x g]; [done|]. exact (G3 c).
Qed.

Lemma safe_filename_safe name f : safe_filename name = Some f → safe_name f.
Proof.
  unfold safe_filename. destruct (_ || _ || _); [done|]. destruct (Nat.ltb _ _); [done|].
  destruct (existsb is_control (bare_name name)) eqn:Hc; [done|].
  set (trimmed := trim_end_matches is_trailing _).
  destruct (is_empty trimmed) eqn:He; [done|]. apply is_empty_false in He.
  cbv zeta. destruct (Nat.leb _ _) eqn:Hl; [|done]. apply Nat.leb_le in Hl.
  intros [= <-]. apply mark_safe; [done| |intros c; apply trim_end_matches_last|done].
  assert (Forall (λ c, is_separator c = false ∧ is_control c = false ∧ is_reserved c = false)
    (map replace_reserved (bare_name name))) as Hr.
  { apply Forall_forall. intros d (c & -> & Hin)%list_elem_of_fmap. apply replace_reserved_fine.
    - pose proof (bare_name_no_separator name) as Hs. rewrite Forall_forall in Hs. by apply Hs.
    - rewrite existsb_elem_false in Hc. by apply Hc. }
  destruct (trim_end_matches_prefix is_trailing (map replace_reserved (bare_name name))) as [t Ht].
  rewrite Ht in Hr. by apply Forall_app in Hr as [Hr _].
Qed.

Lemma safe_filename_id f : safe_name f → safe_filename f = Some f.
Proof.
  intros [Hne Hch Hl Hlast Hd Hp]. unfold safe_filename.
  assert (Forall (λ c, is_separator c = false) f) as Hs by (eapply Forall_impl; [done|]; by intros ? []).
  rewrite bare_name_id by done.
  assert (is_empty f || bool_decide (f = lit ".") || bool_decide (f = lit "..") = false) as ->.
  { apply is_empty_false in Hne as ->. rewrite !bool_decide_false; [done|..]; intros ->; by discriminate (Hlast 46%N eq_refl). }
  destruct (Nat.ltb_spec 255 (str_len f)); [lia|].
  assert (existsb is_control f = false) as ->.
  { apply existsb_elem_false. intros c Hc. rewrite Forall_forall in Hch. by apply Hch. }
  assert (map replace_reserved f = f) as ->.
  { clear -Hch. induction Hch as [|c f (_ & _ & Hc) Hf IH]; [done|]. cbn [map]. by rewrite IH, replace_reserved_id. }
  rewrite trim_end_matches_id by done. apply is_empty_false in Hne as ->. rewrite Hp, Hd.
  by destruct (Nat.leb_spec (str_len f) 255); [|lia].
Qed.

(** * Properties *)

(** C37: A name an offer is kept under is safe, and a safe name is kept as it
    is. Whatever a stranger writes in an offer, the name it yields has no path
    separator, control character or character Windows reserves, is not empty
    and is at most 255 bytes long, does not end in a dot or a space, is not a
    device of Windows and is not a name this program gives its own unfinished
    downloads; and the names left unchanged are exactly the safe ones, so
    cleaning a name twice is cleaning it once. *)
Theorem safe_filename_exact :
  (∀ name f, safe_filename name = Some f → safe_name f ∧ safe_filename f = Some f) ∧
  (∀ f, safe_filename f = Some f ↔ safe_name f).
Proof.
  split.
  - intros name f H. apply safe_filename_safe in H. split; [done|]. by apply safe_filename_id.
  - intros f. split; [apply safe_filename_safe|apply safe_filename_id].
Qed.
