(* ===== verification/Transfer.v ===== *)
(** Moving the bytes of a DCC offer ([ddirc-core/src/dcc/transfer.rs]).

    A directory is a finite map from names to what is there: a file and its
    bytes, or something that is not a file. What the network does is an input:
    the outcome of connecting, and for a download the list of what its reads
    return, the end of the list being the end of the stream. A buffered writer
    that is dropped before it is flushed may lose the end of what it was given;
    how much is the [settled] field of the environment, of which only
    [settled_ok] is assumed. Other operations on the directory succeed. *)
From S2P Require Import Prelude RustStr Offer.

Abbreviation bytes := (list N).

(** * UTF-8 *)

Definition utf8_char (c : char) : bytes :=
  if (c <? 0x80)%N then [c]
  else if (c <? 0x800)%N then [(0xC0 + c / 0x40)%N; (0x80 + c mod 0x40)%N]
  else if (c <? 0x10000)%N then
    [(0xE0 + c / 0x1000)%N; (0x80 + (c / 0x40) mod 0x40)%N; (0x80 + c mod 0x40)%N]
  else [(0xF0 + c / 0x40000)%N; (0x80 + (c / 0x1000) mod 0x40)%N;
        (0x80 + (c / 0x40) mod 0x40)%N; (0x80 + c mod 0x40)%N].
Definition as_bytes (s : str) : bytes := concat (map utf8_char s).

(** * Constants and errors *)

Definition CHUNK : N := (64 * 1024)%N.
Definition MAX_TRANSFER_BYTES : N := (4 * 1024 * 1024 * 1024)%N.
Definition RENDEZVOUS_TIMEOUT : N := 120%N.

Inductive TransferError :=
  | WouldDiscloseAddress
  | WouldDiscloseAddressBySending
  | Proxy (reason : str)
  | NoRendezvous (seconds : N)
  | AlreadyExists (name : str)
  | TooLarge (gigabytes : N)
  | Truncated (received expected : N)
  | Cancelled
  | NoRoutableAddress
  | Io (message : str).

Definition too_large : TransferError := TooLarge (MAX_TRANSFER_BYTES / (1024 * 1024 * 1024)).

Inductive TransferEvent := Started (total : option N) | Progress (transferred : N).

(** * Directories *)

Inductive node := File (content : bytes) | Other.
Abbreviation Dir := (gmap (list N) node).

Definition partial_path (filename : str) : str := filename ++ lit ".part".
Definition origin_path (filename : str) : str := filename ++ lit ".part.from".

Definition partial_len (d : Dir) (filename : str) : option N :=
  match d !! partial_path filename with
  | Some (File b) => if is_empty b then None else Some (N.of_nat (length b))
  | _ => None
  end.

Definition ORIGIN_MAGIC : str := lit "ddirc-partial 1".

Definition origin_text (from : str) (size : N) : str :=
  ORIGIN_MAGIC ++ [10%N] ++ lit "from=" ++ to_ascii_lowercase from ++ [10%N]
  ++ lit "size=" ++ to_dec size ++ [10%N].

(** Reads at most as many bytes as the first line should have. *)
Definition is_origin_record (d : Dir) (path : str) : bool :=
  match d !! path with
  | Some (File b) => bool_decide (take (length (as_bytes ORIGIN_MAGIC)) b = as_bytes ORIGIN_MAGIC)
  | _ => false
  end.

Definition write_origin (filename from : str) (size : N) (d : Dir) : Dir :=
  let path := origin_path filename in
  if bool_decide (is_Some (d !! path)) && negb (is_origin_record d path) then d
  else <[path := File (as_bytes (origin_text from size))]> d.

Definition remove_origin (filename : str) (d : Dir) : Dir :=
  let path := origin_path filename in
  if is_origin_record d path then delete path d else d.

Definition resumable_len (d : Dir) (filename from : str) (size : N) : option N :=
  let expected := as_bytes (origin_text from size) in
  match d !! origin_path filename with
  | Some (File b) =>
      if bool_decide (take (S (length expected)) b = expected) then partial_len d filename else None
  | _ => None
  end.

(** [remove_file], its failure ignored: only files are removed. *)
Definition remove_file (path : str) (d : Dir) : Dir :=
  match d !! path with Some (File _) => delete path d | _ => d end.

(** [rename] of a file that is there. *)
Definition rename (src dst : str) (d : Dir) : result Dir TransferError :=
  match d !! src, d !! dst with
  | Some n, (None | Some (File _)) => Ok (<[dst := n]> (delete src d))
  | _, _ => Err (Io (lit "rename"))
  end.

(** * Dialling *)

Record ProxyConfig := mkProxy {
  px_host : str;
  px_port : N;
  px_username : option str;
  px_password : option str;
}.

Section Dial.
Context {IpAddr : Type}.

(** Where a connection goes, and through what. *)
Inductive Route :=
  | Direct (addr : IpAddr) (port : N)
  | Socks (host : str) (via : N) (auth : option (str * str)) (addr : IpAddr) (port : N).

Inductive ConnectOutcome := Connected | Refused (reason : str) | TimedOut.

Definition route (addr : IpAddr) (port : N) (proxy : option ProxyConfig) : Route :=
  match proxy with
  | None => Direct addr port
  | Some p =>
      let auth := match px_username p, px_password p with
                  | Some user, Some password => Some (user, password)
                  | _, _ => None
                  end in
      Socks (px_host p) (px_port p) auth addr port
  end.

Definition dial (net : Route → ConnectOutcome) (addr : IpAddr) (port : N) (proxy : option ProxyConfig)
    : result unit TransferError :=
  match net (route addr port proxy) with
  | Connected => Ok tt
  | Refused reason => Err (match proxy with None => Io reason | Some _ => Proxy reason end)
  | TimedOut => Err (NoRendezvous RENDEZVOUS_TIMEOUT)
  end.
End Dial.
Arguments Route : clear implicits.

(** * Receiving *)

Inductive ErrorKind := ConnectionReset | ConnectionAborted | BrokenPipe | UnexpectedEof | OtherError (e : str).

(** What one turn of the loop meets: the user cancels, a read returns bytes
    (and writing them succeeds, or not), or a read fails. *)
Inductive Arrival :=
  | Cancel
  | Data (b : bytes) (written : bool)
  | ReadError (kind : ErrorKind).

(** [Ok(0)], or the error that remains one. *)
Definition end_of_stream (kind : ErrorKind) : option TransferError :=
  match kind with
  | ConnectionReset | ConnectionAborted | BrokenPipe | UnexpectedEof => None
  | OtherError e => Some (Io e)
  end.

Record Peer := mkPeer {
  arrivals : list Arrival;
  flushed : bool;
  settled : bytes → bytes;
}.

Definition settled_ok (p : Peer) : Prop := ∀ b, settled p b `prefix_of` b.

Record Reception := mkReception {
  rx_content : bytes;            (* what was received, after [start_at] *)
  rx_position : N;
  rx_acks : list N;
  rx_progress : list TransferEvent;
}.

Definition saturating_add (a b : N) : N := N.min u64_max (a + b).

(** One read that returned bytes. *)
Definition take_chunk (b : bytes) (r : Reception) : Reception :=
  let received := saturating_add (rx_position r) (N.of_nat (length b)) in
  mkReception (rx_content r ++ b) received
    (rx_acks r ++ [(received mod 2 ^ 32)%N]) (rx_progress r ++ [Progress received]).

Definition check_total (expected : option N) (received : N) : result unit TransferError :=
  match expected with
  | Some total => if (received <? total)%N then Err (Truncated received total) else Ok tt
  | None => Ok tt
  end.

(** The loop and what follows it. The second component is what the file holds
    after the point it was opened at. *)
Fixpoint receive_loop (p : Peer) (expected : option N) (l : list Arrival) (r : Reception)
    : result unit TransferError * bytes * Reception :=
  let finish (r : Reception) :=
    if flushed p then (check_total expected (rx_position r), rx_content r, r)
    else (Err (Io (lit "flush")), settled p (rx_content r), r) in
  match l with
  | [] => finish r
  | Cancel :: _ => (Err Cancelled, settled p (rx_content r), r)
  | ReadError kind :: _ =>
      match end_of_stream kind with
      | None => finish r
      | Some e => (Err e, settled p (rx_content r), r)
      end
  | Data b written :: l =>
      if is_empty b then finish r
      else
        let r' := take_chunk b r in
        if (MAX_TRANSFER_BYTES <? rx_position r')%N then (Err too_large, settled p (rx_content r), r)
        else if negb written then (Err (Io (lit "write")), settled p (rx_content r'), r)
        else
          let full := match expected with Some total => (total <=? rx_position r')%N | None => false end in
          if full then finish r' else receive_loop p expected l r'
  end.

(** [set_len]: cut, or filled with zeros. *)
Definition set_len (n : N) (b : bytes) : bytes :=
  take (N.to_nat n) b ++ replicate (N.to_nat n - length b) 0%N.

Definition receive_into (p : Peer) (path : str) (expected : option N) (start_at : N) (d : Dir)
    : result unit TransferError * Dir * Reception :=
  let opened :=
    match d !! path with
    | Some (File b) => Ok (if (0 <? start_at)%N then set_len start_at b else [])
    | None => if (0 <? start_at)%N then Err (Io (lit "open")) else Ok []
    | Some Other => Err (Io (lit "open"))
    end in
  let r := mkReception [] start_at [] (if (0 <? start_at)%N then [Progress start_at] else []) in
  match opened with
  | Err e => (Err e, d, mkReception [] start_at [] [])
  | Ok kept =>
      let '(result, rest, r) := receive_loop p expected (arrivals p) r in
      (result, <[path := File (kept ++ rest)]> d, r)
  end.

(** Where in the file to begin: only a point inside it, and only bytes that
    are there from this sender at this size. *)
Definition fit_start (d : Dir) {IpAddr} (offer : DccOffer IpAddr) (from : str) (start_at : N) : N :=
  match size offer with
  | Some size =>
      let on_disk := default 0%N (resumable_len d (filename offer) from size) in
      if (0 <? start_at)%N && (start_at <? size)%N && (start_at <=? on_disk)%N then start_at else 0%N
  | None => 0%N
  end.

Definition keep_partial (d : Dir) {IpAddr} (offer : DccOffer IpAddr) (e : TransferError) : bool :=
  bool_decide (is_Some (size offer))
  && negb (match e with Cancelled | TooLarge _ => true | _ => false end)
  && bool_decide (is_Some (partial_len d (filename offer))).

Definition accept {IpAddr} (net : Route IpAddr → ConnectOutcome) (offer : DccOffer IpAddr) (from : str)
    (proxy : option ProxyConfig) (start_at : N) (p : Peer) (d : Dir) : result str TransferError * Dir :=
  if is_reverse offer && bool_decide (is_Some proxy) then (Err WouldDiscloseAddress, d)
  else
    match addr offer, port offer with
    | Some a, Some prt =>
        if match size offer with Some s => (MAX_TRANSFER_BYTES <? s)%N | None => false end
        then (Err too_large, d)
        else if bool_decide (is_Some (d !! filename offer)) then (Err (AlreadyExists (filename offer)), d)
        else
          let partial := partial_path (filename offer) in
          let start_at := fit_start d offer from start_at in
          match dial net a prt proxy with
          | Err e => (Err e, d)
          | Ok _ =>
              let d := match size offer with
                       | Some s => write_origin (filename offer) from s d
                       | None => remove_origin (filename offer) d
                       end in
              let '(result, d, _) := receive_into p partial (size offer) start_at d in
              match result with
              | Ok _ =>
                  match rename partial (filename offer) d with
                  | Ok d => (Ok (filename offer), remove_origin (filename offer) d)
                  | Err e => (Err e, d)
                  end
              | Err e =>
                  if keep_partial d offer e then (Err e, d)
                  else (Err e, remove_origin (filename offer) (remove_file partial d))
              end
          end
    | _, _ => (Err WouldDiscloseAddress, d)
    end.

(** * Sending *)

(** [IpAddr::V4] addresses as the number an offer carries. *)
Inductive Address := V4 (a : N) | V6 (a : N).
Definition dcc_address (a : Address) : option N := match a with V4 n => Some n | V6 _ => None end.

(** The protocol has no escape: quotation marks are dropped. *)
Definition quote_filename (name : str) : str :=
  let cleaned := filter (λ c, c ≠ 0x22%N) name in
  if contains_char 0x20%N cleaned then [0x22%N] ++ cleaned ++ [0x22%N] else cleaned.

(** A turn of the loop: the user cancels, a read of some bytes, or a failure
    of the read, the write, or the flush and shutdown at the end. *)
Inductive SendStep := CancelSend | ReadSome (n : nat) | Fault (e : str).

(** The loop of [send_from]: a read takes at least one byte and at most a
    chunk of what is left; past the steps given, full chunks. The fuel is the
    number of bytes left, and each turn takes at least one. *)
Fixpoint send_loop (fuel : nat) (steps : list SendStep) (rest : bytes) (sent : N) (out : list bytes)
    : result N TransferError * list bytes :=
  match steps with
  | CancelSend :: _ => (Err Cancelled, out)
  | Fault e :: _ => (Err (Io e), out)
  | _ =>
      if is_empty rest then (Ok sent, out)
      else
        let n := match steps with
                 | ReadSome n :: _ => Nat.max 1 (Nat.min n (N.to_nat CHUNK))
                 | _ => N.to_nat CHUNK
                 end in
        let read := take n rest in
        match fuel with
        | O => (Ok sent, out)
        | S fuel =>
            send_loop fuel (tail steps) (drop n rest)
              (saturating_add sent (N.of_nat (length read))) (out ++ [read])
        end
  end.

(** The bytes put on the connection, in the order they are written. *)
Definition send_from (content : bytes) (start : N) (steps : list SendStep)
    : result N TransferError * list bytes :=
  let total := N.of_nat (length content) in
  if (MAX_TRANSFER_BYTES <? total)%N then (Err too_large, [])
  else
    let start := if (start <? total)%N then start else 0%N in
    let rest := drop (N.to_nat start) content in
    send_loop (length rest) steps rest start [].

(** [serve]: the offset is read once the receiver is there. *)
Inductive ServeOutcome := Accepted | AcceptFailed (e : str) | NobodyCame.

Definition serve (outcome : ServeOutcome) (content : bytes) (offset : N) (steps : list SendStep)
    : result N TransferError * list bytes :=
  match outcome with
  | Accepted => send_from content offset steps
  | AcceptFailed e => (Err (Io e), [])
  | NobodyCame => (Err (NoRendezvous RENDEZVOUS_TIMEOUT), [])
  end.

Definition serve_by_dialling {IpAddr} (net : Route IpAddr → ConnectOutcome) (a : IpAddr) (port : N)
    (proxy : option ProxyConfig) (content : bytes) (steps : list SendStep)
    : result N TransferError * list bytes :=
  match dial net a port proxy with
  | Ok _ => send_from content 0%N steps
  | Err e => (Err e, [])
  end.
