(* ===== verification/Transfers.v ===== *)
(** File transfers as the connection keeps them: [Transfers] and the handlers
    of DCC in [ddirc-core/src/conn/actor.rs].

    The tasks a transfer runs in are not threads here: a download is the
    composition of [ask_to_resume], [start_position] and [Transfer.accept], and
    a file being served is an entry of [serving] with [s_live] true while its
    task holds its share of the offset. The reply channel of a resume request
    is the entry of [answers] under the id of the download. *)
From S2P Require Import Prelude RustStr Session Offer Transfer.

Section Transfers.
Context {IpAddr : Type} (v4 : N → IpAddr) (parse_ip : str → option IpAddr).

(** * State *)

Record PendingOffer := mkPending { po_channel : str; po_from : str; po_offer : DccOffer IpAddr }.

(** [aw_reply] is the download that waits. *)
Record AwaitedResume := mkAwaited { aw_filename : str; aw_reply : N }.

(** [s_live]: the serving task has not finished ([strong_count > 1]). *)
Record Serving := mkServing {
  s_target : str;
  s_filename : str;
  s_size : N;
  s_offset : N;
  s_live : bool;
}.

Record Transfers := mkTransfers {
  next_id : N;
  offers : gmap N PendingOffer;
  running : gset N;
  resumes : gmap (str * N) AwaitedResume;
  serving : gmap N Serving;
  answers : gmap N N;
}.

Inductive IrcEvent :=
  | FileOffered (id : N) (channel from : str) (offer : DccOffer IpAddr)
  | FileTransferStarted (id : N) (channel filename : str) (incoming : bool) (total : option N)
  | FileTransferEnded (id : N) (channel filename : str) (path : option str) (error : option TransferError).

(** What the handlers read and write: the session and the proxy setting, the
    transfers, the queue of private messages and the events reported. *)
Record Actor := mkActor {
  session : Session;
  proxy : option ProxyConfig;
  transfers : Transfers;
  outgoing : list (str * str);
  events : list IrcEvent;
}.

Definition with_transfers (f : Transfers → Transfers) (a : Actor) : Actor :=
  mkActor (session a) (proxy a) (f (transfers a)) (outgoing a) (events a).
Definition privmsg (target text : str) (a : Actor) : Actor :=
  mkActor (session a) (proxy a) (transfers a) (outgoing a ++ [(target, text)]) (events a).
Definition emit (e : IrcEvent) (a : Actor) : Actor :=
  mkActor (session a) (proxy a) (transfers a) (outgoing a) (events a ++ [e]).

Definition set_offers (f : gmap N PendingOffer → gmap N PendingOffer) (t : Transfers) : Transfers :=
  mkTransfers (next_id t) (f (offers t)) (running t) (resumes t) (serving t) (answers t).
Definition set_running (f : gset N → gset N) (t : Transfers) : Transfers :=
  mkTransfers (next_id t) (offers t) (f (running t)) (resumes t) (serving t) (answers t).
Definition set_resumes (f : gmap (str * N) AwaitedResume → gmap (str * N) AwaitedResume) (t : Transfers)
    : Transfers :=
  mkTransfers (next_id t) (offers t) (running t) (f (resumes t)) (serving t) (answers t).
Definition set_serving (f : gmap N Serving → gmap N Serving) (t : Transfers) : Transfers :=
  mkTransfers (next_id t) (offers t) (running t) (resumes t) (f (serving t)) (answers t).
Definition set_answers (f : gmap N N → gmap N N) (t : Transfers) : Transfers :=
  mkTransfers (next_id t) (offers t) (running t) (resumes t) (serving t) (f (answers t)).

(** [wrapping_add]; the new id is [next_id]. *)
Definition next (t : Transfers) : Transfers :=
  mkTransfers (u64_add (next_id t) 1) (offers t) (running t) (resumes t) (serving t) (answers t).

Definition forget_finished (t : Transfers) : Transfers :=
  set_serving (filter (λ kv, s_live kv.2 = true)) t.

Definition is_channel_target (target : str) : bool :=
  match target with c :: _ => contains_char c (lit "#&+!") | [] => false end.

(** * The lines *)

Definition ctcp (body : str) : str := [1%N] ++ body ++ [1%N].
(** [text.trim_matches('\u{01}')], as [on_chat] does before it looks inside. *)
Definition ctcp_body (text : str) : str :=
  trim_end_matches (N.eqb 1) (trim_start_matches (N.eqb 1) text).

Definition send_text (name : str) (addr port size : N) : str :=
  lit "DCC SEND " ++ quote_filename name ++ lit " " ++ to_dec addr ++ lit " " ++ to_dec port
  ++ lit " " ++ to_dec size.
Definition resume_text (keyword name : str) (port position : N) : str :=
  lit "DCC " ++ keyword ++ lit " " ++ quote_filename name ++ lit " " ++ to_dec port
  ++ lit " " ++ to_dec position.

(** * Requests that arrive *)

Definition on_resume_request (sender : str) (request : ResumeMessage) (a : Actor) : Actor :=
  if bool_decide (is_Some (r_token request)) || (r_port request =? 0)%N then a
  else
    let a := with_transfers forget_finished a in
    match serving (transfers a) !! r_port request with
    | None => a
    | Some s =>
        if negb (bool_decide (safe_filename (s_filename s) = Some (r_filename request))) then a
        else if (r_position request =? 0)%N || (s_size s <=? r_position request)%N then a
        else if is_channel_target (s_target s) || negb (eq_ignore_ascii_case (s_target s) sender) then a
        else
          a |> with_transfers (set_serving
                 (insert (r_port request)
                    (mkServing (s_target s) (s_filename s) (s_size s) (r_position request) (s_live s))))
            |> privmsg sender
                 (ctcp (resume_text (lit "ACCEPT") (s_filename s) (r_port request) (r_position request)))
    end.

Definition on_resume_accepted (sender : str) (accepted : ResumeMessage) (a : Actor) : Actor :=
  if bool_decide (is_Some (r_token accepted)) || (r_port accepted =? 0)%N then a
  else
    let key := (to_ascii_lowercase sender, r_port accepted) in
    match resumes (transfers a) !! key with
    | Some waiting =>
        if bool_decide (aw_filename waiting = r_filename accepted) then
          a |> with_transfers (set_resumes (delete key))
            |> with_transfers (set_answers (insert (aw_reply waiting) (r_position accepted)))
        else a
    | None => a
    end.

Definition on_ctcp (target body sender : str) (is_notice : bool) (a : Actor) : Actor :=
  if is_notice then a
  else
    let to_us := is_self (session a) target in
    let offered :=
      match parse_send v4 parse_ip body with
      | None => a
      | Some offer =>
          let channel := if to_us then sender else target in
          let a := with_transfers next a in
          let id := next_id (transfers a) in
          a |> with_transfers (set_offers (insert id (mkPending channel sender offer)))
            |> emit (FileOffered id channel sender offer)
      end in
    if to_us then
      match parse_resume body with
      | Some request => on_resume_request sender request a
      | None =>
          match parse_accept body with
          | Some accepted => on_resume_accepted sender accepted a
          | None => offered
          end
      end
    else offered.

(** * Accepting *)

(** The position asked for, when one was. *)
Definition ask_to_resume (id : N) (from : str) (offer : DccOffer IpAddr) (d : Dir) (a : Actor)
    : Actor * option N :=
  if is_reverse offer then (a, None)
  else
    match port offer, size offer with
    | Some port, Some size =>
        match resumable_len d (filename offer) from size with
        | Some have =>
            if (size <=? have)%N then (a, None)
            else
              (a |> with_transfers (set_resumes
                      (insert (to_ascii_lowercase from, port) (mkAwaited (filename offer) id)))
                 |> privmsg from (ctcp (resume_text (lit "RESUME") (filename offer) port have)),
               Some have)
        | None => (a, None)
        end
    | _, _ => (a, None)
    end.

(** The part of [accept_file] that runs in the connection: the download's task
    is given the offer and the position asked for. *)
Definition accept_file (id : N) (d : Dir) (a : Actor) : Actor * option (PendingOffer * option N) :=
  match offers (transfers a) !! id with
  | None => (a, None)
  | Some pending =>
      let a := a |> with_transfers (set_offers (delete id)) |> with_transfers (set_running (union {[id]})) in
      let '(a, wanted) := ask_to_resume id (po_from pending) (po_offer pending) d a in
      (emit (FileTransferStarted id (po_channel pending) (filename (po_offer pending)) true
               (size (po_offer pending))) a,
       Some (pending, wanted))
  end.

(** The download's task: where to begin, once the answer is in or is given up
    on ([answered] is what the reply channel held), and the transfer. *)
Definition start_position (wanted answered : option N) : N :=
  match wanted with
  | None => 0%N
  | Some w => if bool_decide (answered = Some w) then w else 0%N
  end.

(** Cancelling while waiting for the answer ends the transfer there; without
    a question there is nothing to wait for. *)
Definition run_download (net : Route IpAddr → ConnectOutcome) (px : option ProxyConfig)
    (pending : PendingOffer) (wanted answered : option N) (cancelled : bool) (p : Peer) (d : Dir)
    : result str TransferError * Dir :=
  if bool_decide (is_Some wanted) && cancelled then (Err Cancelled, d)
  else accept net (po_offer pending) (po_from pending) px (start_position wanted answered) p d.

Definition ended (id : N) (channel name : str) (r : result (option str) TransferError) : IrcEvent :=
  match r with
  | Ok path => FileTransferEnded id channel name path None
  | Err e => FileTransferEnded id channel name None (Some e)
  end.

(** * Sending *)

(** What [send_file] learns before it can offer: the size of the file, the
    address the routing table gives, the port it listens on. *)
Definition prepare (metadata : result N str) (address : option Address) (listening : result N str)
    : result (N * N * N) TransferError :=
  match metadata with
  | Err e => Err (Io e)
  | Ok size =>
      if (MAX_TRANSFER_BYTES <? size)%N then Err too_large
      else
        match address ≫= dcc_address with
        | None => Err NoRoutableAddress
        | Some advertised =>
            match listening with
            | Err e => Err (Io e)
            | Ok port => Ok (size, advertised, port)
            end
        end
  end.

Definition send_file (target name : str) (metadata : result N str) (address : option Address)
    (listening : result N str) (a : Actor) : Actor :=
  let a := with_transfers next a in
  let id := next_id (transfers a) in
  if bool_decide (is_Some (proxy a)) then
    emit (ended id target name (Err WouldDiscloseAddressBySending)) a
  else
    match prepare metadata address listening with
    | Err e => emit (ended id target name (Err e)) a
    | Ok (size, advertised, port) =>
        a |> privmsg target (ctcp (send_text name advertised port size))
          |> emit (FileTransferStarted id target name false (Some size))
          |> with_transfers (set_running (union {[id]}))
          |> with_transfers forget_finished
          |> with_transfers (set_serving (insert port (mkServing target name size 0 true)))
    end.

Definition cancel_transfer (id : N) (a : Actor) : Actor :=
  a |> with_transfers (set_offers (delete id)) |> with_transfers (set_running (λ s, s ∖ {[id]})).
End Transfers.
