(* ===== verification/TransferProps.v ===== *)
(** Properties of DCC: the lines two clients exchange. *)
From S2P Require Import Prelude RustStr Session Offer Transfer Transfers.

(** * Lemmas: names on the wire *)

(** The name as the line carries it. *)
Definition wire_name (name : str) : str := filter (λ c, c ≠ 0x22%N) name.

(** The reader skips blanks in front of the name, so a name that begins with
    one (and has no space, which would put it in quotation marks) loses it. *)
Definition survives (name : str) : bool :=
  match wire_name name with
  | [] => false
  | c :: _ => negb (is_whitespace c) || contains_char 0x20%N (wire_name name)
  end.

Lemma wire_name_no_quote name : 0x22%N ∉ wire_name name.
Proof. unfold wire_name. rewrite list_elem_of_filter. naive_solver. Qed.

Lemma take_quoted name rest :
  take_filename (quote_filename name ++ 0x20%N :: rest) = Some (wire_name name, 0x20%N :: rest).
Proof.
  unfold quote_filename. fold (wire_name name). pose proof (wire_name_no_quote name) as Hq.
  destruct (contains_char 32 (wire_name name)) eqn:Hc; unfold take_filename.
  - cbn [app strip_prefix]. change (34 =? 34)%N with true. cbv iota. apply split_once_spec.
    split; [by rewrite <- (assoc_L (++))|done].
  - apply contains_char_false in Hc.
    assert (strip_prefix [34%N] (wire_name name ++ 32%N :: rest) = None) as ->.
    { destruct (wire_name name) as [|c w]; [done|]. cbn [app strip_prefix].
      destruct (N.eqb_spec 34 c) as [<-|]; [|done]. exfalso. apply Hq. by left. }
    by rewrite (proj2 (split_once_spec 32%N (wire_name name ++ 32%N :: rest) (wire_name name) rest)).
Qed.

Lemma trim_start_quoted name rest :
  survives name = true → trim_start (quote_filename name ++ rest) = quote_filename name ++ rest.
Proof.
  intros H. unfold trim_start, trim_start_matches. apply drop_while_id.
  unfold survives in H. unfold quote_filename. fold (wire_name name).
  destruct (contains_char 32 (wire_name name)); [done|]. destruct (wire_name name) as [|c w]; [done|].
  cbn [app]. rewrite orb_false_r in H. by apply negb_true_iff.
Qed.

Lemma strip_keyword_app c kw rest :
  is_whitespace c = false → strip_keyword (c :: kw ++ 0x20%N :: rest) (c :: kw) = Some (trim_start rest).
Proof.
  intros Hc. unfold strip_keyword, trim_start at 1, trim_start_matches. rewrite drop_while_id by done.
  unfold split_at_checked.
  rewrite (proj2 (byte_prefix_Some (c :: kw ++ 32%N :: rest) (str_len (c :: kw)) (c :: kw))); [|by split; [exists (32%N :: rest)|]].
  change (drop (length (c :: kw)) (c :: kw ++ 32%N :: rest)) with (drop (length kw) (kw ++ 32%N :: rest)).
  rewrite drop_app_length. unfold eq_ignore_ascii_case. by rewrite bool_decide_true.
Qed.

(** * Lemmas: arguments *)

Lemma args_blank rest : split_whitespace (0x20%N :: rest) = split_whitespace rest.
Proof. by apply words_blank. Qed.

Lemma args_dec (a : N) rest :
  split_whitespace (to_dec a ++ 0x20%N :: rest) = to_dec a :: split_whitespace rest.
Proof. apply words_cons; [apply to_dec_digits|apply to_dec_not_whitespace|done]. Qed.

Lemma args_last (a : N) : split_whitespace (to_dec a) = [to_dec a].
Proof. apply words_last; [apply to_dec_digits|apply to_dec_not_whitespace]. Qed.

(** Appends to the right. *)
Ltac app_norm := cbn [app]; repeat (rewrite <- (assoc_L (++)); cbn [app]).

(** What the reader makes of a line this client wrote. *)
Lemma parse_send_text {IpAddr} (v4 : N → IpAddr) parse_ip name a p n :
  survives name = true → (a ≤ u32_max)%N → (0 < p ≤ u16_max)%N → (n ≤ u64_max)%N →
  parse_send v4 parse_ip (send_text name a p n) =
    (f ← safe_filename (wire_name name); Some (mkOffer f (Some (v4 a)) (Some p) (Some n) None)).
Proof.
  intros Hs Ha Hp Hn. unfold parse_send, send_text.
  change (lit "DCC SEND ") with (68%N :: lit "CC" ++ 32%N :: lit "SEND ").
  change (lit "DCC") with (68%N :: lit "CC"). app_norm. rewrite strip_keyword_app by done. cbn [mbind option_bind].
  change (lit "SEND ") with (83%N :: lit "END" ++ [32%N]). change (lit "SEND") with (83%N :: lit "END").
  app_norm.
  unfold trim_start at 1, trim_start_matches. rewrite drop_while_id by done.
  rewrite strip_keyword_app by done. cbn [mbind option_bind]. rewrite trim_start_quoted by done.
  change (lit " ") with [32%N]. cbn [app]. rewrite take_quoted. cbn [mbind option_bind].
  destruct (safe_filename (wire_name name)) as [f|]; [|done]. cbn [mbind option_bind].
  rewrite args_blank, !args_dec, args_last. cbn [lookup list_lookup mbind option_bind].
  rewrite parse_to_dec by lia. cbn [mbind option_bind]. destruct (N.eqb_spec p 0); [lia|].
  unfold parse_addr, optional_u64. rewrite parse_to_dec by done. cbn [mbind option_bind].
  by rewrite parse_to_dec.
Qed.

Lemma parse_resume_text c kw name p n :
  is_whitespace c = false → survives name = true → (p ≤ u16_max)%N → (n ≤ u64_max)%N →
  parse_resume_like (resume_text (c :: kw) name p n) (c :: kw) =
    (f ← safe_filename (wire_name name); Some (mkResume f p n None)).
Proof.
  intros Hc Hs Hp Hn. unfold parse_resume_like, resume_text.
  change (lit "DCC ") with (68%N :: lit "CC" ++ [32%N]). change (lit "DCC") with (68%N :: lit "CC").
  app_norm.
  rewrite strip_keyword_app by done. cbn [mbind option_bind].
  unfold trim_start at 1, trim_start_matches. rewrite drop_while_id by done.
  change (lit " ") with [32%N]. cbn [app]. rewrite strip_keyword_app by done. cbn [mbind option_bind].
  rewrite trim_start_quoted by done. rewrite take_quoted. cbn [mbind option_bind].
  destruct (safe_filename (wire_name name)) as [f|]; [|done]. cbn [mbind option_bind].
  rewrite args_blank, args_dec, args_last. cbn [lookup list_lookup mbind option_bind].
  rewrite parse_to_dec by done. cbn [mbind option_bind]. by rewrite parse_to_dec.
Qed.

(** The delimiters come off again. *)
Lemma ctcp_body_ctcp c s d t :
  c ≠ 1%N → d ≠ 1%N → c :: s = t ++ [d] → ctcp_body (ctcp (c :: s)) = c :: s.
Proof.
  intros Hc Hd Hs. unfold ctcp_body, ctcp, trim_start_matches. cbn [app drop_while].
  change (1 =? 1)%N with true. destruct (N.eqb_spec 1 c); [congruence|]. cbv iota.
  rewrite app_comm_cons, Hs. unfold trim_end_matches. rewrite !rev_app_distr. cbn [rev app drop_while].
  change (1 =? 1)%N with true. destruct (N.eqb_spec 1 d); [congruence|]. cbv iota.
  cbn [rev]. by rewrite rev_involutive.
Qed.

Lemma dec_last n : ∃ t d, to_dec n = t ++ [d] ∧ d ≠ 1%N.
Proof.
  destruct (to_dec_digits n) as [Hne Hd]. destruct (exists_last Hne) as (t & d & E).
  exists t, d. split; [done|]. rewrite E, Forall_app, Forall_singleton in Hd. destruct Hd as [_ Hd].
  intros ->. discriminate Hd.
Qed.

Lemma ctcp_resume_text kw name p n :
  ctcp_body (ctcp (resume_text kw name p n)) = resume_text kw name p n.
Proof.
  destruct (dec_last n) as (t & d & E & Hd). unfold resume_text. rewrite E.
  change (lit "DCC ") with (68%N :: lit "CC "). cbn [app].
  apply (ctcp_body_ctcp _ _ d (68%N :: lit "CC " ++ kw ++ lit " " ++ quote_filename name ++ lit " " ++ to_dec p
    ++ lit " " ++ t)); [done..|].
  cbn [app]. f_equal. by rewrite <- !(assoc_L (++)).
Qed.

Lemma ctcp_send_text name a p n : ctcp_body (ctcp (send_text name a p n)) = send_text name a p n.
Proof.
  destruct (dec_last n) as (t & d & E & Hd). unfold send_text. rewrite E.
  change (lit "DCC SEND ") with (68%N :: lit "CC SEND "). cbn [app].
  apply (ctcp_body_ctcp _ _ d (68%N :: lit "CC SEND " ++ quote_filename name ++ lit " " ++ to_dec a
    ++ lit " " ++ to_dec p ++ lit " " ++ t)); [done..|].
  cbn [app]. f_equal. by rewrite <- !(assoc_L (++)).
Qed.

(** * Lemmas: requests *)

Section Requests.
Context {IpAddr : Type} (v4 : N → IpAddr) (parse_ip : str → option IpAddr).

(** A request to carry on that may be answered, and the file it is about. *)
Definition resume_allowed (a : @Actor IpAddr) (sender : str) (request : ResumeMessage) (s : Serving) : Prop :=
  serving (transfers a) !! r_port request = Some s ∧ s_live s = true ∧
  r_token request = None ∧ r_port request ≠ 0%N ∧
  safe_filename (s_filename s) = Some (r_filename request) ∧
  (0 < r_position request < s_size s)%N ∧
  is_channel_target (s_target s) = false ∧ eq_ignore_ascii_case (s_target s) sender = true.

(** What a message may do to the files being served and to the queue. *)
Definition unanswered (a a' : @Actor IpAddr) : Prop :=
  outgoing a' = outgoing a ∧ ∀ q s, serving (transfers a') !! q = Some s → serving (transfers a) !! q = Some s.

Definition answered (a a' : @Actor IpAddr) (sender : str) (request : ResumeMessage) : Prop :=
  ∃ s, resume_allowed a sender request s ∧
    outgoing a' = outgoing a ++ [(sender,
      ctcp (resume_text (lit "ACCEPT") (s_filename s) (r_port request) (r_position request)))] ∧
    serving (transfers a') !! r_port request =
      Some (mkServing (s_target s) (s_filename s) (s_size s) (r_position request) true) ∧
    ∀ q s', q ≠ r_port request → serving (transfers a') !! q = Some s' → serving (transfers a) !! q = Some s'.

Lemma on_resume_request_cases sender request a :
  unanswered a (on_resume_request sender request a) ∨ answered a (on_resume_request sender request a) sender request.
Proof.
  unfold on_resume_request. case_bool_decide as Ht; [by left|].
  destruct (N.eqb_spec (r_port request) 0) as [|Hp]; [by left|]. cbn [orb].
  assert (∀ q s, filter (λ kv, s_live kv.2 = true) (serving (transfers a)) !! q = Some s →
    serving (transfers a) !! q = Some s ∧ s_live s = true) as Hf.
  { intros q s. by rewrite map_lookup_filter_Some. }
  assert (unanswered a (with_transfers forget_finished a)) as Hkeep.
  { split; [done|]. intros q s H. by apply Hf. }
  cbn [with_transfers transfers forget_finished set_serving serving] in *.
  destruct (filter _ (serving (transfers a)) !! r_port request) as [s|] eqn:E; [|by left].
  case_bool_decide as Hn; cbn [negb]; [|by left].
  destruct (_ || _) eqn:Hpos; [by left|]. destruct (is_channel_target _ || _) eqn:Hw; [by left|].
  bool_simp. right. destruct (Hf _ _ E) as [E1 E2]. exists s. split.
  { apply eq_None_not_Some in Ht. repeat split; try done; lia. }
  cbn [privmsg with_transfers set_serving outgoing transfers serving forget_finished]. split; [done|].
  rewrite lookup_insert_eq, E2. split; [done|]. intros q s' Hq. rewrite lookup_insert_ne by done.
  intros Hs'. by apply Hf.
Qed.

Lemma unanswered_refl a : unanswered a a.
Proof. by split. Qed.

Lemma offered_unanswered a body sender channel :
  unanswered a (match parse_send v4 parse_ip body with
    | None => a
    | Some offer =>
        let a := with_transfers next a in
        let id := next_id (transfers a) in
        emit (FileOffered id channel sender offer)
          (with_transfers (set_offers (insert id (mkPending channel sender offer))) a)
    end).
Proof. by destruct (parse_send v4 parse_ip body). Qed.

Lemma accepted_unanswered sender m a : unanswered a (on_resume_accepted sender m a).
Proof. unfold on_resume_accepted. by case_all. Qed.

(** * Properties *)

(** Nothing a stranger sends is answered, one request apart. Whatever the
    text of a CTCP message, whoever sent it and wherever, the client queues
    nothing and moves no file it is serving; except that a request to carry on,
    addressed to us, about a port a live transfer listens on, with the name the
    file was offered under, a position strictly inside the file, and from the
    one person the offer was made to, is answered with exactly one line to that
    person, and moves the offset of that one transfer to that position. *)
Theorem ctcp_never_answered target body sender is_notice a :
  let a' := on_ctcp v4 parse_ip target body sender is_notice a in
  unanswered a a' ∨
  ∃ request, is_notice = false ∧ is_self (session a) target = true ∧ parse_resume body = Some request ∧
    answered a a' sender request.
Proof.
  cbv zeta. unfold on_ctcp. destruct is_notice; [left; apply unanswered_refl|].
  destruct (is_self (session a) target); [|left; apply offered_unanswered].
  destruct (parse_resume body) as [request|].
  - destruct (on_resume_request_cases sender request a); [by left|right]. by exists request.
  - left. destruct (parse_accept body); [apply accepted_unanswered|apply offered_unanswered].
Qed.
End Requests.

(** The lines one client writes are read by the other as they were meant.
    An offer, a request to carry on and its answer, delimited as CTCP and
    undelimited as the reader does it, give back the address, port, size or
    position, under the name that is left once quotation marks are dropped and
    the rest made safe. The name must not be blank at its start, where the
    reader skips blanks, unless it is quoted. *)
Theorem dcc_lines_roundtrip {IpAddr} (v4 : N → IpAddr) parse_ip name a p n :
  survives name = true → (a ≤ u32_max)%N → (0 < p ≤ u16_max)%N → (n ≤ u64_max)%N →
  parse_send v4 parse_ip (ctcp_body (ctcp (send_text name a p n))) =
    (f ← safe_filename (wire_name name); Some (mkOffer f (Some (v4 a)) (Some p) (Some n) None)) ∧
  parse_resume (ctcp_body (ctcp (resume_text (lit "RESUME") name p n))) =
    (f ← safe_filename (wire_name name); Some (mkResume f p n None)) ∧
  parse_accept (ctcp_body (ctcp (resume_text (lit "ACCEPT") name p n))) =
    (f ← safe_filename (wire_name name); Some (mkResume f p n None)).
Proof.
  intros Hs Ha Hp Hn. rewrite ctcp_send_text, !ctcp_resume_text. split_and!.
  - by apply parse_send_text.
  - apply parse_resume_text; [done..|lia|done].
  - apply parse_resume_text; [done..|lia|done].
Qed.

(** The lines for a file with a space in its name. *)
Lemma dcc_lines_roundtrip_witness :
  parse_send (λ n, n) (λ _, None) (ctcp_body (ctcp (send_text (lit "a b.txt") 2130706433 5000 131089))) =
    Some (mkOffer (lit "a b.txt") (Some 2130706433%N) (Some 5000%N) (Some 131089%N) None).
Proof.
  refine (eq_trans (proj1 (dcc_lines_roundtrip (λ n, n) (λ _, None) (lit "a b.txt") 2130706433 5000 131089 _ _ _ _)) _).
  all: vm_compute; try done; by split.
Defined.

(** C36: a transfer discloses no more than the connection that negotiated it.
    With a proxy set, what a download or an upload we dial for does depends on
    the network only through connections made by way of that proxy (two
    networks that agree on those are not told apart), an offer that asks us to
    listen is refused with the directory untouched, and sending a file is
    refused: nothing is queued, nothing is listened for, and the one event
    reported is the refusal. *)
Theorem proxy_not_bypassed {IpAddr} (px : ProxyConfig) (net net' : Route IpAddr → ConnectOutcome) :
  (∀ auth a prt, net (Socks (px_host px) (px_port px) auth a prt) =
                 net' (Socks (px_host px) (px_port px) auth a prt)) →
  (∀ offer from start p d, accept net offer from (Some px) start p d = accept net' offer from (Some px) start p d) ∧
  (∀ a prt content steps, serve_by_dialling net a prt (Some px) content steps =
                          serve_by_dialling net' a prt (Some px) content steps) ∧
  (∀ offer from start p d, is_reverse offer = true →
    accept net offer from (Some px) start p d = (Err WouldDiscloseAddress, d)) ∧
  (∀ target name metadata address listening (a : @Actor IpAddr), proxy a = Some px →
    let a' := send_file target name metadata address listening a in
    outgoing a' = outgoing a ∧ serving (transfers a') = serving (transfers a) ∧
    running (transfers a') = running (transfers a) ∧
    ∃ id, events a' = events a ++ [FileTransferEnded id target name None (Some WouldDiscloseAddressBySending)]).
Proof.
  intros Hnet.
  assert (∀ a prt, dial net a prt (Some px) = dial net' a prt (Some px)) as Hdial.
  { intros a prt. unfold dial, route. by rewrite Hnet. }
  split_and!.
  - intros. unfold accept. by destruct (_ && _), (addr offer), (port offer); rewrite ?Hdial.
  - intros. unfold serve_by_dialling. by rewrite Hdial.
  - intros. unfold accept. by rewrite H, bool_decide_true.
  - intros target name metadata address listening a Hp. unfold send_file.
    cbn [with_transfers proxy]. rewrite Hp, bool_decide_true by done. cbv zeta. split_and!; [done..|]. by eexists.
Qed.

(** A network where only the proxy answers, and one where everything does. *)
Lemma proxy_not_bypassed_witness :
  let px := mkProxy (lit "127.0.0.1") 9050 None None in
  let net (r : Route N) := match r with Direct _ _ => Refused (lit "no route") | _ => Connected end in
  let offer token := mkOffer (lit "a.txt") (Some 1%N) (Some 4000%N) (Some 2%N) token in
  let peer := mkPeer [Data [108; 111]%N true] true (λ b, b) in
  accept net (offer None) (lit "bob") (Some px) 0 peer ∅ =
    accept (λ _, Connected) (offer None) (lit "bob") (Some px) 0 peer ∅
  ∧ accept net (offer (Some 7%N)) (lit "bob") (Some px) 0 peer ∅ = (Err WouldDiscloseAddress, ∅).
Proof.
  intros px net offer peer.
  pose proof (proxy_not_bypassed px net (λ _, Connected) ltac:(intros auth a prt; reflexivity)) as (H1 & _ & H2 & _).
  split; [apply H1|]. by apply H2.
Defined.
