(* ===== verification/TransferFile.v ===== *)
(** Properties of DCC: the bytes that end up on disk. *)
From S2P Require Import Prelude RustStr Offer Transfer.

(** What the reads of a download return, up to the end of the stream. *)
Fixpoint stream (l : list Arrival) : bytes :=
  match l with
  | Data b _ :: l => if is_empty b then [] else b ++ stream l
  | _ => []
  end.

(** * Lemmas: the loop *)

Lemma check_total_Ok expected n :
  check_total expected n = Ok tt ↔ (∀ total, expected = Some total → (total ≤ n)%N).
Proof.
  unfold check_total. destruct expected as [total|]; [|naive_solver].
  destruct (N.ltb_spec n total) as [Hl|Hl]; split; try done; intros H.
  - specialize (H total eq_refl). lia.
  - by intros ? [= <-].
Qed.

(** The bytes kept are the beginning of what arrived; a download that succeeds
    kept as many as its position says, and no fewer than it expected. *)
Lemma receive_loop_spec p expected l r start :
  settled_ok p → rx_position r = (start + N.of_nat (length (rx_content r)))%N →
  let '(res, rest, _) := receive_loop p expected l r in
  rest `prefix_of` rx_content r ++ stream l ∧
  (res = Ok tt → ∀ total, expected = Some total → (total ≤ start + N.of_nat (length rest))%N).
Proof.
  intros Hset. revert r. induction l as [|a l IH]; intros r Hpos.
  - cbn [receive_loop stream]. rewrite app_nil_r. destruct (flushed p).
    + split; [done|]. rewrite check_total_Ok, Hpos. naive_solver.
    + split; [apply Hset|done].
  - assert (∀ s, rx_content r `prefix_of` rx_content r ++ s) as Hpre by (intros s; by eexists).
    assert (∀ s, settled p (rx_content r) `prefix_of` rx_content r ++ s) as Hpre'
      by (intros s; etransitivity; [apply Hset|apply Hpre]).
    assert (∀ (r : Reception) s, rx_position r = (start + N.of_nat (length (rx_content r)))%N →
      (rx_content r `prefix_of` s) → (settled p (rx_content r) `prefix_of` s) →
      let '(res, rest, _) := if flushed p then (check_total expected (rx_position r), rx_content r, r)
        else (Err (Io (lit "flush")), settled p (rx_content r), r) in
      rest `prefix_of` s ∧ (res = Ok tt → ∀ total, expected = Some total → (total ≤ start + N.of_nat (length rest))%N))
      as Hfin.
    { intros r0 s Hp H1 H2. destruct (flushed p); split; try done. rewrite check_total_Ok, Hp. naive_solver. }
    cbn [receive_loop stream]. destruct a as [|b written|kind]; [done| |].
    + destruct (is_empty b) eqn:He; [by apply Hfin|].
      destruct (N.ltb_spec MAX_TRANSFER_BYTES (rx_position (take_chunk b r))) as [|Hmax]; [done|].
      assert (rx_position (take_chunk b r) =
        (start + N.of_nat (length (rx_content (take_chunk b r))))%N) as Hpos'.
      { cbn [take_chunk rx_content rx_position] in *. rewrite length_app. revert Hmax.
        unfold saturating_add, MAX_TRANSFER_BYTES, u64_max. rewrite Hpos. lia. }
      assert (rx_content (take_chunk b r) `prefix_of` rx_content r ++ b ++ stream l) as H1.
      { rewrite (assoc_L (++)). by eexists. }
      destruct written; cbn [negb].
      * destruct (match expected with Some _ => _ | None => _ end).
        -- apply Hfin; [done..|]. etransitivity; [apply Hset|done].
        -- specialize (IH _ Hpos'). cbn [take_chunk rx_content] in IH. by rewrite (assoc_L (++)).
      * split; [|done]. etransitivity; [apply Hset|done].
    + destruct (end_of_stream kind); [done|]. by apply Hfin.
Qed.

(** A stream with nothing but data that is written, at least as long as what
    is expected, is received. *)
Definition all_written (l : list Arrival) : Prop := Forall (λ a, ∃ b, a = Data b true ∧ b ≠ []) l.

Lemma receive_loop_Ok p l r total :
  all_written l → flushed p = true → (total ≤ MAX_TRANSFER_BYTES)%N →
  (rx_position r + N.of_nat (length (stream l)) = total)%N →
  (receive_loop p (Some total) l r).1.1 = Ok tt.
Proof.
  intros Hl Hf Hm. revert r. induction Hl as [|a l (b & -> & Hb) Hl IH]; intros r Hpos.
  - cbn [receive_loop stream length] in *. rewrite Hf. cbn [fst]. apply check_total_Ok. intros ? [= <-]. lia.
  - cbn [receive_loop stream] in *. apply is_empty_false in Hb. rewrite Hb in *.
    rewrite length_app in Hpos.
    assert (rx_position (take_chunk b r) = rx_position r + N.of_nat (length b))%N as Hpos'.
    { cbn [take_chunk rx_position]. unfold saturating_add. revert Hm. unfold MAX_TRANSFER_BYTES, u64_max. lia. }
    destruct (N.ltb_spec MAX_TRANSFER_BYTES (rx_position (take_chunk b r))); [lia|]. cbn [negb].
    destruct (N.leb_spec total (rx_position (take_chunk b r))).
    + rewrite Hf. cbn [fst]. apply check_total_Ok. intros ? [= <-]. lia.
    + apply IH. rewrite Hpos'. lia.
Qed.

(** * Lemmas: the directory *)

Lemma paths_distinct name :
  name ≠ partial_path name ∧ name ≠ origin_path name ∧ partial_path name ≠ origin_path name.
Proof.
  unfold partial_path, origin_path. split_and!; intros H; apply (f_equal length) in H;
    rewrite !length_app in H;
    change (length (lit ".part")) with 5 in H; change (length (lit ".part.from")) with 10 in H; lia.
Qed.

Lemma write_origin_ne name from n d q :
  q ≠ origin_path name → write_origin name from n d !! q = d !! q.
Proof. intros H. unfold write_origin. case_match; [done|]. by rewrite lookup_insert_ne. Qed.

Lemma remove_origin_ne name d q : q ≠ origin_path name → remove_origin name d !! q = d !! q.
Proof. intros H. unfold remove_origin. case_match; [|done]. by rewrite lookup_delete_ne. Qed.

Lemma remove_file_ne path d q : q ≠ path → remove_file path d !! q = d !! q.
Proof. intros H. unfold remove_file. case_all. by rewrite lookup_delete_ne. Qed.

(** Bytes of this file from this sender: the beginning of it. *)
Definition partial_ok (F : bytes) (name from : str) (d : Dir) : Prop :=
  is_Some (resumable_len d name from (N.of_nat (length F))) →
  ∀ b, d !! partial_path name = Some (File b) → b `prefix_of` F.

Lemma resumable_len_Some d name from n k :
  resumable_len d name from n = Some k →
  ∃ b, d !! partial_path name = Some (File b) ∧ k = N.of_nat (length b).
Proof. unfold resumable_len, partial_len. intros H. case_all. eauto. Qed.

Lemma prefix_take_app (a b F : bytes) n :
  a `prefix_of` F → n ≤ length a → b `prefix_of` drop n F → take n a ++ b `prefix_of` F.
Proof.
  intros [k ->] Hn [k' Hb]. exists k'.
  rewrite <- (take_drop n (a ++ k)), Hb. rewrite take_app_le by done. by rewrite (assoc_L (++)).
Qed.

Lemma prefix_full (a F : bytes) : a `prefix_of` F → length F ≤ length a → a = F.
Proof. intros [k ->] H. rewrite length_app in H. destruct k; [by rewrite app_nil_r|cbn in H; lia]. Qed.

Lemma set_len_le n b : N.to_nat n ≤ length b → set_len n b = take (N.to_nat n) b.
Proof.
  intros H. unfold set_len. replace (N.to_nat n - length b)%nat with O by lia. apply app_nil_r.
Qed.

(** A download into the partial file: nothing else changes, and the partial
    file is the beginning of the file, all of it if the download succeeds. *)
Lemma receive_into_spec p path F start d :
  settled_ok p →
  ((0 < start)%N → ∃ b, d !! path = Some (File b) ∧ b `prefix_of` F ∧ N.to_nat start ≤ length b) →
  stream (arrivals p) `prefix_of` drop (N.to_nat start) F →
  let '(res, d', _) := receive_into p path (Some (N.of_nat (length F))) start d in
  (∀ q, q ≠ path → d' !! q = d !! q) ∧
  ((d !! path = Some Other ∧ d' = d ∧ ∃ e, res = Err e) ∨
   ∃ c, d' !! path = Some (File c) ∧ c `prefix_of` F ∧ (res = Ok tt → c = F)).
Proof.
  intros Hset Hstart Hstr. unfold receive_into.
  set (r := mkReception [] start [] _).
  pose proof (receive_loop_spec p (Some (N.of_nat (length F))) (arrivals p) r start Hset) as Hloop.
  assert (∀ kept, length kept = N.to_nat start →
    (∀ b, b `prefix_of` drop (N.to_nat start) F → kept ++ b `prefix_of` F) →
    let '(res, d', _) := let '(result, rest, r) := receive_loop p (Some (N.of_nat (length F))) (arrivals p) r in
      (result, <[path := File (kept ++ rest)]> d, r) in
    (∀ q, q ≠ path → d' !! q = d !! q) ∧
    ((d !! path = Some Other ∧ d' = d ∧ ∃ e, res = Err e) ∨
     ∃ c, d' !! path = Some (File c) ∧ c `prefix_of` F ∧ (res = Ok tt → c = F))) as Hgo.
  { intros kept Hlen Hk. destruct (receive_loop p _ (arrivals p) r) as [[res rest] r'].
    destruct Hloop as [Hpre Hok]; [cbn; lia|]. cbn [rx_content app r] in Hpre.
    split; [intros q Hq; by rewrite lookup_insert_ne|right]. exists (kept ++ rest).
    rewrite lookup_insert_eq. split; [done|]. assert (kept ++ rest `prefix_of` F) as Hf
      by (apply Hk; by etransitivity).
    split; [done|]. intros Hres. apply prefix_full; [done|].
    specialize (Hok Hres _ eq_refl). rewrite length_app, Hlen. lia. }
  destruct (N.ltb_spec 0 start) as [Hpos|Hpos].
  - destruct (Hstart Hpos) as (b & E & Hb & Hlen). revert Hgo. rewrite E, set_len_le by done. intros Hgo. apply Hgo.
    + rewrite length_take. lia.
    + intros s Hs. by apply prefix_take_app.
  - assert (start = 0%N) as -> by lia. destruct (d !! path) as [[b|]|] eqn:E.
    + apply Hgo; [done..|]. intros s Hs. exact Hs.
    + split; [done|]. left. eauto.
    + apply Hgo; [done..|]. intros s Hs. exact Hs.
Qed.

(** * Lemmas: an attempt *)

Lemma fit_start_inside d {IpAddr} (offer : DccOffer IpAddr) from start F :
  size offer = Some (N.of_nat (length F)) → partial_ok F (filename offer) from d →
  fit_start d offer from start = start → (0 < start)%N →
  ∃ b, d !! partial_path (filename offer) = Some (File b) ∧ b `prefix_of` F ∧ N.to_nat start ≤ length b.
Proof.
  intros Hs Hok Hfit Hpos. unfold fit_start in Hfit. rewrite Hs in Hfit.
  destruct (resumable_len d (filename offer) from (N.of_nat (length F))) as [k|] eqn:E; cbn [default id] in Hfit.
  - destruct (resumable_len_Some _ _ _ _ _ E) as (b & Hb & ->). exists b.
    split; [done|]. split; [apply Hok; eauto|].
    destruct (N.leb_spec start (N.of_nat (length b))); [lia|]. rewrite !andb_false_r in Hfit. lia.
  - destruct (N.leb_spec start 0); [lia|]. rewrite !andb_false_r in Hfit. lia.
Qed.

(** The names an attempt may touch. *)
Definition attempt_names (name : str) : list str := [name; partial_path name; origin_path name].

(** What an attempt leaves: the partial file is still the beginning of the
    file, other names are untouched, and success is the whole file. *)
Definition attempt_ok (F : bytes) (name from : str) (d d' : Dir) (res : result str TransferError) : Prop :=
  partial_ok F name from d' ∧
  (∀ q, q ∉ attempt_names name → d' !! q = d !! q) ∧
  match res with
  | Ok f => f = name ∧ d !! name = None ∧ d' !! name = Some (File F) ∧ d' !! partial_path name = None
  | Err _ => d' !! name = d !! name
  end.

Lemma attempt_ok_refl F name from d e : partial_ok F name from d → attempt_ok F name from d d (Err e).
Proof. intros H. unfold attempt_ok. by split_and!. Qed.

Lemma partial_ok_prefix F name from d c :
  d !! partial_path name = Some (File c) → c `prefix_of` F → partial_ok F name from d.
Proof. intros H1 H2 _ b. rewrite H1. by intros [= <-]. Qed.

Lemma partial_ok_no_file F name from d :
  (∀ b, d !! partial_path name ≠ Some (File b)) → partial_ok F name from d.
Proof. intros H _ b Hb. by apply H in Hb. Qed.

Lemma remove_attempt_ok F name from d d' e :
  (∀ q, q ≠ partial_path name → q ≠ origin_path name → d' !! q = d !! q) →
  attempt_ok F name from d (remove_origin name (remove_file (partial_path name) d')) (Err e).
Proof.
  intros Hq. destruct (paths_distinct name) as (H1 & H2 & H3). unfold attempt_ok. split_and!.
  - apply partial_ok_no_file. intros b. rewrite remove_origin_ne by done. unfold remove_file.
    case_all; [by rewrite lookup_delete_eq|congruence..].
  - intros q Hn. unfold attempt_names in Hn. rewrite !not_elem_of_cons in Hn.
    rewrite remove_origin_ne, remove_file_ne by naive_solver. naive_solver.
  - rewrite remove_origin_ne, remove_file_ne by done. by apply Hq.
Qed.

Lemma accept_attempt {IpAddr} (net : Route IpAddr → ConnectOutcome) offer from proxy start p d F :
  size offer = Some (N.of_nat (length F)) → settled_ok p → partial_ok F (filename offer) from d →
  fit_start d offer from start = start → stream (arrivals p) `prefix_of` drop (N.to_nat start) F →
  let '(res, d') := accept net offer from proxy start p d in attempt_ok F (filename offer) from d d' res.
Proof.
  intros Hs Hset Hok Hfit Hstr. unfold accept. rewrite Hs, Hfit. set (name := filename offer) in *.
  destruct (_ && _); [by apply attempt_ok_refl|].
  destruct (addr offer) as [a|], (port offer) as [prt|]; try by apply attempt_ok_refl.
  destruct (MAX_TRANSFER_BYTES <? _)%N; [by apply attempt_ok_refl|].
  case_bool_decide as Hfree; [by apply attempt_ok_refl|]. apply eq_None_not_Some in Hfree.
  destruct (dial net a prt proxy); [|by apply attempt_ok_refl].
  destruct (paths_distinct name) as (H1 & H2 & H3).
  set (d0 := write_origin name from _ d).
  assert (∀ q, q ≠ origin_path name → d0 !! q = d !! q) as Hd0 by (intros q; apply write_origin_ne).
  pose proof (receive_into_spec p (partial_path name) F start d0 Hset) as Hrec.
  destruct (receive_into p (partial_path name) _ start d0) as [[res d1] r].
  destruct Hrec as [Hq Hres]; [|done|].
  { intros Hpos. rewrite Hd0 by done. by eapply fit_start_inside. }
  assert (∀ q, q ≠ partial_path name → q ≠ origin_path name → d1 !! q = d !! q) as Hframe
    by (intros q ??; rewrite Hq, Hd0; done).
  assert (partial_ok F name from d1) as Hok1.
  { destruct Hres as [(Ho & -> & _)|(c & Hc & Hp & _)]; [|by eapply partial_ok_prefix].
    apply partial_ok_no_file. intros b. rewrite Ho. done. }
  assert (∀ e, attempt_ok F name from d d1 (Err e)) as Herr.
  { intros e. unfold attempt_ok. split_and!; [done| |by apply Hframe]. intros q Hn. unfold attempt_names in Hn.
    rewrite !not_elem_of_cons in Hn. apply Hframe; naive_solver. }
  destruct res as [[]|e]; [|destruct (keep_partial d1 offer e); [done|by apply remove_attempt_ok]].
  destruct Hres as [(_ & _ & e & [=])|(c & Hc & _ & Hwhole)]. rewrite (Hwhole eq_refl) in Hc.
  unfold rename. rewrite Hc, Hframe, Hfree by done. unfold attempt_ok. split_and!; [| |done|done|..].
  - apply partial_ok_no_file. intros b. rewrite remove_origin_ne, lookup_insert_ne, lookup_delete_eq; done.
  - intros q Hn. unfold attempt_names in Hn. rewrite !not_elem_of_cons in Hn. destruct Hn as (?&?&?&_).
    rewrite remove_origin_ne, lookup_insert_ne, lookup_delete_ne by done. by apply Hframe.
  - by rewrite remove_origin_ne, lookup_insert_eq.
  - by rewrite remove_origin_ne, lookup_insert_ne, lookup_delete_eq.
Qed.

(** A connection that delivers everything makes the attempt succeed. *)
Lemma accept_succeeds {IpAddr} (net : Route IpAddr → ConnectOutcome) offer from proxy start p d F a prt :
  size offer = Some (N.of_nat (length F)) → addr offer = Some a → port offer = Some prt → token offer = None →
  (N.of_nat (length F) ≤ MAX_TRANSFER_BYTES)%N → d !! filename offer = None →
  d !! partial_path (filename offer) ≠ Some Other →
  dial net a prt proxy = Ok tt → settled_ok p → flushed p = true → all_written (arrivals p) →
  partial_ok F (filename offer) from d →
  fit_start d offer from start = start → stream (arrivals p) = drop (N.to_nat start) F →
  ∃ d', accept net offer from proxy start p d = (Ok (filename offer), d').
Proof.
  intros Hs Ha Hp Ht Hm Hfree Hno Hd Hset Hfl Hw Hok Hfit Hstr.
  assert ((0 < start)%N → ∃ b, d !! partial_path (filename offer) = Some (File b) ∧ b `prefix_of` F ∧
    N.to_nat start ≤ length b) as Hin by (intros Hpos; by eapply fit_start_inside).
  assert (N.to_nat start ≤ length F) as Hle.
  { destruct (N.eq_dec start 0%N) as [->|]; [lia|]. destruct Hin as (b & _ & Hb & ?); [lia|].
    apply prefix_length in Hb. lia. }
  unfold accept, is_reverse. rewrite Hs, Hfit, Ha, Hp, Ht, Hd.
  destruct (N.ltb_spec MAX_TRANSFER_BYTES (N.of_nat (length F))); [lia|].
  rewrite (bool_decide_false (is_Some (@None N))) by (by intros []). cbn [andb].
  rewrite (bool_decide_false (is_Some (d !! filename offer))) by (rewrite Hfree; by intros []).
  set (name := filename offer) in *. destruct (paths_distinct name) as (H1 & H2 & H3).
  unfold receive_into. rewrite write_origin_ne by done.
  set (r := mkReception [] start [] _).
  assert ((receive_loop p (Some (N.of_nat (length F))) (arrivals p) r).1.1 = Ok tt) as Hloop.
  { apply receive_loop_Ok; [done..|]. rewrite Hstr, length_drop. cbn. lia. }
  assert (∃ kept, match d !! partial_path name with
    | Some (File b) => Ok (if (0 <? start)%N then set_len start b else [])
    | Some Other => Err (Io (lit "open"))
    | None => if (0 <? start)%N then Err (Io (lit "open")) else Ok [] end = Ok kept) as [kept ->].
  { destruct (d !! partial_path name) as [[b|]|] eqn:E; [by eexists|done|].
    destruct (N.ltb_spec 0 start) as [Hpos|]; [|by eexists]. by destruct (Hin Hpos) as (b & ? & _). }
  destruct (receive_loop p _ (arrivals p) r) as [[res rest] r']. cbn [fst] in Hloop. subst res.
  unfold rename. rewrite lookup_insert_eq, lookup_insert_ne by done.
  rewrite write_origin_ne, Hfree by done. by eexists.
Qed.

(** * Lemmas: the sending side *)

Definition only_reads (steps : list SendStep) : Prop := Forall (λ s, ∃ n, s = ReadSome n) steps.

Lemma Forall_tail {A} (P : A → Prop) l : Forall P l → Forall P (tail l).
Proof. by destruct 1. Qed.

Lemma send_loop_spec fuel steps rest sent out :
  only_reads steps → length rest ≤ fuel → (sent + N.of_nat (length rest) ≤ u64_max)%N →
  ∃ chunks, send_loop fuel steps rest sent out = (Ok (sent + N.of_nat (length rest))%N, out ++ chunks) ∧
    concat chunks = rest ∧ Forall (λ b, b ≠ []) chunks.
Proof.
  revert steps rest sent out. induction fuel as [|fuel IH]; intros steps rest sent out Hs Hf Hmax.
  - destruct rest; [|cbn in Hf; lia]. exists []. rewrite app_nil_r, N.add_0_r.
    split; [|done]. destruct steps as [|s steps]; [done|].
    apply Forall_cons in Hs as [(n & ->) _]. done.
  - set (n := match steps with ReadSome n :: _ => Nat.max 1 (Nat.min n (N.to_nat CHUNK)) | _ => N.to_nat CHUNK end).
    assert (send_loop (S fuel) steps rest sent out =
      if is_empty rest then (Ok sent, out) else send_loop fuel (tail steps) (drop n rest)
        (saturating_add sent (N.of_nat (length (take n rest)))) (out ++ [take n rest])) as ->.
    { destruct steps as [|s steps]; [done|]. apply Forall_cons in Hs as [(k & ->) _]. done. }
    destruct rest as [|c rest]; [exists []; by rewrite app_nil_r, N.add_0_r|].
    cbn [is_empty]. set (l := c :: rest) in *.
    assert (1 ≤ n) as Hn.
    { unfold n. assert (1 ≤ N.to_nat CHUNK) by (apply Nat.leb_le; vm_compute; done).
      destruct steps as [|[]]; lia. }
    assert (length (take n l) + length (drop n l) = length l) as Hlen by (rewrite <- length_app; by rewrite take_drop).
    assert (length (drop n l) < length l) as Hdec by (rewrite length_drop; unfold l; cbn [length]; lia).
    assert (saturating_add sent (N.of_nat (length (take n l))) = sent + N.of_nat (length (take n l)))%N as ->.
    { unfold saturating_add. lia. }
    destruct (IH (tail steps) (drop n l) (sent + N.of_nat (length (take n l)))%N (out ++ [take n l]))
      as (chunks & -> & Hc & Hne); [by apply Forall_tail|lia|lia|].
    exists (take n l :: chunks). rewrite <- (assoc_L (++)). split_and!.
    + f_equal. f_equal. lia.
    + cbn [concat]. by rewrite Hc, take_drop.
    + constructor; [|done]. unfold l. destruct n; [lia|]. done.
Qed.

Lemma send_from_spec F start steps :
  only_reads steps → (N.of_nat (length F) ≤ MAX_TRANSFER_BYTES)%N → (start < N.of_nat (length F))%N →
  ∃ chunks, send_from F start steps = (Ok (N.of_nat (length F)), chunks) ∧
    concat chunks = drop (N.to_nat start) F ∧ Forall (λ b, b ≠ []) chunks.
Proof.
  intros Hs Hm Hst. unfold send_from. destruct (N.ltb_spec MAX_TRANSFER_BYTES (N.of_nat (length F))); [lia|].
  apply N.ltb_lt in Hst as Hb. rewrite Hb.
  destruct (send_loop_spec (length (drop (N.to_nat start) F)) steps (drop (N.to_nat start) F) start [])
    as (chunks & -> & Hc & Hne); [done..| |].
  - rewrite length_drop. revert Hm. unfold MAX_TRANSFER_BYTES, u64_max. lia.
  - exists chunks. split; [|done]. f_equal. f_equal. rewrite length_drop. lia.
Qed.
