(* ===== verification/TransferResume.v ===== *)
(** Two clients carrying on an interrupted transfer: the lines they exchange,
    the positions they agree on and the file that results. *)
From S2P Require Import Prelude RustStr Session Offer Transfer Transfers TransferProps TransferFile.

(** * Lemmas: safe names on the wire *)

Lemma safe_wire_name f : safe_name f → wire_name f = f.
Proof.
  intros [_ Hch _ _ _ _]. unfold wire_name. induction Hch as [|c f (_ & _ & Hc) Hf IH]; [done|].
  rewrite filter_cons_True; [by rewrite IH|]. intros ->. discriminate Hc.
Qed.

Lemma parse_resume_safe name p n :
  safe_name name → survives name = true → (p ≤ u16_max)%N → (n ≤ u64_max)%N →
  parse_resume (resume_text (lit "RESUME") name p n) = Some (mkResume name p n None).
Proof.
  intros Hn Hs Hp Hl. unfold parse_resume. change (lit "RESUME") with (82%N :: lit "ESUME").
  rewrite parse_resume_text by done. by rewrite safe_wire_name, safe_filename_id.
Qed.

Lemma parse_accept_safe name p n :
  safe_name name → survives name = true → (p ≤ u16_max)%N → (n ≤ u64_max)%N →
  parse_accept (resume_text (lit "ACCEPT") name p n) = Some (mkResume name p n None).
Proof.
  intros Hn Hs Hp Hl. unfold parse_accept. change (lit "ACCEPT") with (65%N :: lit "CCEPT").
  rewrite parse_resume_text by done. by rewrite safe_wire_name, safe_filename_id.
Qed.

(** An answer is not taken for a request. *)
Lemma parse_resume_accept name p n : parse_resume (resume_text (lit "ACCEPT") name p n) = None.
Proof.
  unfold parse_resume, parse_resume_like, resume_text.
  change (lit "DCC ") with (68%N :: lit "CC" ++ [32%N]). change (lit "DCC") with (68%N :: lit "CC").
  app_norm. rewrite strip_keyword_app by done. cbn [mbind option_bind].
  change (lit " ") with [32%N]. cbn [app]. change (lit "ACCEPT") with [65%N; 67%N; 67%N; 69%N; 80%N; 84%N].
  cbn [app]. unfold trim_start, trim_start_matches. rewrite drop_while_id by done.
  unfold strip_keyword. unfold trim_start, trim_start_matches. rewrite drop_while_id by done.
  unfold split_at_checked. match goal with |- context [byte_prefix ?s ?n] =>
    rewrite (proj2 (byte_prefix_Some s n [65; 67; 67; 69; 80; 84]%N)) end; [done|]. split; [by eexists|done].
Qed.

(** * The situation *)

Section Resume.
Context {IpAddr : Type} (v4 : N → IpAddr) (parse_ip : str → option IpAddr).

(** [S] serves the bytes [F] under [name] on [prt] to the person [R] knows
    itself as ([me]); [R] holds that offer from [S]'s nick [from] under [id],
    and in its directory [d] the beginning [b] of the file with the record of
    who it came from. *)
Record interrupted (S R : @Actor IpAddr) (d : Dir) (id : N) (F b : bytes)
    (name from me channel target : str) (a : IpAddr) (prt offset : N) : Prop := {
  in_name : safe_name name;
  in_survives : survives name = true;
  in_size : (N.of_nat (length F) ≤ MAX_TRANSFER_BYTES)%N;
  in_port : (0 < prt ≤ u16_max)%N;
  in_serving : serving (transfers S) !! prt =
    Some (mkServing target name (N.of_nat (length F)) offset true);
  in_target : eq_ignore_ascii_case target me = true;
  in_person : is_channel_target target = false;
  in_self_sender : is_self (session S) from = true;
  in_self_receiver : is_self (session R) me = true;
  in_offer : offers (transfers R) !! id =
    Some (mkPending channel from (mkOffer name (Some a) (Some prt) (Some (N.of_nat (length F))) None));
  in_free : d !! name = None;
  in_partial : d !! partial_path name = Some (File b);
  in_record : d !! origin_path name = Some (File (as_bytes (origin_text from (N.of_nat (length F)))));
  in_begun : b ≠ [];
  in_prefix : b `prefix_of` F;
  in_unfinished : length b < length F;
}.

(** * Lemmas: the three steps *)

Lemma resumable_len_recorded d name from n b :
  d !! origin_path name = Some (File (as_bytes (origin_text from n))) →
  d !! partial_path name = Some (File b) → b ≠ [] →
  resumable_len d name from n = Some (N.of_nat (length b)).
Proof.
  intros H1 H2 H3. unfold resumable_len, partial_len. rewrite H1, H2.
  rewrite take_ge by lia. rewrite bool_decide_true by done. apply is_empty_false in H3. by rewrite H3.
Qed.

Lemma accept_file_resumes S R d id F b name from me channel target a prt offset :
  interrupted S R d id F b name from me channel target a prt offset →
  let '(R1, job) := accept_file id d R in
  job = Some (mkPending channel from (mkOffer name (Some a) (Some prt) (Some (N.of_nat (length F))) None),
              Some (N.of_nat (length b))) ∧
  outgoing R1 = outgoing R ++ [(from, ctcp (resume_text (lit "RESUME") name prt (N.of_nat (length b))))] ∧
  session R1 = session R ∧
  resumes (transfers R1) !! (to_ascii_lowercase from, prt) = Some (mkAwaited name id).
Proof.
  intros H. unfold accept_file. rewrite (in_offer _ _ _ _ _ _ _ _ _ _ _ _ _ _ H).
  unfold ask_to_resume. cbn [po_offer po_from is_reverse token port size filename].
  unfold is_reverse. cbn [token]. rewrite bool_decide_false by (by intros []).
  rewrite (resumable_len_recorded d name from _ b) by apply H.
  destruct (N.leb_spec (N.of_nat (length F)) (N.of_nat (length b))) as [Hle|_].
  { pose proof (in_unfinished _ _ _ _ _ _ _ _ _ _ _ _ _ _ H). lia. }
  cbn [emit privmsg with_transfers outgoing session transfers resumes set_resumes].
  split_and!; [done..|]. by rewrite lookup_insert_eq.
Qed.

Lemma on_resume_request_answers S R d id F b name from me channel target a prt offset :
  interrupted S R d id F b name from me channel target a prt offset →
  let S1 := on_ctcp v4 parse_ip from (resume_text (lit "RESUME") name prt (N.of_nat (length b))) me false S in
  outgoing S1 = outgoing S ++ [(me, ctcp (resume_text (lit "ACCEPT") name prt (N.of_nat (length b))))] ∧
  serving (transfers S1) !! prt =
    Some (mkServing target name (N.of_nat (length F)) (N.of_nat (length b)) true).
Proof.
  intros H. pose proof H as [Hn Hsv Hsz Hp Hserv Ht Hch Hs _ _ _ _ _ Hb _ Hlt].
  unfold on_ctcp. rewrite Hs, parse_resume_safe; [|done|done|lia|].
  2: { revert Hsz. unfold MAX_TRANSFER_BYTES, u64_max. lia. }
  unfold on_resume_request. cbn [r_token r_port r_filename r_position].
  rewrite bool_decide_false by (by intros []). destruct (N.eqb_spec prt 0); [lia|]. cbn [orb].
  unfold forget_finished. cbn [with_transfers transfers serving set_serving].
  rewrite (proj2 (map_lookup_filter_Some _ _ prt (mkServing target name (N.of_nat (length F)) offset true))) by done.
  cbn [s_filename s_size s_target s_live]. rewrite safe_filename_id, bool_decide_true by done. cbn [negb].
  assert (0 < length b) by (destruct b; [done|cbn; lia]).
  destruct (N.eqb_spec (N.of_nat (length b)) 0); [lia|].
  destruct (N.leb_spec (N.of_nat (length F)) (N.of_nat (length b))); [lia|]. rewrite Ht, Hch. cbn [orb negb].
  cbn [privmsg with_transfers set_serving outgoing transfers serving]. split; [done|]. by rewrite lookup_insert_eq.
Qed.

Lemma on_resume_accepted_delivers (R1 : @Actor IpAddr) id name from me prt n :
  safe_name name → survives name = true → (0 < prt ≤ u16_max)%N → (n ≤ u64_max)%N →
  is_self (session R1) me = true →
  resumes (transfers R1) !! (to_ascii_lowercase from, prt) = Some (mkAwaited name id) →
  answers (transfers (on_ctcp v4 parse_ip me (resume_text (lit "ACCEPT") name prt n) from false R1)) !! id = Some n.
Proof.
  intros Hn Hsv Hp Hl Hs Hw. unfold on_ctcp. rewrite Hs, parse_resume_accept, parse_accept_safe by (done || lia).
  unfold on_resume_accepted. cbn [r_token r_port r_filename r_position].
  rewrite bool_decide_false by (by intros []). destruct (N.eqb_spec prt 0); [lia|]. cbn [orb].
  rewrite Hw. cbn [aw_filename aw_reply]. rewrite bool_decide_true by done.
  cbn [with_transfers transfers answers set_answers]. by rewrite lookup_insert_eq.
Qed.

(** C10: a download resumed from where it stopped is the whole file. When the user
    accepts an offer of which the beginning is already here, the client asks
    the sender to carry on after those bytes; the sender answers and moves its
    offset there, the answer reaches the waiting download, and what the sender
    then sends completes the file: it is stored under its name, equal byte for
    byte to the sender's, the partial file is gone and no other name in the
    directory has changed. *)
Theorem resumed_download_whole net (S R : @Actor IpAddr) d id F b name from me channel target a prt offset p steps :
  interrupted S R d id F b name from me channel target a prt offset →
  dial net a prt (proxy R) = Ok tt →
  settled_ok p → flushed p = true → all_written (arrivals p) → only_reads steps →
  ∃ R1 pending request answer s,
    accept_file id d R = (R1, Some (pending, Some (N.of_nat (length b)))) ∧
    outgoing R1 = outgoing R ++ [(from, request)] ∧
    let S1 := on_ctcp v4 parse_ip from (ctcp_body request) me false S in
    outgoing S1 = outgoing S ++ [(me, answer)] ∧
    serving (transfers S1) !! prt = Some s ∧
    let R2 := on_ctcp v4 parse_ip me (ctcp_body answer) from false R1 in
    (serve Accepted F (s_offset s) steps).1 = Ok (N.of_nat (length F)) ∧
    (stream (arrivals p) = concat (serve Accepted F (s_offset s) steps).2 →
     ∃ d', run_download net (proxy R) pending (Some (N.of_nat (length b)))
             (answers (transfers R2) !! id) false p d = (Ok name, d') ∧
       d' !! name = Some (File F) ∧ d' !! partial_path name = None ∧
       ∀ q, q ∉ attempt_names name → d' !! q = d !! q).
Proof.
  intros H Hdial Hset Hfl Hw Hsteps.
  pose proof (accept_file_resumes _ _ _ _ _ _ _ _ _ _ _ _ _ _ H) as Hacc.
  destruct (accept_file id d R) as [R1 job]. destruct Hacc as (-> & Hout & Hsess & Hwait).
  pose proof (on_resume_request_answers _ _ _ _ _ _ _ _ _ _ _ _ _ _ H) as [Hans Hserv].
  pose proof H as [Hn Hsv Hsz Hp _ _ _ _ Hr _ Hfree Hpart Hrec Hb Hpre Hlt].
  eexists R1, _, _, _, _. split; [done|]. split; [exact Hout|]. rewrite ctcp_resume_text.
  split; [exact Hans|]. split; [exact Hserv|]. cbn [s_offset]. cbv zeta.
  destruct (send_from_spec F (N.of_nat (length b)) steps) as (chunks & Hsend & Hc & _); [done..|lia|].
  unfold serve. rewrite Hsend. cbn [fst snd]. split; [done|]. rewrite Hc. intros Hstr.
  rewrite ctcp_resume_text, on_resume_accepted_delivers; [|done|done|done| |by rewrite Hsess|done].
  2: { revert Hsz. unfold MAX_TRANSFER_BYTES, u64_max. lia. }
  unfold run_download, start_position. rewrite andb_false_r, bool_decide_true by done. cbn [po_offer po_from].
  set (offer := mkOffer name (Some a) (Some prt) (Some (N.of_nat (length F))) None).
  assert (partial_ok F name from d) as Hok by (by eapply partial_ok_prefix).
  assert (fit_start d offer from (N.of_nat (length b)) = N.of_nat (length b)) as Hfit.
  { unfold fit_start. cbn [offer size filename]. rewrite (resumable_len_recorded d name from _ b) by done.
    cbn [from_option Datatypes.id]. assert (0 < length b) by (destruct b; [done|cbn; lia]).
    destruct (N.ltb_spec 0 (N.of_nat (length b))); [|lia].
    destruct (N.ltb_spec (N.of_nat (length b)) (N.of_nat (length F))); [|lia].
    by destruct (N.leb_spec (N.of_nat (length b)) (N.of_nat (length b))); [|lia]. }
  destruct (accept_succeeds net offer from (proxy R) (N.of_nat (length b)) p d F a prt)
    as [d' Hd']; try done; [cbn [offer filename]; by rewrite Hpart|].
  pose proof (accept_attempt net offer from (proxy R) (N.of_nat (length b)) p d F eq_refl Hset Hok Hfit) as Hatt.
  rewrite Hd' in Hatt. destruct Hatt as (_ & Hq & _ & _ & H1 & H2); [by rewrite Hstr|].
  exists d'. by split_and!.
Qed.
End Resume.

(** * A run *)

Module Demo.

Definition content : bytes := [72; 101; 108; 108; 111; 33]%N.
Definition file : str := lit "song one.mp3".

Definition sender : @Actor N :=
  mkActor (new_session (lit "Bob")) None
    (mkTransfers 1 ∅ ∅ ∅ {[ 5000%N := mkServing (lit "alice") file 6 0 true ]} ∅) [] [].
Definition receiver : @Actor N :=
  mkActor (new_session (lit "Alice")) None
    (mkTransfers 7 {[ 7%N := mkPending (lit "Bob") (lit "Bob")
                              (mkOffer file (Some 2130706433%N) (Some 5000%N) (Some 6%N) None) ]} ∅ ∅ ∅ ∅) [] [].
Definition disk : Dir :=
  {[ partial_path file := File [72; 101; 108]%N;
     origin_path file := File (as_bytes (origin_text (lit "Bob") 6)) ]}.
Definition peer : Peer := mkPeer [Data [108; 111]%N true; Data [33]%N true] true (λ b, b).
End Demo.

Lemma demo_interrupted :
  interrupted Demo.sender Demo.receiver Demo.disk 7 Demo.content [72; 101; 108]%N
    Demo.file (lit "Bob") (lit "Alice") (lit "Bob") (lit "alice") 2130706433%N 5000 0.
Proof.
  split; try (vm_compute; done).
  - apply safe_filename_safe with Demo.file. by vm_compute.
  - by exists [108; 111; 33]%N.
  - cbn. lia.
Qed.

Lemma resumed_download_whole_witness :
  let no_ip (_ : str) : option N := None in
  ∃ R1 pending request answer,
    accept_file 7 Demo.disk Demo.receiver = (R1, Some (pending, Some 3%N)) ∧
    outgoing R1 = [(lit "Bob", request)] ∧
    outgoing (on_ctcp (λ n, n) no_ip (lit "Bob") (ctcp_body request) (lit "Alice") false Demo.sender) =
      [(lit "Alice", answer)] ∧
    ∃ d', run_download (λ _, Connected) None pending (Some 3%N)
            (answers (transfers (on_ctcp (λ n, n) no_ip (lit "Alice") (ctcp_body answer) (lit "Bob") false R1)) !! 7%N)
            false Demo.peer Demo.disk = (Ok Demo.file, d') ∧
      d' !! Demo.file = Some (File Demo.content).
Proof.
  intros no_ip.
  destruct (resumed_download_whole (λ n, n) no_ip (λ _, Connected) _ _ _ _ _ _ _ _ _ _ _ _ _ _ Demo.peer []
    demo_interrupted) as (R1 & pending & request & answer & s & H1 & H2 & H3 & H4 & _ & H6).
  - reflexivity.
  - intros b. exists []. by rewrite app_nil_r.
  - reflexivity.
  - repeat constructor; eexists; split; try reflexivity; discriminate.
  - constructor.
  - exists R1, pending, request, answer. split; [exact H1|]. split; [exact H2|]. split; [exact H3|].
    assert (s = mkServing (lit "alice") Demo.file 6 3 true) as ->.
    { clear H6. injection H1 as <- _. revert H2 H4. cbn [outgoing]. intros H2. injection H2 as <-.
      vm_compute. by intros [= <-]. }
    destruct H6 as (d' & Hrun & Hf & _); [by vm_compute|]. exists d'. split; [exact Hrun|exact Hf].
Defined.

(** * Two behaviours worth knowing *)

(** A name with a quotation mark is offered without it, and the request that
    comes back is compared with the name that still has it (made safe): such a
    file is never carried on. *)
Example quoted_name_not_resumed :
  let no_ip (_ : str) : option N := None in
  let name := lit "a b" ++ [0x22%N] ++ lit ".txt" in
  let S := mkActor (IpAddr := N) (new_session (lit "Bob")) None
    (mkTransfers 1 ∅ ∅ ∅ {[ 5000%N := mkServing (lit "alice") name 6 0 true ]} ∅) [] [] in
  (filename <$> parse_send (λ n, n) no_ip (send_text name 2130706433 5000 6)) = Some (lit "a b.txt") ∧
  outgoing (on_ctcp (λ n, n) no_ip (lit "Bob") (resume_text (lit "RESUME") (lit "a b.txt") 5000 3)
              (lit "alice") false S) = [].
Proof. by vm_compute. Qed.

(** When the partial file goes away after the sender has agreed to skip it, the
    position counts as zero but the sender still skips: the end of the file is
    kept as if it were its beginning, and carrying on from that succeeds with
    the wrong bytes. *)
Example skipped_beginning_kept :
  let offer := mkOffer Demo.file (Some 2130706433%N) (Some 5000%N) (Some 6%N) None in
  let '(r1, d1) := accept (λ _, Connected) offer (lit "Bob") None 3 Demo.peer ∅ in
  let '(r2, d2) := accept (λ _, Connected) offer (lit "Bob") None 3 Demo.peer d1 in
  r1 = Err (Truncated 3 6) ∧ resumable_len d1 Demo.file (lit "Bob") 6 = Some 3%N ∧
  r2 = Ok Demo.file ∧ d2 !! Demo.file = Some (File [108; 111; 33; 108; 111; 33]%N).
Proof. by vm_compute. Qed.
