(* ===== verification/Edits.v ===== *)
(** Correcting and taking back messages: the index of recent messages
    ([ddirc-core/src/xmpp/edits.rs]).

    Sequence numbers count the messages ever recorded; they are kept as
    unbounded numbers, a session being far too short to record [2^64]. *)
From S2P Require Import Prelude RustStr Session.

Definition MAX_INDEXED : nat := 2000.
Definition MAX_ID : nat := 200.

Record Entry := mkEntry {
  conversation : str;
  author : str;
  msgid : str;
  origin : option str;
  mine : bool;
}.

#[export] Instance Entry_eq_dec : EqDecision Entry.
Proof. solve_decision. Defined.

Abbreviation Found := (gmap (list N) (gmap (list N) (list N))).

Record MessageIndex := mkIndex {
  slots : list (option Entry);
  first : N;
  by_id : Found;
  by_origin : Found;
}.

Definition default_index : MessageIndex := mkIndex [] 0 ∅ ∅.

(** [slots.iter().flatten()]. *)
Definition entries (l : list (option Entry)) : list Entry := omap (λ s, s) l.

Definition len (x : MessageIndex) : nat := length (entries (slots x)).
Definition is_empty_index (x : MessageIndex) : bool := forallb (λ s, bool_decide (s = None)) (slots x).

Definition at_seq (x : MessageIndex) (seq : N) : option Entry :=
  if (first x <=? seq)%N then
    match slots x !! N.to_nat (seq - first x) with
    | Some slot => slot
    | None => None
    end
  else None.

(** Newest first. *)
Definition candidates (x : MessageIndex) (found : Found) (conv id : str) : list Entry :=
  match found !! conv ≫= (λ ids, ids !! id) with
  | Some seqs => omap (at_seq x) (rev seqs)
  | None => []
  end.

Definition file (conv id : str) (seq : N) (found : Found) : Found :=
  let found := if bool_decide (is_Some (found !! conv)) then found else <[conv := ∅]> found in
  match found !! conv with
  | Some ids =>
      let ids := match ids !! id with
                 | Some seqs => <[id := seqs ++ [seq]]> ids
                 | None => <[id := [seq]]> ids
                 end in
      <[conv := ids]> found
  | None => found
  end.

Definition unfile (conv id : str) (seq : N) (found : Found) : Found :=
  match found !! conv with
  | None => found
  | Some ids =>
      let ids := match ids !! id with
                 | Some seqs =>
                     let seqs := filter (λ s, s ≠ seq) seqs in
                     if is_empty seqs then delete id ids else <[id := seqs]> ids
                 | None => ids
                 end in
      if bool_decide (ids = ∅) then delete conv found else <[conv := ids]> found
  end.

Definition unfile_entry (seq : N) (e : Entry) (x : MessageIndex) : MessageIndex :=
  mkIndex (slots x) (first x)
    (unfile (conversation e) (msgid e) seq (by_id x))
    (match origin e with
     | Some o => unfile (conversation e) o seq (by_origin x)
     | None => by_origin x
     end).

Definition set_slots (l : list (option Entry)) (x : MessageIndex) : MessageIndex :=
  mkIndex l (first x) (by_id x) (by_origin x).

(** One turn of the first loop of [remove_where]. *)
Definition take_slot (gone : Entry → bool) (x : MessageIndex) (index : nat) : MessageIndex :=
  match slots x !! index with
  | Some (Some e) =>
      if gone e then
        unfile_entry (first x + N.of_nat index) e (set_slots (<[index := None]> (slots x)) x)
      else x
  | _ => x
  end.

Fixpoint pop_holes (l : list (option Entry)) (n : N) : list (option Entry) * N :=
  match l with
  | None :: l => pop_holes l (n + 1)
  | _ => (l, n)
  end.

Definition remove_where (gone : Entry → bool) (x : MessageIndex) : MessageIndex :=
  let x := foldl (take_slot gone) x (seq 0 (length (slots x))) in
  let '(l, n) := pop_holes (slots x) (first x) in
  mkIndex l n (by_id x) (by_origin x).

(** [pop_front] of a queue that is full. *)
Definition evict (x : MessageIndex) : MessageIndex :=
  match slots x with
  | Some old :: l =>
      let x := unfile_entry (first x) old (set_slots l x) in
      mkIndex (slots x) (first x + 1) (by_id x) (by_origin x)
  | None :: l => mkIndex l (first x + 1) (by_id x) (by_origin x)
  | [] => mkIndex [] (first x + 1) (by_id x) (by_origin x)
  end.

(** [while slots.len() >= MAX_INDEXED]: each turn shortens the queue. *)
Fixpoint evict_all (fuel : nat) (x : MessageIndex) : MessageIndex :=
  match fuel with
  | O => x
  | S fuel => if Nat.leb MAX_INDEXED (length (slots x)) then evict_all fuel (evict x) else x
  end.

Definition record (e : Entry) (x : MessageIndex) : MessageIndex :=
  if existsb (λ c, bool_decide (author c = author e)) (candidates x (by_id x) (conversation e) (msgid e)) then x
  else
    let x := evict_all (length (slots x)) x in
    let seq := (first x + N.of_nat (length (slots x)))%N in
    mkIndex (slots x ++ [Some e]) (first x)
      (file (conversation e) (msgid e) seq (by_id x))
      (match origin e with
       | Some o => file (conversation e) o seq (by_origin x)
       | None => by_origin x
       end).

Definition contains (x : MessageIndex) (conv id : str) : bool :=
  negb (is_empty (candidates x (by_id x) conv id)).

Definition for_correction (x : MessageIndex) (conv o who : str) : option Entry :=
  find (λ e, bool_decide (author e = who)) (candidates x (by_origin x) conv o).

Definition for_retraction (x : MessageIndex) (conv id who : str) : option Entry :=
  find (λ e, bool_decide (author e = who))
    (candidates x (by_id x) conv id ++ candidates x (by_origin x) conv id).

Definition ours (x : MessageIndex) (conv id : str) : option Entry :=
  find mine (candidates x (by_id x) conv id).

Definition forget_author (conv who : str) : MessageIndex → MessageIndex :=
  remove_where (λ e, bool_decide (conversation e = conv) && bool_decide (author e = who)).
Definition forget_conversation (conv : str) : MessageIndex → MessageIndex :=
  remove_where (λ e, bool_decide (conversation e = conv)).
Definition forget_conversation_prefix (prefix : str) : MessageIndex → MessageIndex :=
  remove_where (λ e, starts_with prefix (conversation e)).
Definition forget (conv id : str) : MessageIndex → MessageIndex :=
  remove_where (λ e, bool_decide (conversation e = conv) && bool_decide (msgid e = id)).

Definition renamed (conv old new : str) (e : Entry) : Entry :=
  if bool_decide (conversation e = conv) && bool_decide (author e = old)
  then mkEntry (conversation e) new (msgid e) (origin e) (mine e) else e.
Definition rename_author (conv old new : str) (x : MessageIndex) : MessageIndex :=
  set_slots (map (option_map (renamed conv old new)) (slots x)) x.

(** The ids of a message: [extracted] is its [origin-id], [attribute] the
    [id] it carries; [retracts] is the [id] of its first [retract] payload. *)
Definition origin_id (extracted attribute : option str) : option str :=
  match extracted with
  | Some o => Some (truncate o MAX_ID)
  | None => (λ i, truncate i MAX_ID) <$> attribute
  end.
Definition retraction (retracts : option str) : option str :=
  match retracts with
  | Some i => if is_empty i then None else Some (truncate i MAX_ID)
  | None => None
  end.

(** * The index as it used to be: a queue that is searched *)

Module Scan.

(** Newest first. *)
Definition found (p : Entry → bool) (l : list (option Entry)) : list Entry :=
  rev (filter (λ e, p e = true) (entries l)).

Definition by_id (conv id : str) (e : Entry) : bool :=
  bool_decide (conversation e = conv) && bool_decide (msgid e = id).
Definition by_origin (conv o : str) (e : Entry) : bool :=
  bool_decide (conversation e = conv) && bool_decide (origin e = Some o).

Definition contains (l : list (option Entry)) (conv id : str) : bool := existsb (by_id conv id) (entries l).

Definition for_correction (l : list (option Entry)) (conv o who : str) : option Entry :=
  find (λ e, bool_decide (author e = who)) (found (by_origin conv o) l).

Definition for_retraction (l : list (option Entry)) (conv id who : str) : option Entry :=
  find (λ e, bool_decide (author e = who)) (found (by_id conv id) l ++ found (by_origin conv id) l).

Definition ours (l : list (option Entry)) (conv id : str) : option Entry := find mine (found (by_id conv id) l).

(** The oldest go first, holes counted; a message already there by the same
    author is not taken again. *)
Definition record (e : Entry) (l : list (option Entry)) : list (option Entry) :=
  if existsb (λ c, by_id (conversation e) (msgid e) c && bool_decide (author c = author e)) (entries l) then l
  else drop (S (length l) - MAX_INDEXED) l ++ [Some e].

Fixpoint drop_holes (l : list (option Entry)) : list (option Entry) :=
  match l with None :: l => drop_holes l | _ => l end.

Definition remove_where (gone : Entry → bool) (l : list (option Entry)) : list (option Entry) :=
  drop_holes (map (λ s, match s with Some e => if gone e then None else Some e | None => None end) l).

Definition rename_author (conv old new : str) : list (option Entry) → list (option Entry) :=
  map (option_map (renamed conv old new)).
End Scan.
