(* ===== verification/EditsProps.v ===== *)
(** Properties of the message index: it answers as a search of the queue would. *)
From S2P Require Import Prelude RustStr Session Edits.

(** * Lemmas: the nested maps *)

(** The sequence numbers filed under an id. *)
Definition filed (f : Found) (conv id : str) : list N := default [] (f !! conv ≫= (λ ids, ids !! id)).

(** No empty list and no empty map is kept. *)
Definition tidy (f : Found) : Prop :=
  ∀ conv ids, f !! conv = Some ids → ids ≠ ∅ ∧ ∀ id seqs, ids !! id = Some seqs → seqs ≠ [].

Lemma filed_insert f conv ids conv' id' :
  filed (<[conv := ids]> f) conv' id' =
    if bool_decide (conv = conv') then default [] (ids !! id') else filed f conv' id'.
Proof.
  unfold filed. case_bool_decide as H; [subst; by rewrite lookup_insert_eq|by rewrite lookup_insert_ne].
Qed.

Lemma filed_delete f conv conv' id' :
  filed (delete conv f) conv' id' = if bool_decide (conv = conv') then [] else filed f conv' id'.
Proof.
  unfold filed. case_bool_decide as H; [subst; by rewrite lookup_delete_eq|by rewrite lookup_delete_ne].
Qed.

Lemma file_filed conv id s f conv' id' :
  filed (file conv id s f) conv' id' =
    if bool_decide (conv = conv' ∧ id = id') then filed f conv' id' ++ [s] else filed f conv' id'.
Proof.
  unfold file. set (f0 := if bool_decide _ then f else _).
  assert (∃ ids, f0 !! conv = Some ids ∧ ids = default ∅ (f !! conv)) as (ids & -> & Hids).
  { unfold f0. case_bool_decide as H; [destruct H as [ids H]; rewrite H; eauto|].
    rewrite lookup_insert_eq. apply eq_None_not_Some in H. rewrite H. eauto. }
  assert (∀ c i, filed f0 c i = filed f c i) as Hf0.
  { intros c i. unfold f0. case_bool_decide as H; [done|]. rewrite filed_insert.
    case_bool_decide; [subst|done]. apply eq_None_not_Some in H. unfold filed. by rewrite H. }
  assert (filed f conv id' = default [] (ids !! id')) as Hc.
  { rewrite Hids. unfold filed. by destruct (f !! conv). }
  rewrite filed_insert, Hf0. destruct (decide (conv = conv')) as [<-|Hne].
  - rewrite (bool_decide_true (conv = conv)) by done. rewrite Hc.
    destruct (decide (id = id')) as [<-|Hi].
    + rewrite bool_decide_true by done. destruct (ids !! id); by rewrite lookup_insert_eq.
    + rewrite bool_decide_false by naive_solver. destruct (ids !! id); by rewrite lookup_insert_ne.
  - by rewrite !bool_decide_false by naive_solver.
Qed.

Lemma file_tidy conv id s f : tidy f → tidy (file conv id s f).
Proof.
  intros Ht. unfold file. case_bool_decide as H.
  - destruct H as [ids H]. rewrite H. intros c ids' Hc.
    destruct (decide (conv = c)) as [<-|]; [|rewrite lookup_insert_ne in Hc by done; eauto].
    rewrite lookup_insert_eq in Hc. injection Hc as <-. destruct (Ht _ _ H) as [_ Hs].
    split; [destruct (ids !! id); apply insert_non_empty|]. intros i seqs Hi.
    destruct (ids !! id) eqn:E; (destruct (decide (id = i)) as [<-|];
      [rewrite lookup_insert_eq in Hi; injection Hi as <-; by destruct l || done|rewrite lookup_insert_ne in Hi by done; eauto]).
  - rewrite lookup_insert_eq, lookup_empty. intros c ids' Hc.
    destruct (decide (conv = c)) as [<-|]; [|rewrite !lookup_insert_ne in Hc by done; eauto].
    rewrite lookup_insert_eq in Hc. injection Hc as <-. split; [apply insert_non_empty|].
    intros i seqs Hi. destruct (decide (id = i)) as [<-|].
    + rewrite lookup_insert_eq in Hi. by injection Hi as <-.
    + by rewrite lookup_insert_ne, lookup_empty in Hi.
Qed.

(** The ids of one conversation, after one sequence number is taken out. *)
Definition unfile_ids (id : str) (s : N) (ids : gmap (list N) (list N)) : gmap (list N) (list N) :=
  match ids !! id with
  | Some seqs =>
      let seqs := filter (λ x, x ≠ s) seqs in
      if is_empty seqs then delete id ids else <[id := seqs]> ids
  | None => ids
  end.

Lemma unfile_ids_lookup id s ids id' :
  default [] (unfile_ids id s ids !! id') =
    if bool_decide (id = id') then filter (λ x, x ≠ s) (default [] (ids !! id')) else default [] (ids !! id').
Proof.
  unfold unfile_ids. destruct (ids !! id) as [seqs|] eqn:E; cbv zeta.
  - destruct (is_empty (filter (λ x, x ≠ s) seqs)) eqn:He.
    + apply is_empty_true in He. case_bool_decide as H; [subst; rewrite lookup_delete_eq, E; symmetry; exact He|].
      by rewrite lookup_delete_ne.
    + case_bool_decide as H; [subst; by rewrite lookup_insert_eq, E|]. by rewrite lookup_insert_ne.
  - case_bool_decide as H; [subst; by rewrite E|done].
Qed.

Lemma unfile_ids_tidy id s ids :
  (∀ i seqs, ids !! i = Some seqs → seqs ≠ []) → ∀ i seqs, unfile_ids id s ids !! i = Some seqs → seqs ≠ [].
Proof.
  intros H i seqs. unfold unfile_ids. destruct (ids !! id) as [l|] eqn:E; [|apply H]. cbv zeta.
  destruct (is_empty _) eqn:He.
  - intros [_ Hi]%lookup_delete_Some. eauto.
  - apply is_empty_false in He. intros [[<- <-]|[_ Hi]]%lookup_insert_Some; eauto.
Qed.

Lemma unfile_filed conv id s f conv' id' :
  filed (unfile conv id s f) conv' id' =
    if bool_decide (conv = conv' ∧ id = id') then filter (λ x, x ≠ s) (filed f conv' id') else filed f conv' id'.
Proof.
  unfold unfile. destruct (f !! conv) as [ids|] eqn:E.
  - fold (unfile_ids id s ids). set (ids' := unfile_ids id s ids).
    assert (filed (if bool_decide (ids' = ∅) then delete conv f else <[conv := ids']> f) conv' id' =
      if bool_decide (conv = conv') then default [] (ids' !! id') else filed f conv' id') as ->.
    { case_bool_decide as H; [rewrite filed_delete|by rewrite filed_insert]. by rewrite H, lookup_empty. }
    unfold ids'. rewrite unfile_ids_lookup. destruct (decide (conv = conv')) as [<-|Hne].
    + assert (filed f conv id' = default [] (ids !! id')) as -> by (unfold filed; by rewrite E).
      rewrite (bool_decide_true (conv = conv)) by done. by do 2 case_bool_decide; naive_solver.
    + by rewrite !bool_decide_false by naive_solver.
  - case_bool_decide as H; [|done]. destruct H as [<- <-]. unfold filed. by rewrite E.
Qed.

Lemma unfile_tidy conv id s f : tidy f → tidy (unfile conv id s f).
Proof.
  intros Ht. unfold unfile. destruct (f !! conv) as [ids|] eqn:E; [|done].
  fold (unfile_ids id s ids). case_bool_decide as H; intros c ids'.
  - intros [_ Hc]%lookup_delete_Some. eauto.
  - intros [[<- <-]|[_ Hc]]%lookup_insert_Some; [|eauto]. split; [done|].
    apply unfile_ids_tidy. by apply (Ht _ _ E).
Qed.

(** * Lemmas: sequence numbers of a queue *)

Fixpoint seqs_of (p : Entry → bool) (n : N) (l : list (option Entry)) : list N :=
  match l with
  | [] => []
  | Some e :: l => if p e then n :: seqs_of p (n + 1) l else seqs_of p (n + 1) l
  | None :: l => seqs_of p (n + 1) l
  end.

Lemma seqs_of_ge p n l : Forall (λ s, (n ≤ s)%N) (seqs_of p n l).
Proof.
  revert n. induction l as [|[e|] l IH]; intros n; cbn [seqs_of]; [constructor|..].
  1: destruct (p e); [constructor; [done|]|].
  all: eapply Forall_impl; [apply IH|]; cbv beta; lia.
Qed.

Lemma seqs_of_app p n l k : seqs_of p n (l ++ k) = seqs_of p n l ++ seqs_of p (n + N.of_nat (length l)) k.
Proof.
  revert n. induction l as [|s l IH]; intros n; cbn [app seqs_of length]; [by rewrite N.add_0_r|].
  rewrite IH. replace (n + 1 + N.of_nat (length l))%N with (n + N.of_nat (S (length l)))%N by lia.
  destruct s as [e|]; [by destruct (p e)|done].
Qed.

Lemma filter_below (l : list N) n m : Forall (λ s, (n ≤ s)%N) l → (m < n)%N → filter (λ x, x ≠ m) l = l.
Proof.
  intros H Hm. induction H as [|s l Hs Hl IH]; [done|]. rewrite filter_cons_True by lia. by rewrite IH.
Qed.

(** Making a hole takes the number of its slot out, if it was there. *)
Lemma seqs_of_hole p n l i :
  seqs_of p n (<[i := None]> l) = filter (λ x, x ≠ (n + N.of_nat i)%N) (seqs_of p n l).
Proof.
  revert n i. induction l as [|s l IH]; intros n i; [done|].
  destruct i as [|i]; cbn [insert list_insert seqs_of].
  - rewrite N.add_0_r. pose proof (seqs_of_ge p (n + 1) l) as Hge.
    assert (filter (λ x, x ≠ n) (seqs_of p (n + 1) l) = seqs_of p (n + 1) l) as Hf
      by (eapply filter_below; [exact Hge|lia]).
    destruct s as [e|]; [|done]. destruct (p e); [|done]. by rewrite filter_cons_False by naive_solver.
  - fold (insert (M := list (option Entry)) i None l). rewrite IH.
    replace (n + 1 + N.of_nat i)%N with (n + N.of_nat (S i))%N by lia.
    destruct s as [e|]; [|done]. destruct (p e); [|done]. rewrite filter_cons_True by lia. done.
Qed.

Lemma seqs_of_hole_other p n l i e :
  l !! i = Some (Some e) → p e = false → seqs_of p n (<[i := None]> l) = seqs_of p n l.
Proof.
  revert n i. induction l as [|s l IH]; intros n i; [done|].
  destruct i as [|i]; cbn [lookup list_lookup insert list_insert seqs_of].
  - intros [= ->] Hp. by rewrite Hp.
  - intros Hi Hp. fold (insert (M := list (option Entry)) i None l). by rewrite IH.
Qed.

Lemma seqs_of_map p n l f :
  (∀ e, p (f e) = p e) → seqs_of p n (map (option_map f) l) = seqs_of p n l.
Proof.
  intros H. revert n. induction l as [|[e|] l IH]; intros n; cbn [map option_map seqs_of]; [done|..].
  - by rewrite H, IH.
  - apply IH.
Qed.

Lemma pop_holes_spec p l n :
  let '(l', n') := pop_holes l n in l' = Scan.drop_holes l ∧ seqs_of p n' l' = seqs_of p n l.
Proof.
  revert n. induction l as [|[e|] l IH]; intros n; cbn [pop_holes Scan.drop_holes]; [done..|]. apply IH.
Qed.

(** * Lemmas: finding *)

Lemma omap_rev {A B} (f : A → option B) (l : list A) : omap f (rev l) = rev (omap f l).
Proof.
  induction l as [|x l IH]; [done|]. cbn [rev]. rewrite omap_app, IH. cbn [omap list_omap].
  destruct (f x); cbn [rev]; [done|]. by rewrite app_nil_r.
Qed.

Lemma omap_at_seq x p pre l :
  slots x = pre ++ l →
  omap (at_seq x) (seqs_of p (first x + N.of_nat (length pre)) l) = filter (λ e, p e = true) (entries l).
Proof.
  revert pre. induction l as [|s l IH]; intros pre Hs; [done|].
  assert (omap (at_seq x) (seqs_of p (first x + N.of_nat (length pre) + 1) l) =
    filter (λ e, p e = true) (entries l)) as Hl.
  { specialize (IH (pre ++ [s])). rewrite <- (assoc_L (++)), length_app in IH. cbn [app length] in IH.
    rewrite <- IH by done. f_equal. f_equal. lia. }
  destruct s as [e|]; cbn [seqs_of entries omap list_omap]; [|done].
  destruct (p e) eqn:Hp.
  - rewrite filter_cons_True by done. cbn [omap list_omap].
    assert (at_seq x (first x + N.of_nat (length pre)) = Some e) as ->; [|by f_equal].
    unfold at_seq. destruct (N.leb_spec (first x) (first x + N.of_nat (length pre))); [|lia].
    replace (N.to_nat _) with (length pre) by lia. by rewrite Hs, list_lookup_middle.
  - rewrite filter_cons_False by congruence. exact Hl.
Qed.

(** What is filed is what a search finds. *)
Definition filed_as (key : str → str → Entry → bool) (f : Found) (n : N) (l : list (option Entry)) : Prop :=
  ∀ conv id, filed f conv id = seqs_of (key conv id) n l.

Lemma candidates_found x key f conv id :
  filed_as key f (first x) (slots x) → candidates x f conv id = Scan.found (key conv id) (slots x).
Proof.
  intros H. unfold Scan.found. pose proof (omap_at_seq x (key conv id) [] (slots x) eq_refl) as Hat.
  cbn [length] in Hat. rewrite N.add_0_r in Hat. rewrite <- Hat, <- H, <- omap_rev.
  unfold candidates, filed. by destruct (f !! conv ≫= _).
Qed.

Lemma existsb_found (q p : Entry → bool) l :
  existsb q (Scan.found p l) = existsb (λ e, p e && q e) (entries l).
Proof.
  apply eq_true_iff_eq. rewrite !existsb_elem. unfold Scan.found.
  setoid_rewrite elem_of_rev. setoid_rewrite list_elem_of_filter. setoid_rewrite andb_true_iff. naive_solver.
Qed.

(** * The invariant *)

(** Both maps file exactly the messages of the queue, oldest first, and keep
    nothing empty. *)
Record index_ok (x : MessageIndex) : Prop := {
  ok_id : filed_as Scan.by_id (by_id x) (first x) (slots x);
  ok_origin : filed_as Scan.by_origin (by_origin x) (first x) (slots x);
  ok_id_tidy : tidy (by_id x);
  ok_origin_tidy : tidy (by_origin x);
}.

Lemma default_ok : index_ok default_index.
Proof. by split. Qed.

Lemma unfile_as key f conv id n l i e :
  (∀ c k, key c k e = bool_decide (conv = c ∧ id = k)) → l !! i = Some (Some e) →
  filed_as key f n l → filed_as key (unfile conv id (n + N.of_nat i) f) n (<[i := None]> l).
Proof.
  intros Hk Hi Hf c k. specialize (Hk c k). rewrite unfile_filed.
  case_bool_decide; rewrite (Hf c k); [by rewrite seqs_of_hole|]. symmetry. by eapply seqs_of_hole_other.
Qed.

Lemma by_id_key e c k : Scan.by_id c k e = bool_decide (conversation e = c ∧ msgid e = k).
Proof. unfold Scan.by_id. repeat case_bool_decide; naive_solver. Qed.

Lemma by_origin_key e o c k :
  origin e = Some o → Scan.by_origin c k e = bool_decide (conversation e = c ∧ o = k).
Proof. intros H. unfold Scan.by_origin. rewrite H. repeat case_bool_decide; naive_solver. Qed.

Lemma by_origin_none e c k : origin e = None → Scan.by_origin c k e = false.
Proof. intros H. unfold Scan.by_origin. rewrite H, (bool_decide_false (None = Some k)), andb_false_r by done. done. Qed.

Lemma take_entry_ok x i e :
  index_ok x → slots x !! i = Some (Some e) →
  index_ok (unfile_entry (first x + N.of_nat i) e (set_slots (<[i := None]> (slots x)) x)).
Proof.
  intros [H1 H2 H3 H4] Hi. unfold unfile_entry, set_slots. split; cbn [slots first by_id by_origin].
  - apply (unfile_as _ _ _ _ _ _ _ e); [intros; apply by_id_key|done..].
  - destruct (origin e) as [o|] eqn:Ho.
    + apply (unfile_as _ _ _ _ _ _ _ e); [intros; by apply by_origin_key|done..].
    + intros c k. rewrite (seqs_of_hole_other _ _ _ _ e) by (done || by apply by_origin_none). apply H2.
  - by apply unfile_tidy.
  - destruct (origin e); [by apply unfile_tidy|done].
Qed.

Lemma file_as key f conv id n l e :
  (∀ c k, key c k e = bool_decide (conv = c ∧ id = k)) →
  filed_as key f n l → filed_as key (file conv id (n + N.of_nat (length l)) f) n (l ++ [Some e]).
Proof.
  intros Hk Hf c k. rewrite file_filed, Hf, seqs_of_app. cbn [seqs_of]. rewrite Hk.
  case_bool_decide; [done|]. by rewrite app_nil_r.
Qed.

(** * Lemmas: each operation *)

Lemma take_slots_spec (gone : Entry → bool) x k :
  index_ok x → k ≤ length (slots x) →
  let hole (s : option Entry) := match s with Some e => if gone e then None else Some e | None => None end in
  let x' := foldl (take_slot gone) x (seq 0 k) in
  index_ok x' ∧ first x' = first x ∧ slots x' = map hole (take k (slots x)) ++ drop k (slots x).
Proof.
  intros Hok Hk hole. induction k as [|k IH]; [done|]. destruct IH as (H1 & H2 & H3); [lia|].
  cbv zeta. rewrite seq_S, foldl_app. cbn [foldl Nat.add].
  set (y := foldl (take_slot gone) x (seq 0 k)) in *.
  destruct (lookup_lt_is_Some_2 (slots x) k) as [s Hs]; [lia|].
  assert (slots y !! k = Some s) as Hy.
  { rewrite H3, lookup_app_r; rewrite length_map, length_take; [|lia].
    rewrite lookup_drop, <- Hs. f_equal. lia. }
  assert (map hole (take (S k) (slots x)) ++ drop (S k) (slots x) = <[k := hole s]> (slots y)) as ->.
  { rewrite H3, (take_S_r _ _ s), map_app by done. rewrite (drop_S _ s k) by done. cbn [map].
    rewrite insert_app_r_alt by (rewrite length_map, length_take; lia).
    rewrite length_map, length_take. replace (k - _)%nat with O by lia.
    cbn [insert list_insert]. by rewrite <- (assoc_L (++)). }
  unfold take_slot. rewrite Hy. destruct s as [e|]; [|by rewrite list_insert_id].
  cbn [hole]. destruct (gone e); [|by rewrite list_insert_id].
  split; [by apply take_entry_ok|done].
Qed.

Lemma remove_where_spec gone x :
  index_ok x → index_ok (remove_where gone x) ∧ slots (remove_where gone x) = Scan.remove_where gone (slots x).
Proof.
  intros Hok. unfold remove_where, Scan.remove_where.
  destruct (take_slots_spec gone x (length (slots x)) Hok) as ([H1 H2 H3 H4] & _ & Hs); [done|].
  set (y := foldl (take_slot gone) x _) in *.
  rewrite firstn_all, drop_all, app_nil_r in Hs. rewrite <- Hs.
  pose proof (λ p, pop_holes_spec p (slots y) (first y)) as Hp.
  destruct (pop_holes (slots y) (first y)) as [l n]. cbn [slots first]. split; [split|]; try done.
  - intros c k. cbn [by_id first slots]. rewrite H1. symmetry. apply Hp.
  - intros c k. cbn [by_origin first slots]. rewrite H2. symmetry. apply Hp.
  - by apply (Hp (λ _, true)).
Qed.

Lemma evict_spec x : index_ok x → index_ok (evict x) ∧ slots (evict x) = tail (slots x).
Proof.
  intros Hok. unfold evict. destruct (slots x) as [|[e|] l] eqn:E.
  - destruct Hok as [H1 H2 H3 H4]. rewrite E in *. by split.
  - pose proof (take_entry_ok x 0 e Hok) as Ht. rewrite E, N.add_0_r in Ht.
    destruct (Ht eq_refl) as [H1 H2 H3 H4]. by split.
  - destruct Hok as [H1 H2 H3 H4]. rewrite E in *. by split.
Qed.

Lemma evict_all_spec fuel x :
  index_ok x → length (slots x) ≤ fuel →
  index_ok (evict_all fuel x) ∧
  slots (evict_all fuel x) = drop (S (length (slots x)) - MAX_INDEXED) (slots x).
Proof.
  revert x. induction fuel as [|fuel IH]; intros x Hok Hf; cbn [evict_all].
  { destruct (slots x) eqn:E; [|cbn in Hf; lia]. split; [done|]. by rewrite drop_nil. }
  destruct (evict_spec x Hok) as [He Hs].
  destruct (Nat.leb_spec MAX_INDEXED (length (slots x))) as [Hm|Hm].
  - destruct (IH (evict x) He) as [H1 H2].
    { rewrite Hs. destruct (slots x); cbn [tail length] in *; lia. }
    split; [done|]. rewrite H2, Hs. destruct (slots x) as [|s l]; [by rewrite !drop_nil|].
    cbn [tail length] in *. replace (S (S (length l)) - MAX_INDEXED)%nat with (S (S (length l) - MAX_INDEXED)) by lia.
    done.
  - split; [done|]. replace (S (length (slots x)) - MAX_INDEXED)%nat with O by lia. done.
Qed.

Lemma record_spec e x :
  index_ok x → index_ok (record e x) ∧ slots (record e x) = Scan.record e (slots x).
Proof.
  intros Hok. unfold record, Scan.record. rewrite (candidates_found x Scan.by_id) by apply Hok.
  rewrite existsb_found. case_match; [done|].
  destruct (evict_all_spec (length (slots x)) x Hok) as [[H1 H2 H3 H4] Hs]; [done|].
  set (y := evict_all _ x) in *. rewrite <- Hs. split; [|done]. split; cbn [by_id by_origin first slots].
  - apply file_as; [intros; apply by_id_key|done].
  - destruct (origin e) as [o|] eqn:Ho.
    + apply file_as; [intros; by apply by_origin_key|done].
    + intros c k. rewrite H2, seqs_of_app. cbn [seqs_of]. by rewrite by_origin_none, app_nil_r.
  - by apply file_tidy.
  - destruct (origin e); [by apply file_tidy|done].
Qed.

Lemma rename_author_spec conv old new x :
  index_ok x → index_ok (rename_author conv old new x) ∧
  slots (rename_author conv old new x) = Scan.rename_author conv old new (slots x).
Proof.
  intros [H1 H2 H3 H4]. split; [|done].
  assert (∀ e, conversation (renamed conv old new e) = conversation e ∧ msgid (renamed conv old new e) = msgid e
    ∧ origin (renamed conv old new e) = origin e) as Hr by (intros e; unfold renamed; by case_match).
  unfold rename_author, set_slots. split; cbn [by_id by_origin first slots]; try done; intros c k.
  - rewrite seqs_of_map; [apply H1|]. intros e. unfold Scan.by_id. by destruct (Hr e) as (-> & -> & _).
  - rewrite seqs_of_map; [apply H2|]. intros e. unfold Scan.by_origin. by destruct (Hr e) as (-> & _ & ->).
Qed.

(** * Runs *)

(** What a session does to the index. *)
Inductive op :=
  | Record_ (e : Entry)
  | ForgetAuthor (conv who : str)
  | ForgetConversation (conv : str)
  | ForgetConversationPrefix (prefix : str)
  | Forget (conv id : str)
  | RenameAuthor (conv old new : str).

Definition step (x : MessageIndex) (o : op) : MessageIndex :=
  match o with
  | Record_ e => record e x
  | ForgetAuthor conv who => forget_author conv who x
  | ForgetConversation conv => forget_conversation conv x
  | ForgetConversationPrefix prefix => forget_conversation_prefix prefix x
  | Forget conv id => forget conv id x
  | RenameAuthor conv old new => rename_author conv old new x
  end.

Definition scan_step (l : list (option Entry)) (o : op) : list (option Entry) :=
  match o with
  | Record_ e => Scan.record e l
  | ForgetAuthor conv who =>
      Scan.remove_where (λ e, bool_decide (conversation e = conv) && bool_decide (author e = who)) l
  | ForgetConversation conv => Scan.remove_where (λ e, bool_decide (conversation e = conv)) l
  | ForgetConversationPrefix prefix => Scan.remove_where (λ e, starts_with prefix (conversation e)) l
  | Forget conv id =>
      Scan.remove_where (λ e, bool_decide (conversation e = conv) && bool_decide (msgid e = id)) l
  | RenameAuthor conv old new => Scan.rename_author conv old new l
  end.

Definition run (ops : list op) : MessageIndex := foldl step default_index ops.
Definition scan_run (ops : list op) : list (option Entry) := foldl scan_step [] ops.

Lemma step_spec x o : index_ok x → index_ok (step x o) ∧ slots (step x o) = scan_step (slots x) o.
Proof.
  intros H. destruct o; cbn [step scan_step];
    [by apply record_spec|by apply remove_where_spec..|by apply rename_author_spec].
Qed.

Lemma run_spec ops : index_ok (run ops) ∧ slots (run ops) = scan_run ops.
Proof.
  unfold run, scan_run. induction ops as [|o ops IH] using rev_ind; [split; [apply default_ok|done]|].
  rewrite !foldl_app. cbn [foldl]. destruct IH as [H1 H2]. rewrite <- H2. by apply step_spec.
Qed.

Lemma contains_scan x conv id : index_ok x → contains x conv id = Scan.contains (slots x) conv id.
Proof.
  intros H. unfold contains, Scan.contains. rewrite (candidates_found x Scan.by_id) by apply H.
  assert (∀ l : list Entry, negb (is_empty l) = existsb (λ _, true) l) as -> by (by intros []).
  rewrite existsb_found. apply eq_true_iff_eq. rewrite !existsb_elem. setoid_rewrite andb_true_r. done.
Qed.

Lemma for_correction_scan x conv o who :
  index_ok x → for_correction x conv o who = Scan.for_correction (slots x) conv o who.
Proof. intros H. unfold for_correction. by rewrite (candidates_found x Scan.by_origin) by apply H. Qed.

Lemma for_retraction_scan x conv id who :
  index_ok x → for_retraction x conv id who = Scan.for_retraction (slots x) conv id who.
Proof.
  intros H. unfold for_retraction. rewrite (candidates_found x Scan.by_id) by apply H.
  by rewrite (candidates_found x Scan.by_origin) by apply H.
Qed.

Lemma ours_scan x conv id : index_ok x → ours x conv id = Scan.ours (slots x) conv id.
Proof. intros H. unfold ours. by rewrite (candidates_found x Scan.by_id) by apply H. Qed.

(** * Properties *)

(** C11: the index answers as a search of the queue would. Whatever is
    recorded, forgotten and renamed, the index found through its two maps
    holds the queue that the plain search would hold, and each question
    (has this message been shown, which message does this correction or this
    retraction by this author mean, is this one ours) has the answer of a
    search of that queue, newest first. *)
Theorem index_refines_scan ops :
  let x := run ops in let l := scan_run ops in
  slots x = l ∧
  (∀ conv id, contains x conv id = Scan.contains l conv id) ∧
  (∀ conv o who, for_correction x conv o who = Scan.for_correction l conv o who) ∧
  (∀ conv id who, for_retraction x conv id who = Scan.for_retraction l conv id who) ∧
  (∀ conv id, ours x conv id = Scan.ours l conv id) ∧
  tidy (by_id x) ∧ tidy (by_origin x).
Proof.
  cbv zeta. destruct (run_spec ops) as [Hok Hs]. rewrite <- Hs.
  split_and!; [done|..]; intros.
  - by apply contains_scan.
  - by apply for_correction_scan.
  - by apply for_retraction_scan.
  - by apply ours_scan.
  - apply Hok.
  - apply Hok.
Qed.

(** * Lemmas: whose messages are held *)

Definition none_by (conv who : str) (l : list (option Entry)) : Prop :=
  ∀ e, e ∈ entries l → ¬ (conversation e = conv ∧ author e = who).

(** A step after which [who] may have something to change in [conv]. *)
Definition speaks_as (conv who : str) (o : op) : bool :=
  match o with
  | Record_ e => bool_decide (conversation e = conv) && bool_decide (author e = who)
  | RenameAuthor c _ new => bool_decide (c = conv) && bool_decide (new = who)
  | _ => false
  end.

Lemma entries_elem e l : e ∈ entries l ↔ Some e ∈ l.
Proof.
  unfold entries. rewrite list_elem_of_omap. split; [intros (s & H & ->); done|eauto].
Qed.

Lemma drop_holes_elem e l : e ∈ entries (Scan.drop_holes l) ↔ e ∈ entries l.
Proof. induction l as [|[a|] l IH]; [done..|exact IH]. Qed.

Lemma remove_where_elem gone e l :
  e ∈ entries (Scan.remove_where gone l) ↔ e ∈ entries l ∧ gone e = false.
Proof.
  unfold Scan.remove_where. rewrite drop_holes_elem, !entries_elem, list_elem_of_fmap. split.
  - intros ([a|] & H & Hin); [|done]. destruct (gone a) eqn:E; [done|]. by injection H as ->.
  - intros [H1 H2]. exists (Some e). by rewrite H2.
Qed.

Lemma record_elem e a l : e ∈ entries (Scan.record a l) → e ∈ entries l ∨ e = a.
Proof.
  unfold Scan.record. case_match; [by left|]. rewrite !entries_elem, elem_of_app, list_elem_of_singleton.
  intros [Hd|[= ->]]; [left|by right]. eapply elem_of_submseteq; [exact Hd|]. apply sublist_submseteq, sublist_drop.
Qed.

Lemma rename_elem e conv old new l :
  e ∈ entries (Scan.rename_author conv old new l) → ∃ a, a ∈ entries l ∧ e = renamed conv old new a.
Proof.
  unfold Scan.rename_author. rewrite entries_elem, list_elem_of_fmap. intros ([a|] & H & Hin); [|done].
  injection H as ->. exists a. by rewrite entries_elem.
Qed.

Lemma scan_step_none conv who l o :
  none_by conv who l → speaks_as conv who o = false → none_by conv who (scan_step l o).
Proof.
  intros H Ho e. destruct o; cbn [scan_step speaks_as] in *;
    try (rewrite remove_where_elem; intros [He _]; by apply H).
  - intros [He| ->]%record_elem; [by apply H|]. intros [<- <-]. by rewrite !bool_decide_true in Ho.
  - intros (a & Ha & ->)%rename_elem. unfold renamed. destruct (bool_decide (conversation a = conv0) && _) eqn:E; [|exact (H a Ha)].
    cbn [conversation author]. apply andb_true_iff in E as [E1%bool_decide_eq_true _].
    intros [<- <-]. subst conv0. by rewrite !bool_decide_true in Ho.
Qed.

Lemma scan_run_none conv who after l :
  Forall (λ o, negb (speaks_as conv who o) = true) after → none_by conv who l →
  none_by conv who (foldl scan_step l after).
Proof.
  intros Hq. revert l. induction Hq as [|o after Ho Hq IH]; intros l Hl; [done|]. cbn [foldl]. apply IH.
  apply scan_step_none; [done|]. by apply negb_true_iff.
Qed.

Lemma find_none_by conv who l (p : Entry → bool) :
  none_by conv who l → (∀ e, p e = true → conversation e = conv) →
  find (λ e, bool_decide (author e = who)) (Scan.found p l) = None.
Proof.
  intros H Hp. destruct (find _ _) as [e|] eqn:E; [|done]. apply find_some in E as [Hin He%bool_decide_eq_true].
  unfold Scan.found in Hin. apply list_elem_of_In, elem_of_rev, list_elem_of_filter in Hin as [Hpe Hl].
  exfalso. apply (H e Hl). split; [by apply Hp|done].
Qed.

Lemma find_app_none {A} (p : A → bool) l k : find p l = None → find p (l ++ k) = find p k.
Proof. induction l as [|x l IH]; [done|]. cbn [find app]. destruct (p x); [done|apply IH]. Qed.

(** Nobody inherits the right to change what was said. Once an author has
    left a room and their messages were forgotten, whoever goes by that name
    can correct or retract nothing there until they have said something
    themselves, or someone was renamed to it; whatever else happens. *)
Theorem heirs_cannot_edit conv who before after :
  forallb (λ o, negb (speaks_as conv who o)) after = true →
  let x := run (before ++ ForgetAuthor conv who :: after) in
  ∀ id, for_correction x conv id who = None ∧ for_retraction x conv id who = None.
Proof.
  intros Hq x id. destruct (run_spec (before ++ ForgetAuthor conv who :: after)) as [Hok Hs]. fold x in Hok, Hs.
  rewrite for_correction_scan, for_retraction_scan, Hs by done. set (l := scan_run _).
  assert (none_by conv who l) as Hn.
  { unfold l, scan_run. rewrite foldl_app. cbn [foldl]. apply scan_run_none; [by apply forallb_Forall_true|].
    intros e. cbn [scan_step]. rewrite remove_where_elem. intros [_ Hg] [<- <-]. by rewrite !bool_decide_true in Hg. }
  unfold Scan.for_correction, Scan.for_retraction. rewrite (find_none_by conv) by
    (done || (intros e [H _]%andb_true_iff; by apply bool_decide_eq_true in H)).
  split; [done|]. rewrite find_app_none by (apply (find_none_by conv); [done|]; intros e [H _]%andb_true_iff; by apply bool_decide_eq_true in H).
  apply (find_none_by conv); [done|];
    intros e [H _]%andb_true_iff; by apply bool_decide_eq_true in H.
Qed.

(** Mallory takes Bob's name after he left. *)
Lemma heirs_cannot_edit_witness :
  let bob := mkEntry (lit "room") (lit "bob") (lit "1") (Some (lit "x")) false in
  let alice := mkEntry (lit "room") (lit "alice") (lit "2") None false in
  for_correction (run [Record_ bob]) (lit "room") (lit "x") (lit "bob") = Some bob ∧
  for_correction (run ([Record_ bob] ++ ForgetAuthor (lit "room") (lit "bob") :: [Record_ alice]))
    (lit "room") (lit "x") (lit "bob") = None.
Proof.
  intros bob alice. split; [vm_compute; reflexivity|].
  apply (heirs_cannot_edit (lit "room") (lit "bob") [Record_ bob] [Record_ alice]). reflexivity.
Defined.
