(* ===== verification/Room.v ===== *)
(** What the client knows of an XMPP room ([ddirc-core/src/xmpp/state.rs]).

    A room's address is its string; the Unicode tables behind
    [char::to_lowercase] and [char::is_alphanumeric] are parameters. *)
From S2P Require Import Prelude RustStr Session.

(** * Text from the network *)

Definition is_layout_control (c : char) : bool :=
  (c =? 0x200e)%N || (c =? 0x200f)%N
  || ((0x202a <=? c)%N && (c <=? 0x202e)%N)
  || ((0x2066 <=? c)%N && (c <=? 0x2069)%N).

Definition clean_name (name : str) : str :=
  take MAX_NICK (List.filter (λ c, negb (is_control c) && negb (is_layout_control c)) name).

Definition clean_line (text : str) (max : nat) : str :=
  trim (take max (List.filter (λ c, negb (is_layout_control c))
    (map (λ c, if is_control c then 0x20%N else c) text))).

Section Unicode.
Context (to_lowercase : char → str) (is_alphanumeric : char → bool).

Definition is_word_char (c : char) : bool := is_alphanumeric c || contains_char c (lit "_-").
Definition not_word (o : option char) : bool :=
  match o with Some c => negb (is_word_char c) | None => true end.

Definition mentions (nick text : str) : bool :=
  let needle := lowercase to_lowercase nick in
  if is_empty needle then false
  else
    let haystack := lowercase to_lowercase text in
    existsb (λ i, not_word (last (take i haystack)) && not_word (haystack !! (i + length needle)))
      (match_indices (S (length haystack)) needle haystack 0).

(** * Occupants *)

Inductive Affiliation := Owner | Admin | AffMember | Outcast | NoAffiliation.
Inductive Role := Moderator | Participant | Visitor | NoRole.

Record Occupant := mkOccupant {
  o_nick : str;
  o_affiliation : Affiliation;
  o_role : Role;
  o_away : bool;
}.

Definition prefix (o : Occupant) : option char :=
  match o_affiliation o, o_role o with
  | Owner, _ => Some (ch "~")
  | Admin, _ => Some (ch "&")
  | _, Moderator => Some (ch "@")
  | AffMember, _ => Some (ch "+")
  | _, _ => None
  end.

Definition rank (o : Occupant) : N :=
  match prefix o with
  | Some c =>
      if (c =? ch "~")%N then 0
      else if (c =? ch "&")%N then 1
      else if (c =? ch "@")%N then 2
      else if (c =? ch "+")%N then 3
      else 0xffff
  | None => 0xffff
  end%N.

(** [{:04x}] of a rank below [0x10000]. *)
Definition occupant_sort_key (o : Occupant) : str :=
  hex4 (rank o) ++ [1%N] ++ lowercase to_lowercase (o_nick o).

Record MemberView := mkView {
  v_nick : str;
  v_prefix : option str;
  v_away : bool;
  v_sort_key : str;
}.

Definition occupant_view (o : Occupant) : MemberView :=
  mkView (o_nick o) ((λ c, [c]) <$> prefix o) (o_away o) (occupant_sort_key o).
End Unicode.

(** * Rooms *)

Definition RECENT_IDS : nat := 512.

Record Room := mkRoom {
  jid : str;
  nick : str;
  joined : bool;
  leaving : bool;
  nick_attempts : N;
  topic : option str;
  renaming : gmap str str;
  last_id : option str;
  recent : list str;
  recent_set : gset str;
  occupants : gmap str Occupant;
}.

Definition new_room (jid nick : str) : Room :=
  mkRoom jid nick false false 0 None ∅ None [] ∅ ∅.

Definition room_is_self (r : Room) (n : str) : bool := bool_decide (n = nick r).

Definition set_recent (l : list str) (s : gset str) (r : Room) : Room :=
  mkRoom (jid r) (nick r) (joined r) (leaving r) (nick_attempts r) (topic r) (renaming r) (last_id r)
    l s (occupants r).
Definition set_occupants (f : gmap str Occupant → gmap str Occupant) (r : Room) : Room :=
  mkRoom (jid r) (nick r) (joined r) (leaving r) (nick_attempts r) (topic r) (renaming r) (last_id r)
    (recent r) (recent_set r) (f (occupants r)).

Definition remember (id : str) (r : Room) : bool * Room :=
  if bool_decide (id ∈ recent_set r) then (false, r)
  else
    let r := if Nat.leb RECENT_IDS (length (recent r)) then
               match recent r with
               | old :: l => set_recent l (recent_set r ∖ {[old]}) r
               | [] => r
               end
             else r in
    (true, set_recent (recent r ++ [id]) ({[id]} ∪ recent_set r) r).

Definition occupant (r : Room) (n : str) : option Occupant := occupants r !! n.
Definition upsert (o : Occupant) (r : Room) : option Occupant * Room :=
  (occupants r !! o_nick o, set_occupants (insert (o_nick o) o) r).
Definition remove (n : str) (r : Room) : option Occupant * Room :=
  (occupants r !! n, set_occupants (delete n) r).
Definition clear_occupants (r : Room) : Room := set_occupants (λ _, ∅) r.

(** The stable sort of a map that is iterated in the order of its keys: equal
    sort keys stay in the order of the nicks. *)
Definition view_le (a b : MemberView) : Prop :=
  if bool_decide (v_sort_key a = v_sort_key b) then str_le (v_nick a) (v_nick b)
  else str_le (v_sort_key a) (v_sort_key b).
#[export] Instance view_le_dec a b : Decision (view_le a b).
Proof. unfold view_le. case_bool_decide; apply _. Defined.
Definition members (to_lowercase : char → str) (r : Room) : list MemberView :=
  merge_sort view_le (map (λ kv, occupant_view to_lowercase kv.2) (map_to_list (occupants r))).

(** * Properties of a room: which messages are shown again, and mentions. *)

(** * The ids remembered *)

(** The reference: walk the last 512 ids that were new. *)
Definition walk (l : list str) (id : str) : bool * list str :=
  if bool_decide (id ∈ l) then (false, l)
  else (true, drop (S (length l) - RECENT_IDS) l ++ [id]).

Fixpoint walk_all (l : list str) (ids : list str) : list bool * list str :=
  match ids with
  | [] => ([], l)
  | id :: ids => let '(b, l) := walk l id in let '(bs, l) := walk_all l ids in (b :: bs, l)
  end.

Fixpoint remember_all (r : Room) (ids : list str) : list bool * Room :=
  match ids with
  | [] => ([], r)
  | id :: ids => let '(b, r) := remember id r in let '(bs, r) := remember_all r ids in (b :: bs, r)
  end.

Record recent_ok (r : Room) : Prop := {
  ro_set : recent_set r = list_to_set (recent r);
  ro_nodup : NoDup (recent r);
  ro_length : length (recent r) ≤ RECENT_IDS;
}.

Lemma remember_spec id r :
  recent_ok r →
  recent_ok (remember id r).2 ∧ (remember id r).1 = (walk (recent r) id).1 ∧
  recent (remember id r).2 = (walk (recent r) id).2.
Proof.
  intros H. pose proof H as [Hs Hn Hl]. unfold remember, walk. rewrite Hs.
  assert (bool_decide (id ∈ (list_to_set (recent r) : gset str)) = bool_decide (id ∈ recent r)) as ->.
  { apply bool_decide_ext. apply elem_of_list_to_set. }
  case_bool_decide as Hid; [done|]. cbn [fst snd].
  assert (∀ l, NoDup l → length l < RECENT_IDS → (id ∉ l) → recent_ok (set_recent (l ++ [id])
    ({[id]} ∪ list_to_set l) r)) as Hok.
  { intros l Hnd Hlen Hnew. split; cbn [recent recent_set set_recent].
    - rewrite list_to_set_app_L. cbn [list_to_set]. set_solver.
    - apply NoDup_app. split; [done|]. split; [|by apply NoDup_singleton].
      intros x Hx ->%list_elem_of_singleton. done.
    - rewrite length_app. cbn [length]. lia. }
  destruct (Nat.leb_spec RECENT_IDS (length (recent r))) as [Hfull|Hroom].
  - destruct (recent r) as [|old l] eqn:E; [unfold RECENT_IDS in *; cbn in Hfull; lia|].
    apply NoDup_cons in Hn as [Hold Hn]. cbn [length] in *. apply not_elem_of_cons in Hid as [Hne Hid].
    cbn [recent recent_set set_recent list_to_set].
    assert (({[old]} ∪ list_to_set l : gset str) ∖ {[old]} = list_to_set l) as ->.
    { apply set_eq. intros x. rewrite elem_of_difference, elem_of_union, !elem_of_singleton, elem_of_list_to_set.
      split; [naive_solver|]. intros Hx. split; [by right|]. by intros ->. }
    split; [by apply Hok; [| lia|]|]. split; [done|].
    by replace (S (S (length l)) - RECENT_IDS) with 1 by lia.
  - split; [|split; [done|]].
    + rewrite Hs. apply Hok; done.
    + by replace (S (length (recent r)) - RECENT_IDS) with 0 by lia.
Qed.

Lemma remember_all_spec r ids :
  recent_ok r → (remember_all r ids).1 = (walk_all (recent r) ids).1 ∧
  recent (remember_all r ids).2 = (walk_all (recent r) ids).2 ∧ recent_ok (remember_all r ids).2.
Proof.
  revert r. induction ids as [|id ids IH]; intros r H; [done|]. cbn [remember_all walk_all].
  destruct (remember_spec id r H) as (H1 & H2 & H3). destruct (remember id r) as [b r1].
  destruct (walk (recent r) id) as [b' l1]. cbn [fst snd] in *. subst b' l1.
  destruct (IH r1 H1) as (H4 & H5 & H6). destruct (remember_all r1 ids) as [bs r2].
  destruct (walk_all (recent r1) ids) as [bs' l2]. cbn [fst snd] in *. by subst.
Qed.

(** A message is shown once. Asking a room about any sequence of ids gives
    the answers of walking the ids themselves: an id is refused exactly when
    it is among the last 512 that were accepted; the set and the queue the room
    keeps hold the same ids, each once, and never more than 512. *)
Theorem remember_refines_walk jid nick ids :
  (remember_all (new_room jid nick) ids).1 = (walk_all [] ids).1 ∧
  recent (remember_all (new_room jid nick) ids).2 = (walk_all [] ids).2 ∧
  recent_ok (remember_all (new_room jid nick) ids).2.
Proof.
  apply (remember_all_spec (new_room jid nick) ids).
  split; cbn [new_room recent recent_set]; [done|constructor|cbn; lia].
Qed.
