(* ===== verification/Contacts.v ===== *)
(** The contact list ([ddirc-core/src/xmpp/contacts.rs]).

    Addresses are their strings. Where the source takes the last maximum of a
    hash map, whose order is unspecified, the model takes one fixed order. *)
From S2P Require Import Prelude RustStr Session Room.

Definition MAX_CONTACTS : nat := 2000.
Definition MAX_REQUESTS : nat := 100.
Definition MAX_RESOURCES : nat := 16.
Definition MAX_STATUS : nat := 200.

(** * Data *)

Inductive Availability := Offline | Available | Away | Dnd | ExtendedAway.
Inductive Subscription := SubNone | SubTo | SubFrom | SubBoth.

#[export] Instance Availability_eq_dec : EqDecision Availability.
Proof. solve_decision. Defined.
#[export] Instance Subscription_eq_dec : EqDecision Subscription.
Proof. solve_decision. Defined.

Definition availability_rank (a : Availability) : Z :=
  match a with Available => 4 | Away => 3 | ExtendedAway => 2 | Dnd => 1 | Offline => 0 end.

Record Seen := mkSeen { availability : Availability; status : str; priority : Z }.

Record Contact := mkContact {
  name : option str;
  subscription : Subscription;
  asked : bool;
  resources : gmap str Seen;
}.

Record Contacts := mkContacts { items : gmap str Contact; requests : list str }.

Definition default_contacts : Contacts := mkContacts ∅ [].

Record ContactView := mkContactView {
  cv_jid : str;
  cv_name : option str;
  cv_subscription : Subscription;
  cv_asked : bool;
  cv_availability : Availability;
  cv_status : str;
}.

#[export] Instance ContactView_eq_dec : EqDecision ContactView.
Proof. solve_decision. Defined.

Inductive ContactEvent := ContactChanged (view : ContactView) | ContactRemoved (jid : str).

(** What the server says of a contact. *)
Inductive RosterSubscription := RNone | RFrom | RTo | RBoth | RRemove.
Record Item := mkItem {
  i_jid : str;
  i_name : option str;
  i_subscription : RosterSubscription;
  i_ask : bool;                  (* [ask == Subscribe] *)
}.

Inductive Show := ShowAway | ShowChat | ShowDnd | ShowXa.
Inductive PresenceType := PNone | PUnavailable | POther.
Record Presence := mkPresence {
  p_type : PresenceType;
  p_show : option Show;
  p_statuses : list str;         (* in the order of their languages *)
  p_priority : Z;
}.

(** * Reading *)

Definition contains (c : Contacts) (j : str) : bool := bool_decide (is_Some (items c !! j)).
Definition len (c : Contacts) : nat := size (items c).
Definition is_full (c : Contacts) : bool := Nat.leb MAX_CONTACTS (size (items c)).

(** [max_by_key]: the last of the greatest. *)
Definition seen_le (a b : Seen) : bool :=
  (priority a <? priority b)%Z
  || ((priority a =? priority b)%Z && (availability_rank (availability a) <=? availability_rank (availability b))%Z).
Fixpoint max_by_key (l : list Seen) : option Seen :=
  match l with
  | [] => None
  | x :: l =>
      match max_by_key l with
      | Some y => if seen_le x y then Some y else Some x
      | None => Some x
      end
  end.

Definition render (j : str) (c : Contact) : ContactView :=
  let best := max_by_key (map snd (map_to_list (resources c))) in
  mkContactView j (name c) (subscription c) (asked c)
    (match best with Some s => availability s | None => Offline end)
    (match best with Some s => status s | None => [] end).

Definition view (c : Contacts) (j : str) : option ContactView := render j <$> items c !! j.

(** * Changing *)

Definition set_items (f : gmap str Contact → gmap str Contact) (c : Contacts) : Contacts :=
  mkContacts (f (items c)) (requests c).
Definition set_requests (f : list str → list str) (c : Contacts) : Contacts :=
  mkContacts (items c) (f (requests c)).

Definition roster_subscription (s : RosterSubscription) : Subscription :=
  match s with RTo => SubTo | RFrom => SubFrom | RBoth => SubBoth | RNone | RRemove => SubNone end.

Definition item_name (i : Item) : option str :=
  match i_name i with
  | Some n => if is_empty (clean_name n) then None else Some (clean_name n)
  | None => None
  end.

Definition without (j : str) (l : list str) : list str := filter (λ r, r ≠ j) l.

(** One turn of the loop of [apply_roster]. *)
Definition apply_item (own : str) (st : Contacts * gset str * list ContactEvent) (i : Item)
    : Contacts * gset str * list ContactEvent :=
  let '(c, mentioned, events) := st in
  if bool_decide (i_jid i = own) then st
  else
    let mentioned := {[i_jid i]} ∪ mentioned in
    match i_subscription i with
    | RRemove =>
        if contains c (i_jid i)
        then (set_items (delete (i_jid i)) c, mentioned, events ++ [ContactRemoved (i_jid i)])
        else (c, mentioned, events)
    | s =>
        if negb (contains c (i_jid i)) && is_full c then (c, mentioned, events)
        else
          let subscription := roster_subscription s in
          let resources := match items c !! i_jid i with Some k => resources k | None => ∅ end in
          let contact := mkContact (item_name i) subscription (i_ask i) resources in
          let c := set_items (insert (i_jid i) contact) c in
          let c := match subscription with
                   | SubFrom | SubBoth => set_requests (without (i_jid i)) c
                   | _ => c
                   end in
          (c, mentioned, events ++ [ContactChanged (render (i_jid i) contact)])
    end.

Definition apply_roster (l : list Item) (own : str) (full : bool) (c : Contacts)
    : list ContactEvent * Contacts :=
  let '(c, mentioned, events) := foldl (apply_item own) (c, ∅, []) l in
  if full then
    let gone := filter (λ j, j ∉ mentioned) (map fst (map_to_list (items c))) in
    (events ++ map ContactRemoved gone, foldl (λ c j, set_items (delete j) c) c gone)
  else (events, c).

Definition show_availability (s : option Show) : Availability :=
  match s with
  | Some ShowAway => Away
  | Some ShowDnd => Dnd
  | Some ShowXa => ExtendedAway
  | Some ShowChat | None => Available
  end.

(** The resources a presence leaves, or [None] when it says nothing about
    availability or there is no room. *)
Definition present (resource : str) (p : Presence) (rs : gmap str Seen) : option (gmap str Seen) :=
  match p_type p with
  | PUnavailable => Some (delete resource rs)
  | PNone =>
      if negb (bool_decide (is_Some (rs !! resource))) && Nat.leb MAX_RESOURCES (size rs) then None
      else
        let status := match p_statuses p with s :: _ => clean_line s MAX_STATUS | [] => [] end in
        Some (<[resource := mkSeen (show_availability (p_show p)) status (p_priority p)]> rs)
  | POther => None
  end.

Definition with_resources (rs : gmap str Seen) (c : Contact) : Contact :=
  mkContact (name c) (subscription c) (asked c) rs.

Definition apply_presence (bare : str) (resource : option str) (p : Presence) (c : Contacts)
    : option ContactEvent * Contacts :=
  match resource, items c !! bare with
  | Some resource, Some contact =>
      match present resource p (resources contact) with
      | Some rs =>
          let contact' := with_resources rs contact in
          let c := set_items (insert bare contact') c in
          if bool_decide (render bare contact' = render bare contact) then (None, c)
          else (Some (ContactChanged (render bare contact')), c)
      | None => (None, c)
      end
  | _, _ => (None, c)
  end.

Definition forget_presence (c : Contacts) : list ContactEvent * Contacts :=
  let there := filter (λ kv : str * Contact, resources kv.2 ≠ ∅) (map_to_list (items c)) in
  (map (λ kv, ContactChanged (render kv.1 (with_resources ∅ kv.2))) there,
   set_items (fmap (with_resources ∅)) c).

Definition add_request (j : str) (c : Contacts) : bool * Contacts :=
  if bool_decide (j ∈ requests c) || Nat.leb MAX_REQUESTS (length (requests c)) then (false, c)
  else (true, set_requests (λ l, l ++ [j]) c).

Definition take_request (j : str) (c : Contacts) : bool * Contacts :=
  let kept := without j (requests c) in
  (negb (Nat.eqb (length kept) (length (requests c))), set_requests (λ _, kept) c).

Definition clear_requests (c : Contacts) : list str * Contacts := (requests c, set_requests (λ _, []) c).
