(* ===== verification/ContactsProps.v ===== *)
(** Properties of the contact list: what the interface is told, and bounds. *)
From S2P Require Import Prelude RustStr Session Room Contacts.

(** * The interface's copy *)

(** The interface keeps the last view it was given of each contact. *)
Definition ui_apply (m : gmap str ContactView) (e : ContactEvent) : gmap str ContactView :=
  match e with
  | ContactChanged v => <[cv_jid v := v]> m
  | ContactRemoved j => delete j m
  end.

(** What it should show. *)
Definition shown (c : Contacts) : gmap str ContactView := map_imap (λ j k, Some (render j k)) (items c).

(** What may happen to the list. *)
Inductive op :=
  | Roster (l : list Item) (own : str) (full : bool)
  | PresenceOf (bare : str) (resource : option str) (p : Presence)
  | ForgetPresence
  | AddRequest (j : str)
  | TakeRequest (j : str)
  | ClearRequests.

Definition step (c : Contacts) (o : op) : list ContactEvent * Contacts :=
  match o with
  | Roster l own full => apply_roster l own full c
  | PresenceOf bare resource p => let '(e, c) := apply_presence bare resource p c in (option_list e, c)
  | ForgetPresence => forget_presence c
  | AddRequest j => ([], (add_request j c).2)
  | TakeRequest j => ([], (take_request j c).2)
  | ClearRequests => ([], (clear_requests c).2)
  end.

Fixpoint run (ops : list op) (c : Contacts) : list ContactEvent * Contacts :=
  match ops with
  | [] => ([], c)
  | o :: ops => let '(e, c) := step c o in let '(es, c) := run ops c in (e ++ es, c)
  end.

(** * Lemmas: the mirror *)

Lemma shown_insert j k c : shown (set_items (insert j k) c) = <[j := render j k]> (shown c).
Proof. unfold shown, set_items. cbn [items]. by rewrite map_imap_insert. Qed.

Lemma shown_delete j c : shown (set_items (delete j) c) = delete j (shown c).
Proof. unfold shown, set_items. cbn [items]. by rewrite map_imap_delete. Qed.

Lemma shown_requests f c : shown (set_requests f c) = shown c.
Proof. done. Qed.

Lemma apply_item_mirror own c m es i :
  let '(c', m', es') := apply_item own (c, m, es) i in
  ∃ new, es' = es ++ new ∧ foldl ui_apply (shown c) new = shown c'.
Proof.
  unfold apply_item. case_bool_decide; [exists []; by rewrite app_nil_r|].
  assert (∀ k : Contact, ∃ new, es ++ [ContactChanged (render (i_jid i) k)] = es ++ new ∧
    foldl ui_apply (shown c) new = shown (set_items (insert (i_jid i) k) c)) as Hins.
  { intros k. exists [ContactChanged (render (i_jid i) k)]. split; [done|]. by rewrite shown_insert. }
  destruct (i_subscription i).
  all: try (destruct (_ && _); [exists []; by rewrite app_nil_r|apply Hins]).
  destruct (contains c (i_jid i)); [|exists []; by rewrite app_nil_r].
  exists [ContactRemoved (i_jid i)]. split; [done|]. by rewrite shown_delete.
Qed.

Lemma apply_items_mirror own l c m es :
  let '(c', m', es') := foldl (apply_item own) (c, m, es) l in
  ∃ new, es' = es ++ new ∧ foldl ui_apply (shown c) new = shown c'.
Proof.
  revert c m es. induction l as [|i l IH]; intros c m es; [exists []; by rewrite app_nil_r|].
  cbn [foldl]. pose proof (apply_item_mirror own c m es i) as Hi.
  destruct (apply_item own (c, m, es) i) as [[c1 m1] es1]. destruct Hi as (n1 & -> & H1).
  specialize (IH c1 m1 (es ++ n1)). destruct (foldl (apply_item own) (c1, m1, es ++ n1) l) as [[c2 m2] es2].
  destruct IH as (n2 & -> & H2). exists (n1 ++ n2). split; [by rewrite <- (assoc_L (++))|].
  by rewrite foldl_app, H1.
Qed.

Lemma removals_mirror gone c :
  foldl ui_apply (shown c) (map ContactRemoved gone) = shown (foldl (λ c j, set_items (delete j) c) c gone).
Proof.
  revert c. induction gone as [|j gone IH]; intros c; [done|]. cbn [map foldl ui_apply].
  by rewrite <- shown_delete, IH.
Qed.

Lemma apply_roster_mirror l own full c :
  let '(es, c') := apply_roster l own full c in foldl ui_apply (shown c) es = shown c'.
Proof.
  unfold apply_roster. pose proof (apply_items_mirror own l c ∅ []) as H.
  destruct (foldl (apply_item own) (c, ∅, []) l) as [[c1 m1] es1]. destruct H as (new & -> & H).
  destruct full; [|done]. rewrite foldl_app. cbn [app]. rewrite H. apply removals_mirror.
Qed.

Lemma render_jid j k : cv_jid (render j k) = j.
Proof. done. Qed.

Lemma apply_presence_mirror bare resource p c :
  let '(e, c') := apply_presence bare resource p c in foldl ui_apply (shown c) (option_list e) = shown c'.
Proof.
  unfold apply_presence. destruct resource as [resource|]; [|done].
  destruct (items c !! bare) as [contact|] eqn:E; [|done].
  destruct (present resource p (resources contact)) as [rs|]; [|done]. cbv zeta.
  case_bool_decide as H; cbn [option_list foldl ui_apply]; rewrite shown_insert; [|done].
  rewrite insert_id; [done|]. unfold shown. rewrite map_lookup_imap, E. cbn. by rewrite H.
Qed.

(** Writing views one after another, each under its own address. *)
Lemma foldl_views_lookup (g : str → Contact → ContactView) (l : list (str * Contact)) m j :
  NoDup (map fst l) → (∀ i k, cv_jid (g i k) = i) →
  foldl ui_apply m (map (λ kv, ContactChanged (g kv.1 kv.2)) l) !! j =
    match (list_to_map l : gmap str Contact) !! j with Some k => Some (g j k) | None => m !! j end.
Proof.
  intros Hnd Hg. revert m. induction l as [|[i k] l IH]; intros m; [done|].
  cbn [map fst snd] in *. apply NoDup_cons in Hnd as [Hi Hnd]. cbn [foldl ui_apply]. rewrite Hg, IH by done.
  cbn [list_to_map foldr]. destruct (decide (i = j)) as [<-|Hne].
  - rewrite lookup_insert_eq. rewrite (not_elem_of_list_to_map_1 l i Hi). by rewrite lookup_insert_eq.
  - by rewrite !lookup_insert_ne.
Qed.

Lemma sublist_map_fst {A B} (l k : list (A * B)) : l `sublist_of` k → map fst l `sublist_of` map fst k.
Proof. induction 1; cbn [map]; by constructor. Qed.

Lemma without_resources k : resources k = ∅ → with_resources ∅ k = k.
Proof. destruct k. unfold with_resources. cbn. by intros ->. Qed.

Lemma forget_presence_mirror c :
  let '(es, c') := forget_presence c in foldl ui_apply (shown c) es = shown c'.
Proof.
  unfold forget_presence. apply map_eq. intros j.
  set (there := filter _ (map_to_list (items c))).
  rewrite (foldl_views_lookup (λ i k, render i (with_resources ∅ k))); [| |done].
  2: { eapply sublist_NoDup; [apply (NoDup_fst_map_to_list (items c))|]. apply sublist_map_fst, sublist_filter. }
  assert ((list_to_map there : gmap str Contact) = filter (λ kv, resources kv.2 ≠ ∅) (items c)) as ->.
  { unfold there. symmetry. apply map_filter_alt. }
  unfold shown, set_items. cbn [items]. rewrite !map_lookup_imap, lookup_fmap.
  destruct (filter _ (items c) !! j) as [k|] eqn:E.
  - apply map_lookup_filter_Some in E as [-> _]. done.
  - destruct (items c !! j) as [k|] eqn:Ej; [|done]. cbn.
    rewrite map_lookup_filter_None in E. destruct E as [E|E]; [congruence|].
    specialize (E k Ej). cbn in E. apply dec_stable in E. by rewrite without_resources.
Qed.

Lemma step_mirror c o : let '(es, c') := step c o in foldl ui_apply (shown c) es = shown c'.
Proof.
  destruct o as [l own full|bare resource p| |j|j|]; cbn [step].
  - apply apply_roster_mirror.
  - pose proof (apply_presence_mirror bare resource p c) as H. by destruct (apply_presence bare resource p c).
  - apply forget_presence_mirror.
  - unfold add_request. by case_match.
  - done.
  - done.
Qed.

Lemma run_mirror ops c : let '(es, c') := run ops c in foldl ui_apply (shown c) es = shown c'.
Proof.
  revert c. induction ops as [|o ops IH]; intros c; [done|]. cbn [run].
  pose proof (step_mirror c o) as Ho. destruct (step c o) as [e c1].
  specialize (IH c1). destruct (run ops c1) as [es c2]. by rewrite foldl_app, Ho.
Qed.

(** * Lemmas: bounds *)

(** A line shown is short and has no character that would change how it, or
    what follows it, is laid out. *)
Definition clean (max : nat) (s : str) : Prop :=
  length s ≤ max ∧ Forall (λ c, is_control c = false ∧ is_layout_control c = false) s.

Record contact_ok (k : Contact) : Prop := {
  co_name : ∀ n, name k = Some n → n ≠ [] ∧ clean MAX_NICK n;
  co_resources : size (resources k) ≤ MAX_RESOURCES;
  co_status : ∀ r s, resources k !! r = Some s → clean MAX_STATUS (status s);
}.

Record contacts_ok (c : Contacts) : Prop := {
  cs_items : size (items c) ≤ MAX_CONTACTS;
  cs_contact : ∀ j k, items c !! j = Some k → contact_ok k;
  cs_requests : length (requests c) ≤ MAX_REQUESTS;
  cs_waiting : NoDup (requests c);
}.

Lemma clean_name_clean n : clean MAX_NICK (clean_name n).
Proof.
  unfold clean_name. split; [rewrite length_take; lia|]. apply Forall_take, Forall_forall.
  intros c Hc. apply list_elem_of_In, filter_In in Hc as [_ Hc]. by bool_simp.
Qed.

Lemma trim_sublist s c : c ∈ trim s → c ∈ s.
Proof. intros H. apply trim_end_elem in H. by eapply drop_while_elem. Qed.

Lemma clean_line_clean s max : clean max (clean_line s max).
Proof.
  unfold clean_line. set (l := List.filter _ _).
  assert (Forall (λ c, is_control c = false ∧ is_layout_control c = false) l) as Hl.
  { apply Forall_forall. intros c Hc. apply list_elem_of_In, filter_In in Hc as [Hc Hd].
    split; [|by apply negb_true_iff]. apply in_map_iff in Hc as (a & <- & _).
    by destruct (is_control a) eqn:E. }
  split.
  - unfold trim. etransitivity; [apply trim_end_length|]. etransitivity; [apply drop_while_length|].
    rewrite length_take. lia.
  - apply Forall_forall. intros c Hc%trim_sublist. rewrite Forall_forall in Hl. apply Hl.
    eapply elem_of_submseteq; [exact Hc|]. apply sublist_submseteq, sublist_take.
Qed.

Lemma item_name_clean i n : item_name i = Some n → n ≠ [] ∧ clean MAX_NICK n.
Proof.
  unfold item_name. destruct (i_name i) as [m|]; [|done]. destruct (is_empty (clean_name m)) eqn:E; [done|].
  intros [= <-]. split; [by apply is_empty_false|apply clean_name_clean].
Qed.

Lemma without_length j l : length (without j l) ≤ length l.
Proof. apply length_filter. Qed.

Lemma without_ok j c : contacts_ok c → contacts_ok (set_requests (without j) c).
Proof.
  intros [H1 H2 H3 H4]. split; cbn [items requests set_requests]; [done..| |by apply NoDup_filter].
  etransitivity; [apply without_length|done].
Qed.

Lemma delete_ok j c : contacts_ok c → contacts_ok (set_items (delete j) c).
Proof.
  intros [H1 H2 H3 H4]. split; cbn [items requests set_items]; try done.
  - etransitivity; [|exact H1]. apply map_subseteq_size, delete_subseteq.
  - intros i k [_ Hi]%lookup_delete_Some. by eapply H2.
Qed.

Lemma insert_ok j k c :
  contacts_ok c → contact_ok k → contains c j = true ∨ is_full c = false → contacts_ok (set_items (insert j k) c).
Proof.
  intros [H1 H2 H3 H4] Hk Hroom. split; cbn [items requests set_items]; try done.
  - rewrite map_size_insert. destruct (items c !! j) eqn:E; [done|]. destruct Hroom as [H|H].
    + unfold contains in H. apply bool_decide_eq_true in H as [? ?]. congruence.
    + unfold is_full in H. apply Nat.leb_gt in H. lia.
  - intros i k' [[<- <-]|[_ Hi]]%lookup_insert_Some; [done|]. by eapply H2.
Qed.

Lemma apply_item_ok own c m es i :
  contacts_ok c → contacts_ok (apply_item own (c, m, es) i).1.1.
Proof.
  intros H. unfold apply_item. case_bool_decide; [done|].
  assert (∀ sub, contact_ok (mkContact (item_name i) sub (i_ask i)
    (match items c !! i_jid i with Some k => resources k | None => ∅ end))) as Hk.
  { intros sub. split; cbn [name resources]; [apply item_name_clean|..].
    - destruct (items c !! i_jid i) eqn:E; [by eapply co_resources, cs_contact|]. rewrite map_size_empty. lia.
    - intros r s. destruct (items c !! i_jid i) eqn:E; [by eapply co_status, cs_contact|]. by rewrite lookup_empty. }
  destruct (i_subscription i).
  5: { destruct (contains c (i_jid i)); [by apply delete_ok|done]. }
  all: destruct (negb (contains c (i_jid i)) && is_full c) eqn:E; [done|]; cbn [roster_subscription fst snd].
  all: apply andb_false_iff in E; rewrite negb_false_iff in E.
  all: try apply without_ok; by apply insert_ok.
Qed.

Lemma apply_roster_ok l own full c : contacts_ok c → contacts_ok (apply_roster l own full c).2.
Proof.
  intros H. unfold apply_roster.
  assert (contacts_ok (foldl (apply_item own) (c, ∅, []) l).1.1) as H1.
  { apply (foldl_ind (λ st, contacts_ok st.1.1)); [done|]. intros [[a m] es] i _. apply apply_item_ok. }
  destruct (foldl (apply_item own) (c, ∅, []) l) as [[c1 m1] es1]. cbn [fst] in H1.
  destruct full; [|done]. cbn [snd]. apply (foldl_ind contacts_ok); [done|]. intros a j _. apply delete_ok.
Qed.

Lemma present_ok resource p k rs :
  contact_ok k → present resource p (resources k) = Some rs → contact_ok (with_resources rs k).
Proof.
  intros [H1 H2 H3] Hp. unfold present in Hp. split; cbn [name resources with_resources]; [done|..].
  - destruct (p_type p); [|injection Hp as <-; etransitivity; [|exact H2]; apply map_subseteq_size, delete_subseteq|done].
    destruct (_ && _) eqn:E; [done|]. injection Hp as <-. rewrite map_size_insert.
    destruct (resources k !! resource) eqn:Er; [done|]. apply andb_false_iff in E as [E|E].
    + rewrite bool_decide_false in E; [done|]. by intros [].
    + apply Nat.leb_gt in E. lia.
  - intros r s Hr. destruct (p_type p); [| |done].
    + destruct (_ && _); [done|]. injection Hp as <-.
      apply lookup_insert_Some in Hr as [[_ <-]|[_ Hr]]; [|by eapply H3]. cbn [status].
      destruct (p_statuses p); [split; [cbn; lia|constructor]|apply clean_line_clean].
    + injection Hp as <-. apply lookup_delete_Some in Hr as [_ Hr]. by eapply H3.
Qed.

Lemma apply_presence_ok bare resource p c : contacts_ok c → contacts_ok (apply_presence bare resource p c).2.
Proof.
  intros H. unfold apply_presence. destruct resource as [resource|]; [|done].
  destruct (items c !! bare) as [k|] eqn:E; [|done].
  destruct (present resource p (resources k)) as [rs|] eqn:Ep; [|done].
  assert (contacts_ok (set_items (insert bare (with_resources rs k)) c)) as Hi; [|by case_bool_decide].
  apply insert_ok; [done|eapply present_ok; [by eapply cs_contact|done]|].
  left. unfold contains. rewrite E. by apply bool_decide_true.
Qed.

Lemma forget_presence_ok c : contacts_ok c → contacts_ok (forget_presence c).2.
Proof.
  intros [H1 H2 H3 H4]. unfold forget_presence. cbn [snd]. split; cbn [items requests set_items]; try done.
  - by rewrite map_size_fmap.
  - intros j k' Hj. rewrite lookup_fmap in Hj. apply fmap_Some in Hj as (k & Hk & ->).
    destruct (H2 _ _ Hk). split; cbn [name resources with_resources]; [done|rewrite map_size_empty; lia|].
    intros r s. by rewrite lookup_empty.
Qed.

Lemma contacts_step_ok c o : contacts_ok c → contacts_ok (step c o).2.
Proof.
  intros H. destruct o as [l own full|bare resource p| |j|j|]; cbn [step].
  - by apply apply_roster_ok.
  - pose proof (apply_presence_ok bare resource p c H) as Hp. by destruct (apply_presence bare resource p c).
  - by apply forget_presence_ok.
  - destruct H as [H1 H2 H3 H4]. unfold add_request. case_bool_decide as Hj; [by split|].
    destruct (Nat.leb_spec MAX_REQUESTS (length (requests c))); [by split|].
    split; cbn [snd orb set_requests items requests]; [done..| |].
    + rewrite length_app. cbn [length]. lia.
    + apply NoDup_app. split; [done|]. split; [|by apply NoDup_singleton].
      intros x Hx ->%list_elem_of_singleton. done.
  - apply (without_ok j c H).
  - destruct H as [H1 H2 H3 H4]. split; cbn [snd clear_requests set_requests items requests]; [done..|cbn; lia|constructor].
Qed.

Lemma run_ok ops c : contacts_ok c → contacts_ok (run ops c).2.
Proof.
  revert c. induction ops as [|o ops IH]; intros c H; [done|]. cbn [run].
  pose proof (contacts_step_ok c o H) as Ho. destruct (step c o) as [e c1].
  specialize (IH c1 Ho). by destruct (run ops c1) as [es c2].
Qed.

Lemma default_contacts_ok : contacts_ok default_contacts.
Proof.
  split; cbn [items requests default_contacts]; [rewrite map_size_empty; lia| |cbn; lia|constructor].
  intros j k. by rewrite lookup_empty.
Qed.

(** * Properties *)

(** C33: the interface always shows the contact list. Whatever rosters, presence
    and requests arrive, in whatever order, an interface that started empty
    and did no more than store each contact it was told of and drop each it
    was told is gone holds exactly the current view of every contact on the
    list: no change is missed, and nobody is left over. *)
Theorem events_mirror_contacts ops :
  foldl ui_apply ∅ (run ops default_contacts).1 = shown (run ops default_contacts).2.
Proof.
  pose proof (run_mirror ops default_contacts) as H. by destruct (run ops default_contacts) as [es c].
Qed.

(** Nobody can make the list grow without end or put anything on it that
    was not cleaned. Whatever arrives, there are at most 2,000 contacts, 100
    people waiting (each once) and 16 places a contact is signed in from; a
    contact's name is not empty and at most 64 characters, a status at most 200,
    and neither holds a control or layout character. Presence from someone who
    is not on the list changes nothing. *)
Theorem contacts_bounded ops :
  contacts_ok (run ops default_contacts).2 ∧
  ∀ bare resource p c, items c !! bare = None → apply_presence bare resource p c = (None, c).
Proof.
  split; [apply run_ok, default_contacts_ok|]. intros bare resource p c H. unfold apply_presence.
  rewrite H. by destruct resource.
Qed.
