(* ===== verification/Dates.v ===== *)
(** Times on the wire: [parse_server_time] of [ddirc-core/src/conn/actor.rs]
    and [iso8601] of [ddirc-core/src/xmpp/session.rs].

    Both count days with Howard Hinnant's formulas on [i64]. Sums and products
    of [i64] wrap in a release build, so what [parse_server_time] returns is
    the exact sum reduced to 64 bits: wrapping commutes with sums and products,
    and the only divisions are of numbers that did not wrap. *)
From Stdlib Require Import ZArith.
From S2P Require Import Prelude RustStr.

Definition i64_min : Z := (- 2 ^ 63)%Z.
Definition i64_max : Z := (2 ^ 63 - 1)%Z.
Definition wrap64 (z : Z) : Z := ((z + 2 ^ 63) mod 2 ^ 64 - 2 ^ 63)%Z.

(** * Numbers *)

(** [s.parse::<i64>()]: an optional sign, then at least one digit. *)
Definition parse_i64 (s : str) : option Z :=
  match s with
  | c :: r =>
      if (c =? 0x2D)%N then
        if is_empty r then None else (λ n, - Z.of_N n)%Z <$> parse_digits (2 ^ 63) r 0
      else Z.of_N <$> parse_unsigned (2 ^ 63 - 1) s
  | [] => None
  end.

Definition pad_zeros (width : nat) (s : str) : str := replicate (width - length s) 48%N ++ s.
(** [{z:0width}]. *)
Definition pad (width : nat) (z : Z) : str :=
  if (z <? 0)%Z then 0x2D%N :: pad_zeros (width - 1) (to_dec (Z.to_N (- z)))
  else pad_zeros width (to_dec (Z.to_N z)).

(** The first three parts of [splitn(3, c)]. *)
Definition splitn3 (c : char) (s : str) : option (str * str * str) :=
  '(a, r) ← split_once c s;
  '(b, d) ← split_once c r;
  Some (a, b, d).

(** * From a date to a number of days *)

Definition days_from_civil (year month day : Z) : Z :=
  let y := (if month <=? 2 then wrap64 (year - 1) else year)%Z in
  let era := (y / 400)%Z in
  let yoe := (y - era * 400)%Z in
  let mp := ((month + 9) mod 12)%Z in
  let doy := ((153 * mp + 2) / 5 + day - 1)%Z in
  let doe := (yoe * 365 + yoe / 4 - yoe / 100 + doy)%Z in
  (era * 146097 + doe - 719468)%Z.

Definition within (lo hi z : Z) : bool := (lo <=? z)%Z && (z <=? hi)%Z.

(** [format!("{fraction:0<3}")[..3]]. *)
Definition milli_digits (fraction : str) : str :=
  take 3 (fraction ++ replicate (3 - length fraction) 48%N).

Definition parse_server_time (value : str) : option Z :=
  value ← (match last value with Some c => if (c =? 0x5A)%N then Some (take (length value - 1) value) else None | None => None end);
  '(date, time) ← split_once 0x54%N value;
  '(ys, ms, ds) ← splitn3 0x2D%N date;
  year ← parse_i64 ys; month ← parse_i64 ms; day ← parse_i64 ds;
  let '(clock, fraction) := default (time, lit "0") (split_once 0x2E%N time) in
  '(hs, mins, ss) ← splitn3 0x3A%N clock;
  hour ← parse_i64 hs; minute ← parse_i64 mins; second ← parse_i64 ss;
  if negb (within 1 12 month) || negb (within 1 31 day) || negb (within 0 23 hour)
     || negb (within 0 59 minute) || negb (within 0 60 second)
     || is_empty fraction || negb (forallb is_ascii_digit fraction)
  then None
  else
    millis ← parse_i64 (milli_digits fraction);
    Some (wrap64 (((days_from_civil year month day * 24 + hour) * 60 + minute) * 60000 + second * 1000 + millis)).

(** * From a number of days to a date *)

(** Year, month and day. *)
Definition civil_from_days (days : Z) : Z * Z * Z :=
  let z := (days + 719468)%Z in
  let era := (z / 146097)%Z in
  let doe := (z mod 146097)%Z in
  let yoe := ((doe - doe / 1460 + doe / 36524 - doe / 146096) / 365)%Z in
  let doy := (doe - (365 * yoe + yoe / 4 - yoe / 100))%Z in
  let mp := ((5 * doy + 2) / 153)%Z in
  let day := (doy - (153 * mp + 2) / 5 + 1)%Z in
  let month := (if mp <? 10 then mp + 3 else mp - 9)%Z in
  let year := (yoe + era * 400 + (if month <=? 2 then 1 else 0))%Z in
  (year, month, day).

Definition iso8601 (ms : Z) : str :=
  let secs := (ms / 1000)%Z in
  let days := (secs / 86400)%Z in
  let of_day := (secs mod 86400)%Z in
  let '(year, month, day) := civil_from_days days in
  pad 4 year ++ [0x2D%N] ++ pad 2 month ++ [0x2D%N] ++ pad 2 day ++ [0x54%N]
  ++ pad 2 (of_day / 3600) ++ [0x3A%N] ++ pad 2 (of_day mod 3600 / 60) ++ [0x3A%N]
  ++ pad 2 (of_day mod 60) ++ [0x5A%N].

(** * The calendar *)

Definition leap (y : Z) : bool := ((y mod 4 =? 0) && (negb (y mod 100 =? 0) || (y mod 400 =? 0)))%Z.
Definition month_length (y m : Z) : Z :=
  (if m =? 2 then (if leap y then 29 else 28)
   else if (m =? 4) || (m =? 6) || (m =? 9) || (m =? 11) then 30 else 31)%Z.
Definition next_day (date : Z * Z * Z) : Z * Z * Z :=
  let '(y, m, d) := date in
  (if d <? month_length y m then (y, m, d + 1)
   else if m <? 12 then (y, m + 1, 1)
   else (y + 1, 1, 1))%Z.

Example times :
  parse_server_time (lit "1970-01-01T00:00:00.000Z") = Some 0%Z ∧
  parse_server_time (lit "2000-03-01T00:00:00Z") = Some 951868800000%Z ∧
  parse_server_time (lit "2026-09-30T12:34:56.7Z") = Some 1790771696700%Z ∧
  map (λ s, parse_server_time (lit s))
    [""; "2026-09-30T12:34:56"; "2026-13-01T00:00:00Z"; "2026-09-30 12:34:56Z";
     "2026-09-30T25:00:00Z"; "2026-09-30T12:34:56.Z"; "2026-09-30T12:34:56.x1Z"]%string = replicate 7 None.
Proof. repeat split; vm_compute; reflexivity. Qed.

(** A year no clock will show makes the time wrap. *)
Example far_year_wraps : parse_server_time (lit "300000000-01-01T00:00:00Z") = Some (-8979720640928751616)%Z.
Proof. vm_compute. reflexivity. Qed.

(** * Properties of times on the wire. *)

#[local] Open Scope Z_scope.

Ltac dlia := Z.to_euclidean_division_equations; lia.

(** * Lemmas: years of a cycle of 400 *)

(** A day of the cycle that begins on 1 March of year 0, and its year. *)
Definition year_scale (doe : Z) : Z := (doe - doe / 1460 + doe / 36524 - doe / 146096)%Z.
Definition year_of (doe : Z) : Z := (year_scale doe / 365)%Z.

(** The first day of a year of the cycle, and the first after it. *)
Definition start (y : Z) : Z := (365 * y + y / 4 - y / 100)%Z.
Definition finish (y : Z) : Z := (start (y + 1) + (if y =? 399 then 1 else 0))%Z.

Fixpoint all_from (check : Z → bool) (n : nat) (z : Z) : bool :=
  match n with O => true | S n => check z && all_from check n (z + 1)%Z end.

Lemma all_from_spec check n z k :
  all_from check n z = true → (z ≤ k < z + Z.of_nat n)%Z → check k = true.
Proof.
  revert z. induction n as [|n IH]; intros z H Hk; [lia|]. cbn [all_from] in H.
  apply andb_true_iff in H as [H1 H2]. destruct (Z.eq_dec k z) as [->|]; [done|].
  apply (IH (z + 1)%Z H2). lia.
Qed.

(** The formula is right on the first and the last day of each year, and a
    year has 366 days exactly when the February in it has 29. *)
Definition year_check (y : Z) : bool :=
  ((year_of (start y) =? y) && (year_of (finish y - 1) =? y)
   && (finish y - start y =? (if leap (y + 1) then 366 else 365)))%Z.

Lemma years_ok : all_from year_check 400 0 = true.
Proof. vm_compute. reflexivity. Qed.

Lemma year_facts y :
  (0 ≤ y ≤ 399)%Z →
  year_of (start y) = y ∧ year_of (finish y - 1) = y ∧
  (finish y - start y = if leap (y + 1) then 366 else 365)%Z.
Proof.
  intros H. pose proof (all_from_spec _ _ _ y years_ok ltac:(lia)) as Hc. unfold year_check in Hc.
  apply andb_true_iff in Hc as [[H1%Z.eqb_eq H2%Z.eqb_eq]%andb_true_iff H3%Z.eqb_eq]. done.
Qed.

Lemma year_scale_step doe : (0 ≤ doe < 146096)%Z → (year_scale doe ≤ year_scale (doe + 1))%Z.
Proof.
  intros H. unfold year_scale. destruct (Z.eq_dec doe 146095) as [->|]; [vm_compute; done|].
  rewrite (Z.div_small doe 146096), (Z.div_small (doe + 1) 146096) by lia. dlia.
Qed.

Lemma year_scale_mono a b : (0 ≤ a ≤ b)%Z → (b < 146097)%Z → (year_scale a ≤ year_scale b)%Z.
Proof.
  intros Ha Hb.
  assert (∀ n : nat, a + Z.of_nat n < 146097 → year_scale a ≤ year_scale (a + Z.of_nat n)) as H.
  { induction n as [|n IH]; intros Hn; [rewrite Z.add_0_r; lia|].
    etransitivity; [apply IH; lia|]. replace (a + Z.of_nat (S n)) with (a + Z.of_nat n + 1) by lia.
    apply year_scale_step. lia. }
  specialize (H (Z.to_nat (b - a))). replace (a + Z.of_nat (Z.to_nat (b - a))) with b in H by lia. auto.
Qed.

(** Between its first and its last day the formula gives the year. *)
Lemma year_of_inside y doe : (0 ≤ y ≤ 399)%Z → (start y ≤ doe < finish y)%Z → year_of doe = y.
Proof.
  intros Hy Hd. destruct (year_facts y Hy) as (H1 & H2 & _).
  assert (0 ≤ start y)%Z by (unfold start; dlia).
  assert (finish y ≤ 146097)%Z by (unfold finish, start; destruct (Z.eqb_spec y 399); dlia).
  assert (year_of (start y) ≤ year_of doe)%Z as L1.
  { unfold year_of. apply Z.div_le_mono; [lia|]. apply year_scale_mono; lia. }
  assert (year_of doe ≤ year_of (finish y - 1))%Z as L2.
  { unfold year_of. apply Z.div_le_mono; [lia|]. apply year_scale_mono; lia. }
  lia.
Qed.

Lemma in_some_year n doe :
  (0 ≤ n ≤ 399)%Z → (0 ≤ doe < finish n)%Z → ∃ y, (0 ≤ y ≤ n)%Z ∧ (start y ≤ doe < finish y)%Z.
Proof.
  assert (∀ k : nat, Z.of_nat k ≤ 399 → 0 ≤ doe < finish (Z.of_nat k) →
    ∃ y, 0 ≤ y ≤ Z.of_nat k ∧ start y ≤ doe < finish y) as H.
  { induction k as [|k IH]; intros Hk Hd.
    - exists 0. split; [lia|]. split; [exact (proj1 Hd)|exact (proj2 Hd)].
    - destruct (Z.lt_ge_cases doe (finish (Z.of_nat k))) as [Hl|Hl].
      + destruct IH as (y & ? & ?); [lia|lia|]. exists y. split; [lia|done].
      + exists (Z.of_nat (S k)). split; [lia|]. split; [|lia]. revert Hl. unfold finish.
        destruct (Z.eqb_spec (Z.of_nat k) 399); [lia|].
        replace (Z.of_nat k + 1) with (Z.of_nat (S k)) by lia. lia. }
  intros Hn Hd. specialize (H (Z.to_nat n)). replace (Z.of_nat (Z.to_nat n)) with n in H by lia. apply H; lia.
Qed.

(** Every day of the cycle is a day of one of its years. *)
Lemma cycle_day doe :
  (0 ≤ doe < 146097)%Z → ∃ y, (0 ≤ y ≤ 399)%Z ∧ (start y ≤ doe < finish y)%Z ∧ year_of doe = y.
Proof.
  intros H. destruct (in_some_year 399 doe) as (y & Hy & Hd); [lia|exact H|].
  exists y. split; [lia|]. split; [done|]. apply year_of_inside; [lia|done].
Qed.

(** * Lemmas: days of a year *)

Definition month_of (doy : Z) : Z := let mp := (5 * doy + 2) / 153 in if mp <? 10 then mp + 3 else mp - 9.
Definition day_of (doy : Z) : Z := doy - (153 * ((5 * doy + 2) / 153) + 2) / 5 + 1.
Definition of_year (y doy : Z) : Z * Z * Z :=
  (y + (if month_of doy <=? 2 then 1 else 0), month_of doy, day_of doy).

Definition shift (k : Z) (date : Z * Z * Z) : Z * Z * Z := let '(y, m, d) := date in (y + k, m, d).

Definition year_length (y : Z) : Z := if leap (y + 1) then 366 else 365.

(** A number of days, and the date it stands for. *)
Lemma civil_spec days :
  ∃ era y doy, 0 ≤ y ≤ 399 ∧ 0 ≤ doy < year_length y ∧
    days + 719468 = era * 146097 + start y + doy ∧
    (era, y) = ((days + 719468) / 146097, year_of ((days + 719468) mod 146097)) ∧
    civil_from_days days = of_year (y + era * 400) doy.
Proof.
  set (z := days + 719468). set (era := z / 146097). set (doe := z mod 146097).
  destruct (cycle_day doe) as (y & Hy & Hd & Hyo); [apply Z.mod_pos_bound; lia|].
  destruct (year_facts y Hy) as (_ & _ & Hlen).
  exists era, y, (doe - start y). split; [done|]. split; [unfold year_length; lia|].
  split; [unfold era, doe; pose proof (Z.div_mod z 146097 ltac:(lia)); lia|]. split; [by rewrite Hyo|].
  unfold civil_from_days. cbv zeta. fold z era doe.
  change ((doe - doe / 1460 + doe / 36524 - doe / 146096) / 365) with (year_of doe). rewrite Hyo.
  change (365 * y + y / 4 - y / 100) with (start y). done.
Qed.

Lemma doy_facts doy :
  0 ≤ doy ≤ 365 →
  1 ≤ month_of doy ≤ 12 ∧ 1 ≤ day_of doy ≤ 31 ∧
  (month_of doy + 9) mod 12 = (5 * doy + 2) / 153 ∧
  (153 * ((5 * doy + 2) / 153) + 2) / 5 + day_of doy - 1 = doy.
Proof.
  intros H. unfold month_of, day_of. cbv zeta. set (mp := (5 * doy + 2) / 153).
  assert (0 ≤ mp ≤ 11) as Hmp by (unfold mp; dlia). split_and!.
  - destruct (Z.ltb_spec mp 10); lia.
  - destruct (Z.ltb_spec mp 10); lia.
  - unfold mp. dlia.
  - unfold mp. dlia.
  - destruct (Z.ltb_spec mp 10).
    + replace (mp + 3 + 9) with (mp + 1 * 12) by lia. rewrite Z.mod_add by lia. apply Z.mod_small. lia.
    + replace (mp - 9 + 9) with mp by lia. apply Z.mod_small. lia.
  - lia.
Qed.

(** Counting the days of a date that has a place in the calendar. *)
Lemma days_of_year y era doy :
  0 ≤ y ≤ 399 → 0 ≤ doy < year_length y → i64_min ≤ y + era * 400 ≤ i64_max →
  let '(Y, m, d) := of_year (y + era * 400) doy in
  days_from_civil Y m d = era * 146097 + start y + doy - 719468.
Proof.
  intros Hy Hd Hr. unfold of_year, days_from_civil. cbv zeta.
  assert (0 ≤ doy ≤ 365) as Hd' by (unfold year_length in Hd; case_match; lia).
  destruct (doy_facts doy Hd') as (_ & _ & -> & Hdoy). rewrite Hdoy.
  assert ((if month_of doy <=? 2
    then wrap64 (y + era * 400 + (if month_of doy <=? 2 then 1 else 0) - 1)
    else y + era * 400 + (if month_of doy <=? 2 then 1 else 0)) = y + era * 400) as ->.
  { destruct (month_of doy <=? 2); [|lia]. unfold wrap64. revert Hr. unfold i64_min, i64_max. intros Hr.
    rewrite Z.mod_small; lia. }
  rewrite Z.div_add by lia. rewrite (Z.div_small y 400) by lia. unfold start.
  replace (y + era * 400 - (0 + era) * 400) with y by lia. lia.
Qed.

(** * Lemmas: the next day *)

(** [next_day], with the length of February given. *)
Definition next_day_in (feb29 : bool) (date : Z * Z * Z) : Z * Z * Z :=
  let '(y, m, d) := date in
  let length := if m =? 2 then (if feb29 then 29 else 28)
                else if (m =? 4) || (m =? 6) || (m =? 9) || (m =? 11) then 30 else 31 in
  if d <? length then (y, m, d + 1) else if m <? 12 then (y, m + 1, 1) else (y + 1, 1, 1).

Definition next_check (feb29 : bool) (doy : Z) : bool :=
  bool_decide (next_day_in feb29 (of_year 0 doy) =
    if doy + 1 <? (if feb29 then 366 else 365) then of_year 0 (doy + 1) else of_year 1 0).

Lemma next_ok : all_from (next_check true) 366 0 && all_from (next_check false) 365 0 = true.
Proof. vm_compute. reflexivity. Qed.

Lemma next_day_in_shift b k date : next_day_in b (shift k date) = shift k (next_day_in b date).
Proof.
  destruct date as [[y m] d]. unfold next_day_in, shift. cbv zeta.
  destruct (d <? _); [done|]. destruct (m <? 12); [done|]. f_equal. f_equal. lia.
Qed.

Lemma of_year_shift y doy : of_year y doy = shift y (of_year 0 doy).
Proof. unfold of_year, shift. f_equal. f_equal. lia. Qed.

Lemma leap_period y k : leap (y + k * 400) = leap y.
Proof.
  unfold leap. replace (y + k * 400) with (y + (k * 100) * 4) at 1 by lia. rewrite Z.mod_add by lia.
  replace (y + k * 400) with (y + (k * 4) * 100) at 1 by lia. rewrite Z.mod_add by lia.
  by rewrite Z.mod_add by lia.
Qed.

(** The day after, within a year of a cycle and at its end. *)
Lemma next_day_of_year y era doy :
  0 ≤ doy < year_length y →
  next_day (of_year (y + era * 400) doy) =
    if doy + 1 <? year_length y then of_year (y + era * 400) (doy + 1) else of_year (y + 1 + era * 400) 0.
Proof.
  intros Hd.
  assert (next_day (of_year (y + era * 400) doy) = next_day_in (leap (y + 1)) (of_year (y + era * 400) doy)) as ->.
  { unfold of_year, next_day, next_day_in, month_length. cbv zeta.
    destruct (Z.eqb_spec (month_of doy) 2) as [->|]; [|done].
    change (2 <=? 2) with true. cbv iota. replace (y + era * 400 + 1) with (y + 1 + era * 400) by lia.
    by rewrite leap_period. }
  rewrite of_year_shift, next_day_in_shift.
  assert (next_check (leap (y + 1)) doy = true) as Hc.
  { pose proof next_ok as [H1 H2]%andb_true_iff. unfold year_length in Hd.
    destruct (leap (y + 1)); [apply (all_from_spec _ _ _ _ H1)|apply (all_from_spec _ _ _ _ H2)]; lia. }
  unfold next_check in Hc. apply bool_decide_eq_true in Hc. rewrite Hc. fold (year_length y).
  destruct (doy + 1 <? year_length y); [by rewrite <- of_year_shift|].
  rewrite (of_year_shift 1), (of_year_shift (y + 1 + _)). unfold shift. destruct (of_year 0 0) as [[a b] c].
  f_equal. f_equal. lia.
Qed.

(** A cycle, a year of it and a day of the year have one date. *)
Lemma civil_repr era y doy :
  0 ≤ y ≤ 399 → 0 ≤ doy < year_length y →
  civil_from_days (era * 146097 + start y + doy - 719468) = of_year (y + era * 400) doy.
Proof.
  intros Hy Hd. set (days := era * 146097 + start y + doy - 719468).
  destruct (year_facts y Hy) as (_ & _ & Hlen). fold (year_length y) in Hlen.
  assert (0 ≤ start y) by (unfold start; dlia).
  assert (finish y ≤ 146097) by (unfold finish, start; destruct (Z.eqb_spec y 399); dlia).
  destruct (civil_spec days) as (era' & y' & doy' & Hy' & Hd' & Hz & Heq & ->).
  assert (days + 719468 = (start y + doy) + era * 146097) as Hdays by (unfold days; lia).
  rewrite Hdays in Heq. rewrite Z.div_add, Z.mod_add in Heq by lia.
  rewrite Z.div_small, Z.mod_small in Heq by lia. rewrite (year_of_inside y) in Heq by lia.
  injection Heq as -> ->. f_equal. lia.
Qed.

Lemma civil_next n : civil_from_days (n + 1) = next_day (civil_from_days n).
Proof.
  destruct (civil_spec n) as (era & y & doy & Hy & Hd & Hz & _ & ->).
  rewrite next_day_of_year by done. destruct (year_facts y Hy) as (_ & _ & Hlen). fold (year_length y) in Hlen.
  destruct (Z.ltb_spec (doy + 1) (year_length y)) as [Hl|Hl].
  - replace (n + 1) with (era * 146097 + start y + (doy + 1) - 719468) by lia. apply civil_repr; lia.
  - assert (∀ y, 0 < year_length y) as Hpos by (intros k; unfold year_length; case_match; lia).
    unfold finish in Hlen. destruct (Z.eqb_spec y 399) as [->|Hne].
    + replace (n + 1) with ((era + 1) * 146097 + start 0 + 0 - 719468).
      2: { revert Hlen Hz. change (start (399 + 1)) with 146096. change (start 0) with 0. lia. }
      rewrite civil_repr by (pose proof (Hpos 0); lia). f_equal. lia.
    + replace (n + 1) with (era * 146097 + start (y + 1) + 0 - 719468) by lia.
      apply civil_repr; [lia|]. specialize (Hpos (y + 1)). lia.
Qed.

(** * Lemmas: reading the text *)

Lemma parse_zeros max k s : parse_digits max (replicate k 48%N ++ s) 0 = parse_digits max s 0.
Proof.
  induction k as [|k IH]; [done|]. cbn [replicate app parse_digits].
  change (is_ascii_digit 48) with true. change (0 * 10 + (48 - 48))%N with 0%N.
  by destruct (N.leb_spec 0 max); [|lia].
Qed.

Lemma pad_digits w z :
  0 ≤ z → pad w z ≠ [] ∧ Forall (λ c, is_ascii_digit c = true) (pad w z) ∧
  ∀ max, (Z.to_N z ≤ max)%N → parse_digits max (pad w z) 0 = Some (Z.to_N z).
Proof.
  intros Hz. unfold pad, pad_zeros. destruct (Z.ltb_spec z 0); [lia|].
  destruct (to_dec_digits (Z.to_N z)) as [Hne Hd]. split_and!.
  - intros [_ H0]%app_nil. done.
  - apply Forall_app. split; [by apply Forall_replicate|done].
  - intros max Hm. rewrite parse_zeros. pose proof (parse_to_dec max _ Hm) as Hp. unfold parse_unsigned in Hp.
    destruct (to_dec (Z.to_N z)) as [|c r] eqn:E; [done|]. apply Forall_cons in Hd as [Hc _].
    destruct (N.eqb_spec c 43) as [->|]; [done|]. exact Hp.
Qed.

Lemma parse_pad w z : 0 ≤ z ≤ i64_max → parse_i64 (pad w z) = Some z.
Proof.
  intros [Hz Hm]. destruct (pad_digits w z Hz) as (Hne & Hd & Hp). unfold parse_i64, parse_unsigned.
  specialize (Hp (2 ^ 63 - 1)%N). destruct (pad w z) as [|c r] eqn:E; [done|].
  apply Forall_cons in Hd as [Hc _].
  destruct (N.eqb_spec c 45) as [->|]; [done|]. destruct (N.eqb_spec c 43) as [->|]; [done|].
  change (is_empty (c :: r)) with false. cbv iota. rewrite Hp; [cbn; by rewrite Z2N.id|].
  revert Hm. unfold i64_max. lia.
Qed.

Lemma pad_no w z c : 0 ≤ z → is_ascii_digit c = false → c ∉ pad w z.
Proof.
  intros Hz Hc Hin. destruct (pad_digits w z Hz) as (_ & Hd & _). rewrite Forall_forall in Hd.
  apply Hd in Hin. congruence.
Qed.

Lemma splitn3_pads c w1 w2 w3 a b d :
  0 ≤ a → 0 ≤ b → 0 ≤ d → is_ascii_digit c = false →
  splitn3 c (pad w1 a ++ c :: pad w2 b ++ c :: pad w3 d) = Some (pad w1 a, pad w2 b, pad w3 d).
Proof.
  intros Ha Hb Hd Hc. unfold splitn3.
  rewrite (proj2 (split_once_spec c _ (pad w1 a) (pad w2 b ++ c :: pad w3 d))); [|by split; [|apply pad_no]].
  cbn [mbind option_bind].
  by rewrite (proj2 (split_once_spec c _ (pad w2 b) (pad w3 d))); [|by split; [|apply pad_no]].
Qed.


Lemma within_true lo hi z : lo ≤ z ≤ hi → within lo hi z = true.
Proof. intros [H1 H2]. unfold within. by rewrite (proj2 (Z.leb_le _ _) H1), (proj2 (Z.leb_le _ _) H2). Qed.

(** The text of a date and a time of day, and what it is read as. *)
Lemma parse_text Y m d h mi s :
  0 ≤ Y ≤ i64_max → 1 ≤ m ≤ 12 → 1 ≤ d ≤ 31 → 0 ≤ h ≤ 23 → 0 ≤ mi ≤ 59 → 0 ≤ s ≤ 59 →
  parse_server_time (pad 4 Y ++ [0x2D%N] ++ pad 2 m ++ [0x2D%N] ++ pad 2 d ++ [0x54%N]
    ++ pad 2 h ++ [0x3A%N] ++ pad 2 mi ++ [0x3A%N] ++ pad 2 s ++ [0x5A%N]) =
  Some (wrap64 (((days_from_civil Y m d * 24 + h) * 60 + mi) * 60000 + s * 1000)).
Proof.
  intros HY Hm Hd Hh Hmi Hs.
  set (date := pad 4 Y ++ 0x2D%N :: pad 2 m ++ 0x2D%N :: pad 2 d).
  set (time := pad 2 h ++ 0x3A%N :: pad 2 mi ++ 0x3A%N :: pad 2 s).
  assert (pad 4 Y ++ [0x2D%N] ++ pad 2 m ++ [0x2D%N] ++ pad 2 d ++ [0x54%N]
    ++ pad 2 h ++ [0x3A%N] ++ pad 2 mi ++ [0x3A%N] ++ pad 2 s ++ [0x5A%N] = (date ++ 0x54%N :: time) ++ [0x5A%N]) as ->.
  { unfold date, time. repeat (rewrite <- (assoc_L (++)); cbn [app]). done. }
  assert (∀ c, is_ascii_digit c = false → c ≠ 0x2D%N → c ∉ date) as Hdate.
  { intros c Hc Hne. unfold date. rewrite !elem_of_app, !elem_of_cons, !elem_of_app, !elem_of_cons.
    intros [H|[H|[H|[H|H]]]]; try done; revert H; apply pad_no; done || lia. }
  assert (∀ c, is_ascii_digit c = false → c ≠ 0x3A%N → c ∉ time) as Htime.
  { intros c Hc Hne. unfold time. rewrite !elem_of_app, !elem_of_cons, !elem_of_app, !elem_of_cons.
    intros [H|[H|[H|[H|H]]]]; try done; revert H; apply pad_no; done || lia. }
  unfold parse_server_time. rewrite last_snoc. change (0x5A =? 0x5A)%N with true. cbv iota. cbn [mbind option_bind].
  rewrite length_app. cbn [length]. rewrite Nat.add_sub, take_app_length.
  rewrite (proj2 (split_once_spec 0x54%N _ date time)); [|by split; [|apply Hdate]]. cbn [mbind option_bind].
  unfold date. rewrite splitn3_pads by (done || lia). cbn [mbind option_bind].
  rewrite !parse_pad by (unfold i64_max in *; lia). cbn [mbind option_bind].
  assert (split_once 0x2E%N time = None) as ->.
  { destruct (split_once 0x2E%N time) as [[l r]|] eqn:E; [|done]. apply split_once_spec in E as [E _].
    exfalso. apply (Htime 0x2E%N); [done..|]. rewrite E. apply elem_of_app. right. left. }
  cbn [from_option default]. unfold time. rewrite splitn3_pads by (done || lia). cbn [mbind option_bind].
  rewrite !parse_pad by (unfold i64_max in *; lia). cbn [mbind option_bind].
  rewrite !within_true by lia. cbn [negb orb]. change (milli_digits (lit "0")) with [48%N; 48%N; 48%N].
  change (is_empty (lit "0") || negb (forallb is_ascii_digit (lit "0"))) with false. cbv iota.
  change (parse_i64 [48%N; 48%N; 48%N]) with (Some 0). cbn [mbind option_bind]. f_equal. f_equal. lia.
Qed.

(** * Properties *)

(** The days are counted as the calendar counts them: day 0 is 1 January
    1970 and each number is the day after the one before, with the months and
    leap years of the Gregorian calendar; counting back from the date gives the
    number, for every year an [i64] can hold. *)
Theorem calendar_exact :
  civil_from_days 0 = (1970, 1, 1) ∧
  (∀ n, civil_from_days (n + 1) = next_day (civil_from_days n)) ∧
  (∀ n Y m d, civil_from_days n = (Y, m, d) → i64_min < Y < i64_max → days_from_civil Y m d = n).
Proof.
  split; [by vm_compute|]. split; [apply civil_next|]. intros n Y m d Hc HY.
  destruct (civil_spec n) as (era & y & doy & Hy & Hd & Hz & _ & Hof). rewrite Hof in Hc.
  pose proof (days_of_year y era doy Hy Hd) as Hdays. rewrite Hc in Hdays.
  rewrite Hdays; [lia|]. unfold of_year in Hc. injection Hc as HY' _ _.
  unfold i64_min, i64_max in *. destruct (month_of doy <=? 2); lia.
Qed.

(** A time written by one half of the program is read by the other: the text
    sent to an XMPP archive for any time from the year 0 on, read as the IRC
    side reads a server's time, is the same second. *)
Theorem server_time_roundtrip ms :
  -62167219200000 ≤ ms ≤ i64_max → parse_server_time (iso8601 ms) = Some (ms / 1000 * 1000).
Proof.
  intros [Hlo Hhi]. unfold iso8601. cbv zeta. set (secs := ms / 1000). set (of_day := secs mod 86400).
  assert (0 ≤ of_day < 86400) as Hof by (apply Z.mod_pos_bound; lia).
  assert (-62167219200 ≤ secs) as Hs by (unfold secs; apply Z.div_le_lower_bound; lia).
  assert (secs ≤ 2 ^ 63 / 1000) as Hs2 by (unfold secs; apply Z.div_le_mono; unfold i64_max in Hhi; lia).
  assert (-719528 ≤ secs / 86400) as Hday by (apply Z.div_le_lower_bound; lia).
  assert (secs / 86400 ≤ 2 ^ 63 / 1000 / 86400) as Hday2 by (apply Z.div_le_mono; lia).
  change (2 ^ 63 / 1000 / 86400) with 106751991167 in Hday2.
  destruct (civil_spec (secs / 86400)) as (era & y & doy & Hy & Hd & Hz & _ & Hc). rewrite Hc.
  assert (0 ≤ start y ≤ 146096) as Hst by (unfold start; dlia).
  assert (0 ≤ doy ≤ 365) as Hdoy by (unfold year_length in Hd; case_match; lia).
  assert (-1 ≤ era ≤ 1000000) as Hera by lia.
  pose proof (days_of_year y era doy Hy Hd) as Hdays.
  destruct (doy_facts doy Hdoy) as (Hm & Hdd & _).
  assert (0 ≤ y + era * 400 + (if month_of doy <=? 2 then 1 else 0)) as HY.
  { destruct (Z.eq_dec era (-1)) as [->|]; [|destruct (_ <=? _); lia].
    assert (y = 399) as -> by (unfold start in *; dlia). change (start 399) with 145731 in *.
    unfold month_of. destruct (Z.ltb_spec ((5 * doy + 2) / 153) 10); [dlia|].
    destruct (Z.leb_spec ((5 * doy + 2) / 153 - 9) 2); [lia|dlia]. }
  unfold of_year in *. rewrite parse_text; [|split; [done|unfold i64_max; destruct (_ <=? _); lia]|done|done|dlia..].
  rewrite Hdays by (unfold i64_min, i64_max; lia). f_equal.
  assert (secs = secs / 86400 * 86400 + of_day) as Hsecs
    by (unfold of_day; pose proof (Z.div_mod secs 86400 ltac:(lia)); lia).
  assert (((era * 146097 + start y + doy - 719468) * 24 + of_day / 3600) * 60 + of_day mod 3600 / 60 =
    secs / 86400 * 1440 + of_day / 60) as Hmin.
  { replace (era * 146097 + start y + doy - 719468) with (secs / 86400) by lia. clear -Hof. dlia. }
  rewrite Hmin.
  assert ((secs / 86400 * 1440 + of_day / 60) * 60000 + of_day mod 60 * 1000 = secs * 1000) as ->
    by (revert Hsecs; clearbody of_day; generalize (secs / 86400); clear; intros q ->; dlia).
  unfold wrap64. rewrite Z.mod_small; [lia|]. revert Hs2. change (2 ^ 63 / 1000) with 9223372036854775. lia.
Qed.

Lemma server_time_roundtrip_witness : parse_server_time (iso8601 1790771696789) = Some 1790771696000.
Proof. apply (server_time_roundtrip 1790771696789). vm_compute. split; discriminate. Defined.
