(* ===== verification/Outgoing.v ===== *)
(** What the user types, made fit to send ([sanitize_outgoing] of
    [ddirc-core/src/conn/actor.rs] for IRC and of
    [ddirc-core/src/xmpp/session.rs] for XMPP). *)
From S2P Require Import Prelude RustStr.

Definition MAX_MESSAGE_CHARS : nat := 400.
Definition MAX_BODY_CHARS : nat := 4000.

(** [str::lines]: the last line is dropped when it is empty, and a carriage
    return before a line feed goes with it. *)
Definition strip_cr (line : str) : str :=
  match last line with
  | Some c => if (c =? 13)%N then take (length line - 1) line else line
  | None => line
  end.
Fixpoint lines_of (parts : list str) : list str :=
  match parts with
  | [] => []
  | [rest] => if is_empty rest then [] else [rest]
  | line :: parts => strip_cr line :: lines_of parts
  end.
Definition lines (s : str) : list str := lines_of (split 10%N s).

(** [chunks(n)], [n] not zero: the fuel is the number of characters left, and
    each chunk takes at least one. *)
Fixpoint chunks_aux (fuel : nat) (n : nat) (s : str) : list str :=
  match fuel with
  | O => []
  | S fuel => if is_empty s then [] else take n s :: chunks_aux fuel n (drop n s)
  end.
Definition chunks (n : nat) (s : str) : list str := chunks_aux (length s) n s.

Definition unsendable (c : char) : bool := (c =? 13)%N || (c =? 10)%N || (c =? 0)%N.

(** ** IRC *)

Definition sanitize_line (line : str) : list str :=
  chunks MAX_MESSAGE_CHARS (List.filter (λ c, negb (unsendable c)) line).
Definition sanitize_outgoing (text : str) : list str :=
  List.filter (λ line, negb (is_empty (trim line))) (concat (map sanitize_line (lines text))).

(** ** XMPP *)

(** [replace("\r\n", "\n")]. *)
Fixpoint replace_crlf (s : str) : str :=
  match s with
  | a :: ((b :: r) as s') => if ((a =? 13) && (b =? 10))%N then 10%N :: replace_crlf r else a :: replace_crlf s'
  | _ => s
  end.

(** The two filters of [sanitize_outgoing]. *)
Definition xml_text (c : char) : bool :=
  ((c =? 10)%N || (c =? 9)%N || negb (is_control c)) && negb ((c =? 0xfffe)%N || (c =? 0xffff)%N).

Definition sanitize_body (text : str) : list str :=
  let cleaned := trim (List.filter xml_text (replace_crlf text)) in
  if is_empty cleaned then [] else chunks MAX_BODY_CHARS cleaned.

(** * Lemmas: chunks *)

Lemma chunks_aux_spec fuel n s :
  0 < n → length s ≤ fuel →
  concat (chunks_aux fuel n s) = s ∧ Forall (λ c, c ≠ [] ∧ length c ≤ n) (chunks_aux fuel n s).
Proof.
  intros Hn. revert s. induction fuel as [|fuel IH]; intros s Hs.
  { destruct s; [by split|cbn in Hs; lia]. }
  cbn [chunks_aux]. destruct s as [|c s]; [by split|]. cbn [is_empty]. set (l := c :: s) in *.
  destruct (IH (drop n l)) as [H1 H2]; [rewrite length_drop; unfold l in *; cbn [length] in *; lia|].
  split; [cbn [concat]; by rewrite H1, take_drop|]. constructor; [|done].
  split; [unfold l; destruct n; [lia|done]|rewrite length_take; lia].
Qed.

Lemma chunks_spec n s :
  0 < n → concat (chunks n s) = s ∧ Forall (λ c, c ≠ [] ∧ length c ≤ n) (chunks n s).
Proof. intros Hn. by apply chunks_aux_spec. Qed.

(** * Lemmas: what is visible *)

Definition visible (c : char) : bool := negb (is_whitespace c) && negb (c =? 0)%N.
Definition seen (s : str) : str := List.filter visible s.

Lemma seen_app a b : seen (a ++ b) = seen a ++ seen b.
Proof. apply List.filter_app. Qed.

Lemma seen_blank s : Forall (λ c, visible c = false) s → seen s = [].
Proof. induction 1 as [|c s Hc Hs IH]; [done|]. unfold seen in *. cbn [List.filter]. by rewrite Hc. Qed.

Lemma seen_strip_cr l : seen (strip_cr l) = seen l.
Proof.
  unfold strip_cr. destruct (last l) as [c|] eqn:E; [|done].
  destruct (N.eqb_spec c 13) as [->|]; [|done]. apply last_Some in E as [k ->].
  rewrite length_app, Nat.add_sub, take_app_length. rewrite seen_app. by rewrite app_nil_r.
Qed.

Lemma seen_lines_of parts : seen (concat (lines_of parts)) = seen (concat parts).
Proof.
  induction parts as [|p parts IH]; [done|]. destruct parts as [|q parts].
  - cbn [lines_of concat]. destruct p; [done|]. cbn [is_empty concat]. done.
  - cbn [concat] in *. change (lines_of (p :: q :: parts)) with (strip_cr p :: lines_of (q :: parts)).
    cbn [concat]. rewrite !seen_app in *. rewrite seen_strip_cr. f_equal. exact IH.
Qed.

Lemma seen_split s : seen (concat (split 10%N s)) = seen s.
Proof.
  induction s as [|a s IH]; [done|]. cbn [split]. destruct (N.eqb_spec a 10) as [->|Hne].
  - cbn [concat app]. rewrite IH. done.
  - destruct (split 10 s) as [|w ws] eqn:E; [by destruct s; cbn [split] in E; repeat case_match|].
    cbn [concat app] in *. unfold seen in *. cbn [List.filter]. rewrite IH. done.
Qed.

Lemma seen_lines s : seen (concat (lines s)) = seen s.
Proof. unfold lines. by rewrite seen_lines_of, seen_split. Qed.

Lemma seen_sendable s : seen (List.filter (λ c, negb (unsendable c)) s) = seen s.
Proof.
  induction s as [|c s IH]; [done|]. unfold seen in *. cbn [List.filter].
  destruct (unsendable c) eqn:E; cbn [negb List.filter]; [|by rewrite IH].
  rewrite IH. assert (visible c = false) as ->; [|done]. unfold unsendable in E.
  apply orb_true_iff in E as [[E|E]%orb_true_iff|E]; apply N.eqb_eq in E as ->; done.
Qed.

Lemma seen_blank_line l : is_empty (trim l) = true → seen l = [].
Proof.
  intros H%is_empty_true. apply seen_blank. apply Forall_forall. intros c Hc. unfold visible.
  assert (is_whitespace c = true) as ->; [|done]. destruct (is_whitespace c) eqn:E; [done|].
  exfalso. unfold trim, trim_end, trim_start, trim_start_matches, trim_end_matches in H.
  rewrite <- (take_while_app is_whitespace l) in Hc. apply elem_of_app in Hc as [Hc|Hc].
  - pose proof (take_while_forall is_whitespace l) as Hf. rewrite Forall_forall in Hf. apply Hf in Hc. congruence.
  - set (k := drop_while is_whitespace l) in *. apply (f_equal (@rev N)) in H. rewrite rev_involutive in H.
    change (rev []) with (@nil N) in H. apply elem_of_rev in Hc.
    rewrite <- (take_while_app is_whitespace (rev k)), H, app_nil_r in Hc.
    pose proof (take_while_forall is_whitespace (rev k)) as Hf. rewrite Forall_forall in Hf. apply Hf in Hc. congruence.
Qed.

Lemma seen_filter_blank ls :
  seen (concat (List.filter (λ l, negb (is_empty (trim l))) ls)) = seen (concat ls).
Proof.
  induction ls as [|l ls IH]; [done|]. cbn [List.filter concat]. rewrite seen_app.
  destruct (is_empty (trim l)) eqn:E; cbn [negb concat].
  - by rewrite (seen_blank_line l E), IH.
  - by rewrite seen_app, IH.
Qed.

Lemma seen_sanitize_lines ls : seen (concat (concat (map sanitize_line ls))) = seen (concat ls).
Proof.
  induction ls as [|l ls IH]; [done|]. cbn [map concat]. rewrite concat_app, !seen_app, IH. f_equal.
  unfold sanitize_line. rewrite (proj1 (chunks_spec MAX_MESSAGE_CHARS _ ltac:(unfold MAX_MESSAGE_CHARS; lia))).
  apply seen_sendable.
Qed.

Lemma Forall_filter_list {A} (f : A → bool) l : Forall (λ x, f x = true) (List.filter f l).
Proof. apply Forall_forall. intros x Hx. by apply list_elem_of_In, filter_In in Hx as [_ Hx]. Qed.

Lemma sanitize_line_spec line :
  Forall (λ l, length l ≤ MAX_MESSAGE_CHARS ∧ Forall (λ c, unsendable c = false) l) (sanitize_line line).
Proof.
  unfold sanitize_line. set (s := List.filter _ line).
  destruct (chunks_spec MAX_MESSAGE_CHARS s) as [Hc Hf]; [unfold MAX_MESSAGE_CHARS; lia|].
  apply Forall_forall. intros l Hl. rewrite Forall_forall in Hf. split; [by apply Hf|].
  apply Forall_forall. intros c Hin. assert (c ∈ s) as Hs.
  { rewrite <- Hc. apply list_elem_of_In, in_concat. exists l. by rewrite <- !list_elem_of_In. }
  apply list_elem_of_In, filter_In in Hs as [_ Hs]. by apply negb_true_iff.
Qed.

(** ** What XML allows, as the standard has it *)

(** A Unicode scalar value, which a [char] is. *)
Definition scalar (c : char) : Prop := (c < 0xD800)%N ∨ (0xE000 ≤ c ≤ 0x10FFFF)%N.
(** The production [Char] of XML 1.0: [#x9 | #xA | #xD | [#x20-#xD7FF] |
    [#xE000-#xFFFD] | [#x10000-#x10FFFF]]. *)
Definition xml_char (c : char) : Prop :=
  c = 0x9%N ∨ c = 0xA%N ∨ c = 0xD%N ∨ (0x20 ≤ c ≤ 0xD7FF)%N ∨ (0xE000 ≤ c ≤ 0xFFFD)%N ∨ (0x10000 ≤ c ≤ 0x10FFFF)%N.
#[export] Instance xml_char_dec c : Decision (xml_char c).
Proof. unfold xml_char. apply _. Defined.

Lemma xml_text_char c : scalar c → xml_text c = true → xml_char c.
Proof.
  unfold scalar, xml_text, xml_char, is_control. rewrite andb_true_iff, !orb_true_iff, !negb_true_iff, !N.eqb_eq.
  rewrite !orb_false_iff, andb_false_iff, !N.eqb_neq, N.ltb_ge, !N.leb_gt. lia.
Qed.

(** What is to be seen of a text that XML can carry: all but blanks, control
    characters and what XML has no room for. *)
Definition carried (c : char) : bool := negb (is_whitespace c) && negb (is_control c) && bool_decide (xml_char c).

Lemma carried_text c : carried c = true → xml_text c = true.
Proof.
  unfold carried, xml_text. rewrite !andb_true_iff, !negb_true_iff, bool_decide_eq_true. intros [[_ Hc] Hx]. rewrite Hc.
  split; [by rewrite orb_true_r|]. apply orb_false_iff. rewrite !N.eqb_neq. unfold xml_char in Hx. lia.
Qed.
Lemma carried_not_blank c : is_whitespace c = true → carried c = false.
Proof. unfold carried. by intros ->. Qed.

Lemma filter_weaker {A} (f g : A → bool) l : (∀ x, g x = true → f x = true) → List.filter g (List.filter f l) = List.filter g l.
Proof.
  intros H. induction l as [|x l IH]; [done|]. cbn [List.filter]. destruct (f x) eqn:E; cbn [List.filter]; rewrite IH; [done|].
  destruct (g x) eqn:G; [|done]. apply H in G. congruence.
Qed.
Lemma filter_drop_while (f w : char → bool) s :
  (∀ c, w c = true → f c = false) → List.filter f (drop_while w s) = List.filter f s.
Proof.
  intros H. induction s as [|c s IH]; [done|]. cbn [drop_while List.filter]. destruct (w c) eqn:E; [|done]. by rewrite IH, (H c E).
Qed.
Lemma filter_rev_list {A} (f : A → bool) l : List.filter f (rev l) = rev (List.filter f l).
Proof.
  induction l as [|x l IH]; [done|]. cbn [rev List.filter]. rewrite List.filter_app, IH. cbn [List.filter].
  destruct (f x); [done|]. by rewrite app_nil_r.
Qed.
Lemma carried_trim s : List.filter carried (trim s) = List.filter carried s.
Proof.
  unfold trim, trim_end, trim_start, trim_start_matches, trim_end_matches.
  rewrite filter_rev_list, filter_drop_while, filter_rev_list, rev_involutive by apply carried_not_blank.
  apply filter_drop_while, carried_not_blank.
Qed.
Lemma carried_crlf s : List.filter carried (replace_crlf s) = List.filter carried s.
Proof.
  induction s as [s IH] using (induction_ltof1 _ length). unfold ltof in IH.
  destruct s as [|a [|b r]]; [done|done|]. cbn [replace_crlf]. destruct ((a =? 13) && (b =? 10))%N eqn:E.
  - apply andb_true_iff in E as [->%N.eqb_eq ->%N.eqb_eq]. cbn [List.filter].
    change (carried 10) with false. change (carried 13) with false. apply IH. cbn [length]. lia.
  - change (List.filter carried (a :: replace_crlf (b :: r)) = List.filter carried (a :: b :: r)).
    cbn [List.filter]. rewrite (IH (b :: r)); [done|cbn [length]; lia].
Qed.
Lemma replace_crlf_elem s c : c ∈ replace_crlf s → c ∈ s.
Proof.
  induction s as [s IH] using (induction_ltof1 _ length). unfold ltof in IH.
  destruct s as [|a [|b r]]; [done|done|]. cbn [replace_crlf]. destruct ((a =? 13) && (b =? 10))%N eqn:E.
  - apply andb_true_iff in E as [_ ->%N.eqb_eq]. rewrite !elem_of_cons. intros [->|H]; [by right; left|].
    right. right. apply IH; [cbn [length]; lia|done].
  - change (c ∈ a :: replace_crlf (b :: r) → c ∈ a :: b :: r). rewrite !(elem_of_cons _ _ a). intros [->|H]; [by left|].
    right. apply IH; [cbn [length]; lia|done].
Qed.

Lemma sanitize_body_whole text : concat (sanitize_body text) = trim (List.filter xml_text (replace_crlf text)).
Proof.
  unfold sanitize_body. set (s := trim _). destruct (is_empty s) eqn:E.
  - apply is_empty_true in E. by rewrite E.
  - apply chunks_spec. unfold MAX_BODY_CHARS. lia.
Qed.

(** C38: what is typed is sent whole, and as nothing but text. For IRC each line
    is not blank, has at most 400 characters (characters, not bytes) and holds no
    carriage return, line feed or null, so none can end the message and begin a
    command of its own; and every visible character typed is sent, in order. For
    XMPP each piece has at most 4,000 characters, all of which are characters of
    XML 1.0 when what was typed is Unicode; and every character typed that is no
    blank, no control character and one of XML's is sent, in order. *)
Theorem outgoing_safe_and_whole text :
  Forall (λ l, trim l ≠ [] ∧ length l ≤ MAX_MESSAGE_CHARS ∧ Forall (λ c, c ≠ 13%N ∧ c ≠ 10%N ∧ c ≠ 0%N) l)
    (sanitize_outgoing text) ∧
  seen (concat (sanitize_outgoing text)) = seen text ∧
  Forall (λ l, l ≠ [] ∧ length l ≤ MAX_BODY_CHARS ∧ (Forall scalar text → Forall xml_char l)) (sanitize_body text) ∧
  List.filter carried (concat (sanitize_body text)) = List.filter carried text.
Proof.
  split_and!.
  - apply Forall_forall. intros l Hl. unfold sanitize_outgoing in Hl.
    apply list_elem_of_In, filter_In in Hl as [Hl Ht]. split; [by apply is_empty_false, negb_true_iff|].
    apply in_concat in Hl as (ls & Hls & Hl). apply in_map_iff in Hls as (line & <- & _).
    pose proof (sanitize_line_spec line) as Hs. rewrite Forall_forall in Hs. apply list_elem_of_In, Hs in Hl as [H1 H2].
    split; [done|]. eapply Forall_impl; [exact H2|]. intros c. unfold unsendable.
    rewrite !orb_false_iff, !N.eqb_neq. tauto.
  - unfold sanitize_outgoing. by rewrite seen_filter_blank, seen_sanitize_lines, seen_lines.
  - pose proof (sanitize_body_whole text) as Hw. unfold sanitize_body in *. set (s := trim _) in *.
    destruct (is_empty s) eqn:E; [constructor|].
    destruct (chunks_spec MAX_BODY_CHARS s) as [_ Hf]; [unfold MAX_BODY_CHARS; lia|].
    apply Forall_forall. intros l Hl. rewrite Forall_forall in Hf. destruct (Hf l Hl) as [H1 H2].
    split; [done|]. split; [done|]. intros Hsc. apply Forall_forall. intros c Hin.
    assert (c ∈ s) as Hs.
    { rewrite <- Hw. apply list_elem_of_In, in_concat. exists l. by rewrite <- !list_elem_of_In. }
    unfold s, trim in Hs. apply trim_end_elem, drop_while_elem, list_elem_of_In, filter_In in Hs as [Hs Hx].
    rewrite Forall_forall in Hsc. apply xml_text_char; [|done]. by apply Hsc, replace_crlf_elem, list_elem_of_In.
  - rewrite sanitize_body_whole, carried_trim, filter_weaker by apply carried_text. apply carried_crlf.
Qed.

Lemma outgoing_safe_and_whole_witness :
  let text := [104; 105; 13; 10; 7; 0xFFFE; 0x1F600]%N in
  sanitize_body text = [[104; 105; 10; 0x1F600]%N] ∧ Forall xml_char [104; 105; 10; 0x1F600]%N.
Proof.
  cbv zeta. split; [vm_compute; reflexivity|].
  destruct (outgoing_safe_and_whole [104; 105; 13; 10; 7; 0xFFFE; 0x1F600]%N) as (_ & _ & H & _).
  assert (Forall scalar [104; 105; 13; 10; 7; 0xFFFE; 0x1F600]%N) as Hs
    by (unfold scalar; repeat (apply List.Forall_cons; [lia|]); apply List.Forall_nil).
  exact (proj2 (proj2 (Forall_inv H)) Hs).
Defined.

(** The limit counts characters: four hundred that take four bytes each go out
    as one line of 1,600 bytes, three times what a line of IRC may hold. *)
Example line_over_512_bytes :
  let text := replicate 400 0x1F600%N in
  sanitize_outgoing text = [text] ∧ str_len text = 1600.
Proof. vm_compute. split; reflexivity. Qed.
