(* ===== verification/Listing.v ===== *)
(** The channel directory: [Listing] and the handlers of [LIST] in
    [ddirc-core/src/conn/actor.rs]. *)
From S2P Require Import Prelude RustStr Format Session SessionText.

Definition MAX_LIST_KEPT : nat := 100.
Definition MAX_LIST_REPLIES : N := 60000.
Definition LIST_PROGRESS_EVERY : N := 2000.

Record ChannelListing := mkListing { l_name : str; users : N; l_topic : str }.

Record Listing := mkList {
  kept : list ChannelListing;
  seen : N;
  truncated : bool;
  reported_at : N;
}.

Definition default_listing : Listing := mkList [] 0 false 0.

(** Busier first, and by name among equals. *)
Definition before (a b : ChannelListing) : bool :=
  (users b <? users a)%N || ((users a =? users b)%N && negb (str_leb (l_name b) (l_name a))).

(** [sort_by], which is stable: equal entries stay in the order they came. *)
Fixpoint place (x : ChannelListing) (l : list ChannelListing) : list ChannelListing :=
  match l with
  | [] => [x]
  | y :: l => if before x y then x :: y :: l else y :: place x l
  end.
Definition sort_by (l : list ChannelListing) : list ChannelListing := foldl (λ acc x, place x acc) [] l.

Definition compact (l : Listing) : Listing :=
  let sorted := sort_by (kept l) in
  if Nat.ltb MAX_LIST_KEPT (length sorted)
  then mkList (take MAX_LIST_KEPT sorted) (seen l) true (reported_at l)
  else mkList sorted (seen l) (truncated l) (reported_at l).

Definition push (e : ChannelListing) (l : Listing) : Listing :=
  let l := mkList (kept l ++ [e]) (N.min u32_max (seen l + 1)) (truncated l) (reported_at l) in
  if Nat.leb (MAX_LIST_KEPT * 2) (length (kept l)) then compact l else l.

(** [ChannelList { channels, done, truncated }]. *)
Record Report := mkReport { channels : list ChannelListing; done_ : bool; cut : bool }.

(** The directory being read, and the reports made. *)
Abbreviation Directory := (option Listing * list Report)%type.

Definition finish_listing (st : Directory) : Directory :=
  match st.1 with
  | None => st
  | Some l =>
      let l := compact l in
      (None, st.2 ++ [mkReport (kept l) true (truncated l)])
  end.

Definition list_entry (args : list str) : option ChannelListing :=
  match args !! 1 with
  | None => None
  | Some name =>
      let users := default 0%N (args !! 2 ≫= parse_unsigned u32_max) in
      let topic := match args !! 3 with Some t => strip t | None => [] end in
      Some (mkListing name users (truncate (trim topic) MAX_TOPIC))
  end.

Definition on_list_reply (args : list str) (st : Directory) : Directory :=
  match st.1 with
  | None => st
  | Some l =>
      if (MAX_LIST_REPLIES <=? seen l)%N
      then finish_listing (Some (mkList (kept l) (seen l) true (reported_at l)), st.2)
      else
        match list_entry args with
        | None => st
        | Some e =>
            let l := push e l in
            if (LIST_PROGRESS_EVERY <=? seen l - reported_at l)%N then
              let l := compact (mkList (kept l) (seen l) (truncated l) (seen l)) in
              (Some l, st.2 ++ [mkReport (kept l) false (truncated l)])
            else (Some l, st.2)
        end
  end.

(** [ListChannels], ignored while one is running; and the header, [321]. *)
Definition list_channels (st : Directory) : Directory :=
  match st.1 with None => (Some default_listing, st.2) | Some _ => st end.
Definition on_list_start (st : Directory) : Directory :=
  match st.1 with None => st | Some _ => (Some default_listing, st.2) end.

(** * The directory, all at once *)

(** The busiest of everything seen. *)
Definition busiest (all : list ChannelListing) : list ChannelListing := take MAX_LIST_KEPT (sort_by all).

(** * Lemmas: order *)

Lemma str_leb_total a b : str_leb a b = false → str_leb b a = true.
Proof. intros H. destruct (str_le_total a b) as [E|E]; unfold str_le in E; congruence. Qed.

Lemma str_leb_trans a b c : str_leb a b = true → str_leb b c = true → str_leb a c = true.
Proof.
  revert b c. induction a as [|x a IH]; intros [|y b] [|z c]; cbn [str_leb]; try done.
  destruct (N.ltb_spec x y), (N.ltb_spec y z), (N.ltb_spec x z); cbn [orb]; try done; try lia.
  all: destruct (N.eqb_spec x y), (N.eqb_spec y z), (N.eqb_spec x z); cbn [andb]; try done; try lia. apply IH.
Qed.

(** [a] may stand before [b]. *)
Definition fits (a b : ChannelListing) : Prop := before b a = false.

Lemma fits_iff a b : fits a b ↔ (users b < users a)%N ∨ (users a = users b ∧ str_leb (l_name a) (l_name b) = true).
Proof.
  unfold fits, before. rewrite orb_false_iff, andb_false_iff, negb_false_iff, N.ltb_ge, N.eqb_neq.
  destruct (N.lt_trichotomy (users a) (users b)) as [H|[H|H]].
  - split; [lia|]. intros [?|[? _]]; lia.
  - rewrite H. split; [intros [_ [?|?]]; [done|by right]|]. intros [?|[_ ?]]; [lia|]. split; [lia|by right].
  - split; [by left|]. intros _. split; [lia|]. left. lia.
Qed.

Lemma fits_trans a b c : fits a b → fits b c → fits a c.
Proof.
  rewrite !fits_iff. intros [H1|[H1 H1']] [H2|[H2 H2']].
  - left. lia.
  - left. lia.
  - left. lia.
  - right. split; [lia|]. by eapply str_leb_trans.
Qed.

Lemma before_fits a b : before a b = true → fits a b.
Proof.
  rewrite fits_iff. unfold before. rewrite orb_true_iff, andb_true_iff, negb_true_iff, N.ltb_lt, N.eqb_eq.
  intros [H|[H1 H2]]; [by left|]. right. split; [done|]. by apply str_leb_total.
Qed.

Abbreviation ordered := (StronglySorted fits).

Lemma place_elem x l : ∀ y, y ∈ place x l → y = x ∨ y ∈ l.
Proof.
  induction l as [|z l IH]; intros y; cbn [place]; [intros ->%list_elem_of_singleton; by left|].
  destruct (before x z); rewrite !elem_of_cons; [naive_solver|]. intros [->|H]; [by right; left|].
  destruct (IH y H); [by left|by right; right].
Qed.

Lemma place_ordered x l : ordered l → ordered (place x l).
Proof.
  induction 1 as [|y l Hl IH Hy]; cbn [place]; [by repeat constructor|].
  destruct (before x y) eqn:E.
  - apply before_fits in E. constructor; [by constructor|]. constructor; [done|].
    eapply Forall_impl; [exact Hy|]. intros z Hz. by eapply fits_trans.
  - constructor; [done|]. apply Forall_forall. intros z Hz. rewrite Forall_forall in Hy.
    apply place_elem in Hz as [->|Hz]; [exact E|by apply Hy].
Qed.

Lemma place_last x l : Forall (λ y, fits y x) l → place x l = l ++ [x].
Proof.
  induction 1 as [|y l Hy Hl IH]; [done|]. cbn [place app]. unfold fits in Hy. by rewrite Hy, IH.
Qed.

Lemma place_length x l : length (place x l) = S (length l).
Proof. induction l as [|y l IH]; [done|]. cbn [place]. destruct (before x y); cbn [length]; [done|by rewrite IH]. Qed.

(** * Lemmas: sorting *)

Lemma sort_ordered_from l acc : ordered acc → ordered (foldl (λ acc x, place x acc) acc l).
Proof. revert acc. induction l as [|x l IH]; intros acc H; [done|]. cbn [foldl]. by apply IH, place_ordered. Qed.

Lemma sort_ordered l : ordered (sort_by l).
Proof. apply sort_ordered_from. constructor. Qed.

Lemma sort_length_from l acc : length (foldl (λ acc x, place x acc) acc l) = length acc + length l.
Proof.
  revert acc. induction l as [|x l IH]; intros acc; cbn [foldl length]; [lia|]. rewrite IH, place_length. lia.
Qed.

Lemma sort_length l : length (sort_by l) = length l.
Proof. unfold sort_by. by rewrite sort_length_from. Qed.

(** An ordered list is left as it is. *)
Lemma sort_id_from l acc : ordered (acc ++ l) → foldl (λ acc x, place x acc) acc l = acc ++ l.
Proof.
  revert acc. induction l as [|x l IH]; intros acc H; cbn [foldl]; [by rewrite app_nil_r|].
  rewrite place_last.
  - rewrite IH; [by rewrite <- (assoc_L (++))|]. by rewrite <- (assoc_L (++)).
  - apply Forall_forall. intros y Hy. apply StronglySorted_app in H as (H & _ & _).
    apply H; [done|]. left.
Qed.

(** Only what is among the first can stay among the first. *)
Lemma take_place k x l : take k (place x l) = take k (place x (take k l)).
Proof.
  revert l. induction k as [|k IH]; intros l; [done|]. destruct l as [|y l]; [done|].
  cbn [place take]. destruct (before x y); cbn [take]; [|by rewrite IH].
  f_equal. destruct k; [done|]. cbn [take]. f_equal. by rewrite take_take, Nat.min_l by lia.
Qed.

Lemma take_sort_from k l acc :
  take k (foldl (λ acc x, place x acc) acc l) = take k (foldl (λ acc x, place x acc) (take k acc) l).
Proof.
  revert acc. induction l as [|x l IH]; intros acc; cbn [foldl]; [by rewrite take_take, Nat.min_id|].
  rewrite IH, take_place, <- IH. done.
Qed.

Lemma busiest_app l l' k : busiest (take MAX_LIST_KEPT (sort_by l) ++ k) = busiest (l ++ k) ∧
  (l' = sort_by l → busiest (l' ++ k) = busiest (l ++ k)).
Proof.
  assert (∀ n, sort_by (take n (sort_by l)) = take n (sort_by l)) as Hid.
  { intros n. unfold sort_by at 1. rewrite sort_id_from; [done|]. cbn [app].
    pose proof (sort_ordered l) as Hs. rewrite <- (take_drop n (sort_by l)) in Hs.
    by apply StronglySorted_app in Hs as (_ & Hs & _). }
  unfold busiest. split.
  - unfold sort_by at 1. rewrite foldl_app. fold (sort_by (take MAX_LIST_KEPT (sort_by l))). rewrite Hid.
    rewrite <- take_sort_from. unfold sort_by. by rewrite foldl_app.
  - intros ->. unfold sort_by at 1. rewrite foldl_app. fold (sort_by (sort_by l)).
    specialize (Hid (length (sort_by l))). rewrite firstn_all in Hid. rewrite Hid. unfold sort_by. by rewrite foldl_app.
Qed.

(** * The invariant *)

(** What is kept stands for everything seen. *)
Record stands_for (l : Listing) (all : list ChannelListing) : Prop := {
  sf_busiest : ∀ k, busiest (kept l ++ k) = busiest (all ++ k);
  sf_seen : seen l = N.of_nat (length all);
  sf_cut : truncated l = true → MAX_LIST_KEPT < length all;
  sf_whole : truncated l = false → length (kept l) = length all;
}.

Lemma default_stands : stands_for default_listing [].
Proof. by split. Qed.

Lemma compact_stands l all :
  stands_for l all →
  stands_for (compact l) all ∧ kept (compact l) = busiest all ∧
  truncated (compact l) = Nat.ltb MAX_LIST_KEPT (length all).
Proof.
  intros [H1 H2 H3 H4].
  assert (busiest all = take MAX_LIST_KEPT (sort_by (kept l))) as Hb.
  { specialize (H1 []). rewrite !app_nil_r in H1. by rewrite <- H1. }
  unfold compact. destruct (Nat.ltb_spec MAX_LIST_KEPT (length (sort_by (kept l)))) as [Hl|Hl].
  - rewrite sort_length in Hl. assert (MAX_LIST_KEPT < length all) as Hall.
    { destruct (truncated l) eqn:E; [by apply H3|]. by rewrite <- H4. }
    split; [split; cbn [kept seen truncated]; [|done..]|split; [done|]].
    + intros k. rewrite (proj1 (busiest_app (kept l) [] k)). apply H1.
    + cbn [truncated]. symmetry. by apply Nat.ltb_lt.
  - split; [split; cbn [kept seen truncated]; try done|split].
    + intros k. rewrite (proj2 (busiest_app (kept l) (sort_by (kept l)) k) eq_refl). apply H1.
    + intros E. rewrite sort_length. by apply H4.
    + cbn [kept]. rewrite Hb. by rewrite take_ge.
    + cbn [truncated]. rewrite sort_length in Hl. destruct (truncated l) eqn:E.
      * symmetry. apply Nat.ltb_lt. by apply H3.
      * symmetry. apply Nat.ltb_ge. rewrite <- H4; done.
Qed.

Lemma push_stands e l all :
  stands_for l all → (N.of_nat (length all) < u32_max)%N → stands_for (push e l) (all ++ [e]).
Proof.
  intros [H1 H2 H3 H4] Hmax. unfold push.
  set (l' := mkList (kept l ++ [e]) _ _ _).
  assert (stands_for l' (all ++ [e])) as Hl'.
  { split; cbn [kept seen truncated l'].
    - intros k. rewrite <- !(assoc_L (++)). apply H1.
    - rewrite H2, length_app. cbn [length]. lia.
    - intros E. rewrite length_app. specialize (H3 E). lia.
    - intros E. rewrite !length_app. by rewrite H4. }
  destruct (Nat.leb _ _); [by apply compact_stands|done].
Qed.

(** A report is right about what had been seen when it was made. *)
Definition right_report (all : list ChannelListing) (r : Report) : Prop :=
  ∃ n, channels r = busiest (take n all) ∧ cut r = Nat.ltb MAX_LIST_KEPT (length (take n all)) ∧ done_ r = false.

Definition reply (st : Directory) (args : list str) : Directory := on_list_reply args st.

Lemma replies_stand argss l all reports :
  stands_for l all →
  (N.of_nat (length all + length argss) ≤ MAX_LIST_REPLIES)%N →
  ∃ l' new, foldl reply (Some l, reports) argss = (Some l', reports ++ new) ∧
    stands_for l' (all ++ omap list_entry argss) ∧
    Forall (right_report (all ++ omap list_entry argss)) new.
Proof.
  revert l all reports. induction argss as [|args argss IH]; intros l all reports Hl Hn.
  - exists l, []. rewrite !app_nil_r. done.
  - cbn [foldl omap list_omap length] in *. unfold reply at 2, on_list_reply. cbn [fst snd].
    rewrite (sf_seen _ _ Hl). destruct (N.leb_spec MAX_LIST_REPLIES (N.of_nat (length all))) as [Hge|Hlt]; [lia|].
    destruct (list_entry args) as [e|]; [|apply IH; [done|lia]].
    assert (N.of_nat (length all) < u32_max)%N as Hu by (revert Hlt; unfold MAX_LIST_REPLIES, u32_max; lia).
    pose proof (push_stands e l all Hl Hu) as Hp.
    assert (all ++ e :: omap list_entry argss = (all ++ [e]) ++ omap list_entry argss) as ->
      by (by rewrite <- (assoc_L (++))).
    destruct (LIST_PROGRESS_EVERY <=? _)%N.
    + set (l1 := mkList (kept (push e l)) (seen (push e l)) (truncated (push e l)) (seen (push e l))).
      assert (stands_for l1 (all ++ [e])) as H1 by (destruct Hp; by split).
      destruct (compact_stands l1 (all ++ [e]) H1) as (H2 & Hk & Ht).
      destruct (IH (compact l1) (all ++ [e]) (reports ++ [mkReport (kept (compact l1)) false (truncated (compact l1))])
        H2) as (l' & new & -> & Hs & Hf); [rewrite length_app; cbn [length]; lia|].
      eexists l', (_ :: new). rewrite <- (assoc_L (++)). split; [done|]. split; [done|]. constructor; [|done].
      exists (length (all ++ [e])). rewrite take_app_length. cbn [channels cut]. by rewrite Hk, Ht.
    + apply IH; [done|]. rewrite length_app. cbn [length]. lia.
Qed.

(** The directory shows the busiest channels of everything the server listed.
    Asked for and answered with up to 60,000 lines, it ends with one report that
    the answer is complete, whose channels are the first hundred of all that
    were listed, sorted by population and then by name, and which says that some
    were left out exactly when there were more than a hundred; each report made
    on the way is the same of what had arrived by then. Keeping only two hundred
    at a time and sorting rarely loses nothing. *)
Theorem directory_is_busiest argss reports :
  (N.of_nat (length argss) ≤ MAX_LIST_REPLIES)%N →
  let all := omap list_entry argss in
  ∃ new, finish_listing (foldl reply (list_channels (None, reports)) argss) =
      (None, reports ++ new ++ [mkReport (busiest all) true (Nat.ltb MAX_LIST_KEPT (length all))]) ∧
    Forall (right_report all) new.
Proof.
  intros Hn all. cbn [list_channels fst snd].
  destruct (replies_stand argss default_listing [] reports default_stands Hn) as (l & new & -> & Hs & Hf).
  exists new. split; [|done]. unfold finish_listing. cbn [fst snd].
  destruct (compact_stands l _ Hs) as (_ & Hk & Ht). rewrite Hk, Ht. by rewrite <- (assoc_L (++)).
Qed.

Lemma directory_is_busiest_witness :
  finish_listing (foldl reply (list_channels (None, []))
    [[lit "me"; lit "#a"; lit "3"]; [lit "me"; lit "#b"; lit "10"; lit " hi "]]) =
  (None, [mkReport [mkListing (lit "#b") 10 (lit "hi"); mkListing (lit "#a") 3 []] true false]).
Proof.
  destruct (directory_is_busiest [[lit "me"; lit "#a"; lit "3"]; [lit "me"; lit "#b"; lit "10"; lit " hi "]] [])
    as (new & H & _); [vm_compute; discriminate|].
  vm_compute. reflexivity.
Defined.
