(* ===== verification/Keymap.v ===== *)
(** Shortcuts on any keyboard layout ([ddirc-cli/src/keymap.rs]).

    The first character of [char::to_lowercase] is a parameter. *)
From S2P Require Import Prelude RustStr.

Inductive KeyCode :=
  | Enter | Esc | Tab | BackTab | PageUp | PageDown | Up | Down | Left | Right | Home | End_
  | F (n : N)
  | Char (c : char)
  | OtherKey.

Record KeyEvent := mkKey { code : KeyCode; ctrl : bool; alt : bool }.

Definition QWERTY : str := lit "qwertyuiopasdfghjklzxcvbnm".

(** For each layout, the character on each of the 26 letter keys; a zero is a
    key left out. *)
Definition LAYOUTS : list str :=
  [
   (* Persian (ISIRI 9147) *)
   [0x636; 0x635; 0x62B; 0x642; 0x641; 0x63A; 0x639; 0x647; 0x62E; 0x62D; 0x634; 0x633; 0x6CC;
    0x628; 0x644; 0x627; 0x62A; 0x646; 0x645; 0x638; 0x637; 0x632; 0x631; 0x630; 0x62F; 0x67E];
   (* Arabic (101) *)
   [0x636; 0x635; 0x62B; 0x642; 0x641; 0x63A; 0x639; 0x647; 0x62E; 0x62D; 0x634; 0x633; 0x64A;
    0x628; 0x644; 0x627; 0x62A; 0x646; 0x645; 0x626; 0x621; 0x624; 0x631; 0; 0x649; 0x629];
   (* Russian *)
   [0x439; 0x446; 0x443; 0x43A; 0x435; 0x43D; 0x433; 0x448; 0x449; 0x437; 0x444; 0x44B; 0x432;
    0x430; 0x43F; 0x440; 0x43E; 0x43B; 0x434; 0x44F; 0x447; 0x441; 0x43C; 0x438; 0x442; 0x44C];
   (* Greek *)
   [0; 0x3C2; 0x3B5; 0x3C1; 0x3C4; 0x3C5; 0x3B8; 0x3B9; 0x3BF; 0x3C0; 0x3B1; 0x3C3; 0x3B4;
    0x3C6; 0x3B3; 0x3B7; 0x3BE; 0x3BA; 0x3BB; 0x3B6; 0x3C7; 0x3C8; 0x3C9; 0x3B2; 0x3BD; 0x3BC];
   (* Hebrew *)
   [0; 0; 0x5E7; 0x5E8; 0x5D0; 0x5D8; 0x5D5; 0x5DF; 0x5DD; 0x5E4; 0x5E9; 0x5D3; 0x5D2;
    0x5DB; 0x5E2; 0x5D9; 0x5D7; 0x5DC; 0x5DA; 0x5D6; 0x5E1; 0x5D1; 0x5D4; 0x5E0; 0x5DE; 0x5E6]
  ]%N.

Fixpoint position (p : char → bool) (l : str) : option nat :=
  match l with
  | [] => None
  | c :: l => if p c then Some 0 else S <$> position p l
  end.

Section Keymap.
Context (lower : char → option char).

(** [None] is out of range, [Some None] not found. *)
Fixpoint latin_in (layouts : list str) (c l : char) : option (option char) :=
  match layouts with
  | [] => Some None
  | layout :: layouts =>
      match position (λ k, (k =? l)%N && negb (k =? 0)%N) layout with
      | Some at_ =>
          letter ← QWERTY !! at_;
          Some (Some (if (c =? l)%N then letter else char_upper letter))
      | None => latin_in layouts c l
      end
  end.

Definition latin (c : char) : option (option char) :=
  if (c <? 128)%N then Some None
  else match lower c with
       | Some l => latin_in LAYOUTS c l
       | None => Some None
       end.

Definition shortcut (k : KeyEvent) : option KeyEvent :=
  match code k with
  | Char c =>
      r ← latin c;
      Some (match r with Some letter => mkKey (Char letter) (ctrl k) (alt k) | None => k end)
  | _ => Some k
  end.

(** * Lemmas *)

Lemma position_lt p l i : position p l = Some i → i < length l.
Proof.
  revert i. induction l as [|c l IH]; intros i; cbn [position length]; [done|].
  destruct (p c); [intros [= <-]; lia|]. destruct (position p l) as [j|]; [|done].
  intros [= <-]. specialize (IH j eq_refl). lia.
Qed.

Lemma layouts_length : Forall (λ l, length l = length QWERTY) LAYOUTS.
Proof. repeat constructor. Qed.

(** Every table has a character for each of the 26 keys, so looking up a key
    never leaves the table of letters. *)
Lemma shortcut_total k : is_Some (shortcut k).
Proof.
  assert (∀ c, is_Some (latin c)) as H.
  { intros c. unfold latin. destruct (c <? 128)%N; [done|]. destruct (lower c) as [l|]; [|done].
    pose proof layouts_length as HL. induction HL as [|layout ls Hlen Hls IH]; [done|]. cbn [latin_in].
    destruct (position _ layout) as [i|] eqn:E; [|exact IH]. apply position_lt in E. rewrite Hlen in E.
    apply lookup_lt_is_Some in E as [x ->]. done. }
  unfold shortcut. destruct (code k); try done. by destruct (H c) as [r ->].
Qed.
End Keymap.

(** No character is on two different keys: where two tables have a character
    they have it in the same place, so the order of the tables does not matter. *)
Definition one_key (a b : str) : bool :=
  forallb (λ '(i, c), (c =? 0)%N ||
    forallb (λ '(j, d), negb (c =? d)%N || Nat.eqb i j) (zip (seq 0 26) b)) (zip (seq 0 26) a).

Lemma layouts_agree : forallb (λ a, forallb (one_key a) LAYOUTS) LAYOUTS = true.
Proof. reflexivity. Qed.
