(* ===== verification/Console.v ===== *)
(** The operator's console: its command line and what it does with a key
    ([ddirc-cli/src/server/commands.rs] and [server/model.rs]).

    The text box is another crate's, so it is a type with the operations the
    source uses. A key for which the source would index out of range is [None]
    (none is: see [Keymap.shortcut_total]). *)
From S2P Require Import Prelude RustStr Admin Keymap.

(** * The command line *)

Inductive Parsed := Run (c : Admin.AdminCommand) | Help.

Definition channel (name : str) : str := if starts_with_char (ch "#") name then name else lit "#" ++ name.

(** [split_once(char::is_whitespace)] of a line that starts with no space. *)
Definition word (text : str) : str * str :=
  let text := trim_start text in
  match drop_while (λ c, negb (is_whitespace c)) text with
  | _ :: rest => (take_while (λ c, negb (is_whitespace c)) text, trim rest)
  | [] => (text, [])
  end.

Definition reason (text : str) : option str := if is_empty text then None else Some text.

Definition parse (line : str) : result Parsed str :=
  let line := trim_start_matches (λ c, contains_char c (lit ":/")) (trim line) in
  let '(verb, rest) := word line in
  let need what (value : str) (k : str → result Parsed str) : result Parsed str :=
    if is_empty value then Err (verb ++ lit " needs " ++ what) else k value in
  let run c : result Parsed str := Ok (Run c) in
  let is_ v := bool_decide (to_ascii_lowercase verb = lit v) in
  if is_empty verb then Err (lit "type a command; help lists them")
  else if is_ "help"%string || is_ "?"%string then Ok Help
  else if is_ "kick"%string then
    let '(chan, rest) := word rest in
    let '(nick, why) := word rest in
    need (lit "a channel") chan (λ chan, need (lit "a nick") nick (λ nick, run (Admin.Kick (channel chan) nick (reason why))))
  else if is_ "kill"%string || is_ "disconnect"%string then
    let '(nick, why) := word rest in
    need (lit "a nick") nick (λ nick, run (Admin.Disconnect nick (reason why)))
  else if is_ "ban"%string then
    let '(nick, why) := word rest in
    need (lit "a nick") nick (λ nick, run (Admin.Ban nick (reason why)))
  else if is_ "unban"%string then need (lit "a nick") (word rest).1 (λ nick, run (Admin.Unban nick))
  else if is_ "topic"%string then
    let '(chan, text) := word rest in
    need (lit "a channel") chan (λ chan, run (Admin.SetTopic (channel chan) text))
  else if is_ "close"%string then
    let '(chan, why) := word rest in
    need (lit "a channel") chan (λ chan, run (Admin.CloseChannel (channel chan) (reason why)))
  else if is_ "op"%string || is_ "deop"%string then
    let '(chan, rest) := word rest in
    let '(nick, _) := word rest in
    need (lit "a channel") chan (λ chan, need (lit "a nick") nick (λ nick,
      run (if is_ "op"%string then Admin.Op (channel chan) nick else Admin.Deop (channel chan) nick)))
  else if is_ "say"%string || is_ "msg"%string || is_ "notice"%string then
    let '(target, text) := word rest in
    need (lit "a nick or channel") target (λ target, need (lit "something to say") text (λ text, run (Admin.Notice target text)))
  else if is_ "wall"%string then need (lit "something to say") rest (λ text, run (Admin.Wall text))
  else if is_ "motd"%string then
    run (Admin.SetMotd (List.filter (λ l, negb (is_empty l)) (map trim (split (ch "|") rest))))
  else Err (lit "unknown command: " ++ to_ascii_lowercase verb ++ lit " (help lists them)").

(** * The model *)

Definition MAX_LOG : nat := 2000.
Definition PAGE : Z := 10.
Definition FLASH_TICKS : N := 20.

Inductive Tab := Users | Channels | Log.
#[export] Instance Tab_eq_dec : EqDecision Tab.
Proof. solve_decision. Defined.
Definition step_tab (t : Tab) (forward : bool) : Tab :=
  match t with
  | Users => if forward then Channels else Log
  | Channels => if forward then Log else Users
  | Log => if forward then Users else Channels
  end.

Inductive Focus := OnChannels | OnMembers.
#[export] Instance Focus_eq_dec : EqDecision Focus.
Proof. solve_decision. Defined.

Inductive Tone := Presence | Chat | Moderation | Good | Bad.
Record LogLine := mkLog { lg_at : N; lg_text : str; lg_tone : Tone }.

Inductive Confirmed := ConfirmedAdmin (c : Admin.AdminCommand) | ConfirmedQuit.
Record Confirm := mkConfirm { question : str; action : Confirmed }.
Record Flash := mkFlash { fl_text : str; fl_ok : bool; fl_ticks : N }.
Record Target := mkTarget { tg_nick : str; tg_channel : option str }.

Section Console.
Context {Input : Type} (value : Input → str) (new_input : str → Input) (handle_event : KeyEvent → Input → Input).
Context (lower : char → option char).

Record App := mkApp {
  snapshot : Admin.Snapshot;
  now : N;
  tab : Tab;
  focus : Focus;
  user : option N;
  chan : option str;
  member : option str;
  log : list LogLine;
  log_scroll : nat;
  bar : option Input;
  confirm : option Confirm;
  help : bool;
  flash : option Flash;
  quit : bool;
}.
Definition set_view (t : Tab) (f : Focus) (a : App) := mkApp (snapshot a) (now a) t f (user a) (chan a) (member a) (log a) (log_scroll a) (bar a) (confirm a) (help a) (flash a) (quit a).
Definition set_selection u c m (a : App) := mkApp (snapshot a) (now a) (tab a) (focus a) u c m (log a) (log_scroll a) (bar a) (confirm a) (help a) (flash a) (quit a).
Definition set_log l n (a : App) := mkApp (snapshot a) (now a) (tab a) (focus a) (user a) (chan a) (member a) l n (bar a) (confirm a) (help a) (flash a) (quit a).
Definition set_bar b (a : App) := mkApp (snapshot a) (now a) (tab a) (focus a) (user a) (chan a) (member a) (log a) (log_scroll a) b (confirm a) (help a) (flash a) (quit a).
Definition set_confirm c (a : App) := mkApp (snapshot a) (now a) (tab a) (focus a) (user a) (chan a) (member a) (log a) (log_scroll a) (bar a) c (help a) (flash a) (quit a).
Definition set_help h (a : App) := mkApp (snapshot a) (now a) (tab a) (focus a) (user a) (chan a) (member a) (log a) (log_scroll a) (bar a) (confirm a) h (flash a) (quit a).
Definition set_flash f (a : App) := mkApp (snapshot a) (now a) (tab a) (focus a) (user a) (chan a) (member a) (log a) (log_scroll a) (bar a) (confirm a) (help a) f (quit a).
Definition set_quit (a : App) := mkApp (snapshot a) (now a) (tab a) (focus a) (user a) (chan a) (member a) (log a) (log_scroll a) (bar a) (confirm a) (help a) (flash a) true.
Definition set_now n (a : App) := mkApp (snapshot a) n (tab a) (focus a) (user a) (chan a) (member a) (log a) (log_scroll a) (bar a) (confirm a) (help a) (flash a) (quit a).
Definition put_snapshot s (a : App) := mkApp s (now a) (tab a) (focus a) (user a) (chan a) (member a) (log a) (log_scroll a) (bar a) (confirm a) (help a) (flash a) (quit a).

(** ** Selection *)

Section Select.
Context {T K : Type} `{EqDecision K} (key : T → K).

Fixpoint index_of (k : K) (items : list T) : option nat :=
  match items with
  | [] => None
  | x :: items => if decide (key x = k) then Some 0 else S <$> index_of k items
  end.
Definition find_key (k : K) (items : list T) : option T := List.find (λ x, bool_decide (key x = k)) items.

Definition reselect (items : list T) (selection : option K) (was_at : nat) : option K :=
  let present := match selection with Some k => existsb (λ x, bool_decide (key x = k)) items | None => false end in
  if present then selection else key <$> items !! Nat.min was_at (length items - 1).

(** Rows are counted in [isize]. *)
Definition shift (items : list T) (selection : option K) (by_ : Z) : option K :=
  let at_ := default 0 (selection ≫= λ k, index_of k items) in
  let to := Z.to_nat (Z.min (Z.max (Z.of_nat at_ + by_) 0) (Z.of_nat (length items) - 1)) in
  if is_empty items then None else key <$> items !! to.
End Select.

Definition users (a : App) := Admin.s_users (snapshot a).
Definition channels (a : App) := Admin.s_channels (snapshot a).
Definition selected_user (a : App) : option Admin.UserInfo := user a ≫= λ id, find_key Admin.ui_id id (users a).
Definition selected_channel (a : App) : option Admin.ChannelInfo := chan a ≫= λ n, find_key Admin.ci_name n (channels a).
Definition members_of (a : App) : list Admin.MemberInfo :=
  match selected_channel a with Some c => Admin.ci_members c | None => [] end.
Definition selected_member (a : App) : option Admin.MemberInfo :=
  nick ← member a; c ← selected_channel a; find_key Admin.mi_nick nick (Admin.ci_members c).

Definition set_snapshot (s : Admin.Snapshot) (a : App) : App :=
  let user_at := default 0 (user a ≫= λ id, index_of Admin.ui_id id (users a)) in
  let channel_at := default 0 (chan a ≫= λ n, index_of Admin.ci_name n (channels a)) in
  let member_at := default 0 (member a ≫= λ n, index_of Admin.mi_nick n (members_of a)) in
  let a := put_snapshot s a in
  let a := set_selection (reselect Admin.ui_id (users a) (user a) user_at)
                         (reselect Admin.ci_name (channels a) (chan a) channel_at) (member a) a in
  set_selection (user a) (chan a) (reselect Admin.mi_nick (members_of a) (member a) member_at) a.

Definition move_selection (by_ : Z) (a : App) : App :=
  match tab a, focus a with
  | Users, _ => set_selection (shift Admin.ui_id (users a) (user a) by_) (chan a) (member a) a
  | Channels, OnChannels =>
      let a := set_selection (user a) (shift Admin.ci_name (channels a) (chan a) by_) (member a) a in
      set_selection (user a) (chan a) (Admin.mi_nick <$> head (members_of a)) a
  | Channels, OnMembers => set_selection (user a) (chan a) (shift Admin.mi_nick (members_of a) (member a) by_) a
  | Log, _ =>
      let max := length (log a) - 1 in
      set_log (log a) (if (by_ <? 0)%Z then Nat.min (log_scroll a + Z.to_nat (- by_)) max
                       else log_scroll a - Z.to_nat by_) a
  end.

(** ** Events *)

Definition tick (n : N) (a : App) : App :=
  let a := set_now n a in
  match flash a with
  | Some f =>
      let left := (fl_ticks f - 1)%N in
      set_flash (if (left =? 0)%N then None else Some (mkFlash (fl_text f) (fl_ok f) left)) a
  | None => a
  end.

Definition say (text : str) (ok : bool) (a : App) : App := set_flash (Some (mkFlash text ok FLASH_TICKS)) a.

Definition tone_of (k : Admin.EventKind) : Tone :=
  match k with
  | Admin.Message _ _ _ _ => Chat
  | Admin.Kicked _ _ _ _ | Admin.Mode _ _ _ _ | Admin.Topic _ _ _ => Moderation
  | Admin.AdminDone true _ => Good
  | Admin.AdminDone false _ => Bad
  | _ => Presence
  end.

(** [while log.len() > MAX_LOG]: each turn drops the oldest line. *)
Definition apply_event (e : Admin.ServerEvent) (a : App) : App :=
  let a := match Admin.kind e with Admin.AdminDone ok text => say text ok a | _ => a end in
  let l := log a ++ [mkLog (Admin.at_ e) (Admin.describe e) (tone_of (Admin.kind e))] in
  let scroll := if Nat.ltb 0 (log_scroll a) then log_scroll a + 1 else log_scroll a in
  let over := length l - MAX_LOG in
  set_log (drop over l) (Nat.min (scroll - over) (length (drop over l) - 1)) a.

Definition note_skipped (count : N) (a : App) : App :=
  set_log (log a ++ [mkLog (now a) (to_dec count ++ lit " events were missed while the screen was busy") Bad]) (log_scroll a) a.

(** ** Keys *)

Definition open_bar (text : str) (a : App) : App := set_bar (Some (new_input text)) a.
Definition ask (q : str) (c : Confirmed) (a : App) : App := set_confirm (Some (mkConfirm q c)) a.

Definition confirm_key (k : KeyEvent) (a : App) : list Admin.AdminCommand * App :=
  match code k with
  | Char c =>
      if (c =? ch "y")%N || (c =? ch "Y")%N then
        match confirm a with
        | Some q =>
            let a := set_confirm None a in
            match action q with ConfirmedAdmin c => ([c], a) | ConfirmedQuit => ([], set_quit a) end
        | None => ([], a)
        end
      else if (c =? ch "n")%N || (c =? ch "N")%N || (c =? ch "q")%N then ([], set_confirm None a)
      else ([], a)
  | Esc | Enter => ([], set_confirm None a)
  | _ => ([], a)
  end.

Definition bar_key (k : KeyEvent) (a : App) : list Admin.AdminCommand * App :=
  match code k with
  | Esc => ([], set_bar None a)
  | Enter =>
      match parse (match bar a with Some b => value b | None => [] end) with
      | Ok (Run c) => ([c], set_bar None a)
      | Ok Help => ([], set_help true (set_bar None a))
      | Err message => ([], say message false a)
      end
  | _ => ([], match bar a with Some b => set_bar (Some (handle_event k b)) a | None => a end)
  end.

Definition target (a : App) : option Target * App :=
  match tab a, focus a with
  | Users, _ =>
      match selected_user a with
      | None => (None, a)
      | Some u =>
          match Admin.ui_nick u with
          | Some nick =>
              if Admin.ui_registered u then (Some (mkTarget nick (head (Admin.ui_channels u))), a)
              else (None, say (lit "connection #" ++ to_dec (Admin.ui_id u) ++ lit " has not chosen a nick yet") false a)
          | None => (None, say (lit "connection #" ++ to_dec (Admin.ui_id u) ++ lit " has not chosen a nick yet") false a)
          end
      end
  | Channels, OnMembers =>
      (c ← selected_channel a; m ← selected_member a; Some (mkTarget (Admin.mi_nick m) (Some (Admin.ci_name c))), a)
  | _, _ => (None, a)
  end.

(** A key that acts on the channel that is selected. *)
Definition on_channel (f : Admin.ChannelInfo → App → App) (a : App) : App :=
  match selected_channel a with Some c => f c a | None => a end.

(** The keys that need no person selected. *)
Definition channel_key (is_ : string → bool) (in_channels : bool) (a : App) : list Admin.AdminCommand * App :=
  if is_ "t"%string && in_channels then
    ([], on_channel (λ c, open_bar (lit "topic " ++ Admin.ci_name c ++ lit " " ++ default [] (Admin.ci_topic c))) a)
  else if is_ "n"%string && in_channels then ([], on_channel (λ c, open_bar (lit "say " ++ Admin.ci_name c ++ lit " ")) a)
  else if is_ "c"%string && in_channels then
    ([], on_channel (λ c, ask (lit "Close " ++ Admin.ci_name c ++ lit "? Everyone in it is removed.")
                            (ConfirmedAdmin (Admin.CloseChannel (Admin.ci_name c) None))) a)
  else if is_ "u"%string then ([], open_bar (lit "unban " ++ default [] (head (Admin.s_banned (snapshot a)))) a)
  else ([], a).

Definition action_key (c : char) (a : App) : list Admin.AdminCommand * App :=
  let '(t, a) := target a in
  let is_ s := (c =? ch s)%N in
  let in_channels := bool_decide (tab a = Channels) in
  match t with
  | Some (mkTarget nick chan) =>
      if is_ "k"%string then
        ([], match chan with
             | Some chan => open_bar (lit "kick " ++ chan ++ lit " " ++ nick ++ lit " ") a
             | None => say (nick ++ lit " is not in any channel") false a
             end)
      else if is_ "x"%string then
        ([], ask (lit "Disconnect " ++ nick ++ lit " from the server?") (ConfirmedAdmin (Admin.Disconnect nick None)) a)
      else if is_ "b"%string then
        ([], ask (lit "Ban " ++ nick ++ lit "? They are disconnected and the name is refused.")
               (ConfirmedAdmin (Admin.Ban nick None)) a)
      else if is_ "m"%string then ([], open_bar (lit "say " ++ nick ++ lit " ") a)
      else
        match chan with
        | Some chan =>
            if is_ "o"%string && in_channels then
              let is_op := match selected_member a with Some m => Admin.mi_op m | None => false end in
              ([if is_op then Admin.Deop chan nick else Admin.Op chan nick], a)
            else channel_key is_ in_channels a
        | None => channel_key is_ in_channels a
        end
  | None => channel_key is_ in_channels a
  end.

(** [isize::MIN / 2] and [isize::MAX / 2]. *)
Definition FAR_UP : Z := (- 2 ^ 62)%Z.
Definition FAR_DOWN : Z := (2 ^ 62 - 1)%Z.

Definition normal_key (k : KeyEvent) (a : App) : list Admin.AdminCommand * App :=
  let quiet a : list Admin.AdminCommand * App := ([], a) in
  let in_channels := bool_decide (tab a = Channels) in
  let in_members := in_channels && bool_decide (focus a = OnMembers) in
  let in_list := in_channels && bool_decide (focus a = OnChannels) in
  match code k with
  | Left => quiet (if in_members then set_view (tab a) OnChannels a else a)
  | Esc => quiet (if in_members then set_view (tab a) OnChannels a else set_flash None a)
  | Right | Enter => quiet (if in_list then set_view (tab a) OnMembers a else a)
  | F n =>
      if (n =? 1)%N then quiet (set_help true a)
      else if (n =? 2)%N then quiet (open_bar [] a)
      else quiet a
  | Keymap.Tab => quiet (set_view (step_tab (tab a) true) (focus a) a)
  | BackTab => quiet (set_view (step_tab (tab a) false) (focus a) a)
  | Up => quiet (move_selection (-1) a)
  | Down => quiet (move_selection 1 a)
  | PageUp => quiet (move_selection (- PAGE) a)
  | PageDown => quiet (move_selection PAGE a)
  | Home => quiet (move_selection FAR_UP a)
  | End_ => quiet (if bool_decide (tab a = Log) then set_log (log a) 0 a else move_selection FAR_DOWN a)
  | Char c =>
      let is_ s := (c =? ch s)%N in
      if is_ "q"%string then quiet (ask (lit "Stop the server?") ConfirmedQuit a)
      else if is_ "?"%string then quiet (set_help true a)
      else if is_ ":"%string || is_ "/"%string then quiet (open_bar [] a)
      else if is_ "w"%string then quiet (open_bar (lit "wall ") a)
      else if is_ "M"%string then quiet (open_bar (lit "motd " ++ join (lit " | ") (Admin.s_motd (snapshot a))) a)
      else if is_ "1"%string then quiet (set_view Users (focus a) a)
      else if is_ "2"%string then quiet (set_view Channels (focus a) a)
      else if is_ "3"%string then quiet (set_view Log (focus a) a)
      else action_key c a
  | OtherKey => quiet a
  end.

Definition on_key (k : KeyEvent) (a : App) : option (list Admin.AdminCommand * App) :=
  let open := bool_decide (is_Some (bar a)) in
  k ← (if ctrl k || alt k || negb open then shortcut lower k else Some k);
  let is_char s := match code k with Char c => contains_char c s | _ => false end in
  Some
    (if ctrl k && is_char (lit "c") then ([], set_quit a)
     else if bool_decide (is_Some (confirm a)) then confirm_key k a
     else if open then bar_key k a
     else if help a then
       ([], if is_char (lit "q?") || match code k with Esc | Enter => true | F n => (n =? 1)%N | _ => false end
            then set_help false a else a)
     else normal_key k a).

Definition empty : Admin.Snapshot := Admin.mkSnapshot [] [] 0 0 0 [] [] [] [].

Definition new_console (s : Admin.Snapshot) (n : N) : App :=
  set_snapshot s (mkApp empty n Users OnChannels None None None [] 0 None None false None false).

(** What can happen to the console, and what it then tells the server. *)
Inductive Happening :=
  | Pressed (k : KeyEvent)
  | Ticked (n : N)
  | Refreshed (s : Admin.Snapshot)
  | Happened (e : Admin.ServerEvent)
  | Skipped (count : N).

Definition console_step (h : Happening) (a : App) : option (list Admin.AdminCommand * App) :=
  match h with
  | Pressed k => on_key k a
  | Ticked n => Some ([], tick n a)
  | Refreshed s => Some ([], set_snapshot s a)
  | Happened e => Some ([], apply_event e a)
  | Skipped n => Some ([], note_skipped n a)
  end.
End Console.

(** * What the operator's console can make the server do, and to whom.

    The console's lists move under the operator's hands: the theorems here say
    that what is highlighted is always there, that a command leaves only when
    it was typed or agreed to, and that agreeing to a question does what the
    question said. *)

Section ConsoleProps.
Context {Input : Type} (value : Input → str) (new_input : str → Input) (handle_event : KeyEvent → Input → Input).
Context (lower : char → option char).

Abbreviation App := (@Console.App Input).
Abbreviation console_step := (Console.console_step value new_input handle_event lower).
Abbreviation on_key := (Console.on_key value new_input handle_event lower).

(** A console as it can be, after some of what can happen has. *)
Inductive running : App → Prop :=
  | running_new s n : running (new_console s n)
  | running_step h a cs a' : running a → console_step h a = Some (cs, a') → running a'.

(** * Selections *)

Section Selections.
Context {T K : Type} `{EqDecision K} (key : T → K).

(** A selection names something in its list; there is none only when the list
    is empty. *)
Definition valid (items : list T) (selection : option K) : Prop :=
  match selection with
  | Some k => ∃ x, find_key key k items = Some x ∧ key x = k ∧ x ∈ items
  | None => items = []
  end.

Lemma find_key_present k items :
  k ∈ map key items → ∃ x, find_key key k items = Some x ∧ key x = k ∧ x ∈ items.
Proof.
  unfold find_key. induction items as [|x items IH]; cbn; [by rewrite elem_of_nil|].
  rewrite elem_of_cons. case_bool_decide as E.
  - intros _. exists x. rewrite elem_of_cons. auto.
  - intros [->|Hk]; [done|]. destruct (IH Hk) as (y & ? & ? & ?). exists y. rewrite elem_of_cons. auto.
Qed.

Lemma valid_key x items : x ∈ items → valid items (Some (key x)).
Proof. intros Hx. apply find_key_present. rewrite list_elem_of_fmap. eauto. Qed.

Lemma valid_lookup items i : valid items (key <$> items !! Nat.min i (length items - 1)).
Proof.
  destruct (items !! Nat.min i (length items - 1)) as [x|] eqn:E; cbn [fmap option_fmap option_map].
  - apply valid_key. by eapply list_elem_of_lookup_2.
  - destruct items; [done|]. apply lookup_ge_None in E. cbn in E. lia.
Qed.

Lemma reselect_valid items selection at_ : valid items (reselect key items selection at_).
Proof.
  unfold reselect. destruct selection as [k|]; [|apply valid_lookup].
  destruct (existsb _ items) eqn:E; [|apply valid_lookup].
  apply existsb_elem in E as (x & Hx & Hk). apply bool_decide_eq_true in Hk as <-. by apply valid_key.
Qed.

Lemma shift_valid items selection by_ : valid items (shift key items selection by_).
Proof.
  unfold shift. destruct (is_empty items) eqn:Ee; [by destruct items|].
  match goal with |- context [items !! ?j] =>
    replace (items !! j) with (items !! Nat.min j (length items - 1)); [apply valid_lookup|f_equal] end.
  destruct items; [done|]. cbn. lia.
Qed.

Lemma head_valid items : valid items (key <$> head items).
Proof. destruct items as [|x items]; [done|]. apply valid_key. left. Qed.

Lemma reselect_same items k at_ : k ∈ map key items → reselect key items (Some k) at_ = Some k.
Proof.
  intros Hk. unfold reselect. case_match eqn:E; [done|]. exfalso.
  apply list_elem_of_fmap in Hk as (x & -> & Hx). rewrite existsb_elem_false in E.
  specialize (E x Hx). by case_bool_decide.
Qed.
End Selections.

Definition selections_valid (a : App) : Prop :=
  valid Admin.ui_id (users a) (user a) ∧ valid Admin.ci_name (channels a) (chan a) ∧ valid Admin.mi_nick (members_of a) (member a).

Lemma set_snapshot_valid s a : selections_valid (set_snapshot s a).
Proof. unfold selections_valid, set_snapshot. repeat split; apply reselect_valid. Qed.

Lemma move_selection_valid by_ a : selections_valid a → selections_valid (move_selection by_ a).
Proof.
  intros (Hu & Hc & Hm). unfold move_selection.
  destruct (tab a); [|destruct (focus a)|]; repeat split; try done;
    first [apply shift_valid | apply head_valid].
Qed.

(** ** What a key leaves of the selections and of the questions *)

(** The question asked before each of the things that cannot be undone. *)
Definition question_for (c : Confirmed) : option str :=
  match c with
  | ConfirmedQuit => Some (lit "Stop the server?")
  | ConfirmedAdmin (Admin.Disconnect nick None) => Some (lit "Disconnect " ++ nick ++ lit " from the server?")
  | ConfirmedAdmin (Admin.Ban nick None) => Some (lit "Ban " ++ nick ++ lit "? They are disconnected and the name is refused.")
  | ConfirmedAdmin (Admin.CloseChannel name None) => Some (lit "Close " ++ name ++ lit "? Everyone in it is removed.")
  | ConfirmedAdmin _ => None
  end.

Definition well_asked (a : App) : Prop := ∀ q, confirm a = Some q → question_for (action q) = Some (question q).

Definition same_rows (a a' : App) : Prop :=
  snapshot a' = snapshot a ∧ user a' = user a ∧ chan a' = chan a ∧ member a' = member a.

Lemma same_rows_valid a a' : same_rows a a' → selections_valid a → selections_valid a'.
Proof.
  unfold selections_valid, users, channels, members_of, selected_channel, channels. intros (-> & -> & -> & ->). done.
Qed.

(** Nothing is selected anew, and nothing is asked in other words than its own. *)
Definition still (a a' : App) : Prop := same_rows a a' ∧ (well_asked a → well_asked a').

#[local] Instance still_preorder : PreOrder still.
Proof.
  split; [by repeat split|].
  intros a b c [(? & ? & ? & ?) Hb] [(? & ? & ? & ?) Hc]. repeat split; [congruence..|]. auto.
Qed.

Lemma still_same a a' : same_rows a a' → confirm a' = confirm a → still a a'.
Proof. intros ? E. split; [done|]. unfold well_asked. by rewrite E. Qed.
Lemma still_asked a a' : same_rows a a' → well_asked a' → still a a'.
Proof. by split. Qed.

Lemma ask_still q c a : question_for c = Some q → still a (ask q c a).
Proof. intros E. apply still_asked; [done|]. by intros q' [= <-]. Qed.
Lemma unasked_still a : still a (set_confirm None a).
Proof. by apply still_asked. Qed.

Ltac still_now :=
  first [by apply still_same | by apply ask_still | by apply unasked_still].

Lemma on_channel_still f a : (∀ c, still a (f c a)) → still a (on_channel f a).
Proof. unfold on_channel. intros Hf. case_match; [apply Hf|reflexivity]. Qed.

Lemma channel_key_still is_ b a : still a (channel_key new_input is_ b a).2.
Proof.
  unfold channel_key.
  repeat (case_match; [first [apply on_channel_still; intros; still_now | still_now]|]). still_now.
Qed.

Lemma target_still a : still a (target a).2.
Proof. unfold target. repeat case_match; still_now. Qed.

Lemma action_key_still c a : still a (action_key new_input c a).2.
Proof.
  unfold action_key. pose proof (target_still a) as Ht. destruct (target a) as [t b]. cbn [snd] in Ht.
  transitivity b; [done|]. destruct t as [[nick chan]|]; [|apply channel_key_still].
  repeat (case_match; try apply channel_key_still); still_now.
Qed.

(** Moving through a list is the only key that selects. *)
Definition tame (a a' : App) : Prop := still a a' ∨ ∃ by_, a' = move_selection by_ a.

Lemma normal_key_tame k a : tame a (normal_key new_input k a).2.
Proof.
  unfold normal_key. cbv zeta. destruct (code k); cbn [snd];
    try (right; eexists; reflexivity);
    try (left; repeat case_match; cbn [snd]; first [apply action_key_still | still_now]).
  case_bool_decide; [left; still_now|right; eauto].
Qed.

Lemma on_key_tame k a cs a' : on_key k a = Some (cs, a') → tame a a'.
Proof.
  unfold Console.on_key. cbv zeta.
  destruct (if _ : bool then shortcut lower k else Some k) as [k'|]; cbn [mbind option_bind]; [|done].
  destruct (_ && _) ; [intros [= <- <-]; left; still_now|].
  destruct (bool_decide (is_Some (confirm a))).
  { intros [= E]. left. replace a' with (confirm_key k' a).2 by (by rewrite E).
    unfold confirm_key. repeat case_match; still_now. }
  destruct (bool_decide (is_Some (bar a))).
  { intros [= E]. left. replace a' with (bar_key value handle_event k' a).2 by (by rewrite E).
    unfold bar_key. repeat case_match; still_now. }
  destruct (help a).
  { intros [= <- <-]. left. case_match; still_now. }
  intros [= E]. replace a' with (normal_key new_input k' a).2 by (by rewrite E). apply normal_key_tame.
Qed.

Lemma move_selection_asked by_ a : well_asked a → well_asked (move_selection by_ a).
Proof. unfold move_selection, well_asked. by repeat case_match. Qed.

Lemma tame_ok a a' : tame a a' → selections_valid a ∧ well_asked a → selections_valid a' ∧ well_asked a'.
Proof.
  intros [[Hr Hw]|[by_ ->]] [Hv Ha].
  - eauto using same_rows_valid.
  - eauto using move_selection_valid, move_selection_asked.
Qed.

Lemma console_step_ok h a cs a' :
  console_step h a = Some (cs, a') → selections_valid a ∧ well_asked a → selections_valid a' ∧ well_asked a'.
Proof.
  destruct h; cbn [Console.console_step]; [intros H; by apply tame_ok; eapply on_key_tame|..]; intros [= <- <-] Hok.
  - apply (tame_ok a); [|done]. left. unfold tick. repeat case_match; still_now.
  - split; [apply set_snapshot_valid|exact (proj2 Hok)].
  - apply (tame_ok a); [|done]. left. unfold apply_event. repeat case_match; still_now.
  - apply (tame_ok a); [|done]. left. still_now.
Qed.

Lemma running_ok a : running a → selections_valid a ∧ well_asked a.
Proof.
  induction 1 as [s n|h a cs a' _ IH E]; [|by eapply console_step_ok].
  split; [apply set_snapshot_valid|]. by intros q [=].
Qed.

(** * What a command is the answer to *)

(** The key as the console reads it: a letter of another layout is, where it
    is a command, the Latin letter on the same key. *)
Definition read_as (k k' : KeyEvent) : Prop := k' = k ∨ shortcut lower k = Some k'.

(** The ways a command can have been given. *)
Inductive given (a : App) (k : KeyEvent) (c : Admin.AdminCommand) : Prop :=
  | given_yes q :
      confirm a = Some q → action q = ConfirmedAdmin c → question_for (ConfirmedAdmin c) = Some (question q) →
      (code k = Char (ch "y") ∨ code k = Char (ch "Y")) → given a k c
  | given_typed b :
      confirm a = None → bar a = Some b → code k = Enter → parse (value b) = Ok (Run c) → given a k c
  | given_voice chn m :
      confirm a = None → bar a = None → code k = Char (ch "o") → tab a = Channels → focus a = OnMembers →
      selected_channel a = Some chn → selected_member a = Some m →
      c = (if Admin.mi_op m then Admin.Deop (Admin.ci_name chn) (Admin.mi_nick m)
           else Admin.Op (Admin.ci_name chn) (Admin.mi_nick m)) → given a k c.

Lemma channel_key_silent is_ b a : (channel_key new_input is_ b a).1 = [].
Proof. unfold channel_key. by repeat case_match. Qed.

Lemma normal_key_gives k a cs a' c :
  confirm a = None → bar a = None → normal_key new_input k a = (cs, a') → c ∈ cs → given a k c ∧ cs = [c].
Proof.
  intros Hq Hb E Hc.
  assert (∃ x, code k = Char x ∧ action_key new_input x a = (cs, a')) as (x & Ek & Ea).
  { revert E. unfold normal_key. cbv zeta. destruct (code k) as [| | | | | | | | | | | |n|x|];
      repeat case_match; intros E; try (injection E as <- <-; by apply elem_of_nil in Hc). eauto. }
  revert Ea. unfold action_key.
  assert (∀ i b a1, channel_key new_input i b a1 = (cs, a') → False) as Hno.
  { intros i b a1 H. pose proof (channel_key_silent i b a1) as Hs. rewrite H in Hs. cbn in Hs. subst cs.
    by apply elem_of_nil in Hc. }
  destruct (target a) as [t a0] eqn:Et. destruct t as [[nick chn]|]; [|by intros ?%Hno].
  do 4 (case_match; [intros E1; injection E1 as <- <-; by apply elem_of_nil in Hc|]).
  destruct chn as [chn|]; [|by intros ?%Hno]. destruct (_ && _) eqn:Eo; [|by intros ?%Hno].
  intros E1. injection E1 as <- <-. apply list_elem_of_singleton in Hc as ->. split; [|done].
  apply andb_true_iff in Eo as [Ex Hin]. apply N.eqb_eq in Ex as ->.
  revert Et. unfold target. apply bool_decide_eq_true in Hin.
  destruct (tab a) eqn:Etab; [| destruct (focus a) eqn:Ef | ].
  - repeat case_match; intros [=]; subst; congruence.
  - done.
  - destruct (selected_channel a) as [cc|] eqn:E1; cbn [mbind option_bind]; [|done].
    destruct (selected_member a) as [m|] eqn:E2; cbn [mbind option_bind]; [|done].
    intros [= <- <- <-]. eapply given_voice; eauto. by rewrite E2.
  - done.
Qed.

Lemma on_key_gives k a cs a' c :
  well_asked a → on_key k a = Some (cs, a') → c ∈ cs → (∃ k', read_as k k' ∧ given a k' c) ∧ cs = [c].
Proof.
  unfold Console.on_key. cbv zeta. intros Hw.
  destruct (if _ : bool then shortcut lower k else Some k) as [k'|] eqn:Er; cbn [mbind option_bind]; [|done].
  assert (read_as k k') as Hr by (revert Er; unfold read_as; case_match; [auto|by intros [= ->]; left]). clear Er.
  destruct (ctrl k' && _); [intros [= <- <-] ?%elem_of_nil; done|].
  destruct (confirm a) as [q|] eqn:Eq.
  { rewrite bool_decide_eq_true_2 by eauto. intros [= E] Hc. revert E. unfold confirm_key. rewrite Eq.
    repeat case_match; intros [= <- <-]; try (by apply elem_of_nil in Hc).
    apply list_elem_of_singleton in Hc as ->. split; [|done]. exists k'. split; [done|].
    apply (given_yes _ _ _ _ Eq); [done|rewrite <- (Hw _ Eq); by f_equal|].
    match goal with H : code k' = _ |- _ => rewrite H end.
    match goal with H : _ || _ = true |- _ => apply orb_true_iff in H as [->%N.eqb_eq| ->%N.eqb_eq]; auto end. }
  rewrite (bool_decide_eq_false_2 (is_Some None)) by (by intros [? [=]]).
  destruct (bar a) as [b|] eqn:Eb.
  { rewrite bool_decide_eq_true_2 by eauto. intros [= E] Hc. revert E. unfold bar_key. rewrite Eb.
    repeat case_match; intros [= <- <-]; try (by apply elem_of_nil in Hc).
    apply list_elem_of_singleton in Hc as ->. split; [|done]. exists k'. split; [done|]. by eapply given_typed. }
  rewrite (bool_decide_eq_false_2 (is_Some None)) by (by intros [? [=]]).
  destruct (help a); [intros [= <- <-] ?%elem_of_nil; done|].
  intros [= E] Hc. apply (normal_key_gives _ _ _ _ c) in E as [??]; eauto.
Qed.

(** C9: in every console that can be, whatever happens next gives the server at
    most one command, and only in answer to a key: a [y] to a question which
    says what the command does, Enter under the line that was typed for it, or
    the key that makes the highlighted member an operator or no longer one. No
    snapshot, event or tick gives a command, and none that cannot be undone
    leaves without the question or the line. *)
Theorem console_consent h a cs a' c :
  running a → console_step h a = Some (cs, a') → c ∈ cs →
  cs = [c] ∧ ∃ k k', h = Pressed k ∧ read_as k k' ∧ given a k' c.
Proof.
  intros [_ Hw]%running_ok E Hc. destruct h as [k| | | |]; cbn [Console.console_step] in E;
    try (injection E as <- <-; by apply elem_of_nil in Hc).
  apply (on_key_gives _ _ _ _ c) in E as [(k' & ? & ?) ?]; eauto 10.
Qed.

(** ** The highlighted row *)

(** In every console that can be, each list has something of it highlighted
    unless it is empty, and what a snapshot still has stays highlighted: the
    same connection, channel and, in the same channel, member, wherever the
    rows have moved to. *)
Theorem selection_is_a_person a s :
  running a →
  (valid Admin.ui_id (users a) (user a) ∧ valid Admin.ci_name (channels a) (chan a) ∧
   valid Admin.mi_nick (members_of a) (member a)) ∧
  (∀ id, user a = Some id → id ∈ map Admin.ui_id (Admin.s_users s) → user (set_snapshot s a) = Some id) ∧
  (∀ name, chan a = Some name → name ∈ map Admin.ci_name (Admin.s_channels s) →
     chan (set_snapshot s a) = Some name ∧
     ∀ nick, member a = Some nick → nick ∈ map Admin.mi_nick (members_of (set_snapshot s a)) →
       member (set_snapshot s a) = Some nick).
Proof.
  intros [Hv _]%running_ok. split; [exact Hv|]. split.
  - intros id Hu Hid. cbn [set_snapshot Console.user set_selection put_snapshot]. rewrite Hu. by apply reselect_same.
  - intros name Hn Hin. split.
    + cbn [set_snapshot chan set_selection put_snapshot]. rewrite Hn. by apply reselect_same.
    + intros nick Hm Hk. unfold set_snapshot at 1. cbn [member set_selection put_snapshot]. rewrite Hm.
      by apply reselect_same.
Qed.

(** ** The line a key prepares *)

Lemma word_first w b r :
  w ≠ [] → Forall (λ c, is_whitespace c = false) w → is_whitespace b = true → word (w ++ b :: r) = (w, trim r).
Proof.
  intros Hne Hw Hb. unfold word.
  assert (trim_start (w ++ b :: r) = w ++ b :: r) as ->.
  { apply drop_while_id. destruct Hw; [done|]. done. }
  assert (drop_while (λ c, negb (is_whitespace c)) (w ++ b :: r) = b :: r ∧
          take_while (λ c, negb (is_whitespace c)) (w ++ b :: r) = w) as [-> ->]; [|done].
  clear Hne. induction Hw as [|c w Hc _ [IH1 IH2]]; cbn; [by rewrite Hb|]. rewrite Hc. cbn. by rewrite IH1, IH2.
Qed.

Lemma word_only w : w ≠ [] → Forall (λ c, is_whitespace c = false) w → word w = (w, []).
Proof.
  intros Hne Hw. unfold word. assert (trim_start w = w) as ->.
  { apply drop_while_id. by destruct Hw. }
  assert (drop_while (λ c, negb (is_whitespace c)) w = []) as ->; [|done].
  clear Hne. induction Hw as [|c w Hc _ IH]; cbn; [done|]. by rewrite Hc.
Qed.

Definition plain_word (w : str) : Prop := w ≠ [] ∧ Forall (λ c, is_whitespace c = false) w.

Lemma trim_end_word w : plain_word w → ∀ l, trim_end (l ++ w) = l ++ w.
Proof.
  intros [Hne Hw] l. apply trim_end_matches_id. intros c Hc.
  rewrite last_app in Hc. destruct (last w) as [d|] eqn:E; [|by apply last_None in E].
  injection Hc as <-. apply last_Some_elem_of in E. by eapply Forall_forall in Hw.
Qed.

Lemma trim_word w l : plain_word w → match l ++ w with [] => True | c :: _ => is_whitespace c = false end → trim (l ++ w) = l ++ w.
Proof. intros Hw Hl. unfold trim. replace (trim_start (l ++ w)) with (l ++ w); [by apply trim_end_word|]. symmetry. by apply drop_while_id. Qed.

Lemma trim_end_space l : trim_end (l ++ lit " ") = trim_end l.
Proof. unfold trim_end, trim_end_matches. by rewrite rev_app_distr. Qed.

Lemma parse_kick chn nick :
  plain_word chn → starts_with_char (ch "#") chn = true → plain_word nick →
  parse (lit "kick " ++ chn ++ lit " " ++ nick ++ lit " ") = Ok (Run (Admin.Kick chn nick None)).
Proof.
  intros Hc Hs Hn. unfold parse.
  assert (trim (lit "kick " ++ chn ++ lit " " ++ nick ++ lit " ") = lit "kick" ++ ch " " :: chn ++ lit " " ++ nick) as ->.
  { unfold trim. replace (trim_start _) with ((lit "kick " ++ chn ++ lit " " ++ nick) ++ lit " ")
      by (rewrite <- !app_assoc; reflexivity).
    rewrite trim_end_space. rewrite !app_assoc. rewrite trim_end_word by done. by rewrite <- !app_assoc. }
  rewrite (drop_while_id _ (lit "kick" ++ _)) by reflexivity.
  rewrite word_first by (done || by repeat constructor). cbv zeta.
  assert (trim (chn ++ lit " " ++ nick) = chn ++ ch " " :: nick) as ->.
  { rewrite app_assoc, trim_word; [by rewrite <- app_assoc|done|]. destruct Hc as [? Hf]. by destruct Hf. }
  change (is_empty (lit "kick")) with false. cbv iota.
  rewrite !bool_decide_eq_false_2 by done. rewrite bool_decide_eq_true_2 by done. cbn [orb].
  rewrite word_first by (try apply Hc; done).
  assert (trim nick = nick) as -> by (apply (trim_word nick []); [done|]; by destruct Hn as [? Hf]; destruct Hf).
  rewrite word_only by apply Hn.
  destruct chn as [|c0 chn]; [by destruct Hc|]. destruct nick as [|d nick]; [by destruct Hn|].
  cbn [is_empty]. unfold channel. by rewrite Hs.
Qed.

Definition press (c : KeyCode) : KeyEvent := mkKey c false false.

(** Pressing [k] and then Enter kicks the highlighted person, and nobody else,
    from the channel they are highlighted in, where neither name has white
    space in it. *)
Theorem kick_key_kicks a nick chn :
  (∀ s, value (new_input s) = s) →
  confirm a = None → bar a = None → help a = false →
  target a = (Some (mkTarget nick (Some chn)), a) →
  plain_word chn → starts_with_char (ch "#") chn = true → plain_word nick →
  ∃ a1 a2, on_key (press (Char (ch "k"))) a = Some ([], a1) ∧
           on_key (press Enter) a1 = Some ([Admin.Kick chn nick None], a2) ∧ bar a2 = None.
Proof.
  intros Hv Hq Hb Hh Ht Hc Hs Hn.
  pose (a1 := open_bar new_input (lit "kick " ++ chn ++ lit " " ++ nick ++ lit " ") a).
  exists a1, (set_bar None a1). split; [|split].
  - unfold Console.on_key. rewrite Hq, Hb, Hh.
    change (Some (action_key new_input (ch "k") a) = Some ([], open_bar new_input (lit "kick " ++ chn ++ lit " " ++ nick ++ lit " ") a)).
    unfold action_key. rewrite Ht. reflexivity.
  - assert (bar a1 = Some (new_input (lit "kick " ++ chn ++ lit " " ++ nick ++ lit " "))) as Hb1 by done.
    assert (confirm a1 = None) as Hq1 by done. clearbody a1. unfold Console.on_key. rewrite Hb1, Hq1.
    rewrite (bool_decide_eq_true_2 (is_Some (Some _))) by eauto. cbn [press ctrl alt orb negb mbind option_bind andb].
    rewrite (bool_decide_eq_false_2 (is_Some None)) by (by intros [? [=]]).
    unfold bar_key. cbn [code]. rewrite Hb1, Hv, parse_kick by done. reflexivity.
  - done.
Qed.
End ConsoleProps.

(** * Runs *)

(** A text box that is its text, and a console showing one channel. *)
Definition box_lower (c : char) : option char := Some c.
Definition box_key (k : KeyEvent) (s : str) : str := match code k with Char c => s ++ [c] | _ => s end.
Definition room_of (nicks : list str) : Admin.Snapshot :=
  Admin.mkSnapshot (lit "s") (lit "n") 0 2 0
    (imap (λ i nick, Admin.mkUserInfo (N.of_nat i) (Some nick) None None true [lit "#room"] 0) nicks)
    [Admin.mkChannelInfo (lit "#room") None None (map (λ nick, Admin.mkMemberInfo nick false) nicks)] [] [].
Abbreviation box_keys := (on_key (λ s : str, s) (λ s : str, s) box_key box_lower).

Definition type_keys (ks : list KeyCode) (a : @App str) : option (list Admin.AdminCommand * App) :=
  foldl (λ r k, '(cs, a) ← r; '(more, a) ← box_keys (press k) a; Some (cs ++ more, a)) (Some ([], a)) ks.

(** A nick may have a no-break space in it, which ends a word of the command
    line: the line prepared for kicking that person kicks another. *)
Example kick_key_kicks_another :
  let impostor := lit "alice" ++ [0xA0; ch "x"]%N in
  let a := new_console (room_of [impostor; lit "alice"]) 0 in
  (selected_user a ≫= Admin.ui_nick) = Some impostor ∧
  (type_keys [Char (ch "k"); Enter] a ≫= λ r, Some r.1) =
    Some [Admin.Kick (lit "#room") (lit "alice") (Some (lit "x"))].
Proof. by vm_compute. Qed.

Lemma console_consent_witness :
  ∃ a cs a', running (λ s : str, s) (λ s : str, s) box_key box_lower a ∧
    console_step (λ s : str, s) (λ s : str, s) box_key box_lower (Pressed (press (Char (ch "y")))) a = Some (cs, a') ∧
    cs = [Admin.Ban (lit "bob") None].
Proof.
  pose (a0 := new_console (Input := str) (room_of [lit "bob"]) 0).
  assert (running (λ s : str, s) (λ s : str, s) box_key box_lower
            (ask (lit "Ban bob? They are disconnected and the name is refused.") (ConfirmedAdmin (Admin.Ban (lit "bob") None)) a0)) as Hr.
  { eapply (running_step _ _ _ _ (Pressed (press (Char (ch "b"))))); [apply (running_new _ _ _ _ (room_of [lit "bob"]) 0)|].
    vm_compute. reflexivity. }
  eexists _, _, _. split; [exact Hr|]. split; [vm_compute; reflexivity|].
  eapply (console_consent _ _ _ _ (Pressed (press (Char (ch "y")))) _ _ _ _ Hr); [vm_compute; reflexivity|vm_compute; left].
Defined.

Lemma selection_is_a_person_witness :
  user (set_snapshot (room_of [lit "carol"; lit "bob"]) (new_console (Input := str) (room_of [lit "bob"]) 0)) = Some 0%N.
Proof.
  eapply (selection_is_a_person (λ s : str, s) (λ s : str, s) box_key box_lower); [apply running_new|vm_compute; reflexivity|].
  vm_compute. left.
Defined.

Lemma kick_key_kicks_witness :
  ∃ a1 a2 : @App str,
    box_keys (press (Char (ch "k"))) (new_console (room_of [lit "bob"]) 0) = Some ([], a1) ∧
    box_keys (press Enter) a1 = Some ([Admin.Kick (lit "#room") (lit "bob") None], a2) ∧ bar a2 = None.
Proof.
  apply (kick_key_kicks (λ s : str, s) (λ s : str, s) box_key box_lower); try reflexivity;
    split; [done|by repeat constructor|done|by repeat constructor].
Defined.
