(* ===== verification/ServerConfig.v ===== *)
(** How to reach a server, and what is refused before it is tried
    ([ProxyConfig] and [ServerConfig] of [ddirc-core/src/api/types.rs]).

    Whether a path names a file is the file system's answer, so it is a
    parameter. Secrets are plain strings here. *)
From S2P Require Import Prelude RustStr Transfer.

Definition PLAINTEXT_PORTS : list N :=
  [6660; 6661; 6662; 6663; 6664; 6665; 6666; 6667; 6668; 6669; 194]%N.

Inductive ConfigError :=
  | EmptyHost
  | EmptyNickname
  | InvalidNickname
  | PlaintextPort (port : N)
  | IncompleteSaslCredentials
  | MissingRootCert (path : str)
  | OnionWithoutProxy (host : str)
  | EmptyProxyHost
  | ProxyPortZero
  | IncompleteProxyCredentials
  | ProxyCredentialLength (which : str).

(** [ConfigError::to_string]. *)
Definition show_config_error (e : ConfigError) : str :=
  match e with
  | EmptyHost => lit "server host must not be empty"
  | EmptyNickname => lit "nickname must not be empty"
  | InvalidNickname => lit "nickname must not contain spaces or control characters"
  | PlaintextPort port =>
      lit "port " ++ to_dec port ++ lit " is a plaintext IRC port; ddIRC requires TLS. Use 6697 (the " ++
      lit "standard TLS port) or another port your network serves TLS on."
  | IncompleteSaslCredentials => lit "SASL requires both an account and a password"
  | MissingRootCert path => lit "certificate to trust not found: " ++ path
  | OnionWithoutProxy host =>
      lit "'" ++ host ++ lit "' is an onion address, and onion addresses only exist inside " ++
      lit "Tor. Set this network's proxy to a Tor SOCKS5 listener - usually " ++
      lit "127.0.0.1:9050 - because without one there is nothing here that can find it."
  | EmptyProxyHost => lit "proxy host must not be empty"
  | ProxyPortZero => lit "proxy port must not be 0"
  | IncompleteProxyCredentials => lit "a SOCKS5 proxy needs both a username and a password, or neither"
  | ProxyCredentialLength which =>
      lit "proxy " ++ which ++ lit " must be between 1 and 255 bytes; SOCKS5 length-prefixes it " ++
      lit "with a single byte (RFC 1929)"
  end.

(** [x.is_some()]. *)
Definition is_some {A} (o : option A) : bool := match o with Some _ => true | None => false end.

(** A credential that is there must fit the one byte SOCKS5 gives its length;
    [len] counts bytes. *)
Definition credential_fits (o : option str) : bool :=
  match o with
  | Some s => negb (is_empty s || Nat.ltb 255 (str_len s))
  | None => true
  end.

Definition validate_proxy (p : ProxyConfig) : result unit ConfigError :=
  if is_empty (trim (px_host p)) then Err EmptyProxyHost
  else if (px_port p =? 0)%N then Err ProxyPortZero
  else if negb (Bool.eqb (is_some (px_username p)) (is_some (px_password p))) then Err IncompleteProxyCredentials
  else if negb (credential_fits (px_username p)) then Err (ProxyCredentialLength (lit "username"))
  else if negb (credential_fits (px_password p)) then Err (ProxyCredentialLength (lit "password"))
  else Ok tt.

Record ServerConfig := mkConfig {
  host : str;
  cf_port : N;
  nickname : str;
  alt_nicks : list str;
  cf_username : option str;
  cf_realname : option str;
  cf_channels : list str;
  sasl_account : option str;
  sasl_password : option str;
  nickserv_password : option str;
  server_password : option str;
  extra_root_cert : option str;
  cf_proxy : option ProxyConfig;
}.

Definition is_onion (c : ServerConfig) : bool :=
  ends_with (lit ".onion") (to_ascii_lowercase (trim_end_matches (N.eqb 0x2E) (trim (host c)))).

Definition username (c : ServerConfig) : str := default (nickname c) (cf_username c).
Definition realname (c : ServerConfig) : str := default (nickname c) (cf_realname c).

Section Validate.
Context (is_file : str → bool).

Definition validate (c : ServerConfig) : result unit ConfigError :=
  if is_empty (trim (host c)) then Err EmptyHost
  else if is_empty (trim (nickname c)) then Err EmptyNickname
  else if existsb (λ ch, is_whitespace ch || (ch <? 0x20)%N) (nickname c) then Err InvalidNickname
  else if bool_decide (cf_port c ∈ PLAINTEXT_PORTS) then Err (PlaintextPort (cf_port c))
  else if negb (Bool.eqb (is_some (sasl_account c)) (is_some (sasl_password c))) then Err IncompleteSaslCredentials
  else
    let rest :=
      match cf_proxy c with
      | Some p => validate_proxy p
      | None => if is_onion c then Err (OnionWithoutProxy (host c)) else Ok tt
      end in
    match extra_root_cert c with
    | Some path => if is_file path then rest else Err (MissingRootCert path)
    | None => rest
    end.

(** What a connection may rely on: an onion address is only ever dialled
    through a proxy whose credentials fit a SOCKS5 request, never on a
    plaintext port, and the nick given at registration is one word. *)
Lemma validate_accepts (c : ServerConfig) :
  validate c = Ok tt →
  cf_port c ∉ PLAINTEXT_PORTS
  ∧ nickname c ≠ [] ∧ Forall (λ ch, is_whitespace ch = false ∧ (0x20 <= ch)%N) (nickname c)
  ∧ (is_onion c = true → ∃ p, cf_proxy c = Some p)
  ∧ (∀ p, cf_proxy c = Some p → px_port p ≠ 0%N ∧ (is_Some (px_username p) ↔ is_Some (px_password p)) ∧
       ∀ s, px_username p = Some s ∨ px_password p = Some s → 1 ≤ str_len s ≤ 255).
Proof.
  unfold validate. intros H.
  destruct (is_empty (trim (host c))); [done|]. destruct (is_empty (trim (nickname c))) eqn:En; [done|].
  destruct (existsb _ _) eqn:Ew; [done|]. destruct (bool_decide_reflect (cf_port c ∈ PLAINTEXT_PORTS)); [done|].
  destruct (negb _); [done|].
  assert (match cf_proxy c with
          | Some p => validate_proxy p
          | None => if is_onion c then Err (OnionWithoutProxy (host c)) else Ok tt
          end = Ok tt) as Hp
    by (destruct (extra_root_cert c) as [path|]; [destruct (is_file path); [done|discriminate H]|done]).
  clear H. split_and!.
  - done.
  - intros E. by rewrite E in En.
  - apply Forall_forall. intros ch Hch. apply not_true_iff_false in Ew.
    destruct (is_whitespace ch) eqn:E1; [|destruct (N.ltb_spec ch 0x20); [|done]]; destruct Ew;
      apply existsb_exists; exists ch; (split; [by apply list_elem_of_In|]); rewrite E1; [done|].
    apply orb_true_iff. right. by apply N.ltb_lt.
  - intros Ho. rewrite Ho in Hp. destruct (cf_proxy c); [by eexists|done].
  - intros p E. rewrite E in Hp. unfold validate_proxy in Hp.
    destruct (is_empty (trim (px_host p))); [done|]. destruct (N.eqb_spec (px_port p) 0); [done|].
    destruct (Bool.eqb _ _) eqn:Eb; [|done]. apply Bool.eqb_prop in Eb. cbn [negb] in Hp.
    destruct (credential_fits (px_username p)) eqn:Eu; [|done].
    destruct (credential_fits (px_password p)) eqn:Ep; [|done].
    split_and!; [done|by destruct (px_username p), (px_password p)|].
    intros s Hs. assert (credential_fits (Some s) = true) as Hf by (destruct Hs as [Hs|Hs]; congruence).
    unfold credential_fits in Hf. apply negb_true_iff, orb_false_iff in Hf as [H1 H2%Nat.ltb_ge]. split; [|done].
    destruct s as [|x s]; [done|]. cbn [str_len]. unfold len_utf8. repeat case_match; lia.
Qed.
End Validate.
