(* ===== verification/Upload.v ===== *)
(** Sharing a file over HTTP ([ddirc-core/src/xmpp/upload.rs]).

    [Url] is another crate's: a parsed address is the parts the source reads,
    and the parser is a parameter, as are the parser of IP addresses and the one
    of response heads ([httparse]). A file is what its reads return one after the
    other, and the connection is what is written to it. *)
From S2P Require Import Prelude RustStr ServerConfig.

Definition NS_UPLOAD : str := lit "urn:xmpp:http:upload:0".
Definition HARD_LIMIT : N := 100 * 1024 * 1024.
Definition MAX_URL : nat := 2048.
Definition MAX_HEADERS : nat := 8.
Definition MAX_HEADER_VALUE : nat := 4096.
Definition MAX_RESPONSE_HEAD : nat := 8 * 1024.
Definition CHUNK : nat := 16 * 1024.

(** * The service *)

Record UploadService := mkService { u_jid : str; max_bytes : option N }.

(** What the source reads of an answer about a component: its features, and the
    forms with their types and fields. *)
Record Form := mkForm { form_type : option str; form_fields : list (option str * list str) }.
Record Info := mkInfo { features : list str; extensions : list Form }.

Definition is_upload_form (f : Form) : bool := bool_decide (form_type f = Some NS_UPLOAD).

Definition service_from_info (jid : str) (i : Info) : option UploadService :=
  if negb (bool_decide (NS_UPLOAD ∈ features i)) then None
  else
    let fields := concat (map form_fields (List.filter is_upload_form (extensions i))) in
    Some (mkService jid
      (field ← List.find (λ f, bool_decide (f.1 = Some (lit "max-file-size"))) fields;
       v ← head field.2;
       parse_unsigned u64_max (trim v))).

Definition limit (s : UploadService) : N :=
  match max_bytes s with Some m => N.min m HARD_LIMIT | None => HARD_LIMIT end.

(** [rsplit_once]. *)
Definition rsplit_once (c : char) (s : str) : option (str * str) :=
  match split_once c (rev s) with Some (a, b) => Some (rev b, rev a) | None => None end.

Definition media_types : list (list str * str) :=
  [ ([lit "jpg"; lit "jpeg"], lit "image/jpeg"); ([lit "png"], lit "image/png"); ([lit "gif"], lit "image/gif");
    ([lit "webp"], lit "image/webp"); ([lit "pdf"], lit "application/pdf");
    ([lit "txt"; lit "log"; lit "md"], lit "text/plain"); ([lit "mp3"], lit "audio/mpeg");
    ([lit "ogg"; lit "opus"], lit "audio/ogg"); ([lit "mp4"], lit "video/mp4"); ([lit "webm"], lit "video/webm");
    ([lit "zip"], lit "application/zip") ].
Definition content_type (filename : str) : str :=
  let extension := match rsplit_once (ch ".") filename with Some (_, e) => to_ascii_lowercase e | None => [] end in
  match List.find (λ m, bool_decide (extension ∈ m.1)) media_types with
  | Some m => m.2
  | None => lit "application/octet-stream"
  end.

(** * The slot *)

Inductive Host := Domain (name : str) | Address (text : str).
Record Url := mkUrl {
  scheme : str; url_username : str; url_password : option str; url_host : option Host; fragment : option str;
  url_port : option N; path : str; query : option str; url_text : str;
}.

Inductive SlotError := BadAddress | UnsafeHost | BadHeader.
Definition show_slot_error (e : SlotError) : str :=
  match e with
  | BadAddress => lit "the server gave an upload address that is not a valid https address"
  | UnsafeHost => lit "the server gave an upload address that is not a normal website address"
  | BadHeader => lit "the server gave a header that cannot be sent"
  end.

Record SlotResult := mkSlotResult { put_url : str; put_headers : list (str * str); get_url : str }.
Record Slot := mkSlot { slot_put : Url; slot_headers : list (str * str); slot_get : str }.

Section Check.
Context (parse_url : str → option Url) (is_ip : str → bool).

Definition parse_https (address : str) : result Url SlotError :=
  if Nat.ltb MAX_URL (str_len address) then Err BadAddress
  else
    match parse_url address with
    | None => Err BadAddress
    | Some url =>
        if negb (bool_decide (scheme url = lit "https")) || negb (is_empty (url_username url))
           || is_some (url_password url) || negb (is_some (url_host url)) || is_some (fragment url)
        then Err BadAddress
        else
          match url_host url with
          | Some (Domain name) => if is_ip name then Err UnsafeHost else Ok url
          | _ => Ok url
          end
    end.

Definition plain_name (s : str) : str := to_ascii_lowercase (trim_end_matches (N.eqb (ch ".")) s).

(** Whether a host may be sent a file, for an account of a domain. *)
Definition host_allowed (host account_domain : str) : bool :=
  let name := plain_name host in
  let domain := plain_name account_domain in
  let inside := negb (is_empty domain) && (bool_decide (name = domain) || ends_with (lit "." ++ domain) name) in
  let loopback_name := bool_decide (name = lit "localhost") || ends_with (lit ".localhost") name in
  negb (negb inside && (negb (contains_char (ch ".") name) || loopback_name)).

Definition is_ascii (c : char) : bool := (c <? 128)%N.
Definition header_ok (h : str * str) : bool :=
  let value := trim h.2 in
  negb (is_empty value || Nat.ltb MAX_HEADER_VALUE (str_len value)
        || existsb (λ c, is_control c || negb (is_ascii c)) value).

Definition check_slot (slot : SlotResult) (account_domain : str) : result Slot SlotError :=
  match parse_https (put_url slot) with
  | Err e => Err e
  | Ok put =>
      match parse_https (get_url slot) with
      | Err e => Err e
      | Ok get =>
          match url_host put with
          | Some (Domain name) =>
              if negb (host_allowed name account_domain) then Err UnsafeHost
              else if Nat.ltb MAX_HEADERS (length (put_headers slot)) then Err BadHeader
              else if negb (forallb header_ok (put_headers slot)) then Err BadHeader
              else Ok (mkSlot put (map (λ h, (h.1, trim h.2)) (put_headers slot)) (url_text get))
          | _ => Err UnsafeHost
          end
      end
  end.
End Check.

(** * Addresses on the public internet *)

(** [Ipv4Addr] by its octets and [Ipv6Addr] by its segments. *)
Inductive IpAddr :=
  | V4 (a b c d : N)
  | V6 (s0 s1 s2 s3 s4 s5 s6 s7 : N).

Definition is_unspecified4 (a b c d : N) : bool := (a =? 0)%N && (b =? 0)%N && (c =? 0)%N && (d =? 0)%N.
Definition is_loopback4 (a : N) : bool := (a =? 127)%N.
Definition is_private4 (a b : N) : bool :=
  (a =? 10)%N || ((a =? 172)%N && (16 <=? b)%N && (b <=? 31)%N) || ((a =? 192)%N && (b =? 168)%N).
Definition is_link_local4 (a b : N) : bool := (a =? 169)%N && (b =? 254)%N.
Definition is_broadcast4 (a b c d : N) : bool := (a =? 255)%N && (b =? 255)%N && (c =? 255)%N && (d =? 255)%N.
Definition is_multicast4 (a : N) : bool := (224 <=? a)%N && (a <=? 239)%N.
Definition is_documentation4 (a b c : N) : bool :=
  ((a =? 192)%N && (b =? 0)%N && (c =? 2)%N) || ((a =? 198)%N && (b =? 51)%N && (c =? 100)%N)
  || ((a =? 203)%N && (b =? 0)%N && (c =? 113)%N).

Definition is_public_v4 (a b c d : N) : bool :=
  negb (is_unspecified4 a b c d || is_loopback4 a || is_private4 a b || is_link_local4 a b || is_broadcast4 a b c d
        || is_multicast4 a || is_documentation4 a b c
        || ((a =? 100)%N && (64 <=? b)%N && (b <=? 127)%N)
        || (a =? 0)%N
        || (240 <=? a)%N
        || ((a =? 198)%N && ((b =? 18)%N || (b =? 19)%N))
        || ((a =? 192)%N && (b =? 0)%N && (c =? 0)%N)).

(** [embedded]: the IPv4 address in two segments. *)
Definition is_public_embedded (hi lo : N) : bool :=
  is_public_v4 (N.shiftr hi 8) (N.land hi 255) (N.shiftr lo 8) (N.land lo 255).

Definition zeros (l : list N) : bool := forallb (N.eqb 0) l.

Definition is_public_address (x : IpAddr) : bool :=
  match x with
  | V4 a b c d => is_public_v4 a b c d
  | V6 s0 s1 s2 s3 s4 s5 s6 s7 =>
      if zeros [s0; s1; s2; s3; s4] && (s5 =? 0xffff)%N then is_public_embedded s6 s7
      else if (s0 =? 0x64)%N && (s1 =? 0xff9b)%N && zeros [s2; s3; s4; s5] then is_public_embedded s6 s7
      else if zeros [s0; s1; s2; s3; s4; s5] then is_public_embedded s6 s7
      else if (s0 =? 0x2002)%N then is_public_embedded s1 s2
      else if ((s0 =? 0x2001)%N && (s1 =? 0)%N)
              || ((s0 =? 0x64)%N && (s1 =? 0xff9b)%N && (s2 =? 1)%N)
              || (N.land s0 0xffc0 =? 0xfec0)%N
              || ((s0 =? 0x100)%N && zeros [s1; s2; s3])
      then false
      else negb (zeros [s0; s1; s2; s3; s4; s5; s6; s7]
                 || (zeros [s0; s1; s2; s3; s4; s5; s6] && (s7 =? 1)%N)
                 || (N.land s0 0xff00 =? 0xff00)%N
                 || (N.land s0 0xfe00 =? 0xfc00)%N
                 || (N.land s0 0xffc0 =? 0xfe80)%N
                 || ((s0 =? 0x2001)%N && (s1 =? 0x0db8)%N))
  end.

(** * Sending *)

Inductive UploadError :=
  | File (why : str) | Changed | Connection (why : str) | Stalled | UploadRefused (status : N) | BadResponse.

(** The head is ASCII, as [Url] and [check_slot] leave it, so its bytes are its
    characters. *)
Definition request_head (slot : Slot) (size : N) (content_type : str) : str :=
  let url := slot_put slot in
  let host := match url_host url with Some (Domain s | Address s) => s | None => [] end in
  let authority := match url_port url with Some port => host ++ lit ":" ++ to_dec port | None => host end in
  let target := path url ++ match query url with Some q => lit "?" ++ q | None => [] end in
  let crlf := [13%N; 10%N] in
  lit "PUT " ++ target ++ lit " HTTP/1.1" ++ crlf ++ lit "Host: " ++ authority ++ crlf ++
  lit "Content-Length: " ++ to_dec size ++ crlf ++ lit "Content-Type: " ++ content_type ++ crlf ++
  lit "Connection: close" ++ crlf ++
  concat (map (λ h, h.1 ++ lit ": " ++ h.2 ++ crlf) (slot_headers slot)) ++ crlf.

(** What goes out, what is left of the file as it will be read, and how the
    writes and the reads turn out: a write may fail after some of its bytes, and
    a read may fail or return less than was asked for, though never nothing
    before the end. *)
Abbreviation Reads := (list (result (list N) UploadError)).
Record Wire := mkWire {
  written : list N;
  writes : list (option (nat * UploadError));
  left : list N;
  cuts : list (result nat UploadError);
  progress : list N;
}.

(** [send]: all of the bytes, or an error after some of them. *)
Definition send (bytes : list N) (w : Wire) : result unit UploadError * Wire :=
  match writes w with
  | Some (n, e) :: ws => (Err e, mkWire (written w ++ take n bytes) ws (left w) (cuts w) (progress w))
  | None :: ws => (Ok tt, mkWire (written w ++ bytes) ws (left w) (cuts w) (progress w))
  | [] => (Ok tt, mkWire (written w ++ bytes) [] (left w) (cuts w) (progress w))
  end.

(** [source.read(&mut buffer[..want])]. *)
Definition read_file (want : nat) (w : Wire) : result (list N) UploadError * Wire :=
  let got n cs := (Ok (take n (left w)), mkWire (written w) (writes w) (drop n (left w)) cs (progress w)) in
  match cuts w with
  | Err e :: cs => (Err e, mkWire (written w) (writes w) (left w) cs (progress w))
  | Ok n :: cs => got (Nat.min want (Nat.max 1 n)) cs
  | [] => got want []
  end.

(** [while sent < size]; every turn sends at least one byte. *)
Fixpoint put_loop (fuel : nat) (sent size : N) (w : Wire) : result unit UploadError * Wire :=
  match fuel with
  | O => (Ok tt, w)
  | S fuel =>
      if negb (sent <? size)%N then (Ok tt, w)
      else
        let want := N.to_nat (N.min (size - sent) (N.of_nat CHUNK)) in
        match read_file want w with
        | (Err e, w) => (Err e, w)
        | (Ok [], w) => (Err Changed, w)
        | (Ok bytes, w) =>
            match send bytes w with
            | (Err e, w) => (Err e, w)
            | (Ok _, w) =>
                let sent := (sent + N.of_nat (length bytes))%N in
                put_loop fuel sent size (mkWire (written w) (writes w) (left w) (cuts w) (progress w ++ [sent]))
            end
        end
  end.

Section Put.
(** [httparse]: a whole head with its length and its code, a part of one, or not
    a head. *)
Inductive Head := Complete (length : nat) (code : option N) | Partial | NotHttp.
Context (parse_head : list N → Head).

(** The inner loop: heads of [1xx] are passed over. Each is at least one byte. *)
Fixpoint read_heads (fuel : nat) (seen : list N) : option (result N UploadError) * list N :=
  match fuel with
  | O => (Some (Err BadResponse), seen)
  | S fuel =>
      match parse_head seen with
      | Complete len code =>
          match code with
          | None => (Some (Err BadResponse), seen)
          | Some code =>
              if (100 <=? code)%N && (code <? 200)%N && negb (code =? 101)%N then read_heads fuel (drop len seen)
              else (Some (Ok code), seen)
          end
      | Partial => if Nat.ltb (length seen) MAX_RESPONSE_HEAD then (None, seen) else (Some (Err BadResponse), seen)
      | NotHttp => (Some (Err BadResponse), seen)
      end
  end.

(** The outer loop, over what the connection delivers. *)
Fixpoint read_status (answers : Reads) (seen : list N) : result N UploadError :=
  match answers with
  | [] => Err BadResponse
  | Err e :: _ => Err e
  | Ok [] :: _ => Err BadResponse
  | Ok bytes :: answers =>
      let seen := seen ++ bytes in
      match read_heads (S (length seen)) seen with
      | (Some r, _) => r
      | (None, seen) => read_status answers seen
      end
  end.

(** [flushed] is the error of the flush, if it fails. *)
Definition put (slot : Slot) (size : N) (content_type : str) (flushed : option UploadError) (answers : Reads) (w : Wire)
    : result unit UploadError * Wire :=
  match send (request_head slot size content_type) w with
  | (Err e, w) => (Err e, w)
  | (Ok _, w) =>
      match put_loop (N.to_nat size) 0 size w with
      | (Err e, w) => (Err e, w)
      | (Ok _, w) =>
          match flushed with
          | Some e => (Err e, w)
          | None =>
              match read_file 1 w with
              | (Err e, w) => (Err e, w)
              | (Ok (_ :: _), w) => (Err Changed, w)
              | (Ok [], w) =>
                  match read_status answers [] with
                  | Err e => (Err e, w)
                  | Ok status => if (200 <=? status)%N && (status <? 300)%N then (Ok tt, w) else (Err (UploadRefused status), w)
                  end
              end
          end
      end
  end.
End Put.

(** * What is sent *)

Lemma send_ok bytes w u w' : send bytes w = (Ok u, w') →
  written w' = written w ++ bytes ∧ left w' = left w.
Proof. unfold send. destruct (writes w) as [|[[n e]|] ws]; intros H; by simplify_eq. Qed.

Lemma read_ok want w bytes w' : read_file want w = (Ok bytes, w') →
  written w' = written w ∧ left w = bytes ++ left w' ∧ length bytes ≤ want ∧ (bytes = [] → want = 0 ∨ left w = []).
Proof.
  assert (∀ n, n ≤ want → (n = 0 → want = 0) → length (take n (left w)) ≤ want ∧ (take n (left w) = [] → want = 0 ∨ left w = [])) as Hn.
  { intros n Hn Hz. rewrite length_take. split; [lia|]. intros H. destruct n; [left; auto|]. right. by destruct (left w). }
  unfold read_file. destruct (cuts w) as [|[n|e] cs]; intros H; simplify_eq; cbn [written left];
    (split_and!; [done|by rewrite take_drop|apply Hn; lia|apply Hn; lia]).
Qed.

Lemma put_loop_ok fuel sent size w u w' :
  (size <= sent + N.of_nat fuel)%N → put_loop fuel sent size w = (Ok u, w') →
  ∃ body, written w' = written w ++ body ∧ left w = body ++ left w' ∧ ((sent <= size) → sent + N.of_nat (length body) = size)%N.
Proof.
  revert sent w. induction fuel as [|fuel IH]; intros sent w Hf H; cbn [put_loop] in H.
  { simplify_eq. exists []. rewrite app_nil_r. split_and!; [done|done|cbn; lia]. }
  destruct (sent <? size)%N eqn:El; cbn [negb] in H; [apply N.ltb_lt in El|apply N.ltb_ge in El].
  2:{ simplify_eq. exists []. rewrite app_nil_r. split_and!; [done|done|cbn; lia]. }
  set (want := N.to_nat _) in H. destruct (read_file want w) as [[bytes|e] w1] eqn:Er; [|done].
  destruct (read_ok _ _ _ _ Er) as (H1 & H2 & H3 & _). destruct bytes as [|x bytes]; [done|].
  destruct (send _ w1) as [[v|e] w2] eqn:Es; [|done]. destruct (send_ok _ _ _ _ Es) as [H4 H5].
  assert (N.of_nat want <= size - sent)%N as Hw by (unfold want; lia).
  apply IH in H as (body & B1 & B2 & B3); [|cbn [length] in *; lia]. cbn [written left] in B1, B2.
  exists ((x :: bytes) ++ body). rewrite B1, H4, H1, H2, <- H5, B2, !app_assoc. split_and!; [done|done|].
  intros _. rewrite length_app. lia.
Qed.

(** An upload that is reported to have worked sent the whole file and nothing
    else: the head, then every byte of it, as many as were announced, whatever
    pieces it was read in. *)
Theorem upload_whole (parse_head : list N → Head) (slot : Slot) (size : N) (ct : str) (flushed : option UploadError)
    (answers : Reads) (w w' : Wire) (u : unit) :
  put parse_head slot size ct flushed answers w = (Ok u, w') →
  written w' = written w ++ request_head slot size ct ++ left w ∧ N.of_nat (length (left w)) = size.
Proof.
  unfold put. intros H. destruct (send _ w) as [[v|e] w1] eqn:Es; [|done]. destruct (send_ok _ _ _ _ Es) as [H1 H2].
  destruct (put_loop _ 0 size w1) as [[v'|e] w2] eqn:Ep; [|done].
  apply put_loop_ok in Ep as (body & B1 & B2 & B3); [|lia].
  destruct flushed; [done|]. destruct (read_file 1 w2) as [[[|x bytes]|e] w3] eqn:Er; try done.
  destruct (read_ok _ _ _ _ Er) as (R1 & R2 & _ & R3). destruct (R3 eq_refl) as [|R4]; [done|].
  destruct (read_status _ _ _) as [status|]; [|done]. destruct (_ && _); [|done]. simplify_eq.
  rewrite R4, app_nil_r in B2. rewrite R1, B1, H1, <- H2, B2, app_assoc. split; [done|]. specialize (B3 (N.le_0_l _)). lia.
Qed.

Definition example_slot : Slot :=
  mkSlot (mkUrl (lit "https") [] None (Some (Domain (lit "up.example.org"))) None None (lit "/f") None []) [] [].
(** A response head, for the example: anything that starts like one is whole. *)
Definition example_head (bytes : list N) : Head :=
  if starts_with (lit "HTTP/1.1 201") bytes then Complete 16 (Some 201%N) else Partial.
Definition example_wire : Wire := mkWire [] [] (lit "hello") [Ok 2; Ok 1] [].

Lemma upload_whole_witness :
  let answers := [Ok (lit "HTTP"); Ok (lit "/1.1 201 Created")] in
  (put example_head example_slot 5 (lit "text/plain") None answers example_wire).1 = Ok tt ∧
  written (put example_head example_slot 5 (lit "text/plain") None answers example_wire).2
    = [] ++ request_head example_slot 5 (lit "text/plain") ++ lit "hello".
Proof.
  split; [vm_compute; reflexivity|].
  refine (proj1 (upload_whole example_head example_slot 5 (lit "text/plain") None
    [Ok (lit "HTTP"); Ok (lit "/1.1 201 Created")] example_wire _ tt _)).
  vm_compute. reflexivity.
Defined.

(** * What a slot is checked for *)

(** A value that can be put in a header: one line, in ASCII. *)
Definition one_line (s : str) : Prop := Forall (λ c, is_control c = false ∧ (c < 128)%N) s.

Lemma parse_https_safe parse_url is_ip address url :
  parse_https parse_url is_ip address = Ok url →
  parse_url address = Some url ∧ scheme url = lit "https" ∧ url_username url = [] ∧ url_password url = None ∧
  fragment url = None ∧ (∀ name, url_host url = Some (Domain name) → is_ip name = false).
Proof.
  unfold parse_https. intros H. destruct (Nat.ltb _ _); [done|]. destruct (parse_url address) as [x|]; [|done].
  destruct (_ || _) eqn:E in H; [done|]. rewrite !orb_false_iff in E. destruct E as ((((E1 & E2) & E3) & E4) & E5).
  assert (x = url ∧ ∀ name, url_host x = Some (Domain name) → is_ip name = false) as [-> Hip].
  { destruct (url_host x) as [[name|]|] eqn:Eh; [destruct (is_ip name) eqn:Ei; [done|]|..]; simplify_eq; (split; [done|]);
      intros n Hn; by simplify_eq. }
  apply negb_false_iff, bool_decide_eq_true in E1. apply negb_false_iff in E2.
  split_and!; [done|done|by destruct (url_username url)|by destruct (url_password url)|by destruct (fragment url)|done].
Qed.

(** An upload goes to an address whose host is a name, over [https], with no
    credentials, and a name that is the account's own domain or below it, or
    else a name of several parts that is not this machine's; and no header the
    server asks for can break out of its line. *)
Theorem slot_safe (parse_url : str → option Url) (is_ip : str → bool) (r : SlotResult) (domain : str) (s : Slot) :
  check_slot parse_url is_ip r domain = Ok s →
  parse_url (put_url r) = Some (slot_put s) ∧ scheme (slot_put s) = lit "https" ∧
  url_username (slot_put s) = [] ∧ url_password (slot_put s) = None ∧
  (∃ name, url_host (slot_put s) = Some (Domain name) ∧ is_ip name = false ∧
     ((plain_name domain ≠ [] ∧ (plain_name name = plain_name domain ∨ ends_with (lit "." ++ plain_name domain) (plain_name name) = true)) ∨
      (contains_char (ch ".") (plain_name name) = true ∧ plain_name name ≠ lit "localhost" ∧
       ends_with (lit ".localhost") (plain_name name) = false))) ∧
  length (slot_headers s) ≤ MAX_HEADERS ∧ Forall (λ h, one_line h.2) (slot_headers s).
Proof.
  unfold check_slot. intros H. destruct (parse_https _ _ (put_url r)) as [put|] eqn:E1; [|done].
  destruct (parse_https _ _ (get_url r)) as [get|]; [|done].
  apply parse_https_safe in E1 as (P1 & P2 & P3 & P4 & _ & P6).
  destruct (url_host put) as [[name|]|] eqn:Eh; [|done..].
  destruct (host_allowed name domain) eqn:Ea; cbn [negb] in H; [|done].
  destruct (Nat.ltb _ _) eqn:El in H; [done|]. destruct (forallb _ _) eqn:Ef; cbn [negb] in H; [|done]. simplify_eq.
  cbn [slot_put slot_headers]. rewrite length_map. apply Nat.ltb_ge in El.
  split_and!; try done.
  - exists name. split_and!; [done|by apply P6|]. unfold host_allowed in Ea.
    rewrite negb_true_iff, andb_false_iff, negb_false_iff, andb_true_iff, negb_true_iff in Ea.
    destruct Ea as [[E1 E2]|E2].
    + left. split; [by destruct (plain_name domain)|]. apply orb_true_iff in E2 as [E2|E2]; [left|by right].
      by apply bool_decide_eq_true in E2.
    + right. rewrite !orb_false_iff, negb_false_iff, bool_decide_eq_false in E2. tauto.
  - apply Forall_map, Forall_forall. intros h Hh. cbn [snd]. rewrite forallb_forall in Ef.
    assert (header_ok h = true) as Hok by (apply Ef; by apply list_elem_of_In).
    unfold header_ok in Hok. rewrite negb_true_iff, !orb_false_iff in Hok. destruct Hok as [_ Hok].
    apply Forall_forall. intros c Hc. apply not_true_iff_false in Hok.
    destruct (is_control c || negb (is_ascii c)) eqn:Ec.
    + exfalso. apply Hok, existsb_exists. exists c. split; [by apply list_elem_of_In|done].
    + apply orb_false_iff in Ec as [Ec1 Ec2]. apply negb_false_iff, N.ltb_lt in Ec2. done.
Qed.

Definition example_urls (s : str) : option Url :=
  if starts_with (lit "https://up.example.org/") s
  then Some (mkUrl (lit "https") [] None (Some (Domain (lit "up.example.org"))) None None (lit "/f") None s) else None.

Lemma slot_safe_witness :
  ∃ s, check_slot example_urls (λ _, false) (mkSlotResult (lit "https://up.example.org/f") [(lit "Authorization", lit " x ")] (lit "https://up.example.org/g"))
         (lit "example.org") = Ok s ∧
       slot_headers s = [(lit "Authorization", lit "x")] ∧ Forall (λ h, one_line h.2) (slot_headers s).
Proof.
  eexists. split; [vm_compute; reflexivity|]. split; [vm_compute; reflexivity|].
  refine (proj2 (proj2 (proj2 (proj2 (proj2 (proj2 (slot_safe example_urls (λ _, false)
    (mkSlotResult (lit "https://up.example.org/f") [(lit "Authorization", lit " x ")] (lit "https://up.example.org/g"))
    (lit "example.org") _ _))))))).
  vm_compute. reflexivity.
Defined.

(** * The address blocks *)

(** A block of IPv4 addresses: its first address and the length of its prefix. *)
Definition number (a b c d : N) : N := ((a * 256 + b) * 256 + c) * 256 + d.
Definition in_block (n : N) (block : N * N) : Prop := (n / 2 ^ (32 - block.2) = block.1 / 2 ^ (32 - block.2))%N.
Definition special_blocks : list (N * N) :=
  [ (number 0 0 0 0, 8); (number 10 0 0 0, 8); (number 100 64 0 0, 10); (number 127 0 0 0, 8); (number 169 254 0 0, 16);
    (number 172 16 0 0, 12); (number 192 0 0 0, 24); (number 192 0 2 0, 24); (number 192 168 0 0, 16);
    (number 198 18 0 0, 15); (number 198 51 100 0, 24); (number 203 0 113 0, 24); (number 224 0 0 0, 4);
    (number 240 0 0 0, 4) ]%N.

(** A block is told by its first octets: whole ones, or part of one. *)
Lemma number_div8 a b c d : (d < 256 → number a b c d / 256 = (a * 256 + b) * 256 + c)%N.
Proof. intros H. symmetry. apply (N.div_unique _ _ _ d); unfold number; lia. Qed.
Lemma number_div16 a b c d : (c < 256 → d < 256 → number a b c d / 65536 = a * 256 + b)%N.
Proof. intros Hc Hd. symmetry. apply (N.div_unique _ _ _ (c * 256 + d)); unfold number; lia. Qed.
Lemma number_div_more k a b c d : (c < 256 → d < 256 → k ≠ 0 → number a b c d / (65536 * k) = (a * 256 + b) / k)%N.
Proof. intros Hc Hd Hk. by rewrite <- N.Div0.div_div, number_div16. Qed.

Definition octets (a b c d : N) : Prop := (b < 256 ∧ c < 256 ∧ d < 256)%N.
Lemma block_more k len a b c d x y z w : (2 ^ (32 - len) = 65536 * k → k ≠ 0)%N → (2 ^ (32 - len) = 65536 * k)%N →
  octets a b c d → octets x y z w →
  in_block (number a b c d) (number x y z w, len) ↔ ((a * 256 + b) / k = (x * 256 + y) / k)%N.
Proof. intros Hk He (? & ? & ?) (? & ? & ?). unfold in_block. cbn [fst snd]. rewrite He, !number_div_more by auto. done. Qed.
Lemma block8 a b c d x : octets a b c d → in_block (number a b c d) (number x 0 0 0, 8%N) ↔ a = x.
Proof.
  intros H. rewrite (block_more 256) by (done || (split; lia)). destruct H as (? & _ & _).
  rewrite !N.div_add_l, !(N.div_small _ 256) by lia. lia.
Qed.
Lemma block16 a b c d x y : octets a b c d → (y < 256)%N → in_block (number a b c d) (number x y 0 0, 16%N) ↔ a = x ∧ b = y.
Proof. intros H Hy. rewrite (block_more 1) by (done || (split; lia)). rewrite !N.div_1_r. destruct H. lia. Qed.
Lemma block24 a b c d x y z : octets a b c d → (y < 256)%N → (z < 256)%N →
  in_block (number a b c d) (number x y z 0, 24%N) ↔ a = x ∧ b = y ∧ c = z.
Proof.
  intros (? & ? & ?) Hy Hz. unfold in_block. cbn [fst snd]. change (2 ^ (32 - 24))%N with 256%N.
  rewrite !number_div8 by lia. lia.
Qed.

(** One of several alternatives, each a matter of arithmetic. *)
Ltac one_of :=
  lazymatch goal with |- _ ∨ _ => first [left; one_of|right; one_of] | |- _ => lia end.

(** An address is taken for one of the public internet exactly when it is in
    none of the blocks set aside for something else. *)
Theorem public_v4_exact (a b c d : N) :
  (a < 256)%N → octets a b c d →
  is_public_v4 a b c d = true ↔ Forall (λ block, ¬ in_block (number a b c d) block) special_blocks.
Proof.
  intros Ha Ho. unfold special_blocks. rewrite !Forall_cons, Forall_nil.
  rewrite !block8, !block16, !block24 by (done || lia).
  rewrite (block_more 64 10), (block_more 16 12), (block_more 2 15), !(block_more 4096 4) by (done || (split; lia)).
  unfold is_public_v4, is_unspecified4, is_loopback4, is_private4, is_link_local4, is_broadcast4, is_multicast4, is_documentation4.
  rewrite negb_true_iff, <- not_true_iff_false.
  repeat first [rewrite orb_true_iff|rewrite andb_true_iff]. rewrite !N.eqb_eq, !N.leb_le. destruct Ho as (? & ? & ?).
  assert (∀ n k x, k ≠ 0 → n / k = x ↔ k * x <= n ∧ n < k * x + k)%N as Hdiv.
  { intros n k x Hk. pose proof (N.div_mod n k Hk) as E1. pose proof (N.mod_lt n k Hk) as E2. split; [intros <-; clear -E1 E2; set (q := (n / k)%N) in *; set (r := (n mod k)%N) in *; lia|].
    intros [L1 L2]. symmetry. apply (N.div_unique _ _ _ (n - k * x)); clear -L1 L2; lia. }
  rewrite !Hdiv by lia.
  change ((100 * 256 + 64) / 64)%N with 401%N. change ((172 * 256 + 16) / 16)%N with 2753%N.
  change ((198 * 256 + 18) / 2)%N with 25353%N. change ((224 * 256 + 0) / 4096)%N with 14%N.
  change ((240 * 256 + 0) / 4096)%N with 15%N. split.
  - intros Hn. clear Hdiv. split_and!; try done; intros Hb; apply Hn; clear Hn; one_of.
  - intros Hn Hb. clear Hdiv. destruct_and! Hn. 
    destruct_or! Hb; match goal with H : ¬ _ |- _ => solve [apply H; clear H; repeat match goal with G : ¬ _ |- _ => clear G end; lia] end.
Qed.

Lemma public_v4_exact_witness :
  is_public_v4 8 8 8 8 = true ∧ Forall (λ block, ¬ in_block (number 8 8 8 8) block) special_blocks.
Proof.
  split; [vm_compute; reflexivity|]. apply (public_v4_exact 8 8 8 8); [lia|split; lia|vm_compute; reflexivity].
Defined.
