(* ===== verification/Xmpp.v ===== *)
(** XMPP addresses and accounts ([ddirc-core/src/xmpp/config.rs]), and the
    stanzas that come and go.

    Addresses are parsed and normalised by another crate, so its parser is a
    parameter; two addresses are the same when their texts are. A stanza that
    arrives is what the source reads of it; one that is sent is what the source
    puts in it. *)
From S2P Require Import Prelude RustStr Transfer ServerConfig Room Contacts Upload.

(** * Addresses *)

Record Jid := mkJid { node : option str; domain : str; resource : option str }.
#[export] Instance Jid_eq_dec : EqDecision Jid.
Proof. solve_decision. Defined.

Definition to_bare (j : Jid) : Jid := mkJid (node j) (domain j) None.
Definition show (j : Jid) : str :=
  (match node j with Some n => n ++ lit "@" | None => [] end) ++ domain j ++
  (match resource j with Some r => lit "/" ++ r | None => [] end).
Definition bare (j : Jid) : str := show (to_bare j).

Section Addresses.
Context (parse_jid : str → option Jid).

(** [str::parse::<BareJid>]: an address with a resource is not one. *)
Definition parse_bare (s : str) : option Jid :=
  j ← parse_jid s; if is_some (resource j) then None else Some j.

(** * Accounts *)

Definition DEFAULT_TLS_PORT : N := 5223.
Definition STARTTLS_PORT : N := 5222.

Inductive XmppConfigError :=
  | InvalidJid | NoLocalPart | EmptyPassword | XmppEmptyHost | PortZero | StartTlsPort
  | InvalidRoom (room : str)
  | Common (e : ConfigError).

Record XmppConfig := mkXmppConfig {
  xc_jid : str;
  xc_password : str;
  xc_host : option str;
  xc_port : option N;
  xc_rooms : list str;
  xc_nickname : option str;
  xc_extra_root_cert : option str;
  xc_proxy : option ProxyConfig;
}.

Definition bare_jid (c : XmppConfig) : result Jid XmppConfigError :=
  match parse_bare (trim (xc_jid c)) with
  | None => Err InvalidJid
  | Some j => if is_some (node j) then Ok j else Err NoLocalPart
  end.

Definition config_domain (c : XmppConfig) : result str XmppConfigError :=
  match bare_jid c with Ok j => Ok (domain j) | Err e => Err e end.

Definition dial_host (c : XmppConfig) : result str XmppConfigError :=
  match xc_host c with Some h => Ok (trim h) | None => config_domain c end.

Definition dial_port (c : XmppConfig) : N := default DEFAULT_TLS_PORT (xc_port c).

Definition room_nick (c : XmppConfig) : str :=
  let from_jid := match bare_jid c with Ok j => default [] (node j) | Err _ => [] end in
  match xc_nickname c with
  | Some n => if is_empty (trim n) then from_jid else trim n
  | None => from_jid
  end.

(** A room's address has a name before the [@]. *)
Definition is_room_address (s : str) : bool :=
  match parse_bare (trim s) with Some j => is_some (node j) | None => false end.

Definition validate_xmpp (is_file : str → bool) (c : XmppConfig) : result unit XmppConfigError :=
  match bare_jid c with
  | Err e => Err e
  | Ok _ =>
      if is_empty (xc_password c) then Err EmptyPassword
      else if match xc_host c with Some h => is_empty (trim h) | None => false end then Err XmppEmptyHost
      else if bool_decide (xc_port c = Some 0%N) then Err PortZero
      else if bool_decide (xc_port c = Some STARTTLS_PORT) then Err StartTlsPort
      else
        match List.find (λ r, negb (is_room_address r)) (xc_rooms c) with
        | Some room => Err (InvalidRoom room)
        | None =>
            match (match xc_extra_root_cert c with Some p => if is_file p then None else Some p | None => None end) with
            | Some p => Err (Common (MissingRootCert p))
            | None =>
                match dial_host c with
                | Err e => Err e
                | Ok host =>
                    match xc_proxy c with
                    | Some p => match validate_proxy p with Ok _ => Ok tt | Err e => Err (Common e) end
                    | None =>
                        if ends_with (lit ".onion") (to_ascii_lowercase (trim_end_matches (N.eqb (ch ".")) host))
                        then Err (Common (OnionWithoutProxy host)) else Ok tt
                    end
                end
            end
        end
  end.

(** An account that is accepted has a name, is not dialled at a port that starts
    in plaintext, and an onion address is only dialled through a proxy. *)
Lemma validate_xmpp_accepts is_file c :
  validate_xmpp is_file c = Ok tt →
  ∃ j, bare_jid c = Ok j ∧ is_Some (node j) ∧ resource j = None ∧ xc_password c ≠ [] ∧
       dial_port c ≠ STARTTLS_PORT ∧ dial_port c ≠ 0%N ∧
       (xc_proxy c = None → ∀ h, dial_host c = Ok h →
          ends_with (lit ".onion") (to_ascii_lowercase (trim_end_matches (N.eqb (ch ".")) h)) = false).
Proof.
  unfold validate_xmpp. intros H. destruct (bare_jid c) as [j|] eqn:Ej; [|done]. exists j.
  destruct (is_empty (xc_password c)) eqn:Ep; [done|]. destruct (match xc_host c with Some _ => _ | None => _ end); [done|].
  case_bool_decide as P0; [done|]. case_bool_decide as P1; [done|]. destruct (List.find _ _); [done|].
  destruct (match xc_extra_root_cert c with Some _ => _ | None => _ end); [done|].
  assert (is_Some (node j) ∧ resource j = None) as [Hn Hr].
  { unfold bare_jid, parse_bare in Ej. destruct (parse_jid _) as [x|]; [|done]. cbn in Ej.
    destruct (resource x) eqn:Er; cbn in Ej; [done|]. destruct (node x) eqn:En; cbn in Ej; [|done]. simplify_eq.
    by rewrite En, Er. }
  split_and!; [done|done|done|by destruct (xc_password c)|..].
  - unfold dial_port. destruct (xc_port c) as [p|]; [|done]. cbn. intros ->. by apply P1.
  - unfold dial_port. destruct (xc_port c) as [p|]; [|done]. cbn. intros ->. by apply P0.
  - intros Hp h Hh. rewrite Hh, Hp in H. by destruct (ends_with _ _).
Qed.
End Addresses.

(** * Stanzas that arrive *)

Inductive DefinedCondition :=
  | Conflict | Forbidden | NotAuthorized | RegistrationRequired | ItemNotFound | NotAllowed | ServiceUnavailable
  | RemoteServerNotFound | RemoteServerTimeout | ResourceConstraint | RecipientUnavailable | OtherCondition.
#[export] Instance DefinedCondition_eq_dec : EqDecision DefinedCondition.
Proof. solve_decision. Defined.

Inductive MucStatus :=
  | SelfPresence | NewNick | Banned | Kicked | RemovalFromRoom | ConfigMembersOnly | ServiceShutdown | OtherStatus.
#[export] Instance MucStatus_eq_dec : EqDecision MucStatus.
Proof. solve_decision. Defined.

(** The first item of a [MucUser]. *)
Record MucItem := mkMucItem { mi_affiliation : Affiliation; mi_role : Role; mi_nick : option str; mi_reason : option str }.
Record MucUser := mkMucUser { mu_status : list MucStatus; mu_item : option MucItem }.

Inductive XPresenceType := XNone | XUnavailable | XError | XSubscribe | XUnsubscribe | XOther.
#[export] Instance XPresenceType_eq_dec : EqDecision XPresenceType.
Proof. solve_decision. Defined.
Record XPresence := mkXPresence {
  xp_from : option Jid;
  xp_type : XPresenceType;
  xp_show : option Show;
  xp_statuses : list str;
  xp_priority : Z;
  xp_user : option MucUser;
  xp_error : option DefinedCondition;
}.

Inductive MessageType := Groupchat | ErrorMessage | Chat | Normal | Headline.
#[export] Instance MessageType_eq_dec : EqDecision MessageType.
Proof. solve_decision. Defined.

(** A message without what may be wrapped in it: the first valid payload of each
    kind, the best body and subject, the [id] attribute. *)
Record Said := mkSaid {
  sd_from : option Jid;
  sd_to : option Jid;
  sd_type : MessageType;
  sd_id : option str;
  sd_body : option str;
  sd_subject : option str;
  sd_delay : option Z;
  sd_stanza_id : option (Jid * str);
  sd_origin_id : option str;
  sd_retract : option str;
  sd_replace : option str;
}.
Record Forwarded := mkForwarded { fw_delay : option Z; fw_message : Said }.
Record MamResult := mkMam { mam_queryid : option str; mam_id : str; mam_forwarded : Forwarded }.
Record XMessage := mkXMessage {
  xm_said : Said;
  xm_error : option DefinedCondition;
  xm_mam : option MamResult;
  xm_received : option Forwarded;
  xm_sent : option Forwarded;
}.

(** The payload of a request, and of an answer. *)
Inductive Request := Ping | RosterRequest (items : option (list Item)) | OtherRequest.
Inductive Answer :=
  | Fin (complete : bool) (last : option str)
  | RosterAnswer (items : list Item)
  | ItemsAnswer (items : list (Jid * option str))
  | InfoAnswer (info : Info)
  | SlotAnswer (slot : SlotResult)
  | OtherAnswer.
Inductive Iq :=
  | IqGet (from : option Jid) (id : str) (payload : Request)
  | IqSet (from : option Jid) (id : str) (payload : Request)
  | IqResult (from : option Jid) (id : str) (payload : option Answer)
  | IqError (from : option Jid) (id : str) (condition : DefinedCondition).

Inductive XStanza := MessageStanza (m : XMessage) | PresenceStanza (p : XPresence) | IqStanza (i : Iq).

(** * Stanzas that are sent *)

Inductive OutType := OutAvailable | OutUnavailable | OutSubscribe | OutSubscribed | OutUnsubscribed.
Record OutPresence := mkOutPresence {
  op_to : option str;
  op_type : OutType;
  op_show : option Show;
  op_status : option str;
  op_muc : option (option str);      (* joining a room, with its password *)
}.
Record OutMessage := mkOutMessage {
  om_to : str;
  om_group : bool;
  om_id : str;
  om_origin : bool;                  (* the id is also the [origin-id] *)
  om_body : option str;
  om_subject : option str;
  om_oob : option str;
  om_replace : option str;
  om_xml : list str;                 (* payloads written out *)
}.
Inductive Query :=
  | EnableCarbons | RosterQuery (items : list Item) | ItemsQuery | InfoQuery
  | SlotRequest (filename : str) (size : N) (content_type : str)
  | RawQuery (xml : str)
  | ArchiveQuery (queryid : str) (start after : option str) (max : nat).
Inductive OutStanza :=
  | OutGet (id : str) (to : option str) (q : Query)
  | OutSet (id : str) (to : option str) (q : Query)
  | OutResult (to id : str)
  | OutDeclined (to : option str) (id : str)     (* [service-unavailable] *)
  | OutPresenceStanza (p : OutPresence)
  | OutMessageStanza (m : OutMessage).
