(* ===== verification/Diagnose.v ===== *)
(** A failed connection, in words ([ddirc-core/src/conn/diagnose.rs]).

    The errors are those of other crates: their variants are the ones the
    source tells apart, an I/O error is its kind, its text and its code, and
    what the crates print for an error and its causes are parameters. *)
From S2P Require Import Prelude RustStr Transfer ServerConfig.

Inductive IoKind :=
  | ConnectionRefused | TimedOut | ConnectionReset | ConnectionAborted | PermissionDenied | UnexpectedEof | OtherKind.
#[export] Instance IoKind_eq_dec : EqDecision IoKind.
Proof. solve_decision. Defined.

Record IoError := mkIo { io_kind : IoKind; io_text : str; raw_os_error : option Z }.

Inductive SocksError :=
  | ProxyServerUnreachable
  | SocksIo (io : IoError)
  | InvalidResponseVersion | UnknownAddressType
  | PasswordAuthFailure | NoAcceptableAuthMethods | UnknownAuthMethod | AuthorizationRequired
  | InvalidAuthValues (detail : str)
  | SocksRefused
  | HostUnreachable | NetworkUnreachable | ConnectionNotAllowedByRuleset | TtlExpired | GeneralSocksServerFailure
  | InvalidTargetAddress (detail : str)
  | CommandNotSupported | AddressTypeNotSupported
  | OtherSocks (tag : N).

Inductive IrcError :=
  | IrcIo (io : IoError)
  | IrcProxy (socks : SocksError)
  | Tls
  | InvalidDnsName
  | PingTimeout
  | NoUsableNick
  | OtherError (tag : N).

Definition TOR_SOCKS_PORT : N := 9050.

(** [str::contains] of a string, and [rfind] of a character. *)
Fixpoint contains_str (pat s : str) : bool :=
  starts_with pat s || match s with [] => false | _ :: s => contains_str pat s end.
Fixpoint after_last (c : char) (s : str) : option str :=
  match s with
  | [] => None
  | x :: s => match after_last c s with Some r => Some r | None => if (x =? c)%N then Some s else None end
  end.

Definition dash : str := [0x2014%N].
Definition at_port (host : str) (port : N) : str := host ++ lit ":" ++ to_dec port.

(** * The server's parting words *)

Definition closing_link_reason (text : str) : option str :=
  rest ← (match strip_prefix (lit "Closing Link:") text with
          | Some r => Some r
          | None => strip_prefix (lit "Closing link:") text
          end);
  let rest := trim_end rest in
  last_ ← last rest;
  open_ ← (if (last_ =? ch ")")%N then Some (ch "(") else if (last_ =? ch "]")%N then Some (ch "[") else None);
  after_last open_ (take (length rest - 1) rest).

Definition explain_farewell (text : str) (c : ServerConfig) : str :=
  let reason := trim (default text (closing_link_reason text)) in
  let reason := if is_empty reason then trim text else reason in
  host c ++ lit " closed the connection: " ++ reason ++
  (if contains_str (lit "sasl") (to_ascii_lowercase reason) && negb (is_some (sasl_account c))
   then lit " This network requires an account from your address. Register a nickname with it, then " ++
        lit "add the account and password to this network's SASL settings."
   else []).

Definition is_refusal (farewell : str) : bool :=
  let text := to_ascii_lowercase farewell in
  contains_str (lit "sasl") text || contains_str (lit "-lined") text || contains_str (lit "banned") text.

(** * What the network said *)

Definition label (p : ProxyConfig) : str := at_port (px_host p) (px_port p).

Definition tor_hint (p : ProxyConfig) : str :=
  if (px_port p =? TOR_SOCKS_PORT)%N then lit " If this is Tor, check that it is running." else [].

Definition certificate_problem (io : IoError) : option str :=
  let text := to_ascii_lowercase (io_text io) in
  if negb (contains_str (lit "certificate") text) then None
  else Some
    (if contains_str (lit "unknownissuer") text then lit "no trusted authority signed it"
     else if contains_str (lit "not valid for name") text || contains_str (lit "notvalidforname") text
     then lit "it is not valid for this hostname"
     else if contains_str (lit "expired") text then lit "it has expired"
     else lit "it was rejected " ++ dash ++ lit " " ++ io_text io).

Definition is_abrupt_close (io : IoError) : bool := contains_str (lit "close_notify") (io_text io).

Definition is_dns_failure (io : IoError) : bool :=
  if bool_decide (raw_os_error io = Some 11001%Z) then true
  else
    let text := to_ascii_lowercase (io_text io) in
    contains_str (lit "lookup address") text || contains_str (lit "name or service not known") text
    || contains_str (lit "nodename nor servname") text || contains_str (lit "no such host") text.

Definition explain_io (io : IoError) (host : str) (port : N) (proxy : option ProxyConfig) (onion : bool) : str :=
  let at_ := at_port host port in
  match certificate_problem io with
  | Some reason =>
      let advice := if onion
        then lit "An onion service needs a certificate issued for its own .onion name; one for the operator's " ++
             lit "ordinary domain will not do."
        else lit "If it is a private or self-signed server, nothing here vouches for it yet." in
      at_ ++ lit " presented a certificate this machine does not trust (" ++ reason ++ lit "). " ++ advice ++
      lit " ddIRC has no way to skip this check, by design."
  | None =>
      if is_abrupt_close io then
        let via := match proxy with Some p => lit " (through the proxy at " ++ label p ++ lit ")" | None => [] end in
        at_ ++ lit " closed the connection abruptly" ++ via ++
        lit ", without shutting the encrypted session down cleanly. Servers do this when they restart, when " ++
        lit "they are full, or when a client is banned."
      else
        match proxy with
        | Some p =>
            lit "The connection to " ++ at_ ++ lit " through the proxy at " ++ label p ++
            lit " failed after the tunnel was open: " ++ io_text io
        | None =>
            match io_kind io with
            | ConnectionRefused =>
                at_ ++ lit " refused the connection. The server may be down, or the port may be wrong " ++ dash ++
                lit " IRC over TLS is usually 6697."
            | TimedOut =>
                at_ ++ lit " did not answer in time. The address may be wrong, or a firewall may be dropping the connection."
            | ConnectionReset | ConnectionAborted =>
                host ++ lit " closed the connection. Servers do this when they are full, when the client is banned, " ++
                lit "or when a K-line is in force."
            | PermissionDenied =>
                lit "This machine refused to open a connection to " ++ at_ ++
                lit ". A firewall or a network policy is usually the reason."
            | _ =>
                if is_dns_failure io then
                  lit "Could not find '" ++ host ++ lit "'. Check the address for a typo, and check that this machine " ++
                  lit "has a working internet connection."
                else lit "Could not reach " ++ at_ ++ lit ": " ++ io_text io
            end
        end
  end.

Section Explain.
Context (show_socks : SocksError → str) (causes : IrcError → list str).

(** [chain]: an error and its causes, without repeating one. *)
Definition chain (texts : list str) : str :=
  join (lit ": ") (foldl (λ parts text, if bool_decide (text ∈ parts) then parts else parts ++ [text]) [] texts).

Definition explain_socks (e : SocksError) (p : ProxyConfig) (host : str) (port : N) : str :=
  let at_ := label p in
  let there := at_port host port in
  let hop_two := lit "The proxy at " ++ at_ in
  let other := lit "The proxy at " ++ at_ ++ lit " failed: " ++ show_socks e in
  match e with
  | ProxyServerUnreachable =>
      lit "Could not reach the proxy at " ++ at_ ++ lit ", so nothing was sent to " ++ host ++
      lit ". Check that the proxy is running and listening on that port." ++ tor_hint p
  | SocksIo io =>
      if bool_decide (io_kind io = UnexpectedEof) then
        lit "The proxy at " ++ at_ ++ lit " accepted the connection and then closed it without answering. Something is " ++
        lit "listening on that port, but it is not serving SOCKS5 " ++ dash ++
        lit " a proxy that is starting up or has just stopped looks like this."
      else other
  | InvalidResponseVersion | UnknownAddressType =>
      lit "Whatever is listening at " ++ at_ ++ lit " did not answer as a SOCKS5 proxy. An HTTP proxy or an ordinary " ++
      lit "web server on that port would look exactly like this " ++ dash ++ lit " ddIRC speaks SOCKS5 only."
  | PasswordAuthFailure | NoAcceptableAuthMethods | UnknownAuthMethod | AuthorizationRequired =>
      lit "The proxy at " ++ at_ ++ lit " refused the username and password. Check them in the network's proxy settings " ++
      dash ++ lit " leave both blank if the proxy does not ask for credentials."
  | InvalidAuthValues detail =>
      lit "The proxy credentials are not usable: " ++ detail ++ lit ". SOCKS5 allows 1 to 255 bytes for each."
  | SocksRefused =>
      hop_two ++ lit " reached " ++ there ++ lit " and the connection was refused. The server may be down, or the port " ++
      lit "may be wrong " ++ dash ++ lit " IRC over TLS is usually 6697."
  | HostUnreachable =>
      hop_two ++ lit " could not reach " ++ host ++ lit ". If the address is right, the problem is on the proxy's side " ++
      lit "of the network, not this one."
  | NetworkUnreachable => hop_two ++ lit " has no route to " ++ there ++ lit "."
  | ConnectionNotAllowedByRuleset =>
      hop_two ++ lit " refused to connect to " ++ there ++ lit ". Its rules do not permit that destination."
  | TtlExpired => hop_two ++ lit " gave up on the way to " ++ there ++ lit "."
  | GeneralSocksServerFailure =>
      hop_two ++ lit " could not connect to " ++ there ++ lit ", and did not say why. A name it cannot resolve is the " ++
      lit "usual cause."
  | InvalidTargetAddress detail => lit "'" ++ host ++ lit "' cannot be sent to a SOCKS5 proxy: " ++ detail ++ lit "."
  | CommandNotSupported | AddressTypeNotSupported =>
      hop_two ++ lit " does not support what ddIRC asked of it: " ++ show_socks e ++ lit "."
  | OtherSocks _ => other
  end.

Definition explain (e : IrcError) (c : ServerConfig) : str :=
  let there := at_port (host c) (cf_port c) in
  match e with
  | IrcIo io => explain_io io (host c) (cf_port c) (cf_proxy c) (is_onion c)
  | IrcProxy socks =>
      match cf_proxy c with
      | Some p => explain_socks socks p (host c) (cf_port c)
      | None => chain (causes e)
      end
  | Tls =>
      lit "Could not agree a secure connection with " ++ there ++ lit ". If this is a private or self-signed server, its " ++
      lit "certificate is not trusted by this machine. Details: " ++ chain (causes e)
  | InvalidDnsName =>
      lit "'" ++ host c ++ lit "' is not a valid hostname, so its certificate cannot be checked. An IP address needs the " ++
      lit "certificate to list that address."
  | PingTimeout =>
      host c ++ lit " stopped responding. The connection was dropped after no reply to a ping."
  | NoUsableNick =>
      lit "Every nickname was already taken. Add alternates in the network's settings, or pick another."
  | OtherError _ => chain (causes e)
  end.
End Explain.

(** * Lemmas *)

(** A connection dropped without a clean shutdown is explained without showing
    the library's own text, which names its documentation. *)
Lemma abrupt_close_hides_text io io' host port proxy onion :
  is_abrupt_close io = true → is_abrupt_close io' = true →
  certificate_problem io = None → certificate_problem io' = None →
  explain_io io host port proxy onion = explain_io io' host port proxy onion.
Proof. intros H1 H2 H3 H4. unfold explain_io. by rewrite H3, H4, H1, H2. Qed.

(** The reason is peeled out of the usual farewell, whatever the address. *)
Lemma after_last_app c s r : contains_char c r = false → after_last c (s ++ c :: r) = Some r.
Proof.
  intros Hr. assert (after_last c r = None) as Hn.
  { induction r as [|x r IH]; [done|]. cbn in Hr |- *. apply orb_false_iff in Hr as [H1 H2].
    rewrite (IH H2). rewrite N.eqb_sym, H1. done. }
  induction s as [|x s IH]; cbn [app after_last]; [by rewrite Hn, N.eqb_refl|]. by rewrite IH.
Qed.
