(* ===== verification/RateLimit.v ===== *)
(** Flood protection in both directions, and the count of failed connections
    ([ddirc-core/src/conn/ratelimit.rs] and [reconnect.rs]).

    The buckets count in [f64], so the arithmetic is that of IEEE 754 binary64:
    the Standard Library's [SpecFloat] at 53 bits of precision, which rounds to
    nearest, ties to even, as the machine does. An [Instant] and a [Duration]
    are nanoseconds. [powf] has no specified precision, so it is a parameter. *)
From Stdlib Require Import SpecFloat.
From S2P Require Import Prelude.

(** * Floating point and time *)

Abbreviation f64 := spec_float.
Definition f64_of (z : Z) : f64 := binary_normalize 53 1024 z 0 false.
Definition fadd : f64 → f64 → f64 := SFadd 53 1024.
Definition fsub : f64 → f64 → f64 := SFsub 53 1024.
Definition fmul : f64 → f64 → f64 := SFmul 53 1024.
Definition fdiv : f64 → f64 → f64 := SFdiv 53 1024.
Definition is_finite (x : f64) : bool :=
  match x with S754_zero _ | S754_finite _ _ _ => true | _ => false end.
(** [f64::min]: the other one when one is not a number. *)
Definition fmin (x y : f64) : f64 :=
  match x, y with
  | S754_nan, _ => y
  | _, S754_nan => x
  | _, _ => if SFltb x y then x else y
  end.
Definition half : f64 := fdiv (f64_of 1) (f64_of 2).

Abbreviation Instant := N.
Abbreviation Duration := N.
Definition NANOS : N := 1000000000.
Definition secs (n : N) : Duration := (n * NANOS)%N.

Definition as_secs_f64 (d : Duration) : f64 :=
  fadd (f64_of (Z.of_N (d / NANOS))) (fdiv (f64_of (Z.of_N (d mod NANOS))) (f64_of (Z.of_N NANOS))).

(** [n / d] to the nearest whole number, ties to even. *)
Definition div_round (n d : Z) : Z :=
  let q := (n / d)%Z in
  let r := (n mod d)%Z in
  match (2 * r ?= d)%Z with Lt => q | Gt => q + 1 | Eq => if Z.even q then q else q + 1 end%Z.

(** [Duration::from_secs_f64]: to the nearest nanosecond; a negative number, one
    that is not finite or one too large panics. *)
Definition from_secs_f64 (x : f64) : option Duration :=
  match x with
  | S754_zero _ => Some 0%N
  | S754_finite false m e =>
      let nanos := (if 0 <=? e then Zpos m * 2 ^ e * Z.of_N NANOS
                    else div_round (Zpos m * Z.of_N NANOS) (2 ^ (- e)))%Z in
      if (nanos <? 2 ^ 64 * Z.of_N NANOS)%Z then Some (Z.to_N nanos) else None
  | _ => None
  end.

(** [saturating_duration_since]: the clock may go backwards. *)
Definition saturating_duration_since (now earlier : Instant) : Duration := (now - earlier)%N.

(** * The token bucket *)

Record TokenBucket := mkBucket {
  capacity : f64;
  tokens : f64;
  refill_per_sec : f64;
  last_refill : Instant;
}.
Definition set_tokens (t : f64) (b : TokenBucket) : TokenBucket :=
  mkBucket (capacity b) t (refill_per_sec b) (last_refill b).

(** [None] where the source panics. *)
Definition new_bucket (cap : N) (rate : f64) (now : Instant) : option TokenBucket :=
  if negb (0 <? cap)%N then None
  else if negb (SFltb (S754_zero false) rate && is_finite rate) then None
  else Some (mkBucket (f64_of (Z.of_N cap)) (f64_of (Z.of_N cap)) rate now).

Definition refill (now : Instant) (b : TokenBucket) : TokenBucket :=
  let elapsed := as_secs_f64 (saturating_duration_since now (last_refill b)) in
  if SFltb (S754_zero false) elapsed then
    mkBucket (capacity b) (fmin (fadd (tokens b) (fmul elapsed (refill_per_sec b))) (capacity b)) (refill_per_sec b) now
  else b.

Definition try_consume (now : Instant) (b : TokenBucket) : bool * TokenBucket :=
  let b := refill now b in
  if SFleb (f64_of 1) (tokens b) then (true, set_tokens (fsub (tokens b) (f64_of 1)) b) else (false, b).

Definition time_until_available (now : Instant) (b : TokenBucket) : option Duration * TokenBucket :=
  let b := refill now b in
  if SFleb (f64_of 1) (tokens b) then (Some 0%N, b)
  else (from_secs_f64 (fdiv (fsub (f64_of 1) (tokens b)) (refill_per_sec b)), b).

(** * Sending *)

Definition SEND_BURST : N := 5.
Definition SEND_PER_SEC : f64 := half.

Abbreviation SendLimiter := TokenBucket.
Definition new_send (now : Instant) : option SendLimiter := new_bucket SEND_BURST SEND_PER_SEC now.

Definition acquire (now : Instant) (s : SendLimiter) : option Duration * SendLimiter :=
  let '(ok, s) := try_consume now s in
  if ok then (Some 0%N, s) else time_until_available now s.

Definition wait_time (now : Instant) (s : SendLimiter) : option Duration * SendLimiter := time_until_available now s.

(** * Receiving *)

Definition RECEIVE_BURST : N := 200.
Definition RECEIVE_PER_SEC : f64 := f64_of 50.

Record ReceiveLimiter := mkReceive { bucket : TokenBucket; dropped : N }.
Definition new_receive (now : Instant) : option ReceiveLimiter :=
  b ← new_bucket RECEIVE_BURST RECEIVE_PER_SEC now; Some (mkReceive b 0).

Definition U64_MAX : N := 2 ^ 64 - 1.

Definition admit_line (now : Instant) (r : ReceiveLimiter) : bool * ReceiveLimiter :=
  let '(ok, b) := try_consume now (bucket r) in
  if ok then (true, mkReceive b (dropped r)) else (false, mkReceive b (N.min (dropped r + 1) U64_MAX)).

Definition take_dropped (r : ReceiveLimiter) : N * ReceiveLimiter := (dropped r, mkReceive (bucket r) 0).

(** * Reconnection *)

Record Backoff := mkBackoff { base : Duration; max_delay : Duration; factor : f64; attempt : N }.
Definition U32_MAX : N := 2 ^ 32 - 1.
Definition new_backoff (base max : Duration) (factor : f64) : option Backoff :=
  if SFltb (f64_of 1) factor && is_finite factor then Some (mkBackoff base max factor 0) else None.
Definition default_backoff : Backoff := mkBackoff (secs 2) (secs 300) (f64_of 2) 0.
Definition reset (b : Backoff) : Backoff := mkBackoff (base b) (max_delay b) (factor b) 0.

Section Jitter.
Context (powf : f64 → f64 → f64).

Definition window (b : Backoff) : option Duration :=
  let exponent := f64_of (Z.of_N (attempt b)) in
  let scaled := fmul (as_secs_f64 (base b)) (powf (factor b) exponent) in
  if negb (is_finite scaled) || SFleb (as_secs_f64 (max_delay b)) scaled then Some (max_delay b)
  else from_secs_f64 scaled.

(** [f64::clamp]. *)
Definition clamp (x lo hi : f64) : f64 := if SFltb x lo then lo else if SFltb hi x then hi else x.

Definition next_delay_with_jitter (jitter : f64) (b : Backoff) : option Duration * Backoff :=
  let w := window b in
  let b := mkBackoff (base b) (max_delay b) (factor b) (N.min (attempt b + 1) U32_MAX) in
  let fraction := fadd half (fmul half (clamp jitter (S754_zero false) (f64_of 1))) in
  (w ← w; from_secs_f64 (fmul (as_secs_f64 w) fraction), b).
End Jitter.

(** * Every line is handled or counted *)

(** What happens to the receive limiter: a line arrives, or the count is read. *)
Inductive ReceiveOp := Arrives (now : Instant) | Reported.
Record Tally := mkTally { limiter : ReceiveLimiter; handled : N; reported : N }.
Definition receive (t : Tally) (o : ReceiveOp) : Tally :=
  match o with
  | Arrives now =>
      let '(ok, r) := admit_line now (limiter t) in mkTally r (if ok then handled t + 1 else handled t)%N (reported t)
  | Reported => let '(n, r) := take_dropped (limiter t) in mkTally r (handled t) (reported t + n)%N
  end.
Definition arrivals (ops : list ReceiveOp) : nat :=
  length (List.filter (λ o, match o with Arrives _ => true | Reported => false end) ops).

Lemma receive_accounted t o :
  (dropped (limiter t) < U64_MAX)%N →
  let t' := receive t o in
  (handled t' + reported t' + dropped (limiter t') = handled t + reported t + dropped (limiter t) + N.of_nat (arrivals [o]))%N.
Proof.
  intros H. destruct o as [now|]; cbn; [|lia]. unfold admit_line. destruct (try_consume _ _) as [[] b]; cbn; lia.
Qed.

(** No line disappears unseen: however lines arrive and whenever the count is
    read, what was handled, what was reported dropped and what is still to be
    reported add up to what arrived. *)
Theorem flood_accounted (now : Instant) (ops : list ReceiveOp) (r : ReceiveLimiter) :
  new_receive now = Some r → (N.of_nat (length ops) <= U64_MAX)%N →
  let t := foldl receive (mkTally r 0 0) ops in
  (handled t + reported t + dropped (limiter t) = N.of_nat (arrivals ops))%N.
Proof.
  intros Hr. assert (dropped r = 0%N) as H0.
  { unfold new_receive in Hr. destruct (new_bucket _ _ _); [|done]. by injection Hr as <-. }
  clear Hr. induction ops as [|o ops IH] using rev_ind; intros Hlen; [by cbn; rewrite H0|].
  rewrite length_app in Hlen. cbn [length] in Hlen. rewrite foldl_app. cbn [foldl].
  specialize (IH ltac:(lia)). cbv zeta in IH |- *. set (t := foldl receive _ ops) in *.
  assert (arrivals ops ≤ length ops) as Ha by apply List.filter_length_le.
  rewrite receive_accounted by lia. rewrite IH. unfold arrivals. rewrite List.filter_app, length_app. lia.
Qed.

Lemma flood_accounted_witness :
  let ops := [Arrives 5; Reported; Arrives 7] in
  (λ r, let t := foldl receive (mkTally r 0 0) ops in (handled t + reported t + dropped (limiter t))%N) <$> new_receive 0
  = Some (N.of_nat (arrivals ops)).
Proof.
  destruct (new_receive 0) as [r|] eqn:E; [|discriminate E].
  exact (f_equal Some (flood_accounted 0 [Arrives 5; Reported; Arrives 7] r E ltac:(vm_compute; discriminate))).
Defined.

(** * A burst *)

Lemma as_secs_zero : SFltb (S754_zero false) (as_secs_f64 0) = false.
Proof. vm_compute. reflexivity. Qed.

(** While the clock stands still nothing is added. *)
Lemma refill_idle now b : (now <= last_refill b)%N → refill now b = b.
Proof. intros H. unfold refill, saturating_duration_since. replace (now - last_refill b)%N with 0%N by lia. by rewrite as_secs_zero. Qed.

Fixpoint burst (nows : list Instant) (r : ReceiveLimiter) : nat :=
  match nows with
  | [] => 0
  | now :: nows => let '(ok, r) := admit_line now r in (if ok then 1 else 0) + burst nows r
  end.

(** Whole tokens are spent one by one, and none is left over. *)
Fixpoint spends (n : nat) (t : f64) : bool :=
  match n with
  | O => negb (SFleb (f64_of 1) t)
  | S n => SFleb (f64_of 1) t && spends n (fsub t (f64_of 1))
  end.
Lemma receive_spends : spends 200 (f64_of (Z.of_N RECEIVE_BURST)) = true.
Proof. vm_compute. reflexivity. Qed.

Lemma burst_spends n nows r :
  spends n (tokens (bucket r)) = true → Forall (λ now, now <= last_refill (bucket r))%N nows →
  burst nows r = length nows `min` n.
Proof.
  intros Hs Hn. revert n r Hs Hn. induction nows as [|now nows IH]; intros n r Hs Hn; [done|].
  apply Forall_cons_1 in Hn as [H1 H2]. cbn [burst length]. unfold admit_line, try_consume. rewrite refill_idle by done.
  destruct n as [|n]; cbn [spends] in Hs.
  - apply negb_true_iff in Hs as Hf. rewrite Hf. cbn [fst snd]. rewrite (IH 0); [cbn; lia|done|done].
  - apply andb_true_iff in Hs as [-> Hs]. rewrite (IH n); [cbn; lia|done|done].
Qed.

(** A new limiter lets exactly two hundred lines through at once: of any number
    that arrive before the clock moves on (or while it runs backwards), the
    first two hundred are handled. *)
Theorem burst_exact (now : Instant) (nows : list Instant) (r : ReceiveLimiter) :
  new_receive now = Some r → Forall (λ t, t <= now)%N nows → burst nows r = length nows `min` 200.
Proof.
  intros Hr Hn. assert (new_bucket RECEIVE_BURST RECEIVE_PER_SEC now =
    Some (mkBucket (f64_of (Z.of_N RECEIVE_BURST)) (f64_of (Z.of_N RECEIVE_BURST)) RECEIVE_PER_SEC now)) as E
    by (vm_compute; reflexivity).
  unfold new_receive in Hr. rewrite E in Hr. injection Hr as <-. apply burst_spends; [exact receive_spends|exact Hn].
Qed.

(** * A wait of nothing without a token *)

(** A bucket short of a token by less than half a nanosecond's worth says to
    wait for no time at all, and [acquire] passes that on: it says to send, and
    nothing was consumed. Ten refills a fifth of a second apart leave the
    default send limiter in that state. *)
Theorem acquire_without_token :
  let drained : option SendLimiter := Nat.iter 5 (λ s, (acquire 0 s).2) <$> new_send 0 in
  let refilled := (λ s, foldl (λ s i, (wait_time (N.of_nat i * 200000000)%N s).2) s (seq 1 10)) <$> drained in
  (λ s, let '(wait, s') := acquire 2000000000 s in (wait, SFeqb (tokens s') (tokens s))) <$> refilled
  = Some (Some 0%N, true).
Proof. vm_compute. reflexivity. Qed.
