(* ===== verification/Api.v ===== *)
(** What passes between a connection and whoever shows it: the commands a user
    gives ([ClientCommand] of [ddirc-core/src/conn/actor.rs]) and the events a
    connection reports ([IrcEvent] of [ddirc-core/src/api/events.rs]), with the
    types of [ddirc-core/src/api/types.rs] they carry. *)
From S2P Require Import Prelude RustStr Format Reply Offer Transfer Room Contacts Listing.

(** * Types *)

Inductive Target := ToChannel (name : str) | ToDirect (nick : str).
Definition target_name (t : Target) : str := match t with ToChannel n | ToDirect n => n end.

Record ChatMessage := mkMessage {
  cm_target : Target;
  cm_sender : str;
  cm_sender_prefix : option str;
  cm_spans : list TextSpan;
  cm_is_self : bool;
  cm_is_mention : bool;
  cm_is_action : bool;
  cm_is_notice : bool;
  cm_msgid : option str;
  cm_server_time_ms : option Z;
  cm_reply_to : option ReplyRef;
}.

Inductive ConnectionStatus :=
  | Disconnected | Connecting | Registering | Connected
  | Reconnecting (retry_in_secs attempt : N).

Inductive AuthOutcome := Sasl | NickServFallback (reason : str) | Anonymous.

Record WhoisInfo := mkWhois {
  wi_nick : str;
  wi_found : bool;
  wi_user : option str;
  wi_host : option str;
  wi_realname : option str;
  wi_server : option str;
  wi_server_info : option str;
  wi_account : option str;
  wi_channels : list str;
  wi_idle_secs : option N;
  wi_signon_secs : option N;
  wi_away : option str;
  wi_operator : bool;
  wi_secure : bool;
}.

Definition whois_of (nick : str) : WhoisInfo :=
  mkWhois nick false None None None None None None [] None None None false false.

(** * Commands *)

Inductive ClientCommand :=
  | Join (channel : str) (key : option str)
  | Part (channel : str) (reason : option str)
  | Kick (channel nick : str) (reason : option str)
  | SendMessage (target text : str)
  | SendAction (target text : str)
  | SendReply (target text : str) (reply : ReplyRef)
  | SetNick (nick : str)
  | SetTopic (channel topic : str)
  | ListChannels
  | WhoisOf (nick : str)
  | AddContact (jid : str) (name : option str)
  | RemoveContact (jid : str)
  | AnswerSubscription (jid : str) (accept : bool)
  | SetAvailability (availability : Availability) (status : option str)
  | CatchUpChats (since_ms : Z)
  | EditMessage (target msgid text : str)
  | RetractMessage (target msgid : str)
  | Reconnect
  | Disconnect (reason : option str)
  | SendFile (target path : str)
  | AcceptFile (id : N) (directory : str)
  | CancelTransfer (id : N).

(** * Events *)

Inductive IrcEvent {IpAddr : Type} :=
  | Status (s : ConnectionStatus) (detail : option str)
  | Registered (nick : str) (network : option str) (auth : AuthOutcome)
  | NetworkNamed (network : str)
  | Message (m : ChatMessage)
  | Joined (channel nick : str) (is_self : bool)
  | Parted (channel nick : str) (is_self : bool) (reason : option str)
  | Quit_ (channel nick : str) (reason : option str)
  | NickChanged (channel old new : str) (is_self : bool)
  | TopicChanged (channel topic : str) (set_by : option str)
  | MemberList (channel : str) (members : list MemberView)
  | MemberChanged (channel previous : str) (member : option MemberView)
  | ModeChanged (channel : str) (by_ : option str) (affected : list str)
  | MessagesDropped (channel : option str) (count : N)
  | FileOffered (id : N) (channel from : str) (offer : DccOffer IpAddr)
  | FileTransferStarted (id : N) (channel filename : str) (incoming : bool) (total : option N)
  | FileTransferProgress (id transferred : N)
  | FileTransferEnded (id : N) (channel filename : str) (path error : option str)
  | ChannelList (channels : list ChannelListing) (done_ truncated : bool)
  | WhoisEvent (info : WhoisInfo)
  | Contact_ (view : ContactView)
  | ContactRemoved_ (jid : str)
  | SubscriptionRequest (jid : str)
  | MessageEdited (target : Target) (msgid sender : str) (message : ChatMessage)
  | MessageRetracted (target : Target) (msgid sender : str)
  | UploadAvailable (max_bytes : option N)
  | ErrorEvent (message : str) (fatal : bool).
Arguments IrcEvent : clear implicits.

(** * Words for what went wrong *)

(** [TransferError::to_string]. *)
Definition show_transfer_error (e : TransferError) : str :=
  match e with
  | WouldDiscloseAddress =>
      lit "this offer asks your client to accept a connection, which would tell " ++
      lit "the sender your address and defeat the proxy. Ask them to send it normally instead."
  | WouldDiscloseAddressBySending =>
      lit "sending a file would publish your address, which is the thing the proxy is there to hide. " ++
      lit "Send with the proxy off for this network, or ask them to send to you instead."
  | Proxy reason => lit "the proxy refused the connection: " ++ reason
  | NoRendezvous seconds => lit "nobody connected within " ++ to_dec seconds ++ lit " seconds"
  | AlreadyExists name => lit "a file called '" ++ name ++ lit "' is already there"
  | TooLarge gigabytes => lit "the file is larger than the " ++ to_dec gigabytes ++ lit " GB limit"
  | Truncated received expected =>
      lit "the sender stopped after " ++ to_dec received ++ lit " of " ++ to_dec expected ++ lit " bytes"
  | Cancelled => lit "cancelled"
  | NoRoutableAddress =>
      lit "could not work out which address to give them. An offer has to name          one, " ++
      lit "and there is no safe guess."
  | Io message => message
  end.
