(* ===== verification/Actor.v ===== *)
(** A connection to an IRC server: what it does with a line that arrives and
    with a command from the user ([Actor] of [ddirc-core/src/conn/actor.rs]).

    The handlers are those of the source over one record: the fields of
    [Actor], the queue of events with its bound, and the locals of
    [connect_once] the handlers are lent ([outgoing], [registered] and the count
    of [backoff]). The session, the transfers, the directory and the texts are
    the components modelled on their own. [source_nickname] and the numbers and
    names of replies are the protocol crate's, so they are parameters. *)
From S2P Require Import Sasl Prelude RustStr Proto Format Reply ISupport Session Offer Transfer Transfers Outgoing Dates Room Listing ServerConfig Api.
Import Proto.

Definition EVENT_QUEUE : nat := 1024.
Definition REPLY_TAG : str := lit "+draft/reply".
Definition MAX_MSGID : nat := 128.
Definition MAX_ATTEMPTS_BEFORE_FIRST_SUCCESS : N := 3.

(** A tag of a message, and a message with its tags. *)
Record Tag := mkTag { tag_key : str; tag_value : option str }.
Record Line := mkLine { tags : option (list Tag); message : Message }.
Definition line (c : Command) : Line := mkLine None (Proto.mkMessage None c).

(** ** Reading a reply's quote *)

Section Connection.
Context {IpAddr : Type} (v4 : N → IpAddr) (parse_ip : str → option IpAddr).
Context (to_lowercase : char → str) (is_alphanumeric : char → bool).
Context (source_nickname : Message → option str) (numeric : Response → N) (debug : Response → str).
Abbreviation Event := (IrcEvent IpAddr).

Record Actor := mkActor {
  config : ServerConfig;
  session : Session;
  transfers : @Transfers IpAddr;
  listing : option Listing;
  whois : option WhoisInfo;
  client_tags : bool;
  ever_registered : bool;
  events : list Event;
  dropped_events : N;
  outgoing : list Line;
  registered : bool;
  attempt : N;
}.

Definition new_actor (c : ServerConfig) : Actor :=
  mkActor c (new_session (nickname c)) (mkTransfers 0 ∅ ∅ ∅ ∅ ∅) None None false false [] 0 [] false 0.

Definition set_session (s : Session) (a : Actor) : Actor :=
  mkActor (config a) s (transfers a) (listing a) (whois a) (client_tags a) (ever_registered a) (events a)
    (dropped_events a) (outgoing a) (registered a) (attempt a).
Definition set_transfers (t : @Transfers IpAddr) (a : Actor) : Actor :=
  mkActor (config a) (session a) t (listing a) (whois a) (client_tags a) (ever_registered a) (events a)
    (dropped_events a) (outgoing a) (registered a) (attempt a).
Definition set_listing (l : option Listing) (a : Actor) : Actor :=
  mkActor (config a) (session a) (transfers a) l (whois a) (client_tags a) (ever_registered a) (events a)
    (dropped_events a) (outgoing a) (registered a) (attempt a).
Definition set_whois (w : option WhoisInfo) (a : Actor) : Actor :=
  mkActor (config a) (session a) (transfers a) (listing a) w (client_tags a) (ever_registered a) (events a)
    (dropped_events a) (outgoing a) (registered a) (attempt a).
Definition set_tags (b : bool) (a : Actor) : Actor :=
  mkActor (config a) (session a) (transfers a) (listing a) (whois a) b (ever_registered a) (events a)
    (dropped_events a) (outgoing a) (registered a) (attempt a).
Definition set_ever (a : Actor) : Actor :=
  mkActor (config a) (session a) (transfers a) (listing a) (whois a) (client_tags a) true (events a)
    (dropped_events a) (outgoing a) (registered a) (attempt a).
Definition set_events (es : list Event) (dropped : N) (a : Actor) : Actor :=
  mkActor (config a) (session a) (transfers a) (listing a) (whois a) (client_tags a) (ever_registered a) es
    dropped (outgoing a) (registered a) (attempt a).
Definition set_outgoing (l : list Line) (a : Actor) : Actor :=
  mkActor (config a) (session a) (transfers a) (listing a) (whois a) (client_tags a) (ever_registered a) (events a)
    (dropped_events a) l (registered a) (attempt a).
Definition set_registered (b : bool) (n : N) (a : Actor) : Actor :=
  mkActor (config a) (session a) (transfers a) (listing a) (whois a) (client_tags a) (ever_registered a) (events a)
    (dropped_events a) (outgoing a) b n.

(** [outgoing.push_back]. *)
Definition say (l : Line) (a : Actor) : Actor := set_outgoing (outgoing a ++ [l]) a.

(** [try_send] to the interface: refused when it holds [EVENT_QUEUE] events. *)
Definition try_send (e : Event) (a : Actor) : option Actor :=
  if Nat.ltb (length (events a)) EVENT_QUEUE
  then Some (set_events (events a ++ [e]) (dropped_events a) a) else None.

Definition emit (e : Event) (a : Actor) : Actor :=
  match try_send e a with
  | Some a => a
  | None => set_events (events a) (N.min u64_max (dropped_events a + 1)) a
  end.

Definition status (s : ConnectionStatus) (detail : option str) (a : Actor) : Actor := emit (Status s detail) a.

(** [flooded] is what the receive limiter dropped. *)
Definition report_drops (flooded : N) (a : Actor) : Actor :=
  let total := (flooded + dropped_events a)%N in
  let a := set_events (events a) 0 a in
  if (0 <? total)%N then default a (try_send (MessagesDropped None total) a) else a.

(** ** Members *)

Definition view_of (p : Prefixes) (m : Member) : MemberView :=
  mkView (m_nick m) ((λ c, [c]) <$> display_prefix p m) (m_away m) (sort_key to_lowercase p m).

Definition member_of (s : Session) (chan nick : str) : option Member :=
  c ← Session.channel s chan; c_members c !! normalize_name s nick.

Definition member_view (chan nick : str) (a : Actor) : option MemberView :=
  view_of (prefixes (s_isupport (session a))) <$> member_of (session a) chan nick.

Definition emit_member_changed (chan previous nick : str) (a : Actor) : Actor :=
  let member := member_view chan nick a in
  if negb (is_some member) && negb (is_some (Session.channel (session a) chan)) then a
  else emit (MemberChanged chan previous member) a.

Definition emit_member_list (chan : str) (a : Actor) : Actor :=
  match Session.channel (session a) chan with
  | None => a
  | Some c =>
      let p := prefixes (s_isupport (session a)) in
      emit (MemberList (c_name c) (map (view_of p) (sorted_members to_lowercase p c))) a
  end.

(** The prefix shown before a name in a channel. *)
Definition sender_prefix (chan nick : str) (a : Actor) : option str :=
  m ← member_of (session a) chan nick;
  (λ c, [c]) <$> display_prefix (prefixes (s_isupport (session a))) m.

(** ** Chat *)

Definition split_reply (text : str) (tag_msgid : option str) : option ReplyRef * str :=
  let tag_msgid := (λ id, truncate id MAX_MSGID) <$> tag_msgid in
  match parse_reply is_alphanumeric text with
  | Some (found, body) => (Some (mkReplyRef tag_msgid (Reply.nick found) (excerpt_of found)), body)
  | None => ((λ id, mkReplyRef (Some id) [] []) <$> tag_msgid, text)
  end.

Definition echo (target text : str) (is_action : bool) (reply_msgid : option str) (a : Actor) : Actor :=
  let nick := s_nick (session a) in
  let prefix := sender_prefix target nick a in
  let to := if is_some (Session.channel (session a) target) then ToChannel target else ToDirect target in
  let '(reply_to, body) := if is_action then (None, text) else split_reply text reply_msgid in
  emit (Api.Message (Api.mkMessage to nick prefix (parse body) true false is_action false None None reply_to)) a.

(** The transfers' handlers, over what they read and write of the connection. *)
Definition lift_event (e : @Transfers.IrcEvent IpAddr) : Event :=
  match e with
  | Transfers.FileOffered id channel from offer => FileOffered id channel from offer
  | Transfers.FileTransferStarted id channel name incoming total => FileTransferStarted id channel name incoming total
  | Transfers.FileTransferEnded id channel name path error =>
      FileTransferEnded id channel name path (show_transfer_error <$> error)
  end.

Definition emit_all (es : list Event) (a : Actor) : Actor := foldl (λ a e, emit e a) a es.

Definition with_transfers (f : @Transfers.Actor IpAddr → @Transfers.Actor IpAddr) (a : Actor) : Actor :=
  let t := f (Transfers.mkActor (session a) (cf_proxy (config a)) (transfers a) [] []) in
  a |> set_transfers (Transfers.transfers t)
    |> set_outgoing (outgoing a ++ map (λ '(to, text), line (PRIVMSG to text)) (Transfers.outgoing t))
    |> emit_all (map lift_event (Transfers.events t)).

(** The value of a tag, when it is there and has one. *)
Definition tag_of (l : Line) (name : str) : option str :=
  match List.find (λ t, bool_decide (tag_key t = name)) (default [] (tags l)) with
  | Some t => match tag_value t with Some v => if is_empty v then None else Some v | None => None end
  | None => None
  end.

Definition on_chat (target text : str) (source : option str) (is_notice : bool) (l : Line) (a : Actor) : Actor :=
  match source with
  | None => a
  | Some sender =>
      let trimmed := ctcp_body text in
      let chat body is_action :=
        let is_self := is_self (session a) sender in
        let to := if Session.is_self (session a) target then ToDirect sender else ToChannel target in
        let prefix := sender_prefix (target_name to) sender a in
        let reply_msgid := match tag_of l REPLY_TAG with Some v => Some v | None => tag_of l (lit "+reply") end in
        let '(reply_to, body) := if (is_action : bool) then (None, body) else split_reply body reply_msgid in
        emit (Api.Message (Api.mkMessage to sender prefix (parse body) is_self
          (negb is_self && is_mention is_alphanumeric body (session a)) is_action is_notice
          ((λ id, truncate id MAX_MSGID) <$> tag_of l (lit "msgid"))
          (tag_of l (lit "time") ≫= parse_server_time) reply_to)) a in
      match strip_prefix (lit "ACTION ") trimmed with
      | Some rest => chat rest true
      | None =>
          if starts_with [1%N] text
          then with_transfers (Transfers.on_ctcp v4 parse_ip target trimmed sender is_notice) a
          else chat text false
      end
  end.

(** ** Registration *)

Definition auth_outcome (c : ServerConfig) (o : SaslOutcome) : AuthOutcome :=
  match o with
  | Authenticated => Sasl
  | NotAttemptedBecause NoCredentials =>
      if is_some (nickserv_password c) then NickServFallback (lit "no SASL credentials configured") else Anonymous
  | NotAttemptedBecause Unsupported => NickServFallback (lit "server does not offer SASL")
  | Rejected reason => NickServFallback reason
  end.

Definition sasl_credentials (c : ServerConfig) : option Credentials :=
  match sasl_account c, sasl_password c with
  | Some account, Some password => Some (mkCredentials account password)
  | _, _ => None
  end.

Definition on_registered (auth : AuthOutcome) (a : Actor) : Actor :=
  let a := match auth, nickserv_password (config a) with
           | NickServFallback _, Some password =>
               say (line (PRIVMSG (lit "NickServ") (lit "IDENTIFY " ++ password))) a
           | _, _ => a
           end in
  let a := foldl (λ a channel, say (line (JOIN channel None None)) a) a (cf_channels (config a)) in
  let a := set_ever a in
  let a := emit (Registered (s_nick (session a)) (network (s_isupport (session a))) auth) a in
  status Connected None a.

(** ** Who is *)

Definition is_whois_about (args : list str) (a : Actor) : bool :=
  match whois a, args !! 1 with
  | Some w, Some nick => same_nick (session a) (wi_nick w) nick
  | _, _ => false
  end.

Definition finish_whois (a : Actor) : Actor :=
  match whois a with
  | Some w => emit (WhoisEvent w) (set_whois None a)
  | None => a
  end.

Definition whois_update (response : Response) (args : list str) (w : WhoisInfo) : WhoisInfo :=
  let arg i := args !! i in
  let long := Nat.ltb 4 (length args) in
  match response with
  | RPL_WHOISUSER =>
      mkWhois (default [] (arg 1)) true (arg 2) (arg 3)
        (if long then strip <$> last args else None)
        (wi_server w) (wi_server_info w) (wi_account w) (wi_channels w) (wi_idle_secs w) (wi_signon_secs w)
        (wi_away w) (wi_operator w) (wi_secure w)
  | RPL_WHOISSERVER =>
      mkWhois (wi_nick w) (wi_found w) (wi_user w) (wi_host w) (wi_realname w) (arg 2) (strip <$> arg 3)
        (wi_account w) (wi_channels w) (wi_idle_secs w) (wi_signon_secs w) (wi_away w) (wi_operator w) (wi_secure w)
  | RPL_WHOISOPERATOR =>
      mkWhois (wi_nick w) (wi_found w) (wi_user w) (wi_host w) (wi_realname w) (wi_server w) (wi_server_info w)
        (wi_account w) (wi_channels w) (wi_idle_secs w) (wi_signon_secs w) (wi_away w) true (wi_secure w)
  | RPL_WHOISIDLE =>
      mkWhois (wi_nick w) (wi_found w) (wi_user w) (wi_host w) (wi_realname w) (wi_server w) (wi_server_info w)
        (wi_account w) (wi_channels w) (arg 2 ≫= parse_unsigned u64_max)
        (if long then arg 3 ≫= parse_unsigned u64_max else None)
        (wi_away w) (wi_operator w) (wi_secure w)
  | RPL_WHOISCHANNELS =>
      mkWhois (wi_nick w) (wi_found w) (wi_user w) (wi_host w) (wi_realname w) (wi_server w) (wi_server_info w)
        (wi_account w)
        (match arg 2 with Some l => wi_channels w ++ split_whitespace l | None => wi_channels w end)
        (wi_idle_secs w) (wi_signon_secs w) (wi_away w) (wi_operator w) (wi_secure w)
  | RPL_AWAY =>
      mkWhois (wi_nick w) (wi_found w) (wi_user w) (wi_host w) (wi_realname w) (wi_server w) (wi_server_info w)
        (wi_account w) (wi_channels w) (wi_idle_secs w) (wi_signon_secs w) (strip <$> arg 2) (wi_operator w)
        (wi_secure w)
  | ERR_NOSUCHNICK =>
      mkWhois (wi_nick w) false (wi_user w) (wi_host w) (wi_realname w) (wi_server w) (wi_server_info w)
        (wi_account w) (wi_channels w) (wi_idle_secs w) (wi_signon_secs w) (wi_away w) (wi_operator w) (wi_secure w)
  | _ => w
  end.

Definition on_whois_reply (response : Response) (args : list str) (a : Actor) : Actor :=
  match whois a with
  | None => a
  | Some w =>
      let a := set_whois (Some (whois_update response args w)) a in
      match response with ERR_NOSUCHNICK | RPL_ENDOFWHOIS => finish_whois a | _ => a end
  end.

(** [330] and [671], which the crate does not name. *)
Definition on_whois_raw (account : bool) (args : list str) (a : Actor) : Actor :=
  match whois a with
  | None => a
  | Some w =>
      set_whois (Some (mkWhois (wi_nick w) (wi_found w) (wi_user w) (wi_host w) (wi_realname w) (wi_server w)
        (wi_server_info w) (if account then args !! 2 else wi_account w) (wi_channels w) (wi_idle_secs w)
        (wi_signon_secs w) (wi_away w) (wi_operator w) (if account then wi_secure w else true))) a
  end.

Definition is_whois_numeric (r : Response) : bool :=
  match r with
  | RPL_WHOISUSER | RPL_WHOISSERVER | RPL_WHOISOPERATOR | RPL_WHOISIDLE | RPL_WHOISCHANNELS | RPL_AWAY
  | RPL_ENDOFWHOIS | ERR_NOSUCHNICK => true
  | _ => false
  end.

Definition is_error_numeric (r : Response) : bool := (400 <=? numeric r)%N && (numeric r <? 600)%N.

(** ** The directory *)

Definition list_event (r : Report) : Event := ChannelList (channels r) (done_ r) (cut r).
Definition with_listing (f : Directory → Directory) (a : Actor) : Actor :=
  let '(l, reports) := f (listing a, []) in
  emit_all (map list_event reports) (set_listing l a).

(** ** Modes *)

(** The mode string and its arguments, put together again. *)
Fixpoint mode_text (current : option char) (modes : list Mode) : str * list str :=
  match modes with
  | [] => ([], [])
  | mode :: modes =>
      let '(sign, inner, arg) :=
        match mode with
        | Plus inner arg => (0x2B%N, inner, arg)
        | Minus inner arg => (0x2D%N, inner, arg)
        | NoPrefix inner => (0x2B%N, inner, None)
        end in
      let '(text, params) := mode_text (Some sign) modes in
      ((if bool_decide (current = Some sign) then [] else [sign]) ++ inner ++ text,
       (match arg with Some x => [x] | None => [] end) ++ params)
  end.

Definition on_mode (chan : str) (modes : list Mode) (source : option str) (a : Actor) : Actor :=
  let '(text, params) := mode_text None modes in
  let '(affected, s) := Session.on_mode chan text params (session a) in
  let a := set_session s a in
  if is_empty affected then a
  else
    let a := emit (ModeChanged chan source affected) a in
    foldl (λ a nick, emit_member_changed chan nick nick a) a affected.

(** ** Arrivals and departures *)

Definition on_join (chan : str) (source : option str) (a : Actor) : Actor :=
  match source with
  | None => a
  | Some nick =>
      let '(joined, s) := Session.on_join chan nick (session a) in
      let a := set_session s a in
      if joined then
        let self := is_self (session a) nick in
        let a := emit (Joined chan nick self) a in
        if self then emit_member_list chan a else emit_member_changed chan nick nick a
      else a
  end.

(** [known_nick(..).unwrap_or(..)]. *)
Definition filed_as (nick : str) (a : Actor) : str := default nick (known_nick nick (session a)).

(** What [PART] and [KICK] share. *)
Definition leave (chan nick : str) (reason : option str) (a : Actor) : Actor :=
  let self := is_self (session a) nick in
  let filed := filed_as nick a in
  let '(left_, s) := on_part chan nick (session a) in
  let a := set_session s a in
  if left_ then
    let a := emit (Parted chan nick self reason) a in
    if self then a else emit_member_changed chan filed filed a
  else a.

Definition on_part (chan : str) (reason source : option str) (a : Actor) : Actor :=
  match source with None => a | Some nick => leave chan nick (strip <$> reason) a end.

Definition on_kick (chan victim : str) (reason source : option str) (a : Actor) : Actor :=
  let by_ := default (lit "the server") source in
  let why := match strip <$> reason with
             | Some why => if is_empty why then lit "kicked by " ++ by_ else lit "kicked by " ++ by_ ++ lit ": " ++ why
             | None => lit "kicked by " ++ by_
             end in
  leave chan victim (Some why) a.

Definition on_quit (reason source : option str) (a : Actor) : Actor :=
  match source with
  | None => a
  | Some nick =>
      let reason := strip <$> reason in
      let filed := filed_as nick a in
      let '(channels, s) := Session.on_quit nick (session a) in
      foldl (λ a chan, emit_member_changed chan filed filed (emit (Quit_ chan nick reason) a))
        (set_session s a) channels
  end.

Definition on_nick (new : str) (source : option str) (a : Actor) : Actor :=
  match source with
  | None => a
  | Some old =>
      let self := is_self (session a) old in
      let filed := filed_as old a in
      let '(channels, s) := on_nick_change old new (session a) in
      foldl (λ a chan, emit_member_changed chan filed new (emit (NickChanged chan old new self) a))
        (set_session s a) channels
  end.

Definition on_away (text source : option str) (a : Actor) : Actor :=
  match source with
  | None => a
  | Some nick =>
      let filed := filed_as nick a in
      let '(channels, s) := set_away nick (is_some text) (session a) in
      foldl (λ a chan, emit_member_changed chan filed filed a) (set_session s a) channels
  end.

(** ** Numerics *)

Definition on_isupport (args : list str) (a : Actor) : Actor :=
  let before := network (s_isupport (session a)) in
  let a := set_session (Session.on_isupport args (session a)) a in
  let after := network (s_isupport (session a)) in
  if bool_decide (after = before) then a
  else match after with Some n => emit (NetworkNamed n) a | None => a end.

Definition on_topic (chan topic : str) (set_by : option str) (a : Actor) : Actor :=
  a |> set_session (Session.on_topic chan topic (session a))
    |> emit (TopicChanged chan (strip topic) set_by).

Definition on_response (response : Response) (args : list str) (auth : AuthOutcome) (a : Actor) : Actor :=
  match response with
  | RPL_WELCOME =>
      let a := set_registered true 0 a in
      let a := match args !! 0 with Some nick => set_session (set_nick nick (session a)) a | None => a end in
      on_registered auth a
  | RPL_ISUPPORT => on_isupport args a
  | RPL_NAMREPLY =>
      match args !! 2, args !! 3 with
      | Some chan, Some names => set_session (on_names_reply chan names (session a)) a
      | _, _ => a
      end
  | RPL_ENDOFNAMES =>
      match args !! 1 with
      | Some chan => emit_member_list chan (set_session (on_end_of_names chan (session a)) a)
      | None => a
      end
  | RPL_LISTSTART => with_listing on_list_start a
  | RPL_LIST => with_listing (on_list_reply args) a
  | RPL_LISTEND => with_listing finish_listing a
  | RPL_TOPIC =>
      match args !! 1, args !! 2 with
      | Some chan, Some topic => on_topic chan topic None a
      | _, _ => a
      end
  | _ =>
      if is_whois_numeric response && is_whois_about args a then on_whois_reply response args a
      else if is_error_numeric response
      then emit (ErrorEvent (strip (default (debug response) (last args))) false) a
      else a
  end.

(** ** One line *)

Definition handle (l : Line) (auth : AuthOutcome) (a : Actor) : Actor :=
  let source := source_nickname (message l) in
  match command (message l) with
  | Reply response args => on_response response args auth a
  | Raw code args =>
      let account := bool_decide (code = lit "330") in
      if (account || bool_decide (code = lit "671")) && is_whois_about args a then on_whois_raw account args a else a
  | TOPIC chan (Some topic) => on_topic chan topic source a
  | JOIN chan _ _ => on_join chan source a
  | PART chan reason => on_part chan reason source a
  | KICK chan victim reason => on_kick chan victim reason source a
  | QUIT reason => on_quit reason source a
  | NICK new => on_nick new source a
  | AWAY text => on_away text source a
  | ChannelMODE chan modes => on_mode chan modes source a
  | PRIVMSG target text => on_chat target text source false l a
  | NOTICE target text => on_chat target text source true l a
  | _ => a
  end.

(** ** One command *)

(** One word, with nothing that ends it. *)
Definition is_word (s : str) : bool := negb (is_empty s) && negb (existsb (λ c, is_whitespace c || is_control c) s).

Definition queue_text (target : str) (is_action : bool) (text : str) (a : Actor) : Actor :=
  foldl (λ a l,
    say (line (PRIVMSG target (if is_action then [1%N] ++ lit "ACTION " ++ l ++ [1%N] else l)))
      (echo target l is_action None a)) a (sanitize_outgoing text).

Definition queue_reply (target text : str) (reply : ReplyRef) (a : Actor) : Actor :=
  let quoted := format_reply (Reply.nick reply) (excerpt (excerpt_of reply)) text in
  let tag := match msgid reply with
             | Some id => if client_tags a then Some [mkTag REPLY_TAG (Some id)] else None
             | None => None
             end in
  (foldl (λ '(a, first) l,
    let a := echo target l false (if (first : bool) then msgid reply else None) a in
    (say (mkLine (if first then tag else None) (Proto.mkMessage None (PRIVMSG target l))) a, false))
    (a, true) (sanitize_outgoing quoted)).1.

Definition queue_kick (chan nick : str) (reason : option str) (a : Actor) : Actor :=
  if is_word chan && is_word nick then
    let reason := match reason with
                  | Some r => let r := List.filter (λ c, negb (is_control c)) r in if is_empty r then None else Some r
                  | None => None
                  end in
    say (line (KICK chan nick reason)) a
  else a.

Definition queue_whois (nick : str) (a : Actor) : Actor :=
  let nick := trim nick in
  if is_word nick then say (line (WHOIS None nick)) (set_whois (Some (whois_of nick)) a) else a.

Definition queue (c : ClientCommand) (a : Actor) : Actor :=
  match c with
  | Join chan key => say (line (JOIN chan key None)) a
  | Part chan reason => say (line (PART chan reason)) a
  | Kick chan nick reason => queue_kick chan nick reason a
  | SendMessage target text => queue_text target false text a
  | SendReply target text reply => queue_reply target text reply a
  | SendAction target text => queue_text target true text a
  | ListChannels =>
      match listing a with
      | None => say (line (LIST None None)) (set_listing (Some default_listing) a)
      | Some _ => a
      end
  | WhoisOf nick => queue_whois nick a
  | SetNick nick => say (line (NICK nick)) a
  | SetTopic chan topic =>
      let flattened := map (λ c, if is_control c then 0x20%N else c) topic in
      say (line (TOPIC chan (Some (truncate (trim flattened) MAX_TOPIC)))) a
  | Reconnect | Disconnect _ | SendFile _ _ | AcceptFile _ _ | CancelTransfer _ => a
  | AddContact _ _ | RemoveContact _ | AnswerSubscription _ _ | SetAvailability _ _ | CatchUpChats _
  | EditMessage _ _ _ | RetractMessage _ _ => emit (ErrorEvent (lit "That is not available on IRC.") false) a
  end.

(** What the files and the network answer when a file command runs. *)
Record FileWorld := mkWorld {
  w_name : str;
  w_metadata : result N str;
  w_address : option Address;
  w_listening : result N str;
  w_dir : Dir;
}.

(** The [match command] of [connect_once]. *)
Definition on_command (w : FileWorld) (c : ClientCommand) (a : Actor) : Actor :=
  match c with
  | SendFile target _ =>
      with_transfers (Transfers.send_file target (w_name w) (w_metadata w) (w_address w) (w_listening w)) a
  | AcceptFile id _ => with_transfers (λ t, (Transfers.accept_file id (w_dir w) t).1) a
  | CancelTransfer id => with_transfers (Transfers.cancel_transfer id) a
  | other => queue other a
  end.
End Connection.
