(* ===== verification/Connection.v ===== *)
(** The life of a connection: one attempt from the first line sent to the last
    one heard, and the attempts one after another ([Actor::connect_once] and
    [Actor::run] of [ddirc-core/src/conn/actor.rs]).

    Both are loops that wait for whichever comes first, so each is a step
    function on its inputs: a deadline, a timer, a command, a line, the network's
    answer to an attempt to connect. Clocks and random draws are inputs. A send
    that fails is an input too ([broken]): the sender belongs to another crate. *)
From Stdlib Require Import SpecFloat.
From S2P Require Import Prelude RustStr Proto Format RateLimit Sasl ISupport Session Offer Transfer Transfers Listing ServerConfig Diagnose Api Actor.
Import Proto.

Definition is_list_reply (m : Message) : bool :=
  match command m with Reply (RPL_LISTSTART | RPL_LIST | RPL_LISTEND) _ => true | _ => false end.

Inductive Disposition :=
  | UserQuit
  | Lost (reason : str)
  | Refused (reason : str).

Section Connection.
Context {IpAddr : Type} (v4 : N → IpAddr) (parse_ip : str → option IpAddr).
Context (to_lowercase : char → str) (is_alphanumeric : char → bool).
Context (source_nickname : Message → option str) (numeric : Response → N) (debug : Response → str).
Context (base64 : str → str) (is_file : str → bool) (powf : f64 → f64 → f64).
Context (show_socks : SocksError → str) (causes : IrcError → list str).
Abbreviation Actor := (@Actor IpAddr).

(** * One attempt *)

(** The actor and the locals of [connect_once]; [sent] is what went out. *)
Record Conn := mkConn {
  actor : Actor;
  recv_limiter : ReceiveLimiter;
  send_limiter : SendLimiter;
  sasl : SaslNegotiator;
  auth : AuthOutcome;
  farewell : option str;
  sent : list Line;
}.
Definition on_actor (f : Actor → Actor) (c : Conn) : Conn :=
  mkConn (f (actor c)) (recv_limiter c) (send_limiter c) (sasl c) (auth c) (farewell c) (sent c).
Definition set_recv (r : ReceiveLimiter) (c : Conn) : Conn :=
  mkConn (actor c) r (send_limiter c) (sasl c) (auth c) (farewell c) (sent c).
Definition set_send (s : SendLimiter) (c : Conn) : Conn :=
  mkConn (actor c) (recv_limiter c) s (sasl c) (auth c) (farewell c) (sent c).
Definition set_sasl (n : SaslNegotiator) (c : Conn) : Conn :=
  mkConn (actor c) (recv_limiter c) (send_limiter c) n (auth c) (farewell c) (sent c).
Definition set_auth (o : AuthOutcome) (c : Conn) : Conn :=
  mkConn (actor c) (recv_limiter c) (send_limiter c) (sasl c) o (farewell c) (sent c).
Definition set_farewell (f : option str) (c : Conn) : Conn :=
  mkConn (actor c) (recv_limiter c) (send_limiter c) (sasl c) (auth c) f (sent c).
Definition set_sent (ls : list Line) (c : Conn) : Conn :=
  mkConn (actor c) (recv_limiter c) (send_limiter c) (sasl c) (auth c) (farewell c) ls.

(** The loop goes round, returns, or panics. *)
Inductive Outcome :=
  | Going (c : Conn)
  | Done (r : Disposition + IrcError) (c : Conn)
  | Panicked.

(** [sender.send(..)?] for each line in turn. *)
Definition send_all (broken : option IrcError) (ls : list Line) (c : Conn) (k : Conn → Outcome) : Outcome :=
  match ls, broken with
  | [], _ => k c
  | _, Some e => Done (inr e) c
  | _, None => k (set_sent (sent c ++ ls) c)
  end.

(** What is done with a step of the negotiation, in both places. *)
Definition negotiate (broken : option IrcError) (p : SaslStep * SaslNegotiator) (c : Conn) (k : Conn → Outcome) : Outcome :=
  send_all broken (map line (to_send p.1)) (set_sasl p.2 c) (λ c,
    let c := match outcome p.1 with
             | Some o => set_auth (auth_outcome (config (actor c)) o) c
             | None => c
             end in
    k (on_actor (set_tags (granted (lit "message-tags") (sasl c))) c)).

(** [report_drops], at the foot of the loop. *)
Definition foot (c : Conn) : Outcome :=
  let '(flooded, r) := take_dropped (recv_limiter c) in
  Going (on_actor (report_drops flooded) (set_recv r c)).

(** [let _ = sender.send(..)], then the return. *)
Definition say_quit (broken : option IrcError) (reason : option str) (c : Conn) : Outcome :=
  Done (inl UserQuit) (match broken with Some _ => c | None => set_sent (sent c ++ [line (QUIT reason)]) c end).

Definition on_deadline (broken : option IrcError) (c : Conn) : Outcome :=
  if is_finished (sasl c) then Going c else negotiate broken (abandon (sasl c)) c foot.

Definition on_flush (now : Instant) (broken : option IrcError) (c : Conn) : Outcome :=
  if is_empty (outgoing (actor c)) then Going c
  else
    match acquire now (send_limiter c) with
    | (None, _) => Panicked
    | (Some 0%N, s) =>
        match outgoing (actor c) with
        | [] => foot (set_send s c)
        | l :: ls => send_all broken [l] (on_actor (set_outgoing ls) (set_send s c)) foot
        end
    | (Some _, s) => foot (set_send s c)
    end.

Definition on_asked (w : FileWorld) (cmd : option ClientCommand) (broken : option IrcError) (c : Conn) : Outcome :=
  match cmd with
  | None => say_quit broken None c
  | Some (Disconnect reason) => say_quit broken (Some (default (lit "ddIRC") reason)) c
  | Some cmd => foot (on_actor (on_command is_alphanumeric w cmd) c)
  end.

(** Past the negotiation: a line is handled unless there are too many. *)
Definition on_line (now : Instant) (l : Line) (c : Conn) : Outcome :=
  let asked_for := is_some (listing (actor c)) && is_list_reply (message l) in
  let '(admitted, r) := if asked_for then (true, recv_limiter c) else admit_line now (recv_limiter c) in
  let c := set_recv r c in
  if admitted then
    foot (on_actor (handle v4 parse_ip to_lowercase is_alphanumeric source_nickname numeric debug l (auth c)) c)
  else Going c.

Definition on_heard (now : Instant) (m : option (Line + IrcError)) (broken : option IrcError) (c : Conn) : Outcome :=
  match m, farewell c with
  | Some (inl l), _ =>
      let c := match command (message l) with
               | ERROR reason => set_farewell (Some (strip reason)) c
               | _ => c
               end in
      if is_finished (sasl c) then on_line now l c
      else negotiate broken (advance base64 (message l) (sasl c)) c (on_line now l)
  | _, Some reason =>
      let explained := explain_farewell reason (config (actor c)) in
      Done (inl (if is_refusal reason then Refused explained else Lost explained)) c
  | None, None => Done (inl (Lost (lit "connection closed by server"))) c
  | Some (inr e), None => Done (inr e) c
  end.

Inductive Input :=
  | Deadline
  | Flush (now : Instant)
  | Asked (w : FileWorld) (cmd : option ClientCommand)
  | Heard (now : Instant) (m : option (Line + IrcError)).

(** Once round the loop; [head] is the time at its head, where the wait before
    the next line may go out is asked for. *)
Definition round (head : Instant) (i : Input) (broken : option IrcError) (c : Conn) : Outcome :=
  let branch c :=
    match i with
    | Deadline => on_deadline broken c
    | Flush now => on_flush now broken c
    | Asked w cmd => on_asked w cmd broken c
    | Heard now m => on_heard now m broken c
    end in
  if is_empty (outgoing (actor c)) then branch c
  else match wait_time head (send_limiter c) with
       | (None, _) => Panicked
       | (Some _, s) => branch (set_send s c)
       end.

(** Up to the loop: the registration burst is not rate limited. *)
Definition open_conn (now : Instant) (broken : option IrcError) (a : Actor) (r : ReceiveLimiter) : Outcome :=
  let a := status Registering None a in
  let cfg := config a in
  let a := set_outgoing [] (set_registered false (attempt a) (set_tags false a)) in
  match new_send now with
  | None => Panicked
  | Some s =>
      let '(first, n) := start (Sasl.new (sasl_credentials cfg)) in
      send_all broken
        (map line ([first] ++ (match server_password cfg with Some p => [PASS p] | None => [] end)
                   ++ [NICK (nickname cfg); USER (username cfg) (lit "0") (realname cfg)]))
        (mkConn a r s n Anonymous None []) Going
  end.

(** * Attempt after attempt *)

Inductive Run :=
  | Trying (a : Actor) (r : ReceiveLimiter)
  | Online (c : Conn)
  | BackingOff (a : Actor) (r : ReceiveLimiter)
  | GivenUp (a : Actor) (r : ReceiveLimiter)
  | Ended (a : Actor)
  | Crashed.

(** [describe]: only errors of the IRC crate end an attempt. *)
Definition describe (e : IrcError) (c : ServerConfig) : str := explain show_socks causes e c.

(** The head of the loop. *)
Definition attempt_again (a : Actor) (r : ReceiveLimiter) : Run :=
  match validate is_file (config a) with
  | Err e =>
      Ended (status Disconnected (Some (show_config_error e)) (emit (ErrorEvent (show_config_error e) true) a))
  | Ok _ => Trying (status Connecting None a) r
  end.

(** [f64::ceil() as u64]. *)
Definition ceil_u64 (x : f64) : N :=
  match x with
  | S754_finite false m e =>
      Z.to_N (Z.min (Z.of_N U64_MAX) (if 0 <=? e then Zpos m * 2 ^ e else (Zpos m + 2 ^ (- e) - 1) / 2 ^ (- e)))%Z
  | S754_infinity false => U64_MAX
  | _ => 0
  end.

(** After an attempt: stop, give up, or back off. *)
Definition settle (d : Disposition + IrcError) (jitter : f64) (a : Actor) (r : ReceiveLimiter) : Run :=
  let d := match d with inl d => d | inr e => Lost (describe e (config a)) end in
  let over (reason : str) (refused : bool) :=
    let a := set_session (new_session (nickname (config a))) a in
    let out_of_patience := negb (ever_registered a) && (MAX_ATTEMPTS_BEFORE_FIRST_SUCCESS <=? attempt a)%N in
    if refused || out_of_patience then GivenUp (status Disconnected (Some reason) a) r
    else
      match next_delay_with_jitter powf jitter
              (mkBackoff (base default_backoff) (max_delay default_backoff) (factor default_backoff) (attempt a)) with
      | (None, _) => Crashed
      | (Some delay, b) =>
          let a := set_registered (registered a) (RateLimit.attempt b) a in
          BackingOff (status (Reconnecting (ceil_u64 (as_secs_f64 delay)) (attempt a)) (Some reason) a) r
      end in
  match d with
  | UserQuit => Ended (status Disconnected None a)
  | Lost reason => over reason false
  | Refused reason => over reason true
  end.

Definition settled (o : Outcome) (jitter : f64) : Run :=
  match o with
  | Going c => Online c
  | Done d c => settle d jitter (actor c) (recv_limiter c)
  | Panicked => Crashed
  end.

Inductive RunInput :=
  | Opened (now : Instant) (failed broken : option IrcError) (jitter : f64)
  | On (head : Instant) (i : Input) (broken : option IrcError) (jitter : f64)
  | Woke
  | Told (cmd : option ClientCommand).

(** An input that cannot come in a phase changes nothing. *)
Definition run_step (i : RunInput) (x : Run) : Run :=
  match x, i with
  | Trying a r, Opened now (Some e) _ jitter => settle (inr e) jitter a r
  | Trying a r, Opened now None broken jitter => settled (open_conn now broken a r) jitter
  | Online c, On head i broken jitter => settled (round head i broken c) jitter
  | BackingOff a r, Woke => attempt_again a r
  | BackingOff a r, Told (Some Reconnect) => attempt_again a r
  | GivenUp a r, Told (Some Reconnect) => attempt_again (set_registered (registered a) 0 a) r
  | (BackingOff a r | GivenUp a r), Told (Some (Disconnect _) | None) => Ended (status Disconnected None a)
  | _, _ => x
  end.

(** [spawn]. *)
Definition spawn (c : ServerConfig) (now : Instant) : Run :=
  match new_receive now with Some r => attempt_again (new_actor c) r | None => Crashed end.

Definition run (inputs : list RunInput) (x : Run) : Run := foldl (λ x i, run_step i x) x inputs.
End Connection.
