(* ===== verification/ConnectionProps.v ===== *)
(** What holds of a connection's life: how often it is tried, and when a new
    attempt waits to be asked for. *)
From Stdlib Require Import SpecFloat.
From S2P Require Import Prelude RustStr Proto Format RateLimit Sasl ISupport Session Offer Transfer Transfers Outgoing Listing ServerConfig Diagnose Api Actor Connection.
Import Proto.

Create HintDb keeps.

Section Props.
Context {IpAddr : Type} (v4 : N → IpAddr) (parse_ip : str → option IpAddr).
Context (to_lowercase : char → str) (is_alphanumeric : char → bool).
Context (source_nickname : Message → option str) (numeric : Response → N) (debug : Response → str).
Context (base64 : str → str) (is_file : str → bool) (powf : f64 → f64 → f64).
Context (show_socks : SocksError → str) (causes : IrcError → list str).
Abbreviation Actor := (@Actor IpAddr).
Abbreviation handle := (handle v4 parse_ip to_lowercase is_alphanumeric source_nickname numeric debug).
Abbreviation on_command := (on_command is_alphanumeric).

(** * What a handler leaves alone *)

(** The settings stay, a connection that worked has worked for good, and only
    one that has just worked forgets the failures before it. *)
Definition keeps (a a' : Actor) : Prop :=
  config a' = config a ∧ (ever_registered a = true → ever_registered a' = true) ∧
  (attempt a' = attempt a ∨ ever_registered a' = true).

Lemma keeps_refl a : keeps a a.
Proof. by split_and!; [|..|left]. Qed.
Lemma keeps_trans a b c : keeps a b → keeps b c → keeps a c.
Proof. intros (H1 & H2 & H3) (H4 & H5 & H6). split_and!; [congruence|auto|]. destruct H6; [|auto]. destruct H3; [left; congruence|auto]. Qed.

(** A change of the other fields. *)
Lemma keeps_same a b c :
  config c = config b → ever_registered c = ever_registered b → attempt c = attempt b → keeps a b → keeps a c.
Proof. intros H1 H2 H3 H. eapply keeps_trans; [exact H|]. split_and!; [done|by rewrite H2|by left]. Qed.

Lemma keeps_emit e a b : keeps a b → keeps a (emit e b).
Proof. unfold emit, try_send. intros H. destruct (Nat.ltb _ _); by eapply keeps_same; [..|exact H]. Qed.
Lemma keeps_status s d a b : keeps a b → keeps a (status s d b).
Proof. apply keeps_emit. Qed.
Lemma keeps_say l a b : keeps a b → keeps a (say l b).
Proof. by apply keeps_same. Qed.
Lemma keeps_session s a b : keeps a b → keeps a (set_session s b).
Proof. by apply keeps_same. Qed.
Lemma keeps_outgoing s a b : keeps a b → keeps a (set_outgoing s b).
Proof. by apply keeps_same. Qed.
Lemma keeps_tags s a b : keeps a b → keeps a (set_tags s b).
Proof. by apply keeps_same. Qed.
Lemma keeps_listing s a b : keeps a b → keeps a (set_listing s b).
Proof. by apply keeps_same. Qed.
Lemma keeps_whois s a b : keeps a b → keeps a (set_whois s b).
Proof. by apply keeps_same. Qed.
Lemma keeps_transfers s a b : keeps a b → keeps a (set_transfers s b).
Proof. by apply keeps_same. Qed.
Lemma keeps_foldl {B} (f : Actor → B → Actor) l a b :
  (∀ a b x, keeps a b → keeps a (f b x)) → keeps a b → keeps a (foldl f b l).
Proof. intros Hf. revert b. induction l as [|x l IH]; [done|]. intros b H. apply IH, Hf, H. Qed.
Hint Resolve keeps_refl keeps_emit keeps_status keeps_say keeps_session keeps_outgoing keeps_tags keeps_listing
  keeps_whois keeps_transfers : keeps.

Ltac keep := intros; repeat (case_match; subst); eauto 12 with keeps.

Lemma keeps_drops n a b : keeps a b → keeps a (report_drops n b).
Proof.
  unfold report_drops, try_send. intros H.
  destruct (0 <? _)%N; [destruct (Nat.ltb _ _)|]; cbn [default]; by eapply keeps_same; [..|exact H].
Qed.
Lemma keeps_emit_all es a b : keeps a b → keeps a (emit_all es b).
Proof. apply keeps_foldl. auto with keeps. Qed.
Hint Resolve keeps_drops keeps_emit_all : keeps.
Lemma keeps_with_transfers f a b : keeps a b → keeps a (with_transfers f b).
Proof. intros H. unfold with_transfers. cbv zeta. apply keeps_emit_all. by eapply keeps_same; [..|exact H]. Qed.
Lemma keeps_with_listing f a b : keeps a b → keeps a (with_listing f b).
Proof. unfold with_listing. keep. Qed.
Lemma keeps_changed chan p n a b : keeps a b → keeps a (emit_member_changed to_lowercase chan p n b).
Proof. unfold emit_member_changed. keep. Qed.
Lemma keeps_list chan a b : keeps a b → keeps a (emit_member_list to_lowercase chan b).
Proof. unfold emit_member_list. keep. Qed.
Hint Resolve keeps_with_transfers keeps_with_listing keeps_changed keeps_list : keeps.

Ltac keep_fold := apply keeps_foldl; [eauto 12 with keeps|].

Lemma keeps_leave chan nick reason a b : keeps a b → keeps a (leave to_lowercase chan nick reason b).
Proof. unfold leave. keep. Qed.
Lemma keeps_on_mode chan modes source a b : keeps a b → keeps a (on_mode to_lowercase chan modes source b).
Proof. unfold on_mode. keep. keep_fold. eauto with keeps. Qed.
Lemma keeps_on_chat target text source n l a b :
  keeps a b → keeps a (on_chat v4 parse_ip is_alphanumeric target text source n l b).
Proof. unfold on_chat. keep. Qed.
Lemma keeps_whois_reply r args a b : keeps a b → keeps a (on_whois_reply r args b).
Proof. unfold on_whois_reply, finish_whois. keep. Qed.
Hint Resolve keeps_leave keeps_on_mode keeps_on_chat keeps_whois_reply : keeps.

(** Only a welcome clears the count, and it is what makes a connection one
    that worked. *)
Lemma keeps_registered auth n nick a b : keeps a b →
  keeps a (on_registered auth (match nick with
    | Some nick => set_session (set_nick nick (session b)) (set_registered true n b)
    | None => set_registered true n b end)).
Proof.
  intros H. apply (keeps_trans _ b); [done|]. unfold on_registered. apply keeps_status, keeps_emit.
  match goal with |- keeps b (set_ever ?x) => assert (config x = config b) as Hc end; [|by split_and!; [..|right]].
  match goal with |- context [match nick with Some _ => _ | None => _ end] =>
    set (c := match nick with Some _ => _ | None => _ end) end.
  assert (config c = config b) as <- by by destruct nick.
  match goal with |- config ?x = _ => assert (keeps c x) as [Hx _]; [|exact Hx] end.
  keep_fold. keep.
Qed.

Lemma keeps_on_response r args auth a b : keeps a b → keeps a (on_response to_lowercase numeric debug r args auth b).
Proof.
  intros H. destruct r; cbn [on_response]; try exact (keeps_registered auth 0 (args !! 0) _ _ H);
    unfold on_isupport, on_topic; keep.
Qed.
Hint Resolve keeps_on_response : keeps.

Lemma keeps_handle l auth a : keeps a (handle l auth a).
Proof.
  unfold Actor.handle. case_match; eauto with keeps;
    unfold on_topic, on_join, on_part, on_kick, on_quit, on_nick, on_away, on_whois_raw; keep; try (keep_fold; eauto with keeps).
Qed.

Lemma keeps_echo target text is_action reply a b : keeps a b → keeps a (echo is_alphanumeric target text is_action reply b).
Proof. unfold echo. keep. Qed.
Hint Resolve keeps_echo : keeps.

Lemma keeps_queue_reply target text reply a : keeps a (queue_reply is_alphanumeric target text reply a).
Proof.
  unfold queue_reply. cbv zeta.
  match goal with |- keeps a (foldl ?f _ _).1 =>
    assert (∀ ls first b, keeps a b → keeps a (foldl f (b, first) ls).1) as G; [|by apply G, keeps_refl] end.
  intros ls. induction ls as [|l ls IH]; intros first b H; cbn [foldl]; [done|]. apply IH. eauto with keeps.
Qed.

Lemma keeps_command w c a : keeps a (on_command w c a).
Proof.
  destruct c; cbn [Actor.on_command queue]; unfold queue_text, queue_kick, queue_whois; keep; try (keep_fold; eauto with keeps).
  apply keeps_queue_reply.
Qed.

(** * Once round the loop *)

Abbreviation round := (round v4 parse_ip to_lowercase is_alphanumeric source_nickname numeric debug base64).
Abbreviation run_step := (run_step v4 parse_ip to_lowercase is_alphanumeric source_nickname numeric debug base64 is_file powf show_socks causes).
Abbreviation run := (run v4 parse_ip to_lowercase is_alphanumeric source_nickname numeric debug base64 is_file powf show_socks causes).
Abbreviation spawn := (@spawn IpAddr is_file).
Abbreviation Run := (@Run IpAddr).

Definition ends (P : Actor → Prop) (o : Outcome) : Prop :=
  match o with Going c | Done _ c => P (actor c) | Panicked => True end.

Lemma ends_send_all P broken ls c k : P (actor c) → (∀ c', actor c' = actor c → ends P (k c')) → ends P (send_all broken ls c k).
Proof. intros H Hk. unfold send_all. destruct ls; [by apply Hk|]. destruct broken; [done|by apply Hk]. Qed.

Lemma ends_foot a c : keeps a (actor c) → ends (keeps a) (foot c).
Proof. intros H. unfold foot. cbn. by apply keeps_drops. Qed.

Lemma ends_negotiate a broken p c k :
  keeps a (actor c) → (∀ c', keeps a (actor c') → ends (keeps a) (k c')) → ends (keeps a) (negotiate broken p c k).
Proof.
  intros H Hk. unfold negotiate. apply ends_send_all; [done|]. intros c' Hc. apply Hk.
  destruct (outcome p.1); cbn [on_actor actor]; apply keeps_tags; cbn [set_auth actor]; by rewrite Hc.
Qed.

Lemma ends_line a now l c : keeps a (actor c) →
  ends (keeps a) (on_line v4 parse_ip to_lowercase is_alphanumeric source_nickname numeric debug now l c).
Proof.
  intros H. unfold on_line. 
  assert (∀ r, keeps a (actor (set_recv r c))) as Hr by done.
  destruct (_ && _); [|destruct (admit_line _ _) as [[] r]; [|by apply Hr]]; cbn [fst snd]; apply ends_foot; cbn; (eapply keeps_trans; [exact H|apply keeps_handle]).
Qed.

Lemma ends_heard a now m broken c : keeps a (actor c) →
  ends (keeps a) (on_heard v4 parse_ip to_lowercase is_alphanumeric source_nickname numeric debug base64 now m broken c).
Proof.
  intros H. unfold on_heard. destruct m as [[l|e]|]; [|by destruct (farewell c)..].
  set (c' := match command (message l) with ERROR _ => _ | _ => _ end).
  assert (keeps a (actor c')) as H' by by (unfold c'; destruct (command (message l))).
  destruct (is_finished (sasl c')); [by apply ends_line|]. apply ends_negotiate; [done|]. intros c2. apply ends_line.
Qed.

Lemma ends_flush a now broken c : keeps a (actor c) → ends (keeps a) (on_flush now broken c).
Proof.
  intros H. unfold on_flush. destruct (is_empty _); [done|]. destruct (acquire _ _) as [[[|w]|] s]; [|by apply ends_foot|done].
  destruct (outgoing (actor c)); [by apply ends_foot|].
  apply ends_send_all; [by apply keeps_outgoing|]. intros c' Hc. apply ends_foot. rewrite Hc. by apply keeps_outgoing.
Qed.

(** Nothing an attempt does touches the count, short of registering. *)
Lemma round_keeps head i broken c : ends (keeps (actor c)) (round head i broken c).
Proof.
  assert (∀ c', actor c' = actor c → ends (keeps (actor c)) match i with
    | Deadline => on_deadline broken c'
    | Flush now => on_flush now broken c'
    | Asked w cmd => on_asked is_alphanumeric w cmd broken c'
    | Heard now m => on_heard v4 parse_ip to_lowercase is_alphanumeric source_nickname numeric debug base64 now m broken c'
    end) as Hb.
  { intros c' <-. pose proof (keeps_refl (actor c')) as H. destruct i as [|now|w cmd|now m].
    - unfold on_deadline. destruct (is_finished _); [done|]. apply ends_negotiate; [done|]. intros c2. apply ends_foot.
    - by apply ends_flush.
    - assert (∀ r, ends (keeps (actor c')) (say_quit broken r c')) by (intros r; unfold say_quit; by destruct broken).
      destruct cmd as [[]|]; cbn [on_asked]; try done; apply ends_foot, keeps_command.
    - by apply ends_heard. }
  unfold Connection.round. destruct (is_empty _); [by apply Hb|]. destruct (wait_time _ _) as [[w|] s]; [by apply Hb|done].
Qed.

Lemma open_keeps now broken a r : ends (keeps a) (open_conn now broken a r).
Proof.
  unfold open_conn. destruct (new_send now); [|done]. destruct (start _). apply ends_send_all.
  - cbn [actor]. apply keeps_outgoing. eapply keeps_same; [..|by apply keeps_status, keeps_refl]; done.
  - intros c' Hc. cbn [ends]. rewrite Hc. cbn [actor]. apply keeps_outgoing.
    eapply keeps_same; [..|by apply keeps_status, keeps_refl]; done.
Qed.
(** * Attempt after attempt *)

Definition actor_of (x : Run) : option Actor :=
  match x with
  | Trying a _ | BackingOff a _ | GivenUp a _ | Ended a => Some a
  | Online c => Some (actor c)
  | Crashed => None
  end.

(** The attempts to connect made in the course of a run. *)
Definition tried (i : RunInput) (x : Run) : nat :=
  match x, i with Trying _ _, Opened _ _ _ _ => 1 | _, _ => 0 end.
Fixpoint attempts (inputs : list RunInput) (x : Run) : nat :=
  match inputs with
  | [] => 0
  | i :: inputs => tried i x + attempts inputs (run_step i x)
  end.

(** Until one has worked, the count says how many there have been. *)
Definition counted (n : nat) (x : Run) : Prop :=
  match x with
  | Trying a _ | BackingOff a _ => ever_registered a = true ∨ (attempt a = N.of_nat n ∧ n ≤ 3)
  | Online c => ever_registered (actor c) = true ∨ (attempt (actor c) + 1 = N.of_nat n)%N ∧ n ≤ 4
  | GivenUp a _ | Ended a => ever_registered a = true ∨ n ≤ 4
  | Crashed => True
  end.

Lemma emit_same e (a : Actor) : ever_registered (emit e a) = ever_registered a ∧ attempt (emit e a) = attempt a.
Proof. unfold emit, try_send. by destruct (Nat.ltb _ _). Qed.
Lemma status_same s d (a : Actor) : ever_registered (status s d a) = ever_registered a ∧ attempt (status s d a) = attempt a.
Proof. apply emit_same. Qed.

Lemma counted_again n a r : (ever_registered a = true ∨ (attempt a = N.of_nat n ∧ n ≤ 3)) → counted n (attempt_again is_file a r).
Proof.
  intros H. unfold attempt_again. destruct (validate is_file (config a)); cbn [counted];
    rewrite ?(proj1 (status_same _ _ _)), ?(proj2 (status_same _ _ _)), ?(proj1 (emit_same _ _)); [exact H|].
  destruct H as [|[_ H]]; [by left|right; lia].
Qed.

Lemma counted_settle n d jitter a r :
  (ever_registered a = true ∨ (attempt a + 1 = N.of_nat n)%N ∧ n ≤ 4) → counted n (settle powf show_socks causes d jitter a r).
Proof.
  intros H. unfold settle. set (d' := match d with inl _ => _ | inr _ => _ end).
  assert (∀ reason refused, counted n
    (let a := set_session (new_session (nickname (config a))) a in
     if refused || (negb (ever_registered a) && (MAX_ATTEMPTS_BEFORE_FIRST_SUCCESS <=? attempt a)%N)
     then GivenUp (status Disconnected (Some reason) a) r
     else match next_delay_with_jitter powf jitter
              (mkBackoff (base default_backoff) (max_delay default_backoff) (factor default_backoff) (attempt a)) with
      | (None, _) => Crashed
      | (Some delay, b) =>
          let a := set_registered (registered a) (RateLimit.attempt b) a in
          BackingOff (status (Reconnecting (ceil_u64 (as_secs_f64 delay)) (attempt a)) (Some reason) a) r
      end)) as Hover.
  { intros reason refused. cbv zeta. destruct (refused || _) eqn:E; cbn [counted].
    { rewrite (proj1 (status_same _ _ _)). cbn. destruct H; [by left|right; lia]. }
    destruct (next_delay_with_jitter _ _ _) as [[delay|] b] eqn:Eb; [|done]. cbn [counted].
    rewrite (proj1 (status_same _ _ _)), (proj2 (status_same _ _ _)). cbn.
    destruct (ever_registered a) eqn:Eever; [by left|]. destruct H as [|[H1 H2]]; [done|]. right.
    unfold next_delay_with_jitter in Eb. injection Eb as _ <-. cbn.
    apply orb_false_iff in E as [_ E]. cbn in E. rewrite Eever in E. cbn in E. apply N.leb_gt in E.
    unfold MAX_ATTEMPTS_BEFORE_FIRST_SUCCESS, U32_MAX in *. lia. }
  destruct d'; [|apply Hover..]. cbn [counted]. rewrite (proj1 (status_same _ _ _)). destruct H; [by left|right; lia].
Qed.

Lemma counted_settled n o jitter a :
  ends (keeps a) o → (ever_registered a = true ∨ (attempt a + 1 = N.of_nat n)%N ∧ n ≤ 4) →
  counted n (settled powf show_socks causes o jitter).
Proof.
  intros Ho H. destruct o as [c|d c|]; cbn [settled]; [| |done]; destruct Ho as (_ & H1 & H2).
  - cbn [counted]. destruct H; [left; auto|]. destruct H2 as [->|]; [by right|by left].
  - apply counted_settle. destruct H; [left; auto|]. destruct H2 as [->|]; [by right|by left].
Qed.

Lemma counted_step n i x : i ≠ Told (Some Reconnect) → counted n x → counted (tried i x + n) (run_step i x).
Proof.
  intros Hi H. destruct x as [a r|c|a r|a r|a|]; try exact H; destruct i as [now [e|] broken jitter|head i broken jitter| |cmd];
    cbn [tried Connection.run_step Nat.add]; try exact H.
  - apply counted_settle. cbn [counted] in H. destruct H as [|[-> H]]; [by left|right; lia].
  - eapply counted_settled; [apply open_keeps|]. cbn [counted] in H. destruct H as [|[-> H]]; [by left|right; lia].
  - by eapply counted_settled; [apply round_keeps|].
  - by apply counted_again.
  - destruct cmd as [[]|]; try exact H; try done; cbn [counted] in *; rewrite (proj1 (status_same _ _ _));
      (destruct H as [|[_ H]]; [by left|right; lia]).
  - destruct cmd as [[]|]; try exact H; try done; cbn [counted] in *; by rewrite (proj1 (status_same _ _ _)).
Qed.

Lemma counted_run n inputs x :
  Told (Some Reconnect) ∉ inputs → counted n x → counted (attempts inputs x + n) (run inputs x).
Proof.
  revert n x. induction inputs as [|i inputs IH]; intros n x Hi H; [done|]. apply not_elem_of_cons in Hi as [H1 H2].
  cbn [attempts]. replace (tried i x + attempts inputs (run_step i x) + n)
    with (attempts inputs (run_step i x) + (tried i x + n)) by lia.
  apply IH; [done|]. by apply counted_step.
Qed.

(** When the interface has fallen behind, the event is dropped, the notice that
    would say so is dropped with it, and the count is cleared: the loss is
    never reported. *)
Theorem drops_unreported e flooded (a : Actor) :
  length (events a) = EVENT_QUEUE →
  report_drops flooded (emit e a) = set_events (events a) 0 a.
Proof.
  intros H. unfold emit, report_drops, try_send. rewrite H. replace (Nat.ltb EVENT_QUEUE EVENT_QUEUE) with false by by rewrite Nat.ltb_irrefl.
  cbn [default events set_events]. rewrite H, Nat.ltb_irrefl. by destruct (0 <? _)%N.
Qed.

(** Having stopped, a connection waits to be asked. *)
Lemma given_up_waits inputs a r : Told (Some Reconnect) ∉ inputs → attempts inputs (GivenUp a r) = 0.
Proof.
  assert (∀ inputs a, attempts inputs (Ended a) = 0) as Hended by by intros l; induction l.
  induction inputs as [|i inputs IH]; [done|]. intros Hi. apply not_elem_of_cons in Hi as [H1 H2]. cbn [attempts tried Nat.add].
  destruct i as [| | |cmd]; cbn [Connection.run_step]; try (by apply IH).
  destruct cmd as [[]|]; try (by apply IH); try done; apply Hended.
Qed.

(** The bound that is met. *)
Lemma never_registered_tried (cfg : ServerConfig) (now : Instant) (inputs : list RunInput) (a : Actor) :
  Told (Some Reconnect) ∉ inputs → actor_of (run inputs (spawn cfg now)) = Some a → ever_registered a = false →
  attempts inputs (spawn cfg now) ≤ 4.
Proof.
  intros Hi Ha He. assert (counted 0 (spawn cfg now)) as H0.
  { unfold Connection.spawn. destruct (new_receive now); [|done]. apply counted_again. right. split; [done|lia]. }
  apply (counted_run 0 inputs) in H0; [|done]. rewrite Nat.add_0_r in H0.
  destruct (run inputs (spawn cfg now)); cbn [actor_of counted] in *; simplify_eq; rewrite He in H0;
    destruct H0 as [|H0]; try done; lia.
Qed.

(** Attempts that all fail before a connection is made, each after the wait the
    last one led to. *)
Definition failing (fs : list (Instant * IrcError * option IrcError * f64)) : list RunInput :=
  concat (map (λ '(now, e, broken, jitter), [Opened now (Some e) broken jitter; Woke]) fs).
Definition stopped (x : Run) : bool := match x with GivenUp _ _ | Ended _ | Crashed => true | _ => false end.

Lemma failing_unasked fs : Told (Some Reconnect) ∉ failing fs.
Proof.
  induction fs as [|[[[now e] broken] jitter] fs IH]; [apply not_elem_of_nil|].
  change (failing _) with (Opened now (Some e) broken jitter :: Woke :: failing fs). by rewrite !not_elem_of_cons.
Qed.

Lemma again_cases a r : ever_registered a = false →
  stopped (attempt_again is_file a r) = true ∨ ∃ a' r', attempt_again is_file a r = Trying a' r' ∧ ever_registered a' = false.
Proof.
  intros H. unfold attempt_again. destruct (validate is_file (config a)); [right|by left].
  eexists _, _. split; [done|]. by rewrite (proj1 (status_same _ _ _)).
Qed.

(** What comes of an attempt that did not end in farewell or refusal. *)
Lemma settle_cases e jitter a r :
  (stopped (settle powf show_socks causes (inr e) jitter a r) = true ∧
     (ever_registered a = true → settle powf show_socks causes (inr e) jitter a r = Crashed)) ∨
  ∃ a', settle powf show_socks causes (inr e) jitter a r = BackingOff a' r ∧ ever_registered a' = ever_registered a.
Proof.
  unfold settle. cbv zeta. cbn [orb ever_registered set_session]. destruct (negb _ && _) eqn:E.
  { left. split; [done|]. intros H. by rewrite H in E. }
  destruct (next_delay_with_jitter _ _ _) as [[delay|] b]; [right|by left]. eexists. split; [done|]. by rewrite (proj1 (status_same _ _ _)).
Qed.

Lemma stopped_stays fs x : stopped x = true → stopped (run (failing fs) x) = true.
Proof.
  revert x. induction fs as [|[[[now e] broken] jitter] fs IH]; intros x H; [done|].
  unfold failing, Connection.run. cbn [map concat app foldl]. apply IH. by destruct x.
Qed.

Lemma failing_run fs a r : ever_registered a = false →
  stopped (run (failing fs) (Trying a r)) = true ∨
  ∃ a' r', run (failing fs) (Trying a r) = Trying a' r' ∧ ever_registered a' = false ∧
    attempts (failing fs) (Trying a r) = length fs.
Proof.
  revert a r. induction fs as [|[[[now e] broken] jitter] fs IH]; intros a r H; [right; eauto|].
  change (failing _) with (Opened now (Some e) broken jitter :: Woke :: failing fs).
  change (run (_ :: _ :: failing fs) ?x) with (run (failing fs) (run_step Woke (run_step (Opened now (Some e) broken jitter) x))).
  cbn [attempts tried length]. change (run_step (Opened now (Some e) broken jitter) (Trying a r))
    with (settle powf show_socks causes (inr e) jitter a r).
  destruct (settle_cases e jitter a r) as [[Hs _]|(a1 & -> & H1)].
  { left. apply stopped_stays. by destruct (settle _ _ _ _ _ _ _). }
  change (run_step Woke (BackingOff a1 r)) with (attempt_again is_file a1 r).
  destruct (again_cases a1 r) as [Hs|(a2 & r2 & -> & H2)]; [congruence|left; by apply stopped_stays|].
  destruct (IH a2 r2 H2) as [?|(a3 & r3 & -> & ? & ->)]; [by left|right; eauto].
Qed.

Lemma spawn_cases cfg now :
  stopped (spawn cfg now) = true ∨ ∃ a r, spawn cfg now = Trying a r ∧ ever_registered a = false.
Proof. unfold Connection.spawn. destruct (new_receive now); [by apply again_cases|by left]. Qed.

End Props.

(** * A connection's life, run by hand: four attempts that fail, and a directory
    that was asked for when the connection broke. *)

Definition cw_config : ServerConfig :=
  mkConfig (lit "irc.example.org") 6697 (lit "me") [] None None [lit "#a"] None None None None None None.
Definition cw_lower (c : char) : str := [char_lower c].
Definition cw_alnum (c : char) : bool := is_ascii_digit c || is_ascii_uppercase (char_upper c).
Definition cw_source (m : Message) : option str := match prefix m with Some (Nickname n _ _) => Some n | _ => None end.
(** Powers of two, which is all the default backoff asks for. *)
Definition cw_powf (_ e : f64) : f64 :=
  match from_secs_f64 e with Some n => f64_of (2 ^ Z.of_N (n / NANOS)) | None => S754_nan end.

Abbreviation cw_run :=
  (run (IpAddr := N) (λ n, n) (λ _, None) cw_lower cw_alnum cw_source (λ _, 0%N) (λ _, []) (λ s, s) (λ _, true) cw_powf (λ _, []) (λ _, [])).
Abbreviation cw_attempts :=
  (attempts (IpAddr := N) (λ n, n) (λ _, None) cw_lower cw_alnum cw_source (λ _, 0%N) (λ _, []) (λ s, s) (λ _, true) cw_powf (λ _, []) (λ _, [])).
Abbreviation cw_start := (spawn (λ _, true) cw_config 0).

Definition fails : RunInput := Opened 0 (Some PingTimeout) None (S754_zero false).
Definition opens : RunInput := Opened 0 None None (S754_zero false).
Definition hears (m : option (Line + IrcError)) : RunInput := On 0 (Heard 0 m) None (S754_zero false).
Definition asks (c : ClientCommand) : RunInput :=
  On 0 (Asked (mkWorld [] (Ok 0%N) None (Ok 0%N) ∅) (Some c)) None (S754_zero false).

(** ** Giving up *)

Definition cw_failures : list RunInput := [fails; Woke; fails; Woke; fails; Woke; fails; Woke; fails].

Example cw_given_up :
  match cw_run cw_failures cw_start with GivenUp a _ => map (λ e, match e with Status s _ => Some s | _ => None end) (events a) | _ => [] end
  = Some <$> [Connecting; Reconnecting 1 1; Connecting; Reconnecting 2 2; Connecting; Reconnecting 4 3; Connecting; Disconnected].
Proof. vm_compute. reflexivity. Qed.

Definition cw_left : @Actor N := default (new_actor cw_config) (actor_of (cw_run cw_failures cw_start)).
Lemma cw_left_eq : actor_of (cw_run cw_failures cw_start) = Some cw_left.
Proof. vm_compute. reflexivity. Qed.
Lemma cw_never : ever_registered cw_left = false.
Proof. vm_compute. reflexivity. Qed.
Lemma cw_unasked : Told (Some Reconnect) ∉ cw_failures.
Proof. unfold cw_failures. rewrite !not_elem_of_cons. split_and!; try discriminate. apply not_elem_of_nil. Qed.

(** Five failures are offered, and four attempts are made: one more than the
    constant and the documentation say. *)
Example four_attempts_made : cw_attempts cw_failures cw_start = 4 ∧ cw_attempts cw_failures cw_start ≤ 4.
Proof.
  split; [vm_compute; reflexivity|].
  exact (never_registered_tried _ _ _ _ _ _ _ _ _ _ _ _ _ _ _ _ cw_unasked cw_left_eq cw_never).
Qed.


(** ** A directory asked for when the connection broke *)

Definition welcome : Line :=
  mkLine None (Proto.mkMessage (Some (ServerName (lit "irc.example.org"))) (Reply RPL_WELCOME [lit "me"; lit "Welcome"])).
Definition queued_lists (x : @Run N) : option nat :=
  match x with
  | Online c => Some (length (List.filter (λ l, match command (message l) with LIST _ _ => true | _ => false end) (outgoing (actor c))))
  | _ => None
  end.

(** The request in progress outlives the connection it was made on: after a
    reconnection the directory can no longer be asked for. On a connection of
    its own the same request is sent. *)
Theorem listing_outlives_connection :
  queued_lists (cw_run [opens; hears (Some (inl welcome)); asks ListChannels] cw_start) = Some 1 ∧
  queued_lists (cw_run [opens; hears (Some (inl welcome)); asks ListChannels; hears None; Woke;
                        opens; hears (Some (inl welcome)); asks ListChannels] cw_start) = Some 0.
Proof. split; vm_compute; reflexivity. Qed.
