(* ===== verification/ClientCommands.v ===== *)
(** A typed line, turned into something to do
    ([ddirc-cli/src/client/commands.rs]). *)
From S2P Require Import Prelude RustStr Contacts Api.

Inductive Action :=
  | Send (command : ClientCommand)
  | NoticeText (text : str)
  | Query (nick : str)
  | Close
  | Clear
  | Help.

Definition is_channel (name : str) : bool :=
  match name with c :: _ => contains_char c (lit "#&+!") | [] => false end.

Definition channel (name : str) : str := if is_channel name then name else lit "#" ++ name.

Definition is_eol (c : char) : bool := (c =? 13)%N || (c =? 10)%N.

(** [(!s.is_empty()).then(...)]. *)
Definition reason_of (s : str) : option str := if is_empty s then None else Some s.

Definition or_else {A} (a b : option A) : option A := match a with Some _ => a | None => b end.

Section Commands.
Context (is_chan : str → bool) (add_sigil : bool) (current : option str).

Definition current_channel : option str :=
  match current with Some c => if is_chan c then Some c else None | None => None end.

(** The arms of the match that may need a target or a channel. *)
Definition part_command (argument : str) : Action :=
  let '(named, why) :=
    match split_once 0x20%N argument with
    | Some (first, why) => if is_chan first then (Some first, trim why) else (None, argument)
    | None => if is_chan argument then (Some argument, []) else (None, argument)
    end in
  match or_else named current_channel with
  | Some c => Send (Part c (reason_of why))
  | None => NoticeText (lit "not in a channel")
  end.

Definition kick_command (argument : str) : Action :=
  let '(named, rest) :=
    match split_once 0x20%N argument with
    | Some (first, rest) => if is_chan first then (Some first, trim rest) else (None, argument)
    | None => (None, argument)
    end in
  let '(nick, why) :=
    match split_once 0x20%N rest with
    | Some (nick, why) => (nick, trim why)
    | None => (rest, [])
    end in
  match or_else named current_channel with
  | Some c =>
      if negb (is_empty nick) then Send (Kick c nick (reason_of why))
      else NoticeText (lit "usage: /kick <nick> [reason]")
  | None => NoticeText (lit "not in a channel")
  end.

Definition join_command (argument : str) : Action :=
  let '(name, key) :=
    match split_once 0x20%N argument with
    | Some (name, key) => (name, reason_of (trim key))
    | None => (argument, None)
    end in
  Send (Join (if add_sigil then channel name else name) key).

Definition msg_command (argument : str) : Action :=
  match split_once 0x20%N argument with
  | Some (target, text) =>
      if negb (is_empty (trim text)) then Send (SendMessage target (trim text))
      else NoticeText (lit "usage: /msg <target> <text>")
  | None => NoticeText (lit "usage: /msg <target> <text>")
  end.

Definition topic_command (argument : str) : Action :=
  match current_channel with
  | Some c => if is_empty argument then NoticeText (lit "usage: /topic <text>") else Send (SetTopic c argument)
  | None => NoticeText (lit "not in a channel")
  end.

Definition in_conversation (f : str → ClientCommand) : Action :=
  match current with
  | Some target => Send (f target)
  | None => NoticeText (lit "no current conversation")
  end.

Definition add_contact_command (argument : str) : Action :=
  match split_once 0x20%N argument with
  | Some (jid, name) => Send (AddContact jid (reason_of (trim name)))
  | None => Send (AddContact argument None)
  end.

(** The command is already in lower case. *)
Definition dispatch (command argument : str) : Action :=
  let cmd (s : String.string) := bool_decide (command = lit s) in
  let some := negb (is_empty argument) in
  if (cmd "join"%string || cmd "j"%string) && some then join_command argument
  else if cmd "part"%string || cmd "leave"%string then part_command argument
  else if cmd "nick"%string && some then Send (SetNick argument)
  else if cmd "me"%string && some then in_conversation (λ t, SendAction t argument)
  else if cmd "msg"%string || cmd "m"%string then msg_command argument
  else if (cmd "query"%string || cmd "q"%string) && some then Query (take_while (λ c, negb (c =? 0x20)%N) argument)
  else if cmd "topic"%string then topic_command argument
  else if cmd "kick"%string && some then kick_command argument
  else if (cmd "accept"%string || cmd "decline"%string) && some
  then Send (AnswerSubscription argument (cmd "accept"%string))
  else if cmd "addcontact"%string && some then add_contact_command argument
  else if cmd "rmcontact"%string && some then Send (RemoveContact argument)
  else if cmd "away"%string || cmd "dnd"%string || cmd "back"%string then
    Send (SetAvailability (if cmd "away"%string then Away else if cmd "dnd"%string then Dnd else Available)
            (reason_of argument))
  else if cmd "file"%string && some then in_conversation (λ t, SendFile t argument)
  else if cmd "list"%string then Send ListChannels
  else if cmd "whois"%string && some then Send (WhoisOf argument)
  else if cmd "close"%string then Close
  else if cmd "clear"%string then Clear
  else if cmd "help"%string || cmd "?"%string then Help
  else if cmd "quit"%string || cmd "exit"%string then Send (Disconnect (reason_of argument))
  else NoticeText (lit "unknown command: /" ++ command).

Definition command_for_with (line : str) : option Action :=
  let line := trim_end_matches is_eol line in
  if is_empty (trim line) then None
  else
    match strip_prefix (lit "/") line with
    | None =>
        match current with
        | Some target => Some (Send (SendMessage target line))
        | None => None
        end
    | Some rest =>
        let '(command, argument) :=
          match split_once 0x20%N rest with
          | Some (command, argument) => (command, trim argument)
          | None => (rest, [])
          end in
        Some (dispatch (to_ascii_lowercase command) argument)
    end.
End Commands.

Definition command_for (line : str) (current : option str) : option Action :=
  command_for_with is_channel true current line.
