(* ===== verification/ClientModel.v ===== *)
(** What the full-screen client knows, and how it reacts to a key or an event
    ([ddirc-cli/src/client/model.rs]).

    An index out of range, which panics in the source, is [None]. The text
    field is the terminal library's: its type and operations are parameters,
    and nothing is assumed of them. Unread counts and the like do not overflow
    [usize]. *)
From S2P Require Import Prelude RustStr Format Offer Room Contacts Listing Api ClientCommands Keymap.

Definition MAX_LINES : nat := 2000.
Definition PAGE : nat := 10.

(** * Conversations *)

Inductive BufferKind := Server | ChannelBuffer | DirectBuffer.
#[export] Instance BufferKind_eq_dec : EqDecision BufferKind.
Proof. solve_decision. Defined.

Inductive LineKind := ChatLine | ActionLine | NoticeLine | JoinLine | PartLine | InfoLine | ErrorLine.

Record Line := mkLine {
  ln_kind : LineKind;
  ln_own : bool;
  ln_mention : bool;
  ln_who : str;
  ln_prefix : str;
  ln_body : list TextSpan;
}.

Definition system (kind : LineKind) (text : str) : Line :=
  mkLine kind false false [] [] [mkSpan text default_style].

Definition from_message (m : ChatMessage) : Line :=
  let kind := if cm_is_action m then ActionLine else if cm_is_notice m then NoticeLine else ChatLine in
  mkLine kind (cm_is_self m) (cm_is_mention m) (cm_sender m) (default [] (cm_sender_prefix m)) (cm_spans m).

Record Buffer := mkBuffer {
  b_name : str;
  b_kind : BufferKind;
  b_lines : list Line;
  b_unread : nat;
  b_mentioned : bool;
  b_members : list MemberView;
  b_topic : option str;
  b_scroll : nat;
}.

Definition new_buffer (name : str) (kind : BufferKind) : Buffer := mkBuffer name kind [] 0 false [] None 0.

Definition set_lines (l : list Line) (scroll : nat) (b : Buffer) : Buffer :=
  mkBuffer (b_name b) (b_kind b) l (b_unread b) (b_mentioned b) (b_members b) (b_topic b) scroll.
Definition set_unread (n : nat) (m : bool) (b : Buffer) : Buffer :=
  mkBuffer (b_name b) (b_kind b) (b_lines b) n m (b_members b) (b_topic b) (b_scroll b).
Definition set_members (l : list MemberView) (b : Buffer) : Buffer :=
  mkBuffer (b_name b) (b_kind b) (b_lines b) (b_unread b) (b_mentioned b) l (b_topic b) (b_scroll b).
Definition set_buffer_topic (t : option str) (b : Buffer) : Buffer :=
  mkBuffer (b_name b) (b_kind b) (b_lines b) (b_unread b) (b_mentioned b) (b_members b) t (b_scroll b).

(** [while lines.len() > MAX_LINES]: each turn drops one line. *)
Fixpoint trim_lines (fuel : nat) (l : list Line) (scroll : nat) : list Line * nat :=
  match fuel with
  | O => (l, scroll)
  | S fuel => if Nat.ltb MAX_LINES (length l) then trim_lines fuel (tail l) (scroll - 1) else (l, scroll)
  end.

Definition push_line (line : Line) (b : Buffer) : Buffer :=
  let l := b_lines b ++ [line] in
  let scroll := if Nat.ltb 0 (b_scroll b) then S (b_scroll b) else b_scroll b in
  let '(l, scroll) := trim_lines (length l) l scroll in
  set_lines l (Nat.min scroll (length l - 1)) b.

(** A stable sort, as [sort_by] and [sort_by_key] are. *)
Section Sort.
Context {A : Type} (less : A → A → bool).
Fixpoint settle (x : A) (l : list A) : list A :=
  match l with [] => [x] | y :: l => if less x y then x :: y :: l else y :: settle x l end.
Definition stable_sort (l : list A) : list A := foldl (λ acc x, settle x acc) [] l.
End Sort.

Definition str_ltb (a b : str) : bool := negb (str_leb b a).
Definition member_less (a b : MemberView) : bool := str_ltb (v_sort_key a) (v_sort_key b).

(** [partition_point]: how many come before; a binary search, which on a list
    in order is the length of the prefix that does. *)
Fixpoint partition_point {A} (p : A → bool) (l : list A) : nat :=
  match l with x :: l => if p x then S (partition_point p l) else 0 | [] => 0 end.

Definition same (a b : str) : bool := eq_ignore_ascii_case a b.

Definition change_member (previous : str) (member : option MemberView) (l : list MemberView) : list MemberView :=
  let l := List.filter (λ m, negb (same (v_nick m) previous)) l in
  match member with
  | Some m =>
      let at_ := partition_point (λ x, member_less x m) l in
      take at_ l ++ m :: drop at_ l
  | None => l
  end.

(** * The application *)

Inductive Popup :=
  | HelpPopup
  | Channels (items : list ChannelListing) (selected : nat) (done_ truncated : bool)
  | WhoisPopup (info : WhoisInfo).

Record Completion := mkCompletion {
  cp_start : nat;
  cp_matches : list str;
  cp_index : nat;
  cp_shown : str;
}.

Section App.
Context {IpAddr Input : Type} (value : Input → str) (cursor : Input → nat)
  (new_input : str → Input) (with_cursor : nat → Input → Input) (default_input : Input)
  (handle_event : KeyEvent → Input → Input) (lower : char → option char).

Record App := mkApp {
  buffers : list Buffer;
  current : nat;
  a_nick : str;
  network : option str;
  status : ConnectionStatus;
  status_detail : option str;
  input : Input;
  popup : option Popup;
  quit : bool;
  awaiting_list : bool;
  history : list str;
  history_at : option nat;
  draft : str;
  completion : option Completion;
  xmpp : bool;
}.

Definition new_app (nick host : str) : App :=
  mkApp [new_buffer host Server] 0 nick None Connecting None default_input None false false [] None [] None false.
Definition for_xmpp (a : App) : App :=
  mkApp (buffers a) (current a) (a_nick a) (network a) (status a) (status_detail a) (input a) (popup a) (quit a)
    (awaiting_list a) (history a) (history_at a) (draft a) (completion a) true.

Definition set_buffers (l : list Buffer) (cur : nat) (a : App) : App :=
  mkApp l cur (a_nick a) (network a) (status a) (status_detail a) (input a) (popup a) (quit a)
    (awaiting_list a) (history a) (history_at a) (draft a) (completion a) (xmpp a).
Definition set_nick (n : str) (a : App) : App :=
  mkApp (buffers a) (current a) n (network a) (status a) (status_detail a) (input a) (popup a) (quit a)
    (awaiting_list a) (history a) (history_at a) (draft a) (completion a) (xmpp a).
Definition set_network (n : option str) (a : App) : App :=
  mkApp (buffers a) (current a) (a_nick a) n (status a) (status_detail a) (input a) (popup a) (quit a)
    (awaiting_list a) (history a) (history_at a) (draft a) (completion a) (xmpp a).
Definition set_status (s : ConnectionStatus) (d : option str) (a : App) : App :=
  mkApp (buffers a) (current a) (a_nick a) (network a) s d (input a) (popup a) (quit a)
    (awaiting_list a) (history a) (history_at a) (draft a) (completion a) (xmpp a).
Definition set_input (i : Input) (a : App) : App :=
  mkApp (buffers a) (current a) (a_nick a) (network a) (status a) (status_detail a) i (popup a) (quit a)
    (awaiting_list a) (history a) (history_at a) (draft a) (completion a) (xmpp a).
Definition set_popup (p : option Popup) (waiting : bool) (a : App) : App :=
  mkApp (buffers a) (current a) (a_nick a) (network a) (status a) (status_detail a) (input a) p (quit a)
    waiting (history a) (history_at a) (draft a) (completion a) (xmpp a).
Definition set_quit (a : App) : App :=
  mkApp (buffers a) (current a) (a_nick a) (network a) (status a) (status_detail a) (input a) (popup a) true
    (awaiting_list a) (history a) (history_at a) (draft a) (completion a) (xmpp a).
Definition set_history (h : list str) (i : option nat) (d : str) (a : App) : App :=
  mkApp (buffers a) (current a) (a_nick a) (network a) (status a) (status_detail a) (input a) (popup a) (quit a)
    (awaiting_list a) h i d (completion a) (xmpp a).
Definition set_completion (c : option Completion) (a : App) : App :=
  mkApp (buffers a) (current a) (a_nick a) (network a) (status a) (status_detail a) (input a) (popup a) (quit a)
    (awaiting_list a) (history a) (history_at a) (draft a) c (xmpp a).

(** [&self.buffers[i]] and [&mut self.buffers[i]]. *)
Definition buffer_at (i : nat) (a : App) : option Buffer := buffers a !! i.
Definition with_buffer (i : nat) (f : Buffer → Buffer) (a : App) : option App :=
  b ← buffers a !! i; Some (set_buffers (<[i := f b]> (buffers a)) (current a) a).
Definition with_current (f : Buffer → Buffer) (a : App) : option App := with_buffer (current a) f a.

Definition is_conversation (name : str) (b : Buffer) : bool :=
  negb (bool_decide (b_kind b = Server)) && same (b_name b) name.

Fixpoint position_of (p : Buffer → bool) (l : list Buffer) : option nat :=
  match l with [] => None | b :: l => if p b then Some 0 else S <$> position_of p l end.

Definition find_buffer (name : str) (a : App) : option nat := position_of (is_conversation name) (buffers a).

Definition is_room (name : str) (a : App) : bool :=
  match List.find (is_conversation name) (buffers a) with
  | Some b => bool_decide (b_kind b = ChannelBuffer)
  | None => contains_char 0x40%N name && negb (contains_char 0x2F%N name)
  end.

(** The conversation a typed line goes to. *)
Definition target (a : App) : option (option str) :=
  b ← buffer_at (current a) a;
  Some (if bool_decide (b_kind b = Server) then None else Some (b_name b)).

Definition ensure (name : str) (kind : BufferKind) (a : App) : nat * App :=
  match find_buffer name a with
  | Some i => (i, a)
  | None => (length (buffers a), set_buffers (buffers a ++ [new_buffer name kind]) (current a) a)
  end.

Definition switch (i : nat) (a : App) : option App :=
  if Nat.ltb i (length (buffers a)) then
    with_buffer i (set_unread 0 false) (set_buffers (buffers a) i a)
  else Some a.

(** [% n], which panics when [n] is zero. *)
Definition checked_mod (x n : nat) : option nat := if Nat.eqb n 0 then None else Some (x mod n).

Definition step (forward : bool) (a : App) : option App :=
  let n := length (buffers a) in
  next ← checked_mod (if forward then current a + 1 else current a + n - 1) n;
  switch next a.

Definition remove_buffer (i : nat) (a : App) : App :=
  if Nat.eqb i 0 || Nat.leb (length (buffers a)) i then a
  else
    let l := take i (buffers a) ++ drop (S i) (buffers a) in
    let cur := if Nat.eqb (current a) i then 0
               else if Nat.ltb i (current a) then current a - 1 else current a in
    set_buffers l cur a.

Definition server_line (kind : LineKind) (text : str) (a : App) : option App :=
  with_buffer 0 (push_line (system kind text)) a.

Definition line_in (name : str) (line : Line) (a : App) : option App :=
  with_buffer (default 0 (find_buffer name a)) (push_line line) a.

(** ** Events *)

Definition on_message (m : ChatMessage) (a : App) : option App :=
  let from_server := cm_is_notice m && contains_char 0x2E%N (cm_sender m) in
  let '(i, kind, a) :=
    match cm_target m with
    | ToChannel name => let '(i, a) := ensure name ChannelBuffer a in (i, ChannelBuffer, a)
    | ToDirect nick =>
        if from_server then (0, Server, a)
        else let '(i, a) := ensure nick DirectBuffer a in (i, DirectBuffer, a)
    end in
  let here := Nat.eqb i (current a) in
  with_buffer i (λ b,
    let b := push_line (from_message m) b in
    if negb here && negb (cm_is_self m) then
      set_unread (S (b_unread b))
        (if cm_is_mention m || bool_decide (kind = DirectBuffer) then true else b_mentioned b) b
    else b) a.

Definition status_text (s : ConnectionStatus) : str :=
  match s with
  | Disconnected => lit "disconnected"
  | Connecting => lit "connecting"
  | Registering => lit "registering"
  | Connected => lit "connected"
  | Reconnecting retry attempt =>
      lit "reconnecting in " ++ to_dec retry ++ lit "s (attempt " ++ to_dec attempt ++ lit ")"
  end.

Definition why (reason : option str) : str :=
  match reason with Some r => lit " (" ++ r ++ lit ")" | None => [] end.

Definition quoted (name : str) : str := [0x22%N] ++ name ++ [0x22%N].

Definition on_parted (channel nick : str) (is_self : bool) (reason : option str) (a : App) : option App :=
  if is_self then
    let a := match find_buffer channel a with Some i => remove_buffer i a | None => a end in
    server_line PartLine (lit "you left " ++ channel ++ why reason) a
  else line_in channel (system PartLine (nick ++ lit " left" ++ why reason)) a.

Definition on_joined (channel nick : str) (is_self : bool) (a : App) : option App :=
  let '(i, a) := ensure channel ChannelBuffer a in
  a ← (if is_self then switch i a else Some a);
  with_buffer i (push_line (system JoinLine
    (if is_self then lit "you joined " ++ channel else nick ++ lit " joined"))) a.

Definition on_topic (channel topic : str) (set_by : option str) (a : App) : option App :=
  a ← (match find_buffer channel a with
       | Some i => with_buffer i (set_buffer_topic (if is_empty topic then None else Some topic)) a
       | None => Some a
       end);
  line_in channel (system InfoLine
    (match set_by with
     | Some who => who ++ lit " set the topic: " ++ topic
     | None => lit "topic: " ++ topic
     end)) a.

Definition in_found (channel : str) (f : Buffer → Buffer) (a : App) : option App :=
  match find_buffer channel a with Some i => with_buffer i f a | None => Some a end.

Definition on_channel_list (channels : list ChannelListing) (done_ truncated : bool) (a : App) : App :=
  if awaiting_list a then
    let selected := match popup a with
                    | Some (Channels _ selected _ _) => Nat.min selected (length channels - 1)
                    | _ => 0
                    end in
    set_popup (Some (Channels channels selected done_ truncated)) (negb done_) a
  else a.

Definition apply_event (e : IrcEvent IpAddr) (a : App) : option App :=
  match e with
  | Message m => on_message m a
  | Status s detail =>
      let full := match detail with
                  | Some d => if is_empty d then status_text s else status_text s ++ lit ": " ++ d
                  | None => status_text s
                  end in
      server_line InfoLine full (set_status s detail a)
  | Registered nick net _ =>
      let a := set_nick nick a in
      let a := match net with Some _ => set_network net a | None => a end in
      server_line InfoLine (lit "registered as " ++ nick) a
  | NetworkNamed net =>
      a ← server_line InfoLine (lit "network: " ++ net) a; Some (set_network (Some net) a)
  | Joined channel nick is_self => on_joined channel nick is_self a
  | Parted channel nick is_self reason => on_parted channel nick is_self reason a
  | Quit_ channel nick reason => line_in channel (system PartLine (nick ++ lit " quit" ++ why reason)) a
  | NickChanged channel old new is_self =>
      let a := if is_self then set_nick new a else a in
      line_in channel (system InfoLine (old ++ lit " is now " ++ new)) a
  | TopicChanged channel topic set_by => on_topic channel topic set_by a
  | MemberList channel members => in_found channel (set_members (stable_sort member_less members)) a
  | MemberChanged channel previous member =>
      in_found channel (λ b, set_members (change_member previous member (b_members b)) b) a
  | ModeChanged channel by_ affected =>
      line_in channel (system InfoLine
        (default (lit "the server") by_ ++ lit " changed privileges for " ++ join (lit ", ") affected)) a
  | MessagesDropped channel count =>
      let line := system ErrorLine (to_dec count ++ lit " message(s) dropped by flood protection") in
      match channel with Some c => line_in c line a | None => with_buffer 0 (push_line line) a end
  | FileOffered _ channel from offer =>
      let size := match size offer with Some b => lit ", " ++ to_dec b ++ lit " bytes" | None => [] end in
      line_in channel (system InfoLine
        (from ++ lit " offered " ++ quoted (filename offer) ++ size ++ lit " (not accepted here)")) a
  | FileTransferStarted _ _ filename incoming _ =>
      server_line InfoLine ((if incoming then lit "receiving" else lit "sending") ++ lit " " ++ quoted filename) a
  | FileTransferProgress _ _ | Contact_ _ | ContactRemoved_ _ | UploadAvailable _ => Some a
  | SubscriptionRequest jid =>
      with_buffer 0 (push_line (system InfoLine
        (jid ++ lit " asks to see when you are online: /accept " ++ jid ++ lit " or /decline " ++ jid))) a
  | MessageEdited t _ sender message =>
      line_in (target_name t) (system InfoLine
        (sender ++ lit " corrected a message: " ++ concat (map text (cm_spans message)))) a
  | MessageRetracted t _ sender =>
      line_in (target_name t) (system InfoLine (sender ++ lit " deleted a message")) a
  | FileTransferEnded _ _ filename path error =>
      server_line InfoLine
        (quoted filename ++
         match error, path with
         | Some e, _ => lit " failed: " ++ e
         | None, Some p => lit " saved to " ++ p
         | None, None => lit " sent"
         end) a
  | ChannelList channels done_ truncated => Some (on_channel_list channels done_ truncated a)
  | WhoisEvent info => Some (set_popup (Some (WhoisPopup info)) (awaiting_list a) a)
  | ErrorEvent message fatal =>
      with_current (push_line (system ErrorLine (if fatal then lit "fatal: " ++ message else message))) a
  end.

(** ** Keys *)

Definition scroll_by (up : bool) (by_ : nat) (a : App) : option App :=
  with_current (λ b,
    let max := length (b_lines b) - 1 in
    set_lines (b_lines b) (if up then Nat.min (b_scroll b + by_) max else b_scroll b - by_) b) a.

Definition history_step (back : bool) (a : App) : option App :=
  if is_empty (history a) then Some a
  else
    let n := length (history a) in
    let go (next : option nat) (a : App) : option App :=
      match next with
      | Some i =>
          line ← history a !! i;
          Some (set_input (new_input line) (set_history (history a) next (draft a) a))
      | None => Some (set_input (new_input (draft a)) (set_history (history a) None [] a))
      end in
    match history_at a, back with
    | None, true => go (Some (n - 1)) (set_history (history a) (history_at a) (value (input a)) a)
    | None, false => Some a
    | Some i, true => go (Some (i - 1)) a
    | Some i, false => if Nat.ltb (i + 1) n then go (Some (i + 1)) a else go None a
    end.

(** [rposition], from the end. *)
Fixpoint rposition (p : char → bool) (l : str) : option nat :=
  match l with
  | [] => None
  | c :: l => match rposition p l with Some i => Some (S i) | None => if p c then Some 0 else None end
  end.

(** The completion to carry on with, if what it showed is still there. *)
Definition still_there (v : str) (c : option Completion) : option Completion :=
  match c with
  | Some c =>
      if bool_decide (slice v (cp_start c) (cp_start c + length (cp_shown c)) = Some (cp_shown c))
      then Some c else None
  | None => None
  end.

(** A new completion of the word before the cursor: [Some None] when there is
    nothing to complete. *)
Definition begin_completion (v : str) (cur : nat) (b : Buffer) : option (option Completion) :=
  head ← slice v 0 cur;
  let start := match rposition is_whitespace head with Some i => i + 1 | None => 0 end in
  word ← slice v start cur;
  if is_empty word then Some None
  else
    let prefix := to_ascii_lowercase word in
    let found := map v_nick (List.filter (λ m, starts_with prefix (to_ascii_lowercase (v_nick m))) (b_members b)) in
    let matches := stable_sort (λ x y, str_ltb (to_ascii_lowercase x) (to_ascii_lowercase y)) found in
    if is_empty matches then Some None else Some (Some (mkCompletion start matches 0 word)).

(** What replaces the word. *)
Definition show_completion (v : str) (c : Completion) (a : App) : option App :=
  let suffix := if Nat.eqb (cp_start c) 0 then lit ": " else lit " " in
  name ← cp_matches c !! cp_index c;
  let replacement := name ++ suffix in
  before ← slice v 0 (cp_start c);
  after ← slice v (cp_start c + length (cp_shown c)) (length v);
  let end_ := cp_start c + length replacement in
  Some (a |> set_completion (Some (mkCompletion (cp_start c) (cp_matches c) (cp_index c) replacement))
          |> set_input (with_cursor end_ (new_input (before ++ replacement ++ after)))).

Definition complete (a : App) : option App :=
  let v := value (input a) in
  let cur := Nat.min (cursor (input a)) (length v) in
  match still_there v (completion a) with
  | None =>
      let a := set_completion None a in
      b ← buffer_at (current a) a;
      c ← begin_completion v cur b;
      match c with
      | None => Some a
      | Some c => show_completion v c a
      end
  | Some c =>
      next ← checked_mod (cp_index c + 1) (length (cp_matches c));
      show_completion v (mkCompletion (cp_start c) (cp_matches c) next (cp_shown c)) a
  end.

Definition popup_key (k : KeyEvent) (a : App) : App * list ClientCommand :=
  match popup a with
  | None => (a, [])
  | Some (Channels items selected d t) =>
      let last := length items - 1 in
      let move i := (set_popup (Some (Channels items i d t)) (awaiting_list a) a, []) in
      match code k with
      | Up => move (selected - 1)
      | Down => move (Nat.min (selected + 1) last)
      | PageUp => move (selected - PAGE)
      | PageDown => move (Nat.min (selected + PAGE) last)
      | Home => move 0
      | End_ => move last
      | Enter =>
          (set_popup None false a,
           match items !! selected with Some c => [Join (l_name c) None] | None => [] end)
      | Esc => (set_popup None false a, [])
      | Char c => if (c =? ch "q")%N then (set_popup None false a, []) else (a, [])
      | _ => (a, [])
      end
  | Some (HelpPopup | WhoisPopup _) =>
      let closes := match code k with
                    | Esc | Enter => true
                    | Char c => (c =? ch "q")%N
                    | F n => (n =? 1)%N
                    | _ => false
                    end in
      (if closes then set_popup None (awaiting_list a) a else a, [])
  end.

Definition do_action (act : Action) (a : App) : option (App * list ClientCommand) :=
  match act with
  | Send c =>
      let a := match c with
               | Disconnect _ => set_quit a
               | ListChannels => set_popup (Some (Channels [] 0 false false)) true a
               | _ => a
               end in
      Some (a, [c])
  | NoticeText t => a ← with_current (push_line (system ErrorLine t)) a; Some (a, [])
  | Query nick => let '(i, a) := ensure nick DirectBuffer a in a ← switch i a; Some (a, [])
  | Close =>
      b ← buffer_at (current a) a;
      match b_kind b with
      | Server =>
          a ← with_current (push_line (system ErrorLine (lit "the server window cannot be closed; /quit leaves"))) a;
          Some (a, [])
      | ChannelBuffer => Some (a, [Part (b_name b) None])
      | DirectBuffer => Some (remove_buffer (current a) a, [])
      end
  | Clear => a ← with_current (set_lines [] 0) a; Some (a, [])
  | Help => Some (set_popup (Some HelpPopup) (awaiting_list a) a, [])
  end.

Definition submit (a : App) : option (App * list ClientCommand) :=
  let line := value (input a) in
  let a := set_input default_input a in
  let a := set_history (history a) None (draft a) a in
  if is_empty (trim line) then Some (a, [])
  else
    let a := if bool_decide (last (history a) = Some line) then a
             else set_history (history a ++ [line]) None (draft a) a in
    t ← target a;
    let act := if xmpp a then command_for_with (λ name, is_room name a) false t line else command_for line t in
    match act with
    | None =>
        match t with
        | None =>
            a ← with_current (push_line (system ErrorLine (lit "no conversation here: /join #channel, or /help"))) a;
            Some (a, [])
        | Some _ => Some (a, [])
        end
    | Some act => do_action act a
    end.

Definition quiet (a : option App) : option (App * list ClientCommand) := a ← a; Some (a, []).

Definition key (k : KeyEvent) (a : App) : option (App * list ClientCommand) :=
  k ← (if ctrl k || alt k || bool_decide (is_Some (popup a)) then shortcut lower k else Some k);
  let is_char s := match code k with Char c => contains_char c s | _ => false end in
  if ctrl k && is_char (lit "cq") then Some (set_quit a, [Disconnect None])
  else if bool_decide (is_Some (popup a)) then Some (popup_key k a)
  else
    let is_tab := match code k with Tab => true | _ => false end in
    let cleared := if is_tab then a else set_completion None a in
    match code k with
    | F n =>
        if (n =? 1)%N then Some (set_popup (Some HelpPopup) (awaiting_list a) a, [])
        else Some (set_input (handle_event k (input cleared)) cleared, [])
    | Enter => submit cleared
    | Esc => Some (set_input default_input cleared, [])
    | Tab => quiet (complete cleared)
    | PageUp => quiet (scroll_by true PAGE cleared)
    | PageDown => quiet (scroll_by false PAGE cleared)
    | Up => quiet (history_step true cleared)
    | Down => quiet (history_step false cleared)
    | c =>
        if ctrl k && is_char (lit "n") then quiet (step true cleared)
        else if ctrl k && is_char (lit "p") then quiet (step false cleared)
        else if alt k && (match c with Right => true | _ => false end) then quiet (step true cleared)
        else if alt k && (match c with Left => true | _ => false end) then quiet (step false cleared)
        else if alt k && is_char (lit "123456789") then
          quiet (switch (match c with Char d => N.to_nat (d - 49) | _ => 0 end) cleared)
        else Some (set_input (handle_event k (input cleared)) cleared, [])
    end.
End App.
Arguments App : clear implicits.
