(* ===== verification/ClientModelProps.v ===== *)
(** The full-screen client never indexes out of range, whatever arrives and
    whatever is typed: the invariant of its state, and that every event and
    every key keeps it. *)
From S2P Require Import Prelude RustStr Format Room Contacts Listing Api ClientCommands Keymap ClientModel.

(** * The invariant *)

Definition member_le (a b : MemberView) : Prop := member_less b a = false.

Record buffer_ok (b : Buffer) : Prop := mkBufferOk {
  bo_lines : length (b_lines b) ≤ MAX_LINES;
  bo_scroll : b_scroll b ≤ length (b_lines b) - 1;
  bo_members : StronglySorted member_le (b_members b);
}.

Definition is_server (b : Buffer) : bool := bool_decide (b_kind b = Server).

Definition completion_ok (c : Completion) : Prop := cp_index c < length (cp_matches c).

Section Invariant.
Context {Input : Type}.

(** The server's window is first and the only one; the window shown exists;
    the line of history shown exists. *)
Record app_ok (a : App Input) : Prop := mkAppOk {
  ao_buffers : Forall buffer_ok (buffers a);
  ao_server : map is_server (buffers a) = true :: replicate (length (buffers a) - 1) false;
  ao_current : current a < length (buffers a);
  ao_history : ∀ i, history_at a = Some i → i < length (history a);
  ao_completion : ∀ c, completion a = Some c → completion_ok c;
}.
End Invariant.

(** * One conversation *)

Lemma trim_lines_spec fuel l n :
  length l ≤ fuel + MAX_LINES → length (trim_lines fuel l n).1 ≤ MAX_LINES.
Proof.
  revert l n. induction fuel as [|fuel IH]; intros l n; cbn [trim_lines]; [done|]. intros H.
  destruct (Nat.ltb_spec MAX_LINES (length l)); [|done]. apply IH. destruct l; cbn in *; lia.
Qed.

Lemma push_line_ok x b : buffer_ok b → buffer_ok (push_line x b).
Proof.
  intros [H1 H2 H3]. unfold push_line.
  pose proof (trim_lines_spec (length (b_lines b ++ [x])) (b_lines b ++ [x])
    (if Nat.ltb 0 (b_scroll b) then S (b_scroll b) else b_scroll b) ltac:(lia)) as H.
  destruct (trim_lines _ _ _) as [l n]. cbn in H. constructor; cbn; [done|lia|done].
Qed.

Lemma set_unread_ok n m b : buffer_ok b → buffer_ok (set_unread n m b).
Proof. by intros []. Qed.
Lemma set_buffer_topic_ok t b : buffer_ok b → buffer_ok (set_buffer_topic t b).
Proof. by intros []. Qed.
Lemma new_buffer_ok name kind : buffer_ok (new_buffer name kind).
Proof. constructor; cbn; [unfold MAX_LINES; lia|lia|constructor]. Qed.

(** ** The members stay in order *)

Lemma str_ltb_total a b : str_ltb a b = true → str_ltb b a = false.
Proof. unfold str_ltb. intros H%negb_true_iff. by rewrite (str_leb_total _ _ H). Qed.
Lemma member_le_total a b : member_less a b = true → member_le a b.
Proof. apply str_ltb_total. Qed.
Lemma member_le_trans a b c : member_le a b → member_le b c → member_le a c.
Proof.
  unfold member_le, member_less, str_ltb. rewrite !negb_false_iff. apply str_leb_trans.
Qed.

Lemma settle_elem {A} (less : A → A → bool) x l y : y ∈ settle less x l → y = x ∨ y ∈ l.
Proof.
  induction l as [|z l IH]; cbn [settle]; [set_solver|]. destruct (less x z); set_solver.
Qed.

Lemma settle_sorted x l : StronglySorted member_le l → StronglySorted member_le (settle member_less x l).
Proof.
  induction 1 as [|y l Hl IH Hy]; cbn [settle]; [by repeat constructor|].
  destruct (member_less x y) eqn:E.
  - repeat constructor; [done..|by apply member_le_total|].
    eapply Forall_impl; [exact Hy|]. intros z Hz. eapply member_le_trans; [by apply member_le_total|done].
  - constructor; [done|]. apply Forall_forall. intros z [->|Hz]%settle_elem; [done|].
    rewrite Forall_forall in Hy. auto.
Qed.

Lemma stable_sort_sorted l : StronglySorted member_le (stable_sort member_less l).
Proof.
  unfold stable_sort. assert (StronglySorted member_le []) as H by constructor. revert H.
  generalize (@nil MemberView). induction l as [|x l IH]; intros acc H; cbn [foldl]; [done|].
  by apply IH, settle_sorted.
Qed.

(** Inserting at the partition point is inserting in order. *)
Lemma partition_insert_sorted m l :
  StronglySorted member_le l →
  let i := partition_point (λ x, member_less x m) l in
  StronglySorted member_le (take i l ++ m :: drop i l).
Proof.
  induction 1 as [|y l Hl IH Hy]; cbn [partition_point]; [by repeat constructor|].
  destruct (member_less y m) eqn:E; cbn.
  - constructor; [done|]. rewrite Forall_app, Forall_cons.
    split_and!; [by apply Forall_take|by apply member_le_total|by apply Forall_drop].
  - repeat constructor; [done..|]. eapply Forall_impl; [exact Hy|].
    intros z Hz. by eapply member_le_trans.
Qed.

Lemma filter_sorted (p : MemberView → bool) l :
  StronglySorted member_le l → StronglySorted member_le (List.filter p l).
Proof.
  induction 1 as [|y l Hl IH Hy]; cbn; [constructor|]. destruct (p y); [|done]. constructor; [done|].
  apply Forall_forall. intros z Hz. apply list_elem_of_In, filter_In in Hz as [Hz _].
  rewrite Forall_forall in Hy. by apply Hy, list_elem_of_In.
Qed.

Lemma change_member_sorted p m l :
  StronglySorted member_le l → StronglySorted member_le (change_member p m l).
Proof.
  intros H. unfold change_member. destruct m as [m|].
  - by apply partition_insert_sorted, filter_sorted.
  - by apply filter_sorted.
Qed.

Lemma set_members_ok l b : StronglySorted member_le l → buffer_ok b → buffer_ok (set_members l b).
Proof. by intros ? []. Qed.

Create HintDb client.
#[export] Hint Resolve push_line_ok set_unread_ok set_buffer_topic_ok new_buffer_ok set_members_ok
  stable_sort_sorted change_member_sorted bo_members : client.

(** * The whole state *)

Section Client.
Context {IpAddr Input : Type} (value : Input → str) (cursor : Input → nat)
  (new_input : str → Input) (with_cursor : nat → Input → Input) (default_input : Input)
  (handle_event : KeyEvent → Input → Input) (lower : char → option char).
Implicit Types a : App Input.

(** The operation answers, keeps the invariant and leaves the windows as many. *)
Definition keeps (n : nat) (r : option (App Input)) : Prop :=
  ∃ a, r = Some a ∧ app_ok a ∧ length (buffers a) = n.
Definition safe (r : option (App Input)) : Prop := ∃ a, r = Some a ∧ app_ok a.
Definition safe_out (r : option (App Input * list ClientCommand)) : Prop := ∃ a cs, r = Some (a, cs) ∧ app_ok a.

Lemma keeps_safe n r : keeps n r → safe r.
Proof. intros (a & ? & ? & _). by exists a. Qed.
Lemma safe_bind r (f : App Input → option (App Input)) : safe r → (∀ a, app_ok a → safe (f a)) → safe (r ≫= f).
Proof. intros (a & -> & H) Hf. by apply Hf. Qed.
Lemma safe_quiet r : safe r → safe_out (quiet r).
Proof. intros (a & -> & H). by exists a, []. Qed.
Lemma safe_some a : app_ok a → safe (Some a).
Proof. by exists a. Qed.
Lemma safe_out_some a cs : app_ok a → safe_out (Some (a, cs)).
Proof. by exists a, cs. Qed.
Lemma safe_then r cs : safe r → safe_out (r ≫= λ a, Some (a, cs)).
Proof. intros (a & -> & H). by exists a, cs. Qed.

(** Setters that leave the windows, the history and the completion alone. *)
Lemma app_nick_ok n a : app_ok a → app_ok (set_nick n a).
Proof. by intros []. Qed.
Lemma set_network_ok n a : app_ok a → app_ok (set_network n a).
Proof. by intros []. Qed.
Lemma set_status_ok s d a : app_ok a → app_ok (set_status s d a).
Proof. by intros []. Qed.
Lemma set_input_ok i a : app_ok a → app_ok (set_input i a).
Proof. by intros []. Qed.
Lemma set_popup_ok p w a : app_ok a → app_ok (set_popup p w a).
Proof. by intros []. Qed.
Lemma set_quit_ok a : app_ok a → app_ok (set_quit a).
Proof. by intros []. Qed.
Lemma set_history_ok h i d a :
  app_ok a → (∀ j, i = Some j → j < length h) → app_ok (set_history h i d a).
Proof. by intros [] ?. Qed.
Lemma set_completion_ok c a : app_ok a → (∀ x, c = Some x → completion_ok x) → app_ok (set_completion c a).
Proof. by intros [] ?. Qed.
Lemma new_app_ok nick host : app_ok (new_app default_input nick host).
Proof. constructor; cbn; [repeat constructor; apply new_buffer_ok|done|lia|done|done]. Qed.
Lemma for_xmpp_ok a : app_ok a → app_ok (for_xmpp a).
Proof. by intros []. Qed.

Lemma map_insert_same {A B} (g : A → B) (l : list A) i x :
  g <$> l !! i = Some (g x) → map g (<[i := x]> l) = map g l.
Proof.
  intros H. change (g <$> <[i := x]> l = g <$> l).
  rewrite list_fmap_insert. apply list_insert_id. by rewrite list_lookup_fmap.
Qed.

(** ** Windows *)

Lemma with_buffer_keeps i f a :
  app_ok a → i < length (buffers a) →
  (∀ b, buffer_ok b → buffer_ok (f b)) → (∀ b, b_kind (f b) = b_kind b) →
  keeps (length (buffers a)) (with_buffer i f a).
Proof.
  intros [Hb Hs Hc Hh Hm] Hi Hf Hk. unfold with_buffer.
  destruct (lookup_lt_is_Some_2 _ _ Hi) as [b Eb]. rewrite Eb. cbn.
  eexists. split; [done|]. split; [|cbn; apply length_insert]. constructor; cbn.
  - apply Forall_insert; [done|]. apply Hf. by eapply Forall_lookup_1.
  - rewrite length_insert, map_insert_same; [done|]. rewrite Eb. cbn. unfold is_server. by rewrite Hk.
  - by rewrite length_insert.
  - done.
  - done.
Qed.

Lemma with_buffer_0 f a :
  app_ok a → (∀ b, buffer_ok b → buffer_ok (f b)) → (∀ b, b_kind (f b) = b_kind b) →
  safe (with_buffer 0 f a).
Proof. intros H ??. eapply keeps_safe, with_buffer_keeps; auto. destruct H. lia. Qed.

Lemma with_current_safe f a :
  app_ok a → (∀ b, buffer_ok b → buffer_ok (f b)) → (∀ b, b_kind (f b) = b_kind b) →
  safe (with_current f a).
Proof. intros H ??. eapply keeps_safe, with_buffer_keeps; auto. apply H. Qed.

Lemma push_line_kind x b : b_kind (push_line x b) = b_kind b.
Proof. unfold push_line. by destruct (trim_lines _ _ _). Qed.

Lemma position_of_lt (p : Buffer → bool) l i : position_of p l = Some i → i < length l.
Proof.
  revert i. induction l as [|b l IH]; intros i; cbn [position_of length]; [done|].
  destruct (p b); [intros [= <-]; lia|]. destruct (position_of p l) as [j|]; [|done].
  intros [= <-]. specialize (IH j eq_refl). lia.
Qed.
Lemma find_buffer_lt name a i : find_buffer name a = Some i → i < length (buffers a).
Proof. apply position_of_lt. Qed.

Lemma line_in_safe name x a : app_ok a → safe (line_in name x a).
Proof.
  intros H. unfold line_in. eapply keeps_safe, with_buffer_keeps; auto using push_line_ok, push_line_kind.
  destruct (find_buffer name a) as [i|] eqn:E; cbn; [by eapply find_buffer_lt|]. destruct H. lia.
Qed.
Lemma server_line_safe k t a : app_ok a → safe (server_line k t a).
Proof. intros H. apply with_buffer_0; auto using push_line_ok, push_line_kind. Qed.
Lemma current_line_safe x a : app_ok a → safe (with_current (push_line x) a).
Proof. intros H. apply with_current_safe; auto using push_line_ok, push_line_kind. Qed.
Lemma in_found_safe name f a :
  app_ok a → (∀ b, buffer_ok b → buffer_ok (f b)) → (∀ b, b_kind (f b) = b_kind b) →
  safe (in_found name f a).
Proof.
  intros. unfold in_found. destruct (find_buffer name a) as [i|] eqn:E; [|by apply safe_some].
  eapply keeps_safe, with_buffer_keeps; auto. by eapply find_buffer_lt.
Qed.

(** A window that is opened is a conversation, never a second server window. *)
Lemma ensure_ok name kind a :
  kind ≠ Server → app_ok a →
  app_ok (ensure name kind a).2 ∧ (ensure name kind a).1 < length (buffers (ensure name kind a).2).
Proof.
  intros Hk H. unfold ensure. destruct (find_buffer name a) as [i|] eqn:E; cbn.
  - split; [done|by eapply find_buffer_lt].
  - destruct H as [Hb Hs Hc Hh Hm]. rewrite length_app. cbn. split; [|lia]. constructor; cbn.
    + apply Forall_app. split; [done|]. repeat constructor; apply new_buffer_ok.
    + rewrite map_app, Hs, length_app. cbn. f_equal. unfold is_server. cbn. rewrite bool_decide_false by done.
      change [false] with (replicate 1 false). rewrite <- replicate_add. f_equal. lia.
    + rewrite length_app. lia.
    + done.
    + done.
Qed.

Lemma switch_keeps i a : app_ok a → keeps (length (buffers a)) (switch i a).
Proof.
  intros H. unfold switch. destruct (Nat.ltb_spec i (length (buffers a))); [|by exists a].
  apply (with_buffer_keeps i _ (set_buffers (buffers a) i a)); auto using set_unread_ok. by destruct H.
Qed.

Lemma step_safe forward a : app_ok a → safe (step forward a).
Proof.
  intros H. unfold step, checked_mod. destruct (Nat.eqb_spec (length (buffers a)) 0).
  - destruct H. lia.
  - cbn. by eapply keeps_safe, switch_keeps.
Qed.

Lemma remove_server_map (l : list bool) n i :
  l = true :: replicate n false → 0 < i < length l →
  take i l ++ drop (S i) l = true :: replicate (n - 1) false.
Proof.
  intros -> [Hi Hn]. destruct i as [|i]; [lia|]. cbn in Hn. rewrite length_replicate in Hn. cbn. f_equal.
  rewrite take_replicate, drop_replicate, <- replicate_add. f_equal. lia.
Qed.

(** Removing a window keeps the one shown in range, and never the server's. *)
Lemma remove_buffer_ok i a : app_ok a → app_ok (remove_buffer i a).
Proof.
  intros H. unfold remove_buffer. destruct (Nat.eqb_spec i 0); [done|].
  destruct (Nat.leb_spec (length (buffers a)) i); [done|]. cbn [orb].
  destruct H as [Hb Hs Hc Hh Hm].
  assert (length (take i (buffers a) ++ drop (S i) (buffers a)) = length (buffers a) - 1) as Hlen
    by (rewrite length_app, length_take, length_drop; lia).
  constructor; cbn [buffers current history_at history completion set_buffers].
  - apply Forall_app. split; [by apply Forall_take|by apply Forall_drop].
  - rewrite Hlen, map_app, <- firstn_map, <- skipn_map.
    apply remove_server_map; [done|]. rewrite length_map. lia.
  - rewrite Hlen. destruct (Nat.eqb_spec (current a) i), (Nat.ltb_spec i (current a)); lia.
  - done.
  - done.
Qed.

(** ** Events *)

Lemma on_message_safe m a : app_ok a → safe (on_message m a).
Proof.
  intros H. unfold on_message.
  assert (∀ i kind a, app_ok a → i < length (buffers a) →
    safe (with_buffer i (λ b,
      let b := push_line (from_message m) b in
      if negb (Nat.eqb i (current a)) && negb (cm_is_self m) then
        set_unread (S (b_unread b))
          (if cm_is_mention m || bool_decide (kind = DirectBuffer) then true else b_mentioned b) b
      else b) a)) as Hput.
  { intros i kind a' H' Hi. eapply keeps_safe, with_buffer_keeps; [done|done|..]; intros b; cbn.
    - intros Hb. destruct (_ && _); auto using push_line_ok, set_unread_ok.
    - destruct (_ && _); apply push_line_kind. }
  assert (0 < length (buffers a)) as H0 by (destruct H; lia).
  destruct (cm_target m) as [name|nick].
  - destruct (ensure_ok name ChannelBuffer a ltac:(done) H) as [H1 H2].
    destruct (ensure name ChannelBuffer a) as [i a']. by apply Hput.
  - destruct (_ && _); [by apply Hput|].
    destruct (ensure_ok nick DirectBuffer a ltac:(done) H) as [H1 H2].
    destruct (ensure nick DirectBuffer a) as [i a']. by apply Hput.
Qed.

Lemma on_joined_safe c n self a : app_ok a → safe (on_joined c n self a).
Proof.
  intros H. unfold on_joined. destruct (ensure_ok c ChannelBuffer a ltac:(done) H) as [H1 H2].
  destruct (ensure c ChannelBuffer a) as [i a']. cbn in H1, H2.
  assert (keeps (length (buffers a')) (if self then switch i a' else Some a')) as (a2 & -> & H3 & H4).
  { destruct self; [by apply switch_keeps|by exists a']. }
  cbn. eapply keeps_safe, with_buffer_keeps; auto using push_line_ok, push_line_kind. lia.
Qed.

Lemma on_parted_safe c n self r a : app_ok a → safe (on_parted c n self r a).
Proof.
  intros H. unfold on_parted. destruct self; [|by apply line_in_safe]. apply server_line_safe.
  destruct (find_buffer c a); [by apply remove_buffer_ok|done].
Qed.

Lemma on_topic_safe c t by_ a : app_ok a → safe (on_topic c t by_ a).
Proof.
  intros H. unfold on_topic. apply safe_bind; [|intros; by apply line_in_safe].
  exact (in_found_safe c _ a H ltac:(auto using set_buffer_topic_ok) ltac:(done)).
Qed.

Lemma apply_event_safe (e : IrcEvent IpAddr) a : app_ok a → safe (apply_event e a).
Proof.
  intros H. destruct e; cbn [apply_event];
    try solve [by apply safe_some | by apply line_in_safe | by apply server_line_safe
              | apply with_buffer_0; auto using push_line_ok, push_line_kind].
  - by apply server_line_safe, set_status_ok.
  - apply server_line_safe. destruct network; auto using app_nick_ok, set_network_ok.
  - apply safe_bind; [by apply server_line_safe|]. intros. by apply safe_some, set_network_ok.
  - by apply on_message_safe.
  - by apply on_joined_safe.
  - by apply on_parted_safe.
  - apply line_in_safe. destruct is_self; auto using app_nick_ok.
  - by apply on_topic_safe.
  - apply in_found_safe; auto using set_members_ok, stable_sort_sorted.
  - apply in_found_safe; auto. intros b Hb. apply set_members_ok; [|done]. by apply change_member_sorted, bo_members.
  - destruct channel; [by apply line_in_safe|]. apply with_buffer_0; auto using push_line_ok, push_line_kind.
  - apply safe_some. unfold on_channel_list. destruct (awaiting_list a); auto using set_popup_ok.
  - by apply safe_some, set_popup_ok.
  - by apply current_line_safe.
Qed.

(** ** Keys *)

Lemma scroll_by_safe up n a : app_ok a → safe (scroll_by up n a).
Proof.
  intros H. apply with_current_safe; [done| |done]. intros b [H1 H2 H3].
  constructor; cbn; [done| |done]. destruct up; lia.
Qed.

Lemma history_step_safe back a : app_ok a → safe (history_step value new_input back a).
Proof.
  intros H. unfold history_step. destruct (is_empty (history a)) eqn:E; [by apply safe_some|].
  assert (0 < length (history a)) as Hn by (destruct (history a); cbn in *; [done|lia]).
  destruct H as [Hb Hs Hc Hh Hm].
  assert (∀ i a', buffers a' = buffers a → current a' = current a → completion a' = completion a →
    history a' = history a → i < length (history a) →
    safe (line ← history a' !! i;
      Some (set_input (new_input line) (set_history (history a') (Some i) (draft a') a')))) as Hgo.
  { intros i a' E1 E2 E3 E4 Hi. rewrite E4. destruct (lookup_lt_is_Some_2 _ _ Hi) as [l ->]. cbn.
    apply safe_some, set_input_ok. constructor; cbn; rewrite ?E1, ?E2, ?E3; auto. by intros j [= <-]. }
  destruct (history_at a) as [i|] eqn:Ei, back; cbn [fst snd].
  - apply Hgo; auto. specialize (Hh i eq_refl). lia.
  - destruct (Nat.ltb_spec (i + 1) (length (history a))); [by apply Hgo|].
    apply safe_some, set_input_ok. by constructor.
  - apply Hgo; auto. lia.
  - apply safe_some. constructor; auto. by rewrite Ei.
Qed.

Lemma rposition_lt p l i : rposition p l = Some i → i < length l.
Proof.
  revert i. induction l as [|c l IH]; intros i; cbn [rposition length]; [done|].
  destruct (rposition p l) as [j|]; [intros [= <-]; specialize (IH j eq_refl); lia|].
  destruct (p c); [intros [= <-]; lia|done].
Qed.

(** A completion that may be shown: it has a match and its word is in the text. *)
Definition fits_in (v : str) (c : Completion) : Prop :=
  completion_ok c ∧ cp_start c + length (cp_shown c) ≤ length v.

Lemma begin_completion_ok v cur b :
  cur ≤ length v →
  ∃ r, begin_completion v cur b = Some r ∧ ∀ c, r = Some c → fits_in v c.
Proof.
  intros Hc. unfold begin_completion. rewrite slice_is_Some by lia. cbn [mbind option_bind].
  set (head := take (cur - 0) (drop 0 v)). assert (length head = cur) as Hlen
    by (unfold head; rewrite length_take, length_drop; lia).
  set (start := match rposition is_whitespace head with Some i => i + 1 | None => 0 end).
  assert (start ≤ cur) as Hst.
  { unfold start. destruct (rposition _ _) as [i|] eqn:E; [|lia]. apply rposition_lt in E. lia. }
  rewrite slice_is_Some by lia. cbn [mbind option_bind].
  destruct (is_empty (take _ _)); [by eexists|]. cbv zeta.
  destruct (is_empty (stable_sort _ _)) eqn:E; [by eexists|]. eexists. split; [done|]. intros c [= <-].
  split; cbn.
  - unfold completion_ok. cbn. destruct (stable_sort _ _); cbn in *; [done|lia].
  - rewrite length_take, length_drop. lia.
Qed.

Lemma show_completion_safe v c a :
  app_ok a → fits_in v c → safe (show_completion new_input with_cursor v c a).
Proof.
  intros H [Hc Hl]. unfold show_completion. destruct (lookup_lt_is_Some_2 _ _ Hc) as [name ->].
  cbn [mbind option_bind]. rewrite !slice_is_Some by lia. cbn [mbind option_bind].
  apply safe_some, set_input_ok, set_completion_ok; [done|]. by intros x [= <-].
Qed.

Lemma complete_safe a : app_ok a → safe (complete value cursor new_input with_cursor a).
Proof.
  intros H. unfold complete, still_there. set (v := value (input a)).
  assert (safe (let a := set_completion None a in
      b ← buffer_at (current a) a;
      c ← begin_completion v (Nat.min (cursor (input a)) (length v)) b;
      match c with None => Some a | Some c => show_completion new_input with_cursor v c a end)) as Hnew.
  { cbv zeta. assert (app_ok (set_completion None a)) as H' by by apply set_completion_ok.
    destruct (lookup_lt_is_Some_2 _ _ (ao_current _ H')) as [b Eb]. unfold buffer_at. rewrite Eb.
    cbn [mbind option_bind].
    destruct (begin_completion_ok v (Nat.min (cursor (input (set_completion None a))) (length v)) b ltac:(lia))
      as (r & -> & Hr). cbn [mbind option_bind].
    destruct r; [|by apply safe_some]. apply show_completion_safe; auto. }
  destruct (completion a) as [c|] eqn:Ec; [|done]. destruct (bool_decide_reflect (slice v (cp_start c)
    (cp_start c + length (cp_shown c)) = Some (cp_shown c))) as [E|]; [|done].
  pose proof (ao_completion _ H c Ec) as Hc. unfold checked_mod, completion_ok in *.
  destruct (Nat.eqb_spec (length (cp_matches c)) 0); [lia|]. cbn [mbind option_bind].
  apply show_completion_safe; [done|]. split; cbn.
  - unfold completion_ok. cbn. apply Nat.mod_upper_bound. lia.
  - apply slice_Some in E. lia.
Qed.

Lemma popup_key_ok k a : app_ok a → app_ok (popup_key k a).1.
Proof.
  intros H. unfold popup_key. destruct (popup a) as [[|items sel d t|w]|]; [| | |done];
    repeat case_match; cbn; auto using set_popup_ok.
Qed.

Lemma do_action_safe act a : app_ok a → safe_out (do_action act a).
Proof.
  intros H. unfold do_action. destruct act as [c|t|nick| | |].
  - apply safe_out_some. destruct c; auto using set_quit_ok, set_popup_ok.
  - by apply safe_then, current_line_safe.
  - destruct (ensure_ok nick DirectBuffer a ltac:(done) H) as [H1 H2].
    destruct (ensure nick DirectBuffer a) as [i a']. by eapply safe_then, keeps_safe, switch_keeps.
  - destruct (lookup_lt_is_Some_2 _ _ (ao_current _ H)) as [b Eb]. unfold buffer_at. rewrite Eb.
    cbn [mbind option_bind]. destruct (b_kind b).
    + by apply safe_then, current_line_safe.
    + by apply safe_out_some.
    + by apply safe_out_some, remove_buffer_ok.
  - apply safe_then, with_current_safe; [done| |done]. intros b []. constructor; cbn; [|lia|done].
    unfold MAX_LINES. lia.
  - by apply safe_out_some, set_popup_ok.
Qed.

Lemma submit_safe a : app_ok a → safe_out (submit value default_input a).
Proof.
  intros H. unfold submit.
  set (a1 := set_history (history (set_input default_input a)) None _ _).
  assert (app_ok a1) as H1 by by apply set_history_ok; [apply set_input_ok|].
  destruct (is_empty (trim (value (input a)))); [by apply safe_out_some|].
  set (a2 := if bool_decide _ then _ else _).
  assert (app_ok a2) as H2.
  { unfold a2. destruct (bool_decide _); [done|]. by apply set_history_ok. }
  clearbody a2. unfold target, buffer_at.
  destruct (lookup_lt_is_Some_2 _ _ (ao_current _ H2)) as [b ->]. cbn [mbind option_bind].
  destruct (if xmpp a2 then _ else _) as [act|]; [by apply do_action_safe|].
  destruct (if bool_decide (b_kind b = Server) then _ else _); [by apply safe_out_some|].
  by apply safe_then, current_line_safe.
Qed.

Lemma key_safe k a :
  app_ok a → safe_out (key value cursor new_input with_cursor default_input handle_event lower k a).
Proof.
  intros H. unfold key.
  assert (is_Some (if ctrl k || alt k || bool_decide (is_Some (popup a)) then shortcut lower k else Some k))
    as [k' ->] by (destruct (_ || _); [apply shortcut_total|done]).
  cbn [mbind option_bind]. set (cleared := if match code k' with Tab => true | _ => false end then a else _).
  assert (app_ok cleared) as Hc.
  { unfold cleared. destruct (code k'); first [done|by apply set_completion_ok]. }
  clearbody cleared. destruct (ctrl k' && _); [by apply safe_out_some, set_quit_ok|].
  destruct (bool_decide (is_Some (popup a))).
  { pose proof (popup_key_ok k' a H). destruct (popup_key k' a) as [a' cs]. by apply safe_out_some. }
  assert (∀ k, safe_out (Some (set_input (handle_event k (input cleared)) cleared, []))) as Htyped
    by (intros; by apply safe_out_some, set_input_ok).
  assert (∀ b, safe_out (quiet (step b cleared))) as Hstep by (intros; by apply safe_quiet, step_safe).
  assert (∀ i, safe_out (quiet (switch i cleared))) as Hsw by (intros; by eapply safe_quiet, keeps_safe, switch_keeps).
  destruct (code k'); cbv iota;
    try solve [repeat (destruct (_ && _); [auto|]); auto].
  - by apply submit_safe.
  - by apply safe_out_some, set_input_ok.
  - by apply safe_quiet, complete_safe.
  - by apply safe_quiet, scroll_by_safe.
  - by apply safe_quiet, scroll_by_safe.
  - by apply safe_quiet, history_step_safe.
  - by apply safe_quiet, history_step_safe.
  - destruct (n =? 1)%N; [by apply safe_out_some, set_popup_ok|auto].
Qed.

(** * The whole program *)

(** What reaches the client's loop: something from the network, or a key. *)
Inductive Occurrence := Arrived (e : IrcEvent IpAddr) | Typed (k : KeyEvent).

Definition react (o : Occurrence) (a : App Input) : option (App Input * list ClientCommand) :=
  match o with
  | Arrived e => quiet (apply_event e a)
  | Typed k => key value cursor new_input with_cursor default_input handle_event lower k a
  end.

Fixpoint session (os : list Occurrence) (a : App Input) : option (App Input * list ClientCommand) :=
  match os with
  | [] => Some (a, [])
  | o :: os =>
      '(a, sent) ← react o a;
      '(a, more) ← session os a;
      Some (a, sent ++ more)
  end.

Lemma session_safe os a : app_ok a → safe_out (session os a).
Proof.
  revert a. induction os as [|o os IH]; intros a H; cbn [session]; [by apply safe_out_some|].
  assert (safe_out (react o a)) as (a1 & c1 & -> & H1).
  { destruct o; cbn [react]; [by apply safe_quiet, apply_event_safe|by apply key_safe]. }
  cbn. destruct (IH a1 H1) as (a2 & c2 & -> & H2). by eexists _, _.
Qed.

(** C34: the full-screen client, on either protocol, answers every sequence of
    network events and keys without indexing out of range, whatever the text
    field does with the keys given to it; afterwards the server's window is
    first and the only one of its kind, the window and the line of history
    shown exist, every conversation holds at most [MAX_LINES] lines with its
    scroll position inside them, and its members are in roster order. *)
Theorem client_never_panics (nick host : str) (on_xmpp : bool) (os : list Occurrence) :
  let a := new_app default_input nick host in
  ∃ a' sent, session os (if on_xmpp then for_xmpp a else a) = Some (a', sent) ∧ app_ok a'.
Proof.
  intros a. apply session_safe. destruct on_xmpp; [apply for_xmpp_ok|]; apply new_app_ok.
Qed.
End Client.
