(* ===== verification/ClientRoster.v ===== *)
(** What an event does to the member lists the full-screen client holds: each
    event as a function of the list a name stands for. *)
From S2P Require Import Prelude RustStr Format Room Contacts Listing Api ClientCommands Keymap ClientModel ClientModelProps.

(** Two names the client takes for one. *)
Lemma same_iff a b : same a b = true ↔ to_ascii_lowercase a = to_ascii_lowercase b.
Proof. unfold same, eq_ignore_ascii_case. apply bool_decide_eq_true. Qed.

Lemma same_comm a b : same a b = same b a.
Proof. apply eq_true_iff_eq. rewrite !same_iff. by split. Qed.

Lemma same_trans_l a b c : same a b = true → same a c = same b c.
Proof. intros H%same_iff. apply eq_true_iff_eq. rewrite !same_iff. by rewrite H. Qed.

Section Roster.
Context {IpAddr Input : Type}.
Implicit Types a : App Input.

(** The members shown for a name, if it has a window. *)
Definition roster_in (name : str) (l : list Buffer) : option (list MemberView) :=
  b_members <$> List.find (is_conversation name) l.
Definition held (name : str) a : option (list MemberView) := roster_in name (buffers a).

(** The name whose window a message opens. *)
Definition opens (m : ChatMessage) : option str :=
  match cm_target m with
  | ToChannel name => Some name
  | ToDirect nick => if cm_is_notice m && contains_char 0x2E%N (cm_sender m) then None else Some nick
  end.

Definition opened (c name : str) (o : option (list MemberView)) : option (list MemberView) :=
  if same c name then Some (default [] o) else o.

Definition roster_step (e : IrcEvent IpAddr) (name : str) (o : option (list MemberView)) : option (list MemberView) :=
  match e with
  | MemberList c l => if same c name then (λ _, stable_sort member_less l) <$> o else o
  | MemberChanged c previous m => if same c name then change_member previous m <$> o else o
  | Joined c _ _ => opened c name o
  | Message m => match opens m with Some c => opened c name o | None => o end
  | _ => o
  end.

(** The one event that takes the window of a name away. *)
Definition closes (e : IrcEvent IpAddr) (name : str) : bool :=
  match e with Parted c _ true _ => same c name | _ => false end.

(** ** Windows *)

(** A change that keeps what a window is called. *)
Definition keeps_name (f : Buffer → Buffer) : Prop := ∀ b, b_name (f b) = b_name b ∧ b_kind (f b) = b_kind b.

Lemma keeps_name_conv f name b : keeps_name f → is_conversation name (f b) = is_conversation name b.
Proof. intros H. destruct (H b) as [H1 H2]. unfold is_conversation. by rewrite H1, H2. Qed.

Lemma roster_in_insert name f i l b :
  keeps_name f → (∀ b, b_members (f b) = b_members b) → l !! i = Some b →
  roster_in name (<[i := f b]> l) = roster_in name l.
Proof.
  intros Hf Hm. revert i. unfold roster_in. induction l as [|x l IH]; intros [|i] Hi; try done.
  - injection Hi as ->. cbn. rewrite keeps_name_conv by done. destruct (is_conversation name b); cbn; [by rewrite Hm|done].
  - cbn. destruct (is_conversation name x); [done|]. by apply IH.
Qed.

Lemma with_buffer_held i f a a' name :
  keeps_name f → (∀ b, b_members (f b) = b_members b) → with_buffer i f a = Some a' → held name a' = held name a.
Proof.
  unfold with_buffer. intros Hf Hm. destruct (buffers a !! i) as [b|] eqn:E; [|done]. intros [= <-].
  unfold held. cbn. by apply roster_in_insert.
Qed.

Lemma is_conversation_same c name b :
  is_conversation c b = true → is_conversation name b = same c name.
Proof.
  unfold is_conversation. intros [-> H]%andb_true_iff. cbn. by apply same_trans_l.
Qed.

Lemma is_conversation_other c name b :
  same c name = true → is_conversation name b = is_conversation c b.
Proof.
  intros H. unfold is_conversation. f_equal. rewrite (same_comm _ name), (same_comm _ c).
  symmetry. by apply same_trans_l.
Qed.

(** Changing the members in the window found under a name. *)
Lemma roster_in_found c f g i l b name :
  keeps_name f → (∀ b, b_members (f b) = g (b_members b)) →
  position_of (is_conversation c) l = Some i → l !! i = Some b →
  roster_in name (<[i := f b]> l) = if same c name then g <$> roster_in name l else roster_in name l.
Proof.
  intros Hf Hg. revert i. unfold roster_in. induction l as [|x l IH]; intros i Hi Hb; [done|].
  cbn [position_of] in Hi. destruct (is_conversation c x) eqn:Ex.
  - injection Hi as <-. injection Hb as ->. cbn. rewrite keeps_name_conv by done.
    rewrite (is_conversation_same c) by done. destruct (same c name); [cbn; by rewrite Hg|done].
  - destruct (position_of _ l) as [j|] eqn:Ej; [|done]. injection Hi as <-. cbn in Hb |- *.
    destruct (same c name) eqn:Es.
    + rewrite (is_conversation_other c) by done. rewrite Ex. by apply IH.
    + destruct (is_conversation name x); [done|]. by apply IH.
Qed.

Lemma position_of_none (p : Buffer → bool) l : position_of p l = None → List.find p l = None.
Proof.
  induction l as [|x l IH]; cbn [position_of List.find]; [done|]. destruct (p x); [done|].
  destruct (position_of p l); [done|]. auto.
Qed.

Lemma position_of_lookup (p : Buffer → bool) l i : position_of p l = Some i → ∃ b, l !! i = Some b ∧ p b = true.
Proof.
  revert i. induction l as [|x l IH]; intros i; cbn [position_of]; [done|].
  destruct (p x) eqn:E; [intros [= <-]; by exists x|]. destruct (position_of p l) as [j|]; [|done].
  intros [= <-]. by apply IH.
Qed.

Lemma find_none_same c name l :
  List.find (is_conversation c) l = None → same c name = true → List.find (is_conversation name) l = None.
Proof.
  intros H Hs. induction l as [|x l IH]; [done|]. cbn in *. rewrite (is_conversation_other c) by done.
  destruct (is_conversation c x); [done|]. auto.
Qed.

Lemma in_found_held c f g a a' name :
  keeps_name f → (∀ b, b_members (f b) = g (b_members b)) → in_found c f a = Some a' →
  held name a' = if same c name then g <$> held name a else held name a.
Proof.
  intros Hf Hg. unfold in_found, find_buffer. destruct (position_of _ _) as [i|] eqn:E.
  - unfold with_buffer. destruct (buffers a !! i) as [b|] eqn:Eb; [|done]. intros [= <-].
    unfold held. cbn. by apply roster_in_found.
  - intros [= <-]. destruct (same c name) eqn:Es; [|done]. apply position_of_none in E.
    unfold held, roster_in. by rewrite (find_none_same c name) by done.
Qed.

Lemma find_app_list (p : Buffer → bool) l l' :
  List.find p (l ++ l') = match List.find p l with Some x => Some x | None => List.find p l' end.
Proof. induction l as [|x l IH]; cbn; [done|]. by destruct (p x). Qed.

Lemma ensure_held c kind a name :
  kind ≠ Server → held name (ensure c kind a).2 = opened c name (held name a).
Proof.
  intros Hk. unfold ensure, find_buffer, opened. destruct (position_of _ _) as [i|] eqn:E; cbn [snd].
  - destruct (same c name) eqn:Es; [|done]. unfold held, roster_in.
    assert (∃ b, List.find (is_conversation name) (buffers a) = Some b) as [b Eb].
    { apply position_of_lookup in E as (b & Hb & Hc). destruct (List.find _ _) eqn:Ef; [by eexists|].
      apply list_elem_of_lookup_2, list_elem_of_In in Hb. apply (List.find_none _ _ Ef) in Hb.
      rewrite (is_conversation_other c) in Hb by done. congruence. }
    by rewrite Eb.
  - unfold held, roster_in. cbn [buffers set_buffers]. rewrite find_app_list. cbn [List.find].
    apply position_of_none in E. assert (is_conversation name (new_buffer c kind) = same c name) as ->.
    { unfold is_conversation. cbn. by rewrite bool_decide_false. }
    destruct (same c name) eqn:Es; [by rewrite (find_none_same c name _ E Es)|].
    by destruct (List.find (is_conversation name) (buffers a)).
Qed.

Lemma switch_held i a a' name : switch i a = Some a' → held name a' = held name a.
Proof.
  unfold switch. destruct (Nat.ltb _ _); [|by intros [= <-]]. intros H.
  by eapply with_buffer_held in H as ->.
Qed.

Lemma remove_buffer_held c i a name :
  find_buffer c a = Some i → same c name = false → held name (remove_buffer i a) = held name a.
Proof.
  unfold find_buffer, remove_buffer. intros E Hs. destruct (_ || _); [done|]. unfold held. cbn [buffers set_buffers].
  apply position_of_lookup in E as (b & Hb & Hc). unfold roster_in. f_equal.
  rewrite <- (take_drop_middle _ _ _ Hb) at 3. rewrite !find_app_list. cbn [List.find].
  by rewrite (is_conversation_same c), Hs.
Qed.

(** ** Events *)

Lemma push_line_keeps x : keeps_name (push_line x).
Proof. intros b. unfold push_line. by destruct (trim_lines _ _ _). Qed.
Lemma push_line_members x b : b_members (push_line x b) = b_members b.
Proof. unfold push_line. by destruct (trim_lines _ _ _). Qed.

Lemma push_held i x a a' name : with_buffer i (push_line x) a = Some a' → held name a' = held name a.
Proof. apply with_buffer_held; [apply push_line_keeps|apply push_line_members]. Qed.

(** A line pushed into some window changes no list of members. *)
Ltac pushed := let H := fresh "H" in intros H; rewrite (push_held _ _ _ _ _ H); clear H.

Lemma on_message_held m a a' name :
  on_message m a = Some a' → held name a' = match opens m with Some c => opened c name (held name a) | None => held name a end.
Proof.
  unfold on_message, opens.
  assert (∀ i kind a a', with_buffer i (λ b,
      let b := push_line (from_message m) b in
      if negb (Nat.eqb i (current a)) && negb (cm_is_self m) then
        set_unread (S (b_unread b))
          (if cm_is_mention m || bool_decide (kind = DirectBuffer) then true else b_mentioned b) b
      else b) a = Some a' → held name a' = held name a) as Hput.
  { intros i kind a0 a1. apply with_buffer_held; intros b; cbn.
    - destruct (_ && _); apply push_line_keeps.
    - destruct (_ && _); apply push_line_members. }
  destruct (cm_target m) as [c|nick].
  - pose proof (ensure_held c ChannelBuffer a name ltac:(done)) as He.
    destruct (ensure c ChannelBuffer a) as [i a1]. intros ->%Hput. done.
  - destruct (_ && _); [apply Hput|]. pose proof (ensure_held nick DirectBuffer a name ltac:(done)) as He.
    destruct (ensure nick DirectBuffer a) as [i a1]. intros ->%Hput. done.
Qed.

Lemma on_joined_held c n self a a' name :
  on_joined c n self a = Some a' → held name a' = opened c name (held name a).
Proof.
  unfold on_joined. pose proof (ensure_held c ChannelBuffer a name ltac:(done)) as He.
  destruct (ensure c ChannelBuffer a) as [i a1]. cbn [snd] in He.
  destruct (if self then switch i a1 else Some a1) as [a2|] eqn:E; [|done]. cbn [mbind option_bind].
  pushed. rewrite <- He. destruct self; [by eapply switch_held|by injection E as <-].
Qed.

(** Every event, on the members held for a name it does not take away. *)
Lemma apply_event_held (e : IrcEvent IpAddr) a a' name :
  closes e name = false → apply_event e a = Some a' → held name a' = roster_step e name (held name a).
Proof.
  intros Hc. destruct e; cbn [apply_event roster_step]; unfold server_line, line_in, with_current;
    try solve [by pushed | by intros [= <-]].
  - by destruct network; pushed.
  - destruct (with_buffer _ _ _) as [a1|] eqn:E; [|done]. intros [= <-]. by eapply push_held in E.
  - apply on_message_held.
  - apply on_joined_held.
  - unfold on_parted, line_in, server_line. destruct is_self; [|apply push_held]. cbn in Hc.
    destruct (find_buffer channel a) as [i|] eqn:E; pushed; [|done].
    by eapply remove_buffer_held.
  - by destruct is_self; pushed.
  - unfold on_topic, line_in. destruct (match find_buffer channel a with Some i => _ | None => _ end) as [a1|] eqn:E; [|done].
    cbn [mbind option_bind]. pushed. destruct (find_buffer channel a); [|by injection E as <-].
    by eapply with_buffer_held in E.
  - by apply in_found_held.
  - by apply in_found_held.
  - by destruct channel; pushed.
  - intros [= <-]. unfold on_channel_list. by destruct (awaiting_list a).
Qed.

(** Events one after another. *)
Fixpoint replay (es : list (IrcEvent IpAddr)) a : option (App Input) :=
  match es with [] => Some a | e :: es => a ← apply_event e a; replay es a end.

Lemma replay_app es es' a : replay (es ++ es') a = replay es a ≫= replay es'.
Proof. revert a. induction es as [|e es IH]; intros a; [done|]. cbn. destruct (apply_event e a); [apply IH|done]. Qed.

Lemma replay_ok es a : app_ok a → ∃ a', replay es a = Some a' ∧ app_ok a'.
Proof.
  revert a. induction es as [|e es IH]; intros a H; [by exists a|]. cbn.
  destruct (apply_event_safe e a H) as (a1 & -> & H1). by apply IH.
Qed.

Lemma replay_held es a a' name :
  Forall (λ e, closes e name = false) es → replay es a = Some a' →
  held name a' = foldl (λ o e, roster_step e name o) (held name a) es.
Proof.
  intros Hc. revert a. induction Hc as [|e es He Hes IH]; intros a; cbn; [by intros [= <-]|].
  destruct (apply_event e a) as [a1|] eqn:E; [|done]. intros H. rewrite (IH _ H). by erewrite apply_event_held by done.
Qed.
End Roster.
