(* ===== verification/RosterMirror.v ===== *)
(** The member lists a client holds, against the session they come from: what
    each change of the session and the events it is told with do to a list.

    Names are compared by the server's case mapping in the session and by
    ASCII case in the client. [spelled] is the set of names the server uses,
    in which names the server takes for one differ at most in ASCII case. *)
From S2P Require Import Prelude RustStr Format Room Contacts Listing Api ClientCommands Keymap ClientModel ClientModelProps ClientRoster ISupport Session SessionText SessionInv SessionProps Actor.

(** * Names *)

Lemma filter_perm {A} (f : A → bool) l l' : l ≡ₚ l' → List.filter f l ≡ₚ List.filter f l'.
Proof.
  induction 1 as [|x l l' H IH|x y l|l1 l2 l3 H1 IH1 H2 IH2]; cbn; [done|by destruct (f x); rewrite IH| |by rewrite IH1].
  destruct (f x), (f y); try done. apply Permutation_swap.
Qed.

Lemma normalize_char_lower m c : normalize_char m (char_lower c) = normalize_char m c.
Proof.
  unfold normalize_char, char_lower. destruct (is_ascii_uppercase c) eqn:E; [|by rewrite E].
  unfold is_ascii_uppercase in *. apply andb_true_iff in E as [E1%N.leb_le E2%N.leb_le].
  assert ((0x41 <=? c + 32) && (c + 32 <=? 0x5A) = false)%N as ->
    by (apply andb_false_iff; right; apply N.leb_gt; lia).
  destruct (N.eqb_spec (c + 32) 0x5B), (N.eqb_spec (c + 32) 0x5D), (N.eqb_spec (c + 32) 0x5C),
    (N.eqb_spec (c + 32) 0x7E); try lia. by rewrite !andb_false_r.
Qed.

Lemma same_normalize m a b : same a b = true → normalize m a = normalize m b.
Proof.
  intros H%same_iff. unfold normalize.
  assert (∀ s, map (normalize_char m) s = map (normalize_char m) (to_ascii_lowercase s)) as E.
  { intros s. unfold to_ascii_lowercase. rewrite map_map. apply map_ext. intros c. by rewrite normalize_char_lower. }
  by rewrite (E a), (E b), H.
Qed.

Section Rows.
Context (to_lowercase : char → str) (m : CaseMapping) (spelled : str → Prop).
Context (one_spelling : ∀ a b, spelled a → spelled b → normalize m a = normalize m b → same a b = true).
Abbreviation view_of := (view_of to_lowercase).

Lemma same_spelled a b : spelled a → spelled b → same a b = bool_decide (normalize m a = normalize m b).
Proof.
  intros Ha Hb. apply eq_true_iff_eq. rewrite bool_decide_eq_true. split; [apply same_normalize|by apply one_spelling].
Qed.

(** * A list of members *)

(** Every member is filed under their nick, spelled as the server does. *)
Definition well_filed (ms : gmap str Member) : Prop :=
  map_Forall (λ k x, k = normalize m (m_nick x) ∧ spelled (m_nick x)) ms.

(** The list shows exactly these members, in order. *)
Definition roster (p : Prefixes) (ms : gmap str Member) (l : list MemberView) : Prop :=
  l ≡ₚ map (λ kx, view_of p kx.2) (map_to_list ms) ∧ StronglySorted member_le l.

Lemma rows_removed p ms previous :
  well_filed ms → spelled previous →
  List.filter (λ r, negb (same (v_nick r) previous)) (map (λ kx, view_of p kx.2) (map_to_list ms))
  ≡ₚ map (λ kx, view_of p kx.2) (map_to_list (delete (normalize m previous) ms)).
Proof.
  intros Hw Hp. set (k := normalize m previous). set (keep := λ r, negb (same (v_nick r) previous)).
  assert (List.filter keep (map (λ kx, view_of p kx.2) (map_to_list (delete k ms)))
          = map (λ kx, view_of p kx.2) (map_to_list (delete k ms))) as Hkeep.
  { apply forallb_filter_id, forallb_forall. intros r [[k' x] [<- Hx]]%in_map_iff.
    apply list_elem_of_In, elem_of_map_to_list, lookup_delete_Some in Hx as [Hne Hx].
    destruct (Hw _ _ Hx) as [E Hs]. unfold keep. cbn. rewrite same_spelled by done.
    apply negb_true_iff, bool_decide_eq_false. intros E2. apply Hne. unfold k. by rewrite E, E2. }
  destruct (ms !! k) as [x|] eqn:Ex; [|rewrite (delete_id ms k Ex) in Hkeep |- *; by rewrite Hkeep].
  assert (List.filter keep (map (λ kx, view_of p kx.2) (map_to_list ms)) ≡ₚ
          List.filter keep (map (λ kx, view_of p kx.2) ((k, x) :: map_to_list (delete k ms)))) as ->.
  { apply filter_perm, Permutation_map. symmetry. by apply map_to_list_delete. }
  cbn [map List.filter]. destruct (Hw _ _ Ex) as [E Hs]. unfold keep at 1. cbn. rewrite same_spelled by done.
  rewrite bool_decide_true by done. cbn. by rewrite Hkeep.
Qed.

Lemma roster_sorted_filter p ms l f : roster p ms l → StronglySorted member_le (List.filter f l).
Proof. intros [_ H]. by apply filter_sorted. Qed.

(** Someone gone. *)
Lemma roster_gone p ms l previous :
  well_filed ms → spelled previous → roster p ms l →
  roster p (delete (normalize m previous) ms) (change_member previous None l).
Proof.
  intros Hw Hs Hr. split; [|by eapply roster_sorted_filter]. destruct Hr as [Hr _]. unfold change_member.
  rewrite <- (rows_removed p ms previous) by done. by apply filter_perm.
Qed.

(** Someone new, or changed, or renamed. *)
Lemma roster_changed p ms l previous k x :
  well_filed ms → spelled previous → delete (normalize m previous) ms !! k = None → roster p ms l →
  roster p (<[k := x]> (delete (normalize m previous) ms)) (change_member previous (Some (view_of p x)) l).
Proof.
  intros Hw Hs Hk Hr. pose proof (roster_gone p ms l previous Hw Hs Hr) as [Hg Hsort].
  cbn [change_member] in Hg, Hsort. split; [|by apply partition_insert_sorted].
  cbn [change_member]. rewrite map_to_list_insert by done. cbn [map].
  rewrite <- Permutation_middle, take_drop. by rewrite Hg.
Qed.

Lemma roster_updated p ms l previous x :
  well_filed ms → spelled previous → roster p ms l →
  roster p (<[normalize m previous := x]> ms) (change_member previous (Some (view_of p x)) l).
Proof.
  intros Hw Hs Hr. rewrite <- insert_delete_eq. apply roster_changed; [done|done|apply lookup_delete_eq|done].
Qed.

(** ** The whole list at once *)

Lemma settle_perm {A} (less : A → A → bool) x l : settle less x l ≡ₚ x :: l.
Proof.
  induction l as [|y l IH]; cbn [settle]; [done|]. destruct (less x y); [done|]. rewrite IH. apply Permutation_swap.
Qed.

Lemma stable_sort_perm {A} (less : A → A → bool) l : stable_sort less l ≡ₚ l.
Proof.
  unfold stable_sort. assert (∀ acc, foldl (λ acc x, settle less x acc) acc l ≡ₚ acc ++ l) as H.
  { induction l as [|x l IH]; intros acc; cbn; [by rewrite app_nil_r|].
    rewrite IH, settle_perm. cbn. apply Permutation_middle. }
  by rewrite H.
Qed.

Lemma roster_listed p c :
  roster p (c_members c) (stable_sort member_less (map (view_of p) (sorted_members to_lowercase p c))).
Proof.
  split; [|apply stable_sort_sorted]. rewrite stable_sort_perm. unfold sorted_members. rewrite map_map.
  rewrite merge_sort_Permutation. rewrite map_map. cbn. done.
Qed.

(** ** Several members at once *)

(** Some members as [ms'] has them, the others as [ms] does. *)
Definition refreshed (ms' : gmap str Member) (names : list str) (ms : gmap str Member) : gmap str Member :=
  foldl (λ acc n, match ms' !! normalize m n with Some x => <[normalize m n := x]> acc | None => acc end) ms names.

Lemma refreshed_lookup ms' names ms k :
  refreshed ms' names ms !! k =
  if decide (k ∈ map (normalize m) names ∧ is_Some (ms' !! k)) then ms' !! k else ms !! k.
Proof.
  unfold refreshed. revert ms. induction names as [|n names IH]; intros ms; cbn [foldl map].
  - case_decide as H; [|done]. destruct H as [H _]. by apply not_elem_of_nil in H.
  - rewrite IH. clear IH. destruct (ms' !! normalize m n) as [x|] eqn:E.
    + destruct (decide (k = normalize m n)) as [->|Hne].
      * rewrite lookup_insert_eq, E. rewrite (decide_True (P := _ ∈ _ :: _ ∧ _)) by (split; [by left|done]).
        by case_decide.
      * rewrite lookup_insert_ne by done. repeat case_decide; try done; set_solver.
    + destruct (decide (k = normalize m n)) as [->|Hne].
      * rewrite E. repeat case_decide; try done; naive_solver.
      * repeat case_decide; try done; set_solver.
Qed.

Lemma well_filed_insert ms k x : well_filed ms → k = normalize m (m_nick x) → spelled (m_nick x) → well_filed (<[k := x]> ms).
Proof. intros Hw Hk Hs. by apply map_Forall_insert_2. Qed.

Lemma roster_refreshed p ms' names ms l :
  well_filed ms → well_filed ms' → Forall (λ n, spelled n ∧ is_Some (ms' !! normalize m n)) names → roster p ms l →
  roster p (refreshed ms' names ms)
    (foldl (λ l n, change_member n (view_of p <$> ms' !! normalize m n) l) l names).
Proof.
  intros Hw Hw' Hn. revert ms l Hw. unfold refreshed.
  induction Hn as [|n names [Hs [x Ex]] Hn IH]; intros ms l Hw Hr; cbn [foldl]; [done|]. rewrite Ex.
  apply IH; [|by apply roster_updated]. destruct (Hw' _ _ Ex). by apply well_filed_insert.
Qed.
End Rows.
