(* ===== verification/ActorMirror.v ===== *)
(** What the client shows is what the session holds: the events a connection
    reports keep the member lists of the full-screen client equal to the
    session's, whatever interleaving of a protocol-following server's lines,
    commands and drawing. *)
From S2P Require Import Prelude RustStr Outgoing Proto Format Transfer Transfers Room Contacts Listing Api ClientCommands Keymap ClientModel ClientModelProps ClientRoster Sasl ISupport Session SessionText SessionInv SessionProps ServerConfig Actor RosterMirror Offer.
Import Proto.

Section Mirror.
Context {IpAddr Input : Type} (v4 : N → IpAddr) (parse_ip : str → option IpAddr).
Context (to_lowercase : char → str) (is_alphanumeric : char → bool).
Context (source_nickname : Message → option str) (numeric : Response → N) (debug : Response → str).
Context (m : CaseMapping) (spelled : str → Prop).
Context (one_spelling : ∀ a b, spelled a → spelled b → normalize m a = normalize m b → same a b = true).
Abbreviation Event := (IrcEvent IpAddr).
Abbreviation well_filed := (well_filed m spelled).
Abbreviation roster := (roster to_lowercase).
Abbreviation view_of := (view_of to_lowercase).
Abbreviation pre s := (prefixes (s_isupport s)).
Implicit Types (s : Session) (app : App Input).

(** * The session's side *)

Definition filed_channel (k : str) (c : Channel) : Prop :=
  k = normalize m (c_name c) ∧ spelled (c_name c) ∧ well_filed (c_members c).

(** Every name in the session is spelled as the server does and filed under it. *)
Definition filed_session s : Prop := mapping s = m ∧ map_Forall filed_channel (s_channels s).

(** What a client holds for a channel: a list of members, which is the
    session's unless the server is in the middle of sending them. *)
Definition shows (p : Prefixes) (c : Channel) (o : option (list MemberView)) : Prop :=
  ∃ l, o = Some l ∧ (c_names_in_progress c = false → roster p (c_members c) l).

Definition mirrors s app : Prop :=
  filed_session s ∧ ∀ k c, s_channels s !! k = Some c → shows (pre s) c (held (c_name c) app).

(** The events that take the client from one session to the next. *)
Definition steps (es : list Event) (name : str) (o : option (list MemberView)) : option (list MemberView) :=
  foldl (λ o e, roster_step e name o) o es.

Lemma steps_app es es' name o : steps (es ++ es') name o = steps es' name (steps es name o).
Proof. apply foldl_app. Qed.

Definition mirror_step s s' (es : list Event) : Prop :=
  ∀ app app', mirrors s app → replay es app = Some app' → mirrors s' app'.

(** It is enough to look at one channel at a time. *)
Lemma mirror_pointwise s s' es :
  (filed_session s → filed_session s') →
  (∀ k c', filed_session s → s_channels s' !! k = Some c' →
     Forall (λ e, closes e (c_name c') = false) es ∧
     (∀ c, s_channels s !! k = Some c → c_name c = c_name c') ∧
     ∀ o, (∀ c, s_channels s !! k = Some c → shows (pre s) c o) → shows (pre s') c' (steps es (c_name c') o)) →
  mirror_step s s' es.
Proof.
  intros Hf Hk app app' [Hs Hm] Hr. split; [by apply Hf|]. intros k c' Hc'.
  destruct (Hk k c' Hs Hc') as (Hcl & Hn & Ho). erewrite replay_held by done.
  apply Ho. intros c Hc. rewrite <- (Hn c Hc). by apply (Hm k).
Qed.

(** ** Events that leave the lists alone *)

Definition plain_event (e : Event) : Prop :=
  ∀ name l, closes e name = false ∧ roster_step e name (Some l) = Some l.

Lemma plain_steps es name l : Forall plain_event es → steps es name (Some l) = Some l.
Proof.
  unfold steps. induction 1 as [|e es He Hes IH]; cbn; [done|]. destruct (He name l) as [_ ->]. exact IH.
Qed.

Lemma plain_closes es name : Forall plain_event es → Forall (λ e, closes e name = false) es.
Proof. intros H. eapply Forall_impl; [exact H|]. intros e He. apply (He name []). Qed.

(** A list about another channel. *)
Definition elsewhere (name : str) (e : Event) : Prop :=
  closes e name = false ∧ ∀ l, roster_step e name (Some l) = Some l.

Lemma elsewhere_steps es name l : Forall (elsewhere name) es → steps es name (Some l) = Some l.
Proof. unfold steps. induction 1 as [|e es [_ He] Hes IH]; cbn; [done|]. by rewrite He. Qed.
Lemma elsewhere_closes es name : Forall (elsewhere name) es → Forall (λ e, closes e name = false) es.
Proof. intros H. eapply Forall_impl; [exact H|]. by intros e []. Qed.
Lemma plain_elsewhere e name : plain_event e → elsewhere name e.
Proof. intros H. split; [apply (H name [])|]. intros l. apply H. Qed.

Lemma changed_elsewhere c previous x name : same c name = false → elsewhere name (MemberChanged c previous x).
Proof. intros H. split; [done|]. intros l. cbn. by rewrite H. Qed.
Lemma listed_elsewhere c l name : same c name = false → elsewhere name (MemberList c l).
Proof. intros H. split; [done|]. intros l'. cbn. by rewrite H. Qed.

(** Nothing of a channel changed but what is not shown of it. *)
Definition unaffected s s' : Prop :=
  mapping s' = mapping s ∧ (pre s' = pre s ∨ s_channels s' = ∅) ∧
  ∀ k c', s_channels s' !! k = Some c' → ∃ c, s_channels s !! k = Some c ∧ c_name c' = c_name c ∧
    (c_names_in_progress c' = true ∧ (well_filed (c_members c) → well_filed (c_members c')) ∨
     c_names_in_progress c' = c_names_in_progress c ∧ c_members c' = c_members c).

Lemma unaffected_refl s : unaffected s s.
Proof. split_and!; [done|by left|]. intros k c' H. exists c'. eauto. Qed.

Lemma mirror_unaffected s s' es : Forall plain_event es → unaffected s s' → mirror_step s s' es.
Proof.
  intros He (Hm & Hp & Hc). apply mirror_pointwise.
  - intros [H1 H2]. split; [congruence|]. intros k c' (c & E & En & Hk)%Hc. destruct (H2 k c E) as (G1 & G2 & G3).
    split_and!; [congruence|congruence|]. destruct Hk as [[_ Hk]|[_ ->]]; [by apply Hk|done].
  - intros k c' _ Hc'. assert (pre s' = pre s) as Hp' by (destruct Hp as [|He']; [done|by rewrite He', lookup_empty in Hc']).
    apply Hc in Hc' as (c & E & En & Hk). split_and!; [by apply plain_closes|intros ? E'; congruence|].
    intros o Ho. destruct (Ho c E) as (l & -> & Hl). rewrite plain_steps by done. exists l. split; [done|].
    intros Hi. destruct Hk as [[? _]|[G1 G2]]; [congruence|]. rewrite Hp', G2. apply Hl. congruence.
Qed.

(** ** One channel changed *)

Lemma filed_channel_of s name c :
  filed_session s → Session.channel s name = Some c → filed_channel (normalize m name) c.
Proof. intros [E H] Hc. unfold Session.channel, normalize_name in Hc. rewrite E in Hc. by apply H. Qed.

(** Other channels of the session do not answer to this name. *)
Lemma other_channel s name k c :
  filed_session s → s_channels s !! k = Some c → k ≠ normalize m name → same name (c_name c) = false.
Proof.
  intros [_ H] Hc Hk. destruct (H _ _ Hc) as [E _]. apply not_true_iff_false. intros Hs%(same_normalize m). congruence.
Qed.

Lemma this_channel s name c :
  filed_session s → Session.channel s name = Some c → spelled name → same name (c_name c) = true.
Proof. intros Hs Hc Hn. destruct (filed_channel_of s name c Hs Hc) as (E & Hc' & _). by apply one_spelling. Qed.

(** Only the channel under [name] changed, to [c']; whoever is told of it
    comes to show it. *)
Lemma mirror_one s name c' es :
  let s' := set_channels <[normalize m name := c']> s in
  mapping s = m →
  (filed_session s →
     (∀ c, s_channels s !! normalize m name = Some c → c_name c = c_name c') ∧
     filed_channel (normalize m name) c' ∧
     (∀ n, same name n = false → Forall (elsewhere n) es) ∧
     Forall (λ e, closes e (c_name c') = false) es ∧
     ∀ o, (∀ c, s_channels s !! normalize m name = Some c → shows (pre s) c o) →
       shows (pre s) c' (steps es (c_name c') o)) →
  mirror_step s s' es.
Proof.
  intros s' Hmap H. apply mirror_pointwise.
  - intros Hfs. destruct (H Hfs) as (_ & Hf & _). split; [done|]. apply map_Forall_insert_2; [done|apply Hfs].
  - intros k c2 Hfs Hk. destruct (H Hfs) as (Hn & Hf & He & Hcl & Ho). cbn in Hk.
    apply lookup_insert_Some in Hk as [[<- <-]|[Hne Hk]].
    + split_and!; [done|done|]. by apply Ho.
    + assert (Forall (elsewhere (c_name c2)) es) as Hel by (apply He; by apply (other_channel s name k)).
      split_and!; [by apply elsewhere_closes|intros ? E; congruence|].
      intros o Hc. destruct (Hc c2 Hk) as (l & -> & Hl). rewrite elsewhere_steps by done. by exists l.
Qed.

(** ** Many channels changed *)

Lemma elsewhere_concat name (ev : str → list Event) names :
  (∀ c n, same c n = false → Forall (elsewhere n) (ev c)) →
  Forall (λ n, same n name = false) names → Forall (elsewhere name) (concat (map ev names)).
Proof.
  intros Hev. induction 1 as [|n names Hn Hns IH]; cbn; [constructor|]. apply Forall_app. split; [by apply Hev|done].
Qed.

(** The names [each_channel] reports, seen from one channel. *)
Lemma each_names s f k c :
  filed_session s → s_channels s !! k = Some c → (∀ c c', f c = Some c' → c_name c' = c_name c) →
  match f c with
  | Some _ => ∃ n1 n2, (each_channel f s).1 = n1 ++ c_name c :: n2 ∧ Forall (λ n, same n (c_name c) = false) (n1 ++ n2)
  | None => Forall (λ n, same n (c_name c) = false) (each_channel f s).1
  end.
Proof.
  intros Hs Hc Hf. cbn [each_channel fst].
  pose proof (NoDup_fst_map_to_list (s_channels s)) as Hnd.
  assert (∀ kc, kc ∈ map_to_list (s_channels s) → s_channels s !! kc.1 = Some kc.2) as Hl
    by (intros [] ?; by apply elem_of_map_to_list).
  pose proof Hc as Hin. apply elem_of_map_to_list, list_elem_of_split in Hin as (l1 & l2 & E).
  rewrite E in Hnd, Hl |- *. rewrite omap_app. cbn [omap list_omap snd].
  assert (∀ l, l ⊆ l1 ++ l2 → Forall (λ n, same n (c_name c) = false) (omap (λ kc, c_name <$> f kc.2) l)) as Hother.
  { intros l Hsub. apply Forall_forall. intros n (kc & Hkc & En)%list_elem_of_omap.
    destruct (f kc.2) as [c'|] eqn:Ef; [|done]. injection En as <-. rewrite (Hf _ _ Ef).
    apply Hsub in Hkc. rewrite same_comm.
    assert (kc.1 ≠ k) as Hne.
    { intros <-. rewrite fmap_app in Hnd. cbn in Hnd. apply NoDup_app in Hnd as (_ & Hd & [Hn _]%NoDup_cons).
      apply elem_of_app in Hkc as [Hkc|Hkc].
      - apply (Hd kc.1); [apply list_elem_of_fmap; eauto|by left].
      - apply Hn, list_elem_of_fmap. eauto. }
    apply (other_channel s (c_name c) kc.1); [done|apply Hl; set_solver|].
    destruct Hs as [_ Hs]. destruct (Hs _ _ Hc) as [<- _]. done. }
  destruct (f c) as [c'|] eqn:Ef; cbn.
  - eexists _, _. split; [by rewrite (Hf _ _ Ef)|]. apply Forall_app. split; apply Hother; set_solver.
  - apply Forall_app. split; apply Hother; set_solver.
Qed.

Lemma mirror_each s s0 f (ev : str → list Event) :
  s_channels s0 = s_channels s → s_isupport s0 = s_isupport s →
  (∀ c c', f c = Some c' → c_name c' = c_name c ∧ c_names_in_progress c' = c_names_in_progress c) →
  (filed_session s → ∀ k c c', filed_channel k c → f c = Some c' → filed_channel k c') →
  (∀ c n, same c n = false → Forall (elsewhere n) (ev c)) →
  (∀ c n, Forall (λ e, closes e n = false) (ev c)) →
  (filed_session s → ∀ k c c' l, s_channels s !! k = Some c → f c = Some c' →
     ∃ l', steps (ev (c_name c)) (c_name c) (Some l) = Some l' ∧
       (roster (pre s) (c_members c) l → roster (pre s) (c_members c') l')) →
  mirror_step s (each_channel f s0).2 (concat (map ev (each_channel f s0).1)).
Proof.
  intros Hch Hi Hf Hfc Hev Hcl Hl. apply mirror_pointwise.
  - intros [Hm Hs]. pose proof (Hfc (conj Hm Hs)) as Hfc'. split.
    { unfold mapping in *. cbn. by rewrite Hi. }
    intros k c' H. cbn in H. rewrite Hch, lookup_fmap in H.
    destruct (s_channels s !! k) as [c|] eqn:E; [|done]. injection H as <-. pose proof (Hs _ _ E).
    destruct (f c) eqn:Ef; [by eapply Hfc'|done].
  - intros k c' Hs H. cbn in H. rewrite Hch, lookup_fmap in H.
    destruct (s_channels s !! k) as [c|] eqn:E; [|done]. injection H as <-.
    assert (filed_session s0) as Hs0 by (destruct Hs; split; [unfold mapping in *; congruence|by rewrite Hch]).
    assert (c_name (default c (f c)) = c_name c) as En.
    { destruct (f c) as [c1|] eqn:Ef; [|done]. by apply Hf. }
    split_and!.
    { apply Forall_concat, Forall_map, Forall_true. intros x. apply Hcl. }
    { intros c0 [= ->]. done. }
    intros o Ho. destruct (Ho c eq_refl) as (l & -> & Hr). rewrite En.
    pose proof (each_names s0 f k c Hs0 ltac:(congruence) ltac:(intros c1 c2 H1; by apply Hf)) as Hnames.
    assert (pre (each_channel f s0).2 = pre s) as -> by (cbn; congruence).
    destruct (f c) as [c1|] eqn:Ef; cbn [default].
    + destruct Hnames as (n1 & n2 & -> & [H1 H2]%Forall_app). rewrite map_app, concat_app. cbn [map concat].
      rewrite !steps_app, elsewhere_steps by (by apply elsewhere_concat).
      destruct (Hl Hs k c c1 l E Ef) as (l' & -> & Hl'). rewrite elsewhere_steps by (by apply elsewhere_concat).
      exists l'. split; [done|]. cbn. destruct (Hf _ _ Ef) as [_ Hip]. rewrite Hip. auto.
    + rewrite elsewhere_steps by (by apply elsewhere_concat). by exists l.
Qed.

(** * What the connection tells *)

(** The events of [emit_member_changed] and [emit_member_list]. *)
Definition changed_events s (chan previous nick : str) : list Event :=
  let member := view_of (pre s) <$> member_of s chan nick in
  if negb (is_some member) && negb (is_some (Session.channel s chan)) then []
  else [MemberChanged chan previous member].

Definition list_events s (chan : str) : list Event :=
  match Session.channel s chan with
  | None => []
  | Some c => [MemberList (c_name c) (map (view_of (pre s)) (sorted_members to_lowercase (pre s) c))]
  end.

Lemma changed_events_elsewhere s chan previous nick n :
  same chan n = false → Forall (elsewhere n) (changed_events s chan previous nick).
Proof.
  intros H. unfold changed_events. destruct (_ && _); [constructor|]. repeat constructor. cbn. by rewrite H.
Qed.
Lemma changed_events_closes s chan previous nick n : Forall (λ e, closes e n = false) (changed_events s chan previous nick).
Proof. unfold changed_events. destruct (_ && _); repeat constructor. Qed.

Lemma changed_events_in s chan previous nick c :
  Session.channel s chan = Some c →
  changed_events s chan previous nick = [MemberChanged chan previous (view_of (pre s) <$> c_members c !! normalize_name s nick)].
Proof.
  intros H. unfold changed_events, member_of. rewrite H. cbn [mbind option_bind is_some negb]. by rewrite andb_false_r.
Qed.

Lemma same_refl a : same a a = true.
Proof. by apply same_iff. Qed.

(** ** Someone known by a nick *)

Lemma filed_as_spelled s nick :
  filed_session s → spelled nick →
  let filed := default nick (known_nick nick s) in spelled filed ∧ normalize m filed = normalize m nick.
Proof.
  intros [Hm Hs] Hn. unfold known_nick. destruct (head _) as [x|] eqn:E; cbn; [|done].
  apply head_Some_elem_of, list_elem_of_omap in E as ([k c] & Hk & Hx). apply elem_of_map_to_list in Hk.
  destruct (Hs _ _ Hk) as (_ & _ & Hw). cbn in Hx. unfold normalize_name in Hx. rewrite Hm in Hx.
  destruct (Hw _ _ Hx) as [E ?]. by rewrite E.
Qed.

(** ** Arrivals *)

Definition nick_ok (n : str) : Prop := spelled n ∧ length n ≤ MAX_NICK.
Definition chan_ok (c : str) : Prop := spelled c ∧ length c ≤ MAX_CHANNEL_NAME.

Lemma on_join_cases chan nick s :
  mapping s = m →
  let r := Session.on_join chan nick s in
  r = (false, s) ∨
  ∃ c, r = (true, set_channels <[normalize m chan :=
                     Session.set_members <[normalize m nick := new_member nick]> c]> s) ∧
    (s_channels s !! normalize m chan = Some c ∨
     s_channels s !! normalize m chan = None ∧ c = new_channel chan ∧ is_self s nick = true).
Proof.
  intros Hm. unfold Session.on_join, normalize_name, join_member. rewrite !Hm.
  case_bool_decide as Hc; cbn [s_channels set_channels].
  - destruct (is_self s nick) eqn:Eself; cbn [negb orb]; [|by left].
    destruct (Nat.leb _ _); [by left|]. rewrite lookup_insert_eq. right. exists (new_channel chan).
    split; [|by right]. unfold member_count. cbn [new_channel c_members]. rewrite map_size_empty.
    destruct (N.leb_spec MAX_MEMBERS (N.of_nat 0)) as [Hl|_]; [done|]. cbn [andb]. f_equal. unfold set_channels. cbn.
    f_equal. apply insert_insert_eq.
  - destruct (s_channels s !! normalize m chan) as [c|] eqn:E; [|done]. destruct (_ && _); [by left|].
    right. exists c. split; [done|by left].
Qed.

Definition join_events s' (chan nick : str) : list Event :=
  let self := is_self s' nick in
  Joined chan nick self :: (if self then list_events s' chan else changed_events s' chan nick nick).

Lemma channel_set s chan c :
  mapping s = m → Session.channel (set_channels <[normalize m chan := c]> s) chan = Some c.
Proof. intros H. unfold Session.channel, normalize_name. cbn. change (mapping _) with (mapping s). rewrite H. apply lookup_insert_eq. Qed.

Lemma opened_elsewhere c nick self name : same c name = false → elsewhere name (Joined c nick self).
Proof. intros H. split; [done|]. intros l. cbn. unfold opened. by rewrite H. Qed.

Lemma same_other a b n : same a b = true → same a n = false → same b n = false.
Proof. intros H. by rewrite (same_trans_l a b n). Qed.

(** The list a whole roster is shown as. *)
Lemma shows_listed p c l :
  shows p c (roster_step (MemberList (c_name c) (map (view_of p) (sorted_members to_lowercase p c)) : Event)
    (c_name c) (Some l)).
Proof. cbn. rewrite same_refl. eexists. split; [done|]. intros _. apply roster_listed. Qed.

Lemma mirror_join chan nick s :
  mapping s = m → chan_ok chan → nick_ok nick →
  let '(joined, s') := Session.on_join chan nick s in
  mirror_step s s' (if joined then join_events s' chan nick else []).
Proof.
  intros Hm [Hc Hcl] [Hn Hnl].
  destruct (on_join_cases chan nick s Hm) as [->|(c & -> & Hcase)];
    [apply mirror_unaffected; [constructor|apply unaffected_refl]|].
  set (x := new_member nick). set (c' := Session.set_members <[normalize m nick := x]> c).
  set (s' := set_channels <[normalize m chan := c']> s).
  assert (m_nick x = nick) as Hx by (cbn; by apply truncate_id).
  assert (c_name (new_channel chan) = chan) as Hnew by (cbn; by apply truncate_id).
  pose proof (channel_set s chan c' Hm) as Hch. fold s' in Hch.
  unfold join_events, list_events. rewrite (changed_events_in s' chan nick nick c' Hch), Hch.
  apply (mirror_one s chan c'); [done|]. intros Hs.
  assert (same chan (c_name c') = true) as Hsame.
  { destruct Hcase as [Hc1|(_ & -> & _)]; [|rewrite <- Hnew at 1; apply same_refl].
    change (c_name c') with (c_name c). eapply this_channel; [done| |done].
    unfold Session.channel, normalize_name. by rewrite Hm. }
  split_and!.
  - intros c0 E. destruct Hcase as [E'|(E' & _)]; [by rewrite E in E'; injection E' as <-|congruence].
  - destruct Hs as [_ Hs]. destruct Hcase as [Hc1|(_ & -> & _)].
    + destruct (Hs _ _ Hc1) as (G1 & G2 & G3). split_and!; [done..|]. apply well_filed_insert; by rewrite ?Hx.
    + split_and!; cbn [c' c_name Session.set_members]; rewrite ?Hnew; [done..|].
      apply well_filed_insert; rewrite ?Hx; [apply map_Forall_empty|done|done].
  - intros n Hsn. constructor; [by apply opened_elsewhere|]. destruct (is_self s' nick); apply Forall_singleton.
    + by apply listed_elsewhere, (same_other chan).
    + by apply changed_elsewhere.
  - constructor; [done|]. destruct (is_self s' nick); repeat constructor.
  - intros o Ho. cbn [steps foldl]. unfold steps. cbn [foldl roster_step]. unfold opened at 1. rewrite Hsame.
    destruct (is_self s' nick) eqn:Eself; cbn [foldl].
    + apply (shows_listed (pre s')).
    + destruct Hcase as [Hc1|(_ & _ & Hself)]; [|by change (is_self s' nick) with (is_self s nick) in Eself; congruence].
      destruct (Ho c Hc1) as (l & -> & Hl). cbn [roster_step default]. rewrite Hsame.
      unfold normalize_name. change (mapping s') with (mapping s). rewrite Hm. cbn [c_members c' Session.set_members].
      rewrite lookup_insert_eq. eexists. split; [done|]. intros Hip. cbn [fmap option_fmap option_map].
      apply (roster_updated to_lowercase m spelled one_spelling); [|done|by apply Hl].
      destruct Hs as [_ Hs]. by destruct (Hs _ _ Hc1) as (_ & _ & G).
Qed.

(** ** Departures *)

Definition leave_events (left_ self : bool) (chan nick filed : str) (reason : option str) s' : list Event :=
  if left_ then Parted chan nick self reason :: (if self then [] else changed_events s' chan filed filed) else [].

Lemma mirror_leave chan nick reason s :
  mapping s = m → spelled chan → nick_ok nick →
  let filed := default nick (known_nick nick s) in
  let '(left_, s') := Session.on_part chan nick s in
  mirror_step s s' (leave_events left_ (is_self s nick) chan nick filed reason s').
Proof.
  intros Hm Hc [Hn _] filed. unfold Session.on_part, normalize_name. rewrite Hm.
  destruct (is_self s nick) eqn:Eself.
  - apply mirror_pointwise.
    + intros [_ Hs]. split; [done|]. cbn. by apply map_Forall_delete.
    + intros k c' Hs Hk. cbn in Hk. apply lookup_delete_Some in Hk as [Hne Hk].
      assert (Forall (elsewhere (c_name c')) (leave_events (bool_decide (is_Some (s_channels s !! normalize m chan)))
        true chan nick filed reason (set_channels (delete (normalize m chan)) s))) as He.
      { unfold leave_events. case_bool_decide; repeat constructor; cbn. by apply (other_channel s chan k). }
      split_and!; [by apply elsewhere_closes|intros ? E; congruence|].
      intros o Ho. destruct (Ho c' Hk) as (l & -> & Hl). rewrite elsewhere_steps by done. by exists l.
  - destruct (s_channels s !! normalize m chan) as [c|] eqn:Ec; [|apply mirror_unaffected; [constructor|apply unaffected_refl]].
    set (c' := Session.set_members (delete (normalize m nick)) c).
    apply (mirror_one s chan c'); [done|]. intros Hs.
    destruct (filed_as_spelled s nick Hs Hn) as [Hf1 Hf2]. fold filed in Hf1, Hf2.
    pose proof Hs as [_ Hs']. destruct (Hs' _ _ Ec) as (G1 & G2 & G3).
    assert (same chan (c_name c') = true) as Hsame by (by apply one_spelling).
    pose proof (channel_set s chan c' Hm) as Hch. unfold leave_events.
    rewrite (changed_events_in _ chan filed filed c' Hch).
    assert (c_members c' !! normalize_name (set_channels <[normalize m chan:=c']> s) filed = None) as ->.
    { unfold normalize_name. change (mapping _) with (mapping s). rewrite Hm, Hf2. apply lookup_delete_eq. }
    split_and!.
    + intros c0 E. rewrite Ec in E. by injection E as <-.
    + split_and!; [done..|]. by apply map_Forall_delete.
    + intros n Hsn. case_bool_decide; [|constructor]. constructor; [done|]. apply Forall_singleton.
      by apply changed_elsewhere.
    + case_bool_decide; repeat constructor.
    + intros o Ho. destruct (Ho c Ec) as (l & -> & Hl). case_bool_decide as Hin; unfold steps; cbn [foldl roster_step].
      * rewrite Hsame. eexists. split; [done|]. intros Hip. cbn [c_members c' Session.set_members].
        rewrite <- Hf2. apply (roster_gone to_lowercase m spelled one_spelling); [done|done|by apply Hl].
      * exists l. split; [done|]. intros Hip. cbn [c_members c' Session.set_members].
        rewrite delete_id; [by apply Hl|]. by apply eq_None_not_Some.
Qed.

(** Leaving the network: every channel shared, or all of them at once. *)
Lemma channel_after s f k c :
  filed_session s → s_channels s !! k = Some c →
  Session.channel (each_channel f s).2 (c_name c) = Some (default c (f c)).
Proof.
  intros [Hm Hs] Hc. destruct (Hs _ _ Hc) as [E _]. unfold Session.channel, normalize_name.
  change (mapping (each_channel f s).2) with (mapping s). rewrite Hm, <- E. by apply each_channel_lookup.
Qed.

Definition quit_events (nick filed : str) (reason : option str) s' (chan : str) : list Event :=
  Quit_ chan nick reason :: changed_events s' chan filed filed.

Lemma mirror_quit nick reason s :
  mapping s = m → nick_ok nick →
  let filed := default nick (known_nick nick s) in
  let '(names, s') := Session.on_quit nick s in
  mirror_step s s' (concat (map (quit_events nick filed reason s') names)).
Proof.
  intros Hm [Hn _] filed. unfold Session.on_quit. destruct (is_self s nick).
  - apply mirror_pointwise; [intros [_ _]; split; [done|apply map_Forall_empty]|].
    intros k c' _ Hk. cbn in Hk. by rewrite lookup_empty in Hk.
  - set (f := λ c, if bool_decide _ then _ else _). rewrite (surjective_pairing (each_channel f s)).
    assert (∀ c c', f c = Some c' → is_Some (c_members c !! normalize m nick) ∧ c' = Session.set_members (delete (normalize m nick)) c) as Hf.
    { intros c c'. unfold f, normalize_name. rewrite Hm. case_bool_decide; [|done]. by intros [= <-]. }
    apply mirror_each; [done|done|..].
    + intros c c' [_ ->]%Hf. done.
    + intros _ k c c' (G1 & G2 & G3) [_ ->]%Hf. split_and!; [done..|]. by apply map_Forall_delete.
    + intros c n Hsn. constructor; [done|]. by apply changed_events_elsewhere.
    + intros c n. constructor; [done|]. apply changed_events_closes.
    + intros Hs k c c' l Hc Ef. destruct (filed_as_spelled s nick Hs Hn) as [Hf1 Hf2]. fold filed in Hf1, Hf2.
      pose proof (channel_after s f k c Hs Hc) as Hch. rewrite Ef in Hch. cbn [default] in Hch.
      unfold quit_events. rewrite (changed_events_in _ _ filed filed c' Hch). unfold steps. cbn [foldl roster_step].
      rewrite same_refl. destruct (Hf _ _ Ef) as [_ ->]. eexists. split; [done|]. intros Hr.
      unfold normalize_name. change (mapping (each_channel f s).2) with (mapping s).
      cbn [c_members Session.set_members]. rewrite Hm, Hf2, lookup_delete_eq.
      cbn [fmap option_fmap option_map]. rewrite <- Hf2.
      destruct Hs as [_ Hs]. destruct (Hs _ _ Hc) as (_ & _ & G3).
      by apply (roster_gone to_lowercase m spelled one_spelling).
Qed.

(** ** Renamed, away, back *)

Definition nick_events (old new filed : str) (self : bool) s' (chan : str) : list Event :=
  NickChanged chan old new self :: changed_events s' chan filed new.

(** Nobody else in a channel the two share has the new nick. *)
Definition nick_free (old new : str) s : Prop :=
  ∀ k c, s_channels s !! k = Some c → is_Some (c_members c !! normalize m old) →
    normalize m new ≠ normalize m old → c_members c !! normalize m new = None.

Lemma mirror_nick old new self s :
  mapping s = m → nick_ok old → nick_ok new → nick_free old new s →
  let filed := default old (known_nick old s) in
  let '(names, s') := Session.on_nick_change old new s in
  mirror_step s s' (concat (map (nick_events old new filed self s') names)).
Proof.
  intros Hm [Hn _] [Hnew Hlen] Hfree filed. unfold Session.on_nick_change.
  set (s0 := if is_self s old then Session.set_nick new s else s).
  assert (s_channels s0 = s_channels s ∧ s_isupport s0 = s_isupport s) as [Hch Hi] by (unfold s0; by destruct (is_self s old)).
  assert (mapping s0 = m) as Hm0 by (unfold mapping in *; congruence).
  unfold normalize_name. rewrite Hm0, truncate_id by done.
  set (f := rename_member _ _ _). rewrite (surjective_pairing (each_channel f s0)).
  assert (∀ c c', f c = Some c' → ∃ x, c_members c !! normalize m old = Some x ∧
    c' = Session.set_members (λ ms, <[normalize m new := member_set_nick new x]> (delete (normalize m old) ms)) c) as Hf.
  { intros c c'. unfold f, rename_member. destruct (c_members c !! _) as [x|]; [|done]. intros [= <-]. eauto. }
  apply mirror_each; [done|done|..].
  - intros c c' (x & _ & ->)%Hf. done.
  - intros _ k c c' (G1 & G2 & G3) (x & Hx & ->)%Hf. split_and!; [done..|].
    apply well_filed_insert; [|done|done]. by apply map_Forall_delete.
  - intros c n Hsn. constructor; [done|]. by apply changed_events_elsewhere.
  - intros c n. constructor; [done|]. apply changed_events_closes.
  - intros Hs k c c' l Hc Ef. destruct (filed_as_spelled s old Hs Hn) as [Hf1 Hf2]. fold filed in Hf1, Hf2.
    assert (filed_session s0) as Hs0 by (destruct Hs; split; [done|by rewrite Hch]).
    pose proof (channel_after s0 f k c Hs0 ltac:(congruence)) as Hch'. rewrite Ef in Hch'. cbn [default] in Hch'.
    unfold nick_events. rewrite (changed_events_in _ _ filed new c' Hch'). unfold steps. cbn [foldl roster_step].
    rewrite same_refl. destruct (Hf _ _ Ef) as (x & Hx & ->). eexists. split; [done|]. intros Hr.
    unfold normalize_name. change (mapping (each_channel f s0).2) with (mapping s0).
    assert (pre (each_channel f s0).2 = pre s) as -> by (cbn; congruence).
    cbn [c_members Session.set_members]. rewrite Hm0, lookup_insert_eq. cbn [fmap option_fmap option_map].
    rewrite <- Hf2. pose proof Hs as [_ Hs']. destruct (Hs' _ _ Hc) as (_ & _ & G3).
    apply (roster_changed to_lowercase m spelled one_spelling); [done|done| |done]. rewrite Hf2.
    destruct (decide (normalize m new = normalize m old)) as [->|Hne]; [apply lookup_delete_eq|].
    rewrite lookup_delete_ne by done. by apply (Hfree k).
Qed.

Lemma mirror_away nick away s :
  mapping s = m → nick_ok nick →
  let filed := default nick (known_nick nick s) in
  let '(names, s') := Session.set_away nick away s in
  mirror_step s s' (concat (map (λ chan, changed_events s' chan filed filed) names)).
Proof.
  intros Hm [Hn _] filed. unfold Session.set_away, normalize_name. rewrite Hm.
  set (f := away_member _ _). rewrite (surjective_pairing (each_channel f s)).
  assert (∀ c c', f c = Some c' → ∃ x, c_members c !! normalize m nick = Some x ∧
    c' = Session.set_members <[normalize m nick := member_set_away away x]> c) as Hf.
  { intros c c'. unfold f, away_member. destruct (c_members c !! _) as [x|]; [|done]. destruct (Bool.eqb _ _); [done|].
    intros [= <-]. eauto. }
  apply mirror_each; [done|done|..].
  - intros c c' (x & _ & ->)%Hf. done.
  - intros _ k c c' (G1 & G2 & G3) (x & Hx & ->)%Hf. split_and!; [done..|].
    destruct (G3 _ _ Hx). by apply well_filed_insert.
  - intros c n Hsn. by apply changed_events_elsewhere.
  - intros c n. apply changed_events_closes.
  - intros Hs k c c' l Hc Ef. destruct (filed_as_spelled s nick Hs Hn) as [Hf1 Hf2]. fold filed in Hf1, Hf2.
    pose proof (channel_after s f k c Hs Hc) as Hch'. rewrite Ef in Hch'. cbn [default] in Hch'.
    rewrite (changed_events_in _ _ filed filed c' Hch'). unfold steps. cbn [foldl roster_step].
    rewrite same_refl. destruct (Hf _ _ Ef) as (x & Hx & ->). eexists. split; [done|]. intros Hr.
    unfold normalize_name. change (mapping (each_channel f s).2) with (mapping s).
    cbn [c_members Session.set_members]. rewrite Hm, Hf2, lookup_insert_eq. cbn [fmap option_fmap option_map].
    rewrite <- Hf2. pose proof Hs as [_ Hs']. destruct (Hs' _ _ Hc) as (_ & _ & G3).
    by apply (roster_updated to_lowercase m spelled one_spelling).
Qed.

(** ** Modes *)

(** What a mode change leaves as it was: who is a member, and their nicks;
    everyone who changed is reported. *)
Definition mode_effect (ms ms' : gmap str Member) (names : list str) : Prop :=
  (∀ k, m_nick <$> ms' !! k = m_nick <$> ms !! k)
  ∧ (∀ k, k ∈ map (normalize m) names ∨ ms' !! k = ms !! k)
  ∧ Forall (λ n, ∃ k x, ms !! k = Some x ∧ m_nick x = n) names.

Lemma mode_effect_trans ms1 ms2 ms3 n1 n2 :
  mode_effect ms1 ms2 n1 → mode_effect ms2 ms3 n2 → mode_effect ms1 ms3 (n1 ++ n2).
Proof.
  intros (A1 & A2 & A3) (B1 & B2 & B3). split_and!.
  - intros k. by rewrite B1, A1.
  - intros k. rewrite map_app, elem_of_app. destruct (A2 k) as [?|<-]; [by left; left|].
    destruct (B2 k); [by left; right|by right].
  - apply Forall_app. split; [done|]. eapply Forall_impl; [exact B3|]. intros n (k & x & Hx & Hn).
    specialize (A1 k). rewrite Hx in A1. destruct (ms1 !! k) as [y|] eqn:E; [|done]. exists k, y.
    split; [done|]. cbn in A1. congruence.
Qed.

Lemma mode_effect_refl ms : mode_effect ms ms [].
Proof. split_and!; [done|by right|constructor]. Qed.

Lemma set_privilege_effect adding c target ms changed :
  well_filed ms →
  let r := set_privilege m adding c target ms changed in
  ∃ names, r.2 = changed ++ names ∧ mode_effect ms r.1 names.
Proof.
  intros Hw. unfold set_privilege. destruct (ms !! normalize m target) as [x|] eqn:E; cbn.
  - exists [m_nick x]. split; [done|]. destruct (Hw _ _ E) as [Ek _]. split_and!.
    + intros k. destruct (decide (k = normalize m target)) as [->|Hne].
      * by rewrite lookup_insert_eq, E.
      * by rewrite lookup_insert_ne.
    + intros k. destruct (decide (k = normalize m target)) as [->|Hne].
      * left. cbn. rewrite <- Ek. by left.
      * right. by rewrite lookup_insert_ne.
    + apply Forall_singleton. eauto.
  - exists []. rewrite app_nil_r. split; [done|apply mode_effect_refl].
Qed.

Lemma mode_effect_filed ms ms' names : well_filed ms → mode_effect ms ms' names → well_filed ms'.
Proof.
  intros Hw (H1 & _) k x Hx. specialize (H1 k). rewrite Hx in H1. destruct (ms !! k) as [y|] eqn:E; [|done].
  destruct (Hw _ _ E). cbn in H1. injection H1 as ->. done.
Qed.

Lemma mode_loop_effect i modes params adding ms changed :
  casemapping i = m → well_filed ms →
  let r := mode_loop i modes params adding ms changed in
  ∃ names, r.2 = changed ++ names ∧ mode_effect ms r.1 names.
Proof.
  intros Hi. assert (∀ ms changed, ∃ names, (ms, changed).2 = changed ++ names ∧ mode_effect ms (ms, changed).1 names) as Hid.
  { intros. exists []. rewrite app_nil_r. split; [done|apply mode_effect_refl]. }
  revert params adding ms changed. induction modes as [|c modes IH]; intros params adding ms changed Hw; cbn [mode_loop]; [apply Hid|].
  destruct (c =? 43)%N; [by apply IH|]. destruct (c =? 45)%N; [by apply IH|].
  destruct (is_prefix_mode _ c).
  - destruct params as [|target params]; [apply Hid|]. destruct (prefix_for_mode _ c) as [pc|]; [|by apply IH].
    rewrite Hi. destruct (set_privilege_effect adding pc target ms changed Hw) as (n1 & E1 & H1).
    destruct (set_privilege m adding pc target ms changed) as [ms1 ch1]. cbn [fst snd] in E1, H1. subst ch1.
    destruct (IH params adding ms1 (changed ++ n1) (mode_effect_filed _ _ _ Hw H1)) as (n2 & E2 & H2).
    exists (n1 ++ n2). rewrite app_assoc. split; [done|by eapply mode_effect_trans].
  - destruct (takes_parameter _ c adding); [destruct params; [apply Hid|]|]; by apply IH.
Qed.

Lemma mode_effect_names ms ms' names :
  well_filed ms → mode_effect ms ms' names → Forall (λ n, spelled n ∧ is_Some (ms' !! normalize m n)) names.
Proof.
  intros Hw (H1 & _ & H3). eapply Forall_impl; [exact H3|]. intros n (k & x & Hx & <-).
  destruct (Hw _ _ Hx) as [-> Hs]. split; [done|]. specialize (H1 (normalize m (m_nick x))). rewrite Hx in H1.
  by destruct (ms' !! normalize m (m_nick x)).
Qed.

Lemma mode_effect_refreshed ms ms' names :
  well_filed ms → mode_effect ms ms' names → refreshed m ms' names ms = ms'.
Proof.
  intros Hw He. pose proof (mode_effect_names _ _ _ Hw He) as Hn. destruct He as (H1 & H2 & _).
  apply map_eq. intros k. rewrite (refreshed_lookup m spelled one_spelling). case_decide as Hd; [done|]. destruct (H2 k) as [Hk|]; [|done].
  destruct Hd. split; [done|]. apply list_elem_of_In, in_map_iff in Hk as (n & <- & Hin%list_elem_of_In).
  rewrite Forall_forall in Hn. by apply Hn.
Qed.

Definition mode_events (chan : str) (source : option str) (affected : list str) s' : list Event :=
  if is_empty affected then []
  else ModeChanged chan source affected :: concat (map (λ n, changed_events s' chan n n) affected).

Lemma mirror_mode chan text params source s :
  mapping s = m → spelled chan →
  let '(affected, s') := Session.on_mode chan text params s in
  mirror_step s s' (mode_events chan source affected s').
Proof.
  intros Hm Hc. unfold Session.on_mode, normalize_name. rewrite Hm.
  destruct (s_channels s !! normalize m chan) as [c|] eqn:Ec; [|apply mirror_unaffected; [constructor|apply unaffected_refl]].
  pose proof (mode_loop_effect (s_isupport s) text params true (c_members c) []) as He.
  destruct (mode_loop _ _ _ _ _ _) as [ms' affected]. cbn [fst snd] in He.
  set (c' := Session.set_members (λ _, ms') c). apply (mirror_one s chan c'); [done|]. intros Hs.
  pose proof Hs as [_ Hs']. destruct (Hs' _ _ Ec) as (G1 & G2 & G3).
  destruct (He Hm G3) as (names & -> & Hef). cbn [app]. clear He.
  assert (same chan (c_name c') = true) as Hsame by (by apply one_spelling).
  pose proof (channel_set s chan c' Hm) as Hch. set (s' := set_channels <[normalize m chan:=c']> s) in *.
  assert (concat (map (λ n, changed_events s' chan n n) names) =
          map (λ n, MemberChanged chan n (view_of (pre s) <$> ms' !! normalize m n)) names) as Eev.
  { clear Hef. induction names as [|n names IH]; [done|]. cbn [map concat]. rewrite (changed_events_in s' chan n n c' Hch).
    unfold normalize_name at 1. change (mapping s') with (mapping s). rewrite Hm, IH. done. }
  unfold mode_events. rewrite Eev. split_and!.
  - intros c0 E. rewrite Ec in E. by injection E as <-.
  - split_and!; [done..|]. by eapply mode_effect_filed.
  - intros n Hsn. destruct (is_empty names); [constructor|]. constructor; [done|].
    apply Forall_map, Forall_true. intros x. by apply changed_elsewhere.
  - destruct (is_empty names); [constructor|]. constructor; [done|]. by apply Forall_map, Forall_true.
  - intros o Ho. destruct (Ho c Ec) as (l & -> & Hl).
    assert (steps (if is_empty names then [] else ModeChanged chan source names ::
      map (λ n, MemberChanged chan n (view_of (pre s) <$> ms' !! normalize m n)) names) (c_name c') (Some l)
      = Some (foldl (λ l n, change_member n (view_of (pre s) <$> ms' !! normalize m n) l) l names)) as ->.
    { assert (∀ l, steps (map (λ n, MemberChanged chan n (view_of (pre s) <$> ms' !! normalize m n)) names) (c_name c') (Some l)
        = Some (foldl (λ l n, change_member n (view_of (pre s) <$> ms' !! normalize m n) l) l names)) as Hst.
      { clear Eev Hef. unfold steps. induction names as [|n names IH]; intros l0; [done|]. cbn [map foldl roster_step].
        rewrite Hsame. cbn [fmap option_fmap option_map]. apply IH. }
      destruct names as [|n names]; [done|]. cbn [is_empty]. exact (Hst l). }
    eexists. split; [done|]. intros Hip.
    assert (c_members c' = refreshed m ms' names (c_members c)) as ->
      by (symmetry; apply (mode_effect_refreshed _ _ _ G3 Hef)).
    apply (roster_refreshed to_lowercase m spelled one_spelling); [done|by eapply mode_effect_filed|
      by eapply mode_effect_names|by apply Hl].
Qed.

(** ** The server's own lists *)

Definition entry_ok (p : Prefixes) (e : str) : Prop := (split_prefixes p e).2 = [] ∨ nick_ok (split_prefixes p e).2.

Lemma names_loop_filed p entries ms :
  Forall (entry_ok p) entries → well_filed ms → well_filed (names_loop m p entries ms).
Proof.
  intros He. revert ms. induction He as [|e entries He Hes IH]; intros ms Hw; cbn [names_loop]; [done|].
  destruct (N.leb _ _); [done|]. unfold entry_ok in He. destruct (split_prefixes p e) as [found nick]. cbn [snd] in He.
  destruct He as [->|[Hn Hl]]; [by apply IH|]. destruct (is_empty nick); [by apply IH|]. apply IH.
  destruct (ms !! normalize m nick) as [x|] eqn:E; cbn [default].
  - destruct (Hw _ _ E). by apply well_filed_insert.
  - apply well_filed_insert; cbn [m_nick member_set_prefixes new_member]; rewrite ?truncate_id by done; done.
Qed.

Lemma mirror_names chan names s :
  mapping s = m → is_Some (Session.channel s chan) → Forall (entry_ok (pre s)) (split_whitespace names) →
  mirror_step s (on_names_reply chan names s) [].
Proof.
  intros Hm [c Hc] He. apply mirror_unaffected; [constructor|].
  unfold Session.channel, on_names_reply, names_channel, normalize_name in *. rewrite Hm in *.
  rewrite Hc, bool_decide_false by done. split_and!; [done|by left|]. intros k c' Hk. cbn in Hk.
  apply lookup_insert_Some in Hk as [[<- <-]|[Hne Hk]]; [|by exists c'; eauto].
  exists c. split; [done|]. split; [by destruct (c_names_in_progress c)|]. left.
  split; [by destruct (c_names_in_progress c) eqn:E|]. intros Hw. apply names_loop_filed; [done|].
  destruct (c_names_in_progress c); [done|apply map_Forall_empty].
Qed.

Lemma alter_insert_eq {A} (f : A → A) (k : str) (x : A) (l : gmap str A) : l !! k = Some x → alter f k l = <[k := f x]> l.
Proof.
  intros H. apply map_eq. intros j. destruct (decide (j = k)) as [->|Hne].
  - by rewrite lookup_alter_eq, lookup_insert_eq, H.
  - by rewrite lookup_alter_ne, lookup_insert_ne.
Qed.

Lemma mirror_end chan s :
  mapping s = m → spelled chan → mirror_step s (on_end_of_names chan s) (list_events (on_end_of_names chan s) chan).
Proof.
  intros Hm Hc. unfold list_events. rewrite channel_end_of_names. unfold on_end_of_names, Session.channel, normalize_name.
  rewrite Hm. destruct (s_channels s !! normalize m chan) as [c|] eqn:Ec; cbn [fmap option_fmap option_map].
  - set (c' := set_in_progress false c).
    assert (set_channels (alter (set_in_progress false) (normalize m chan)) s = set_channels <[normalize m chan := c']> s) as ->.
    { unfold set_channels. f_equal. by apply alter_insert_eq. }
    apply (mirror_one s chan c'); [done|]. intros Hs. pose proof Hs as [_ Hs']. destruct (Hs' _ _ Ec) as (G1 & G2 & G3).
    split_and!.
    + intros c0 E. rewrite Ec in E. by injection E as <-.
    + done.
    + intros n Hsn. apply Forall_singleton, listed_elsewhere, (same_other chan); [by apply one_spelling|done].
    + repeat constructor.
    + intros o Ho. destruct (Ho c Ec) as (l & -> & _). apply (shows_listed (pre s) c').
  - apply mirror_unaffected; [constructor|]. split_and!; [done|by left|]. intros k c' Hk. cbn in Hk.
    destruct (decide (k = normalize m chan)) as [->|Hne].
    + rewrite lookup_alter_eq, Ec in Hk. done.
    + rewrite lookup_alter_ne in Hk by done. exists c'. eauto.
Qed.

Lemma mirror_isupport args s :
  mapping s = m → mapping (Session.on_isupport args s) = m → (pre (Session.on_isupport args s) = pre s ∨ s_channels s = ∅) →
  unaffected s (Session.on_isupport args s).
Proof.
  intros Hm Hm' Hp. unfold Session.on_isupport in *. destruct (decide _) as [E|E].
  - split_and!; [done|done|]. intros k c' H. exists c'. eauto.
  - exfalso. apply E. change (mapping (rekey ?s)) with (mapping s) in Hm'. congruence.
Qed.

(** * The connection *)

Abbreviation Actor := (@Actor IpAddr).
Implicit Types a : Actor.

(** The events queued on the way from one state to the next, as long as none
    had to be dropped. *)
Definition told a (es : list Event) a' : Prop :=
  dropped_events a' = 0%N → dropped_events a = 0%N ∧ events a' = events a ++ es.

Lemma told_nil a a' : dropped_events a' = dropped_events a → events a' = events a → told a [] a'.
Proof. intros H1 H2 H. rewrite H2, app_nil_r. by rewrite <- H1. Qed.

Lemma told_trans a1 a2 a3 es es' : told a1 es a2 → told a2 es' a3 → told a1 (es ++ es') a3.
Proof. intros H1 H2 H. destruct (H2 H) as [G1 G2]. destruct (H1 G1) as [G3 G4]. split; [done|]. by rewrite G2, G4, app_assoc. Qed.

Lemma told_emit e a : told a [e] (emit e a).
Proof.
  unfold told, emit, try_send. destruct (Nat.ltb _ _); cbn; [done|]. unfold u64_max. intros H. exfalso. lia.
Qed.

Lemma session_emit e a : session (emit e a) = session a.
Proof. unfold emit, try_send. by destruct (Nat.ltb _ _). Qed.

Lemma emit_all_told es a : told a es (emit_all es a) ∧ session (emit_all es a) = session a.
Proof.
  revert a. unfold emit_all. induction es as [|e es IH]; intros a; cbn; [split; [by apply told_nil|done]|].
  destruct (IH (emit e a)) as [H1 H2]. rewrite H2, session_emit. split; [|done].
  exact (told_trans _ _ _ [e] es (told_emit e a) H1).
Qed.

Lemma member_changed_told chan previous nick a :
  let a' := emit_member_changed to_lowercase chan previous nick a in
  told a (changed_events (session a) chan previous nick) a' ∧ session a' = session a.
Proof.
  unfold emit_member_changed, changed_events, member_view. destruct (_ && _).
  - split; [by apply told_nil|done].
  - split; [apply told_emit|apply session_emit].
Qed.

Lemma member_list_told chan a :
  let a' := emit_member_list to_lowercase chan a in
  told a (list_events (session a) chan) a' ∧ session a' = session a.
Proof.
  unfold emit_member_list, list_events. destruct (Session.channel _ _).
  - split; [apply told_emit|apply session_emit].
  - split; [by apply told_nil|done].
Qed.

(** One event after another, each told of the same session. *)
Lemma foldl_told {A} (g : Actor → A → Actor) (ev : Session → A → list Event) l a :
  (∀ a x, told a (ev (session a) x) (g a x) ∧ session (g a x) = session a) →
  told a (concat (map (ev (session a)) l)) (foldl g a l) ∧ session (foldl g a l) = session a.
Proof.
  intros Hg. revert a. induction l as [|x l IH]; intros a; cbn; [split; [by apply told_nil|done]|].
  destruct (Hg a x) as [H1 H2]. destruct (IH (g a x)) as [H3 H4]. rewrite H2 in H3, H4. rewrite H4.
  split; [by eapply told_trans|done].
Qed.

(** Nothing shown of a channel changes. *)
Definition calm a a' : Prop := session a' = session a ∧ ∃ es, Forall plain_event es ∧ told a es a'.

Lemma calm_quiet a a' : session a' = session a → events a' = events a → dropped_events a' = dropped_events a → calm a a'.
Proof. intros H1 H2 H3. split; [done|]. exists []. split; [constructor|by apply told_nil]. Qed.
Lemma calm_trans a1 a2 a3 : calm a1 a2 → calm a2 a3 → calm a1 a3.
Proof.
  intros (H1 & es & H2 & H3) (G1 & es' & G2 & G3). split; [congruence|]. exists (es ++ es').
  split; [by apply Forall_app|by eapply told_trans].
Qed.
Lemma calm_emit e a : plain_event e → calm a (emit e a).
Proof. intros H. split; [apply session_emit|]. exists [e]. split; [by apply Forall_singleton|apply told_emit]. Qed.
Lemma calm_say l a : calm a (say l a).
Proof. by apply calm_quiet. Qed.
Lemma calm_foldl {A} (g : Actor → A → Actor) l a : (∀ a x, calm a (g a x)) → calm a (foldl g a l).
Proof.
  intros Hg. revert a. induction l as [|x l IH]; intros a; cbn; [by apply calm_quiet|].
  eapply calm_trans; [apply Hg|apply IH].
Qed.
Lemma calm_emit_all es a : Forall plain_event es → calm a (emit_all es a).
Proof. intros H. destruct (emit_all_told es a) as [H1 H2]. split; [done|]. by exists es. Qed.

(** A message opens a window at most. *)
Lemma plain_message x : plain_event (Api.Message x).
Proof. intros name l. cbn. destruct (opens x) as [c|]; [|done]. unfold opened. by destruct (same c name). Qed.

Lemma calm_with_transfers f a : calm a (with_transfers f a).
Proof.
  unfold with_transfers. eapply calm_trans; cycle 1.
  - apply calm_emit_all, Forall_map, Forall_true. by intros [].
  - by apply calm_quiet.
Qed.

Lemma calm_with_listing f a : calm a (with_listing f a).
Proof.
  unfold with_listing. destruct (f _) as [l reports]. eapply calm_trans; [by apply (calm_quiet a (set_listing l a))|].
  apply calm_emit_all, Forall_map, Forall_true. done.
Qed.

Lemma calm_on_chat target text source is_notice l a :
  calm a (on_chat v4 parse_ip is_alphanumeric target text source is_notice l a).
Proof.
  unfold on_chat. destruct source as [sender|]; [|by apply calm_quiet].
  assert (∀ x, calm a (emit (Api.Message x) a)) as Hmsg by (intros x; by apply calm_emit, plain_message).
  destruct (strip_prefix _ _) as [rest|]; [apply Hmsg|]. destruct (starts_with _ _); [apply calm_with_transfers|].
  destruct (split_reply _ _ _) as [r b]. apply Hmsg.
Qed.

Lemma calm_on_registered auth a : calm a (on_registered auth a).
Proof.
  unfold on_registered, status. eapply calm_trans; [|by apply calm_emit].
  eapply calm_trans; [|by apply calm_emit]. eapply calm_trans; [|by apply calm_quiet].
  eapply calm_trans; [|apply calm_foldl; intros; apply calm_say].
  destruct auth; try by apply calm_quiet. destruct (nickserv_password _); by apply calm_quiet.
Qed.

Lemma calm_on_whois_reply response args a : calm a (on_whois_reply response args a).
Proof.
  unfold on_whois_reply. destruct (whois a) as [w|] eqn:E; [|by apply calm_quiet].
  assert (∀ a', calm a' (finish_whois a')) as Hfin.
  { intros a'. unfold finish_whois. destruct (whois a'); [|by apply calm_quiet].
    eapply calm_trans; [|by apply calm_emit]. by apply calm_quiet. }
  eapply calm_trans; [by apply (calm_quiet a (set_whois (Some (whois_update response args w)) a))|].
  destruct response; try apply Hfin; by apply calm_quiet.
Qed.

(** ** Lines the server may send *)

(** What a server that follows the protocol says: it spells names one way and
    keeps them within the limits, tells who is in a channel only of one joined,
    renames nobody onto another member, keeps to one case mapping, and does not
    change its prefixes once a channel is joined. *)
Definition polite_reply s (response : Response) (args : list str) : Prop :=
  match response with
  | RPL_NAMREPLY =>
      ∀ chan names, args !! 2 = Some chan → args !! 3 = Some names →
        is_Some (Session.channel s chan) ∧ Forall (entry_ok (pre s)) (split_whitespace names)
  | RPL_ENDOFNAMES => ∀ chan, args !! 1 = Some chan → spelled chan
  | RPL_ISUPPORT => mapping (Session.on_isupport args s) = m ∧ (pre (Session.on_isupport args s) = pre s ∨ s_channels s = ∅)
  | _ => True
  end.

Definition polite s (l : Line) : Prop :=
  (∀ n, source_nickname (message l) = Some n → nick_ok n) ∧
  match command (message l) with
  | JOIN chan _ _ => chan_ok chan
  | PART chan _ | ChannelMODE chan _ => spelled chan
  | KICK chan victim _ => spelled chan ∧ nick_ok victim
  | NICK new => nick_ok new ∧ ∀ old, source_nickname (message l) = Some old → nick_free old new s
  | Reply response args => polite_reply s response args
  | _ => True
  end.

(** A step that tells of what it did to the session. *)
Definition tells a a' : Prop := ∃ es, told a es a' ∧ mirror_step (session a) (session a') es.

Lemma calm_tells a a' : calm a a' → tells a a'.
Proof.
  intros (Hs & es & He & Ht). exists es. split; [done|]. rewrite Hs. apply mirror_unaffected; [done|apply unaffected_refl].
Qed.

(** The session first, then what is said of it. *)
Lemma tells_session s a a' es :
  told (set_session s a) es a' → session a' = s → mirror_step (session a) s es → tells a a'.
Proof. intros Ht Hs Hm. exists es. rewrite Hs. by split. Qed.

Lemma tells_unaffected s a a' :
  unaffected (session a) s → calm (set_session s a) a' → tells a a'.
Proof.
  intros Hu (Hs & es & He & Ht). eapply tells_session; [done|done|]. by apply mirror_unaffected.
Qed.

Lemma leave_tells chan nick reason a :
  mapping (session a) = m → spelled chan → nick_ok nick → tells a (leave to_lowercase chan nick reason a).
Proof.
  intros Hm Hc Hn. pose proof (mirror_leave chan nick reason (session a) Hm Hc Hn) as Hmir.
  unfold leave, filed_as. set (self := is_self (session a) nick) in *. set (filed := default nick _) in *.
  destruct (Session.on_part chan nick (session a)) as [left_ s].
  refine (tells_session s a _ _ _ _ Hmir); unfold leave_events; destruct left_; [|by apply told_nil| |done].
  - destruct self; [apply told_emit|]. eapply (told_trans _ _ _ [_]); [apply told_emit|].
    destruct (member_changed_told chan filed filed (emit (Parted chan nick false reason) (set_session s a))) as [H _].
    by rewrite session_emit in H.
  - destruct self; [apply session_emit|].
    destruct (member_changed_told chan filed filed (emit (Parted chan nick false reason) (set_session s a))) as [_ H].
    by rewrite H, session_emit.
Qed.

Lemma join_tells chan source a :
  mapping (session a) = m → chan_ok chan → (∀ n, source = Some n → nick_ok n) → tells a (on_join to_lowercase chan source a).
Proof.
  intros Hm Hc Hn. unfold on_join. destruct source as [nick|]; [|by apply calm_tells, calm_quiet].
  pose proof (mirror_join chan nick (session a) Hm Hc (Hn _ eq_refl)) as Hmir.
  destruct (Session.on_join chan nick (session a)) as [joined s]. cbv zeta. cbn [session set_session].
  refine (tells_session s a _ _ _ _ Hmir); unfold join_events; destruct joined; [|by apply told_nil| |done].
  - eapply (told_trans _ _ _ [_]); [apply told_emit|]. destruct (is_self s nick) eqn:E.
    + destruct (member_list_told chan (emit (Joined chan nick true) (set_session s a))) as [H _].
      by rewrite session_emit in H.
    + destruct (member_changed_told chan nick nick (emit (Joined chan nick false) (set_session s a))) as [H _].
      by rewrite session_emit in H.
  - destruct (is_self s nick).
    + destruct (member_list_told chan (emit (Joined chan nick true) (set_session s a))) as [_ H]. by rewrite H, session_emit.
    + destruct (member_changed_told chan nick nick (emit (Joined chan nick false) (set_session s a))) as [_ H].
      by rewrite H, session_emit.
Qed.

(** An event about a channel, then the member changed there. *)
Lemma emit_then_changed (e : str → Event) previous nick a chan :
  let a' := emit_member_changed to_lowercase chan previous nick (emit (e chan) a) in
  told a (e chan :: changed_events (session a) chan previous nick) a' ∧ session a' = session a.
Proof.
  destruct (member_changed_told chan previous nick (emit (e chan) a)) as [H1 H2]. rewrite session_emit in H1, H2.
  split; [|done]. eapply (told_trans _ _ _ [_]); [apply told_emit|done].
Qed.

Lemma quit_tells reason source a :
  mapping (session a) = m → (∀ n, source = Some n → nick_ok n) → tells a (on_quit to_lowercase reason source a).
Proof.
  intros Hm Hn. unfold on_quit. destruct source as [nick|]; [|by apply calm_tells, calm_quiet].
  pose proof (mirror_quit nick (strip <$> reason) (session a) Hm (Hn _ eq_refl)) as Hmir.
  unfold filed_as. set (filed := default nick _) in *. destruct (Session.on_quit nick (session a)) as [names s].
  destruct (foldl_told (λ a chan, emit_member_changed to_lowercase chan filed filed
      (emit (Quit_ chan nick (strip <$> reason)) a)) (λ s chan, quit_events nick filed (strip <$> reason) s chan)
      names (set_session s a)) as [H1 H2].
  { intros a1 chan. apply (emit_then_changed (λ chan, Quit_ chan nick (strip <$> reason))). }
  by eapply tells_session.
Qed.

Lemma nick_tells new source a :
  mapping (session a) = m → nick_ok new → (∀ n, source = Some n → nick_ok n ∧ nick_free n new (session a)) →
  tells a (on_nick to_lowercase new source a).
Proof.
  intros Hm Hnew Hn. unfold on_nick. destruct source as [old|]; [|by apply calm_tells, calm_quiet].
  destruct (Hn _ eq_refl) as [Hold Hfree].
  pose proof (mirror_nick old new (is_self (session a) old) (session a) Hm Hold Hnew Hfree) as Hmir.
  unfold filed_as. set (self := is_self _ old) in *. set (filed := default old _) in *.
  destruct (on_nick_change old new (session a)) as [names s].
  destruct (foldl_told (λ a chan, emit_member_changed to_lowercase chan filed new
      (emit (NickChanged chan old new self) a)) (λ s chan, nick_events old new filed self s chan)
      names (set_session s a)) as [H1 H2].
  { intros a1 chan. apply (emit_then_changed (λ chan, NickChanged chan old new self)). }
  by eapply tells_session.
Qed.

Lemma away_tells text source a :
  mapping (session a) = m → (∀ n, source = Some n → nick_ok n) → tells a (on_away to_lowercase text source a).
Proof.
  intros Hm Hn. unfold on_away. destruct source as [nick|]; [|by apply calm_tells, calm_quiet].
  pose proof (mirror_away nick (is_some text) (session a) Hm (Hn _ eq_refl)) as Hmir.
  unfold filed_as. set (filed := default nick _) in *. destruct (set_away nick _ (session a)) as [names s].
  destruct (foldl_told (λ a chan, emit_member_changed to_lowercase chan filed filed a)
      (λ s chan, changed_events s chan filed filed) names (set_session s a)) as [H1 H2].
  { intros a1 chan. apply member_changed_told. }
  by eapply tells_session.
Qed.

Lemma mode_tells chan modes source a :
  mapping (session a) = m → spelled chan → tells a (on_mode to_lowercase chan modes source a).
Proof.
  intros Hm Hc. unfold on_mode. destruct (mode_text None modes) as [text params].
  pose proof (mirror_mode chan text params source (session a) Hm Hc) as Hmir.
  destruct (Session.on_mode chan text params (session a)) as [affected s]. unfold mode_events in Hmir.
  destruct (is_empty affected); [eapply tells_session; [by apply told_nil|done|done]|].
  destruct (foldl_told (λ a nick, emit_member_changed to_lowercase chan nick nick a)
      (λ s nick, changed_events s chan nick nick) affected (emit (ModeChanged chan source affected) (set_session s a)))
      as [H1 H2].
  { intros a1 nick. apply member_changed_told. }
  rewrite session_emit in H1, H2. eapply tells_session; [|done|exact Hmir].
  eapply (told_trans _ _ _ [_]); [apply told_emit|done].
Qed.

Lemma topic_tells chan topic set_by a : tells a (on_topic chan topic set_by a).
Proof.
  unfold on_topic. eapply tells_unaffected; [|by apply calm_emit]. split_and!; [done|by left|]. intros k c' Hk. cbn in Hk.
  apply lookup_alter_Some in Hk as [(<- & c & Hc & ->)|[_ Hk]]; [|exists c'; eauto]. exists c. eauto.
Qed.

Lemma response_tells response args auth a :
  mapping (session a) = m → polite_reply (session a) response args →
  tells a (on_response to_lowercase numeric debug response args auth a).
Proof.
  intros Hm Hp.
  assert (tells a (if is_whois_numeric response && is_whois_about args a then on_whois_reply response args a
      else if is_error_numeric numeric response
      then emit (ErrorEvent (strip (default (debug response) (last args))) false) a else a)) as Hother.
  { apply calm_tells. destruct (_ && _); [apply calm_on_whois_reply|].
    destruct (is_error_numeric _ _); [by apply calm_emit|by apply calm_quiet]. }
  destruct response; cbn [on_response]; try exact Hother; try (by apply calm_tells, calm_with_listing).
  - eapply (tells_unaffected (session (match args !! 0 with
      | Some nick => set_session (Session.set_nick nick (session a)) (set_registered true 0 a)
      | None => set_registered true 0 a end))).
    + destruct (args !! 0); split_and!; try done; try (by left); intros k c' H; exists c'; eauto.
    + eapply calm_trans; [|apply calm_on_registered]. by destruct (args !! 0); apply calm_quiet.
  - destruct Hp as [H1 H2]. unfold on_isupport. eapply tells_unaffected; [by apply mirror_isupport|].
    case_bool_decide; [by apply calm_quiet|]. destruct (network _); [by apply calm_emit|by apply calm_quiet].
  - destruct (args !! 1); [|by apply calm_tells, calm_quiet]. destruct (args !! 2); [|by apply calm_tells, calm_quiet].
    apply topic_tells.
  - destruct (args !! 2) as [chan|] eqn:E2; [|by apply calm_tells, calm_quiet].
    destruct (args !! 3) as [names|] eqn:E3; [|by apply calm_tells, calm_quiet].
    destruct (Hp chan names E2 E3) as [G1 G2]. eapply tells_session; [by apply told_nil|done|].
    by apply mirror_names.
  - destruct (args !! 1) as [chan|] eqn:E1; [|by apply calm_tells, calm_quiet].
    destruct (member_list_told chan (set_session (on_end_of_names chan (session a)) a)) as [H1 H2].
    eapply tells_session; [exact H1|exact H2|]. apply mirror_end; [done|by apply Hp].
Qed.

(** Every line a polite server sends is told of. *)
Lemma handle_tells l auth a :
  mapping (session a) = m → polite (session a) l →
  tells a (handle v4 parse_ip to_lowercase is_alphanumeric source_nickname numeric debug l auth a).
Proof.
  intros Hm [Hn Hp]. unfold handle.
  assert (tells a a) as Hid by by apply calm_tells, calm_quiet.
  destruct (command (message l)) eqn:Ec; try exact Hid.
  - by apply nick_tells; [done|apply Hp|]; intros n E; split; [apply Hn|apply Hp].
  - by apply quit_tells.
  - by apply join_tells.
  - unfold on_part. destruct (source_nickname (message l)) as [nick|]; [|exact Hid].
    apply leave_tells; [done|done|by apply Hn].
  - apply calm_tells, calm_on_chat.
  - apply calm_tells, calm_on_chat.
  - destruct topic; [apply topic_tells|exact Hid].
  - destruct Hp. by apply leave_tells.
  - by apply away_tells.
  - by apply mode_tells.
  - by apply response_tells.
  - destruct (_ && _); [|exact Hid]. apply calm_tells. unfold on_whois_raw. destruct (whois a); by apply calm_quiet.
Qed.

(** ** Commands *)

Lemma calm_echo target text is_action reply_msgid a : calm a (echo is_alphanumeric target text is_action reply_msgid a).
Proof. unfold echo. destruct (if is_action then _ else _). apply calm_emit, plain_message. Qed.

Lemma calm_queue_reply target text reply a : calm a (queue_reply is_alphanumeric target text reply a).
Proof.
  unfold queue_reply. destruct (Reply.msgid reply) as [id|]; [destruct (client_tags a)|]; cbv zeta; generalize true;
    generalize a; induction (sanitize_outgoing _) as [|l ls IH]; intros a1 first; try (by apply calm_quiet);
    cbn [foldl]; (eapply calm_trans; [|apply IH]); (eapply calm_trans; [apply calm_echo|apply calm_say]).
Qed.

Lemma calm_queue c a : calm a (queue is_alphanumeric c a).
Proof.
  destruct c; cbn [queue]; try (by apply calm_quiet); try (by apply calm_emit).
  - unfold queue_kick. destruct (_ && _); by apply calm_quiet.
  - apply calm_foldl. intros a1 l. eapply calm_trans; [apply calm_echo|apply calm_say].
  - apply calm_foldl. intros a1 l. eapply calm_trans; [apply calm_echo|apply calm_say].
  - apply calm_queue_reply.
  - destruct (listing a); by apply calm_quiet.
  - unfold queue_whois. destruct (is_word _); by apply calm_quiet.
Qed.

Lemma calm_on_command w c a : calm a (on_command is_alphanumeric w c a).
Proof. destruct c; cbn [on_command]; first [apply calm_with_transfers|apply calm_queue]. Qed.

(** * Connection and client together *)

(** One turn of either: a line is handled, a command is carried out, with what
    was dropped reported after each; or the client takes an event from the
    queue. The queue never filled up, so no event was lost. *)
Inductive turn : Actor * App Input → Actor * App Input → Prop :=
  | turn_line l auth flooded a app :
      let a' := handle v4 parse_ip to_lowercase is_alphanumeric source_nickname numeric debug l auth a in
      polite (session a) l → dropped_events a' = 0%N → turn (a, app) (report_drops flooded a', app)
  | turn_command w c flooded a app :
      let a' := on_command is_alphanumeric w c a in
      dropped_events a' = 0%N → turn (a, app) (report_drops flooded a', app)
  | turn_shown e es a app app' :
      events a = e :: es → apply_event e app = Some app' → turn (a, app) (set_events es (dropped_events a) a, app').

(** Once the client has caught up it shows what the session holds. *)
Definition in_step (st : Actor * App Input) : Prop :=
  dropped_events st.1 = 0%N ∧ mapping (session st.1) = m ∧ app_ok st.2 ∧
  ∃ app', replay (events st.1) st.2 = Some app' ∧ mirrors (session st.1) app'.

Lemma report_drops_calm flooded a : dropped_events a = 0%N → calm a (report_drops flooded a) ∧ dropped_events (report_drops flooded a) = 0%N.
Proof.
  intros H. unfold report_drops, try_send. destruct (0 <? _)%N; [|split; [by apply calm_quiet|done]].
  destruct (Nat.ltb _ _); cbn [default]; [|split; [by apply calm_quiet|done]]. split; [|done]. split; [done|].
  exists [MessagesDropped None (flooded + dropped_events a)]. split; [by apply Forall_singleton|].
  intros _. split; [done|done].
Qed.

Lemma tells_in_step a a' flooded app :
  tells a a' → dropped_events a' = 0%N → in_step (a, app) → in_step (report_drops flooded a', app).
Proof.
  intros (es & Ht & Hstep) Hd (_ & _ & Hok & app1 & Hr & Hmir). cbn [fst snd] in *.
  destruct (Ht Hd) as [_ Hev]. destruct (report_drops_calm flooded a' Hd) as [(Hs & es' & He & Ht') Hd'].
  destruct (Ht' Hd') as [_ Hev'].
  destruct (replay_ok (events a) app Hok) as (app1' & Hr' & Hok1). rewrite Hr in Hr'. injection Hr' as <-.
  destruct (replay_ok es app1 Hok1) as (app2 & Hr2 & Hok2). destruct (replay_ok es' app2 Hok2) as (app3 & Hr3 & _).
  pose proof (Hstep _ _ Hmir Hr2) as Hmir2.
  split_and!; cbn [fst snd]; [done|rewrite Hs; apply Hmir2|done|]. exists app3. split.
  - rewrite Hev', Hev, !replay_app, Hr. cbn. rewrite Hr2. cbn. exact Hr3.
  - rewrite Hs. eapply mirror_unaffected; [done|apply unaffected_refl|exact Hmir2|exact Hr3].
Qed.

Lemma turn_in_step st st' : turn st st' → in_step st → in_step st'.
Proof.
  intros Ht Hi. destruct Ht as [l auth flooded a app a' Hp Hd|w c flooded a app a' Hd|e es a app app' He Happ].
  - eapply tells_in_step; [|done|done]. apply handle_tells; [|done]. by destruct Hi as (_ & ? & _).
  - eapply tells_in_step; [apply calm_tells, calm_on_command|done|done].
  - destruct Hi as (Hd & Hm & Hok & app1 & Hr & Hmir). cbn [fst snd] in *. rewrite He in Hr. cbn [replay] in Hr.
    rewrite Happ in Hr. destruct (apply_event_safe e app Hok) as (app2 & E & Hok2). rewrite Happ in E. injection E as <-.
    split_and!; [done|done|done|]. by exists app1.
Qed.

(** C3: the members the full-screen client shows are the session's, for a server
    that follows the protocol as [polite] has it: it keeps to one case mapping,
    does not change its prefixes while a channel is joined, keeps names within
    the limits, sends NAMES only of channels joined, renames nobody onto another
    member, and spells no two names in use so that they differ in more than
    ASCII case while its mapping holds them equal ([one_spelling]).  From any
    connection that has joined nothing and reported nothing, after any
    interleaving of such lines, of commands and of the client taking events
    from the queue, with none lost for want of room: once the events still
    queued are taken too, the window of every channel joined lists exactly its
    members, each as the session has them (nick, prefix, away), in the
    session's order, unless the server is in the middle of sending the names. *)
Theorem client_shows_session (a0 a : Actor) (app0 app : App Input) :
  s_channels (session a0) = ∅ → mapping (session a0) = m → events a0 = [] → dropped_events a0 = 0%N → app_ok app0 →
  rtc turn (a0, app0) (a, app) →
  ∃ app', replay (events a) app = Some app' ∧
  ∀ k c, s_channels (session a) !! k = Some c → c_names_in_progress c = false →
  ∃ l, held (c_name c) app' = Some l ∧
       l ≡ₚ map (λ kx, view_of (pre (session a)) kx.2) (map_to_list (c_members c)) ∧ StronglySorted member_le l.
Proof.
  intros Hc Hm He Hd Hok Hr.
  assert (in_step (a, app)) as (_ & _ & _ & app' & Hrep & _ & Hmir).
  { remember (a, app) as st eqn:Est. clear Est.
    assert (in_step (a0, app0)) as H0.
    { split_and!; [done..|]. cbn [fst snd]. rewrite He. exists app0. split; [done|].
      split; [split; [done|]|]; rewrite Hc; [apply map_Forall_empty|]. intros k c H. by rewrite lookup_empty in H. }
    induction Hr as [|st1 st2 st3 H12 H23 IH]; [done|]. apply IH. by eapply turn_in_step. }
  exists app'. split; [done|]. intros k c Hk Hp. destruct (Hmir k c Hk) as (l & Hl & Hros). exists l. split; [done|]. by apply Hros.
Qed.
End Mirror.

(** * A connection and a client, run by hand: someone joins a channel, reads who
    is there, and sees one of them become an operator and go away. *)

Definition w_config : ServerConfig :=
  mkConfig (lit "irc.example.org") 6697 (lit "me") [] None None [lit "#a"] None None None None None None.

Definition w_lower (c : char) : str := [char_lower c].
Definition w_alnum (c : char) : bool := is_ascii_digit c || is_ascii_uppercase (char_upper c).
Definition w_source (m : Message) : option str :=
  match prefix m with Some (Nickname n _ _) => Some n | _ => None end.
Definition w_numeric (_ : Response) : N := 0.
Definition w_debug (_ : Response) : str := [].

Definition w_handle (l : Line) (a : @Actor N) : Actor :=
  handle (λ n, n) (λ _, None) w_lower w_alnum w_source w_numeric w_debug l Anonymous a.

Definition from (nick : str) (c : Command) : Line := mkLine None (Proto.mkMessage (Some (Nickname nick [] [])) c).
Definition told_by_server (c : Command) : Line := mkLine None (Proto.mkMessage (Some (ServerName (lit "irc.example.org"))) c).

Definition w_join : Line := from (lit "me") (JOIN (lit "#a") None None).
Definition w_names : Line := told_by_server (Reply RPL_NAMREPLY [lit "me"; lit "="; lit "#a"; lit "me +bob"]).
Definition w_end : Line := told_by_server (Reply RPL_ENDOFNAMES [lit "me"; lit "#a"; lit "End of /NAMES list"]).
Definition w_mode : Line := from (lit "me") (ChannelMODE (lit "#A") [Plus (lit "o") (Some (lit "BOB"))]).
Definition w_away : Line := from (lit "bob") (AWAY (Some (lit "lunch"))).

Definition w_a0 : @Actor N := new_actor w_config.
Definition w_a1 : Actor := report_drops 0 (w_handle w_join w_a0).
Definition w_app0 : App unit := new_app tt (lit "me") (lit "irc.example.org").
Definition w_app1 : App unit := default w_app0 (apply_event (Joined (lit "#a") (lit "me") true : IrcEvent N) w_app0).
Definition w_a2 : Actor := set_events (tail (events w_a1)) (dropped_events w_a1) w_a1.
Definition w_a3 : Actor := report_drops 0 (w_handle w_names w_a2).
Definition w_a4 : Actor := report_drops 0 (w_handle w_end w_a3).
Definition w_a5 : Actor := report_drops 0 (w_handle w_mode w_a4).
Definition w_a6 : Actor := report_drops 0 (w_handle w_away w_a5).

Definition w_spelled (n : str) : Prop := n ∈ [lit "#a"; lit "#A"; lit "me"; lit "bob"].

(** What the client comes to show: the operator first, away. *)
Example w_shown :
  (λ app, map (λ v, (v_nick v, v_prefix v, v_away v)) <$> held (lit "#a") app) <$> replay (events w_a6) w_app1
  = Some (Some [(lit "bob", Some (lit "@"), true); (lit "me", None, false)]).
Proof. vm_compute. reflexivity. Qed.

Lemma w_one_spelling a b :
  w_spelled a → w_spelled b → normalize Rfc1459 a = normalize Rfc1459 b → same a b = true.
Proof.
  unfold w_spelled. rewrite !elem_of_cons. intros Ha Hb.
  destruct_or?; try (by apply not_elem_of_nil in Ha); try (by apply not_elem_of_nil in Hb); subst;
    vm_compute; intros H; first [reflexivity|discriminate H].
Qed.

Lemma w_nick_ok n : w_spelled n → Nat.leb (length n) MAX_NICK = true → nick_ok w_spelled n.
Proof. intros H1 H2. split; [done|]. by apply Nat.leb_le. Qed.

Lemma w_in n : bool_decide (n ∈ [lit "#a"; lit "#A"; lit "me"; lit "bob"]) = true → w_spelled n.
Proof. apply bool_decide_eq_true_1. Qed.

Ltac w_named := apply w_in; vm_compute; reflexivity.
Ltac w_source_ok := intros ? [= <-]; apply w_nick_ok; [w_named|vm_compute; reflexivity].

Lemma w_polite_join : polite w_source Rfc1459 w_spelled (session w_a0) w_join.
Proof. split; [w_source_ok|]. split; [w_named|]. apply Nat.leb_le. vm_compute. reflexivity. Qed.

Lemma w_polite_names : polite w_source Rfc1459 w_spelled (session w_a2) w_names.
Proof.
  split; [done|]. intros chan names [= <-] [= <-]. split; [vm_compute; by eexists|].
  replace (split_whitespace (lit "me +bob")) with [lit "me"; lit "+bob"] by (vm_compute; reflexivity).
  repeat constructor; right; (split; [w_named|apply Nat.leb_le; vm_compute; reflexivity]).
Qed.

Lemma w_polite_end : polite w_source Rfc1459 w_spelled (session w_a3) w_end.
Proof. split; [done|]. intros chan [= <-]. w_named. Qed.

Lemma w_polite_mode : polite w_source Rfc1459 w_spelled (session w_a4) w_mode.
Proof. split; [w_source_ok|]. w_named. Qed.

Lemma w_polite_away : polite w_source Rfc1459 w_spelled (session w_a5) w_away.
Proof. split; [w_source_ok|done]. Qed.

Abbreviation w_turn := (@turn N unit (λ n, n) (λ _, None) w_lower w_alnum w_source w_numeric w_debug Rfc1459 w_spelled).

Lemma w_line l a app :
  polite w_source Rfc1459 w_spelled (session a) l → dropped_events (w_handle l a) = 0%N →
  w_turn (a, app) (report_drops 0 (w_handle l a), app).
Proof. intros. by apply turn_line. Qed.

Lemma w_zero1 : dropped_events (w_handle w_join w_a0) = 0%N.
Proof. vm_compute. reflexivity. Qed.
Lemma w_zero3 : dropped_events (w_handle w_names w_a2) = 0%N.
Proof. vm_compute. reflexivity. Qed.
Lemma w_zero4 : dropped_events (w_handle w_end w_a3) = 0%N.
Proof. vm_compute. reflexivity. Qed.
Lemma w_zero5 : dropped_events (w_handle w_mode w_a4) = 0%N.
Proof. vm_compute. reflexivity. Qed.
Lemma w_zero6 : dropped_events (w_handle w_away w_a5) = 0%N.
Proof. vm_compute. reflexivity. Qed.
Lemma w_first : events w_a1 = Joined (lit "#a") (lit "me") true :: tail (events w_a1).
Proof. vm_compute. reflexivity. Qed.
Lemma w_applied : apply_event (Joined (lit "#a") (lit "me") true : IrcEvent N) w_app0 = Some w_app1.
Proof. vm_compute. reflexivity. Qed.

Lemma w_run : rtc w_turn (w_a0, w_app0) (w_a6, w_app1).
Proof.
  apply (rtc_l _ _ (w_a1, w_app0)); [exact (w_line w_join w_a0 w_app0 w_polite_join w_zero1)|].
  apply (rtc_l _ _ (w_a2, w_app1)); [exact (turn_shown _ _ _ _ _ _ _ _ _ _ _ w_a1 w_app0 w_app1 w_first w_applied)|].
  apply (rtc_l _ _ (w_a3, w_app1)); [exact (w_line w_names w_a2 w_app1 w_polite_names w_zero3)|].
  apply (rtc_l _ _ (w_a4, w_app1)); [exact (w_line w_end w_a3 w_app1 w_polite_end w_zero4)|].
  apply (rtc_l _ _ (w_a5, w_app1)); [exact (w_line w_mode w_a4 w_app1 w_polite_mode w_zero5)|].
  apply (rtc_l _ _ (w_a6, w_app1)); [exact (w_line w_away w_a5 w_app1 w_polite_away w_zero6)|].
  apply rtc_refl.
Qed.

Lemma client_shows_session_witness :
  ∃ app', replay (events w_a6) w_app1 = Some app' ∧
  ∃ k c, s_channels (session w_a6) !! k = Some c ∧ base.size (c_members c) = 2 ∧
  ∃ l, held (c_name c) app' = Some l ∧
       l ≡ₚ map (λ kx, view_of w_lower (prefixes (s_isupport (session w_a6))) kx.2) (map_to_list (c_members c)).
Proof.
  destruct (client_shows_session (λ n, n) (λ _, None) w_lower w_alnum w_source w_numeric w_debug Rfc1459 w_spelled
    w_one_spelling w_a0 w_a6 w_app0 w_app1) as (app' & H1 & H2).
  - vm_compute. reflexivity.
  - vm_compute. reflexivity.
  - vm_compute. reflexivity.
  - vm_compute. reflexivity.
  - apply new_app_ok.
  - apply w_run.
  - exists app'. split; [done|]. exists (lit "#a"). eexists. split; [vm_compute; reflexivity|]. split; [vm_compute; reflexivity|].
    destruct (H2 (lit "#a") _ ltac:(vm_compute; reflexivity) ltac:(vm_compute; reflexivity)) as (l & H3 & H4 & _).
    exists l. split; [exact H3|exact H4].
Defined.
