(* ===== verification/XmppSession.v ===== *)
(** One account's conversation with its server ([Session] of
    [ddirc-core/src/xmpp/session.rs] and [session/features.rs]).

    The source is a state machine without a clock or a socket: stanzas and
    commands in, effects out. So is this: every operation takes the session with
    the effects gathered so far. Where the source goes through a hash map, whose
    order is unspecified, the model takes one fixed order. Parsing addresses and
    XML, preparing a resource and the Unicode tables belong to other crates. *)
From S2P Require Import Prelude RustStr Format Reply Session Room Contacts Edits Outgoing Dates Transfer ServerConfig Upload Xmpp Api.

Definition CATCH_UP_PAGE : nat := 100.
Definition CATCH_UP_TOTAL : nat := 500.
Definition CATCH_UP_PAGES : nat := CATCH_UP_TOTAL / CATCH_UP_PAGE + 1.
Definition MAX_ARCHIVE_ID : nat := 200.
Definition MAX_NICK_ATTEMPTS : N := 3.
Definition MAX_UPLOADS : nat := 4.
Definition MAX_DISCO_ITEMS : nat := 16.
Definition STATUS_CHARS : nat := 200.
Definition NS_MUC_ADMIN : str := lit "http://jabber.org/protocol/muc#admin".
Definition NS_RETRACT : str := lit "urn:xmpp:message-retract:1".
Definition NS_FALLBACK : str := lit "urn:xmpp:fallback:0".
Definition NS_HINTS : str := lit "urn:xmpp:hints".

Inductive Pending :=
  | PRoster | PCarbons | PDiscoItems
  | PDiscoInfo (jid : str)
  | PSlot (ticket : N)
  | PRosterSet (jid : str)
  | PKick (room : str)
  | PCatchUp (room : option str) (fetched pages : nat) (after : str) (fetched_at_start : nat).

Record Ticket := mkTicket { t_target : str; t_filename : str; t_get : option str }.
Record UploadJob := mkJob { j_ticket : N; j_slot : Slot; j_content_type : str }.

Section Session.
Context {IpAddr : Type}.
Context (parse_jid : str → option Jid) (prepare_resource : str → option str) (xml_parses : str → bool).
Context (parse_url : str → option Url) (is_ip : str → bool).
Context (to_lowercase : char → str) (is_alphanumeric : char → bool).
Abbreviation Event := (IrcEvent IpAddr).

(** * State *)

Record XSession := mkXSession {
  account : Jid;
  default_nick : str;
  rooms : gmap str Room;
  pending : gmap str Pending;
  id_prefix : str;
  counter : N;
  contacts : Contacts;
  index : MessageIndex;
  upload : option UploadService;
  tickets : gmap N Ticket;
  next_ticket : N;
  own : option (Availability * str);
  chat_cursor : option str;
}.
Record Effects := mkFx { fx_events : list Event; fx_send : list OutStanza; fx_uploads : list UploadJob }.
Record St := mkSt { ses : XSession; fx : Effects }.

Definition with_ses (f : XSession → XSession) (x : St) : St := mkSt (f (ses x)) (fx x).
Definition set_default_nick n s := mkXSession (account s) n (rooms s) (pending s) (id_prefix s) (counter s) (contacts s) (index s) (upload s) (tickets s) (next_ticket s) (own s) (chat_cursor s).
Definition set_rooms r s := mkXSession (account s) (default_nick s) r (pending s) (id_prefix s) (counter s) (contacts s) (index s) (upload s) (tickets s) (next_ticket s) (own s) (chat_cursor s).
Definition set_pending p s := mkXSession (account s) (default_nick s) (rooms s) p (id_prefix s) (counter s) (contacts s) (index s) (upload s) (tickets s) (next_ticket s) (own s) (chat_cursor s).
Definition set_counter n s := mkXSession (account s) (default_nick s) (rooms s) (pending s) (id_prefix s) n (contacts s) (index s) (upload s) (tickets s) (next_ticket s) (own s) (chat_cursor s).
Definition set_contacts c s := mkXSession (account s) (default_nick s) (rooms s) (pending s) (id_prefix s) (counter s) c (index s) (upload s) (tickets s) (next_ticket s) (own s) (chat_cursor s).
Definition set_index i s := mkXSession (account s) (default_nick s) (rooms s) (pending s) (id_prefix s) (counter s) (contacts s) i (upload s) (tickets s) (next_ticket s) (own s) (chat_cursor s).
Definition set_upload u s := mkXSession (account s) (default_nick s) (rooms s) (pending s) (id_prefix s) (counter s) (contacts s) (index s) u (tickets s) (next_ticket s) (own s) (chat_cursor s).
Definition set_tickets t n s := mkXSession (account s) (default_nick s) (rooms s) (pending s) (id_prefix s) (counter s) (contacts s) (index s) (upload s) t n (own s) (chat_cursor s).
Definition set_own o s := mkXSession (account s) (default_nick s) (rooms s) (pending s) (id_prefix s) (counter s) (contacts s) (index s) (upload s) (tickets s) (next_ticket s) o (chat_cursor s).
Definition set_cursor c s := mkXSession (account s) (default_nick s) (rooms s) (pending s) (id_prefix s) (counter s) (contacts s) (index s) (upload s) (tickets s) (next_ticket s) (own s) c.

(** [Effects::event], [send] and [error]. *)
Definition no_effects : Effects := mkFx [] [] [].
Definition event (e : Event) (x : St) : St := mkSt (ses x) (mkFx (fx_events (fx x) ++ [e]) (fx_send (fx x)) (fx_uploads (fx x))).
Definition send (o : OutStanza) (x : St) : St := mkSt (ses x) (mkFx (fx_events (fx x)) (fx_send (fx x) ++ [o]) (fx_uploads (fx x))).
Definition error (m : str) (x : St) : St := event (ErrorEvent m false) x.
Definition push_upload (j : UploadJob) (x : St) : St := mkSt (ses x) (mkFx (fx_events (fx x)) (fx_send (fx x)) (fx_uploads (fx x) ++ [j])).
Definition events (es : list Event) (x : St) : St := foldl (λ x e, event e x) x es.

Definition lift_contact (e : ContactEvent) : Event :=
  match e with ContactChanged v => Contact_ v | ContactRemoved j => ContactRemoved_ j end.

(** A room is changed in place. *)
Definition on_room (j : str) (f : Room → Room) (x : St) : St :=
  with_ses (λ s, set_rooms (alter f j (rooms s)) s) x.
Definition drop_room (j : str) (x : St) : St := with_ses (λ s, set_rooms (delete j (rooms s)) s) x.
Definition on_index (f : MessageIndex → MessageIndex) (x : St) : St := with_ses (λ s, set_index (f (index s)) s) x.
Definition await (id : str) (p : Pending) (x : St) : St := with_ses (λ s, set_pending (<[id := p]> (pending s)) s) x.

Definition room_set_flags (j l : bool) (r : Room) : Room :=
  mkRoom (jid r) (nick r) j l (nick_attempts r) (topic r) (renaming r) (last_id r) (recent r) (recent_set r) (occupants r).
Definition room_set_nick (n : str) (attempts : N) (r : Room) : Room :=
  mkRoom (jid r) n (joined r) (leaving r) attempts (topic r) (renaming r) (last_id r) (recent r) (recent_set r) (occupants r).
Definition room_set_topic (t : option str) (r : Room) : Room :=
  mkRoom (jid r) (nick r) (joined r) (leaving r) (nick_attempts r) t (renaming r) (last_id r) (recent r) (recent_set r) (occupants r).
Definition room_set_renaming (m : gmap str str) (r : Room) : Room :=
  mkRoom (jid r) (nick r) (joined r) (leaving r) (nick_attempts r) (topic r) m (last_id r) (recent r) (recent_set r) (occupants r).
Definition room_set_last (i : option str) (r : Room) : Room :=
  mkRoom (jid r) (nick r) (joined r) (leaving r) (nick_attempts r) (topic r) (renaming r) i (recent r) (recent_set r) (occupants r).

(** * Words *)

Definition xml_escape (text : str) : str :=
  concat (map (λ c,
    if (c =? 38)%N then lit "&amp;" else if (c =? 60)%N then lit "&lt;" else if (c =? 62)%N then lit "&gt;"
    else if (c =? 39)%N then lit "&apos;" else if (c =? 34)%N then lit "&quot;" else [c]) text).

Definition removal_text (s : MucStatus) : option str :=
  match s with
  | Banned => Some (lit "banned")
  | Kicked => Some (lit "removed from the room")
  | RemovalFromRoom => Some (lit "removed: their standing changed")
  | ConfigMembersOnly => Some (lit "the room became members-only")
  | ServiceShutdown => Some (lit "the service is shutting down")
  | _ => None
  end.
Definition removal_reason (statuses : list MucStatus) : option str := head (omap removal_text statuses).

Definition describe (c : DefinedCondition) : str :=
  match c with
  | Conflict => lit "that nickname is already in use"
  | Forbidden => lit "you are not allowed"
  | NotAuthorized => lit "a password is required"
  | RegistrationRequired => lit "the room is for members only"
  | ItemNotFound => lit "there is no such room"
  | NotAllowed => lit "that is not allowed"
  | ServiceUnavailable => lit "the service is not available"
  | RemoteServerNotFound => lit "the server could not be found"
  | RemoteServerTimeout => lit "the server did not answer"
  | ResourceConstraint => lit "the room is full"
  | RecipientUnavailable => lit "the recipient is not available"
  | OtherCondition => lit "the server refused"
  end.

Definition clean_text (text : str) : str :=
  take MAX_BODY_CHARS (List.filter (λ c, (c =? 10)%N || (c =? 9)%N || negb (is_control c)) text).

Definition split_action (body : str) : bool * str :=
  match strip_prefix (lit "/me ") body with Some rest => (true, rest) | None => (false, body) end.

Definition split_reply (text : str) : option ReplyRef * str :=
  match parse_reply is_alphanumeric text with Some (found, body) => (Some found, body) | None => (None, text) end.

Definition not_empty (s : str) : option str := if is_empty s then None else Some s.

(** * Requests *)

Definition next_id (x : St) : str * St :=
  let n := (counter (ses x) + 1)%N in
  (id_prefix (ses x) ++ lit "-" ++ to_dec n, with_ses (set_counter n) x).

Definition server (s : XSession) : str := domain (account s).
Definition account_text (s : XSession) : str := show (account s).

(** [BareJid::with_resource_str]. *)
Definition occupant_jid (room nick : str) : option str := (λ r, room ++ lit "/" ++ r) <$> prepare_resource nick.

Definition room_jid (channel : str) : option Jid :=
  j ← parse_bare parse_jid (trim channel); if is_some (node j) then Some j else None.

Definition available (to : option str) : OutPresence := mkOutPresence to OutAvailable None None None.

Inductive CatchUpFrom := After (id : str) | Since (ms : Z).

Definition send_catch_up (room : option str) (from : CatchUpFrom) (fetched pages : nat) (x : St) : St :=
  let '(id, x) := next_id x in
  let after := match from with After a => Some a | Since _ => None end in
  let start := match from with After _ => None | Since ms => Some (iso8601 ms) end in
  x |> await id (PCatchUp room fetched (pages + 1) (default [] after) fetched)
    |> send (OutSet id room (ArchiveQuery id start after CATCH_UP_PAGE)).

Definition send_join (j : str) (password : option str) (x : St) : St :=
  match rooms (ses x) !! j with
  | None => x
  | Some room =>
      match occupant_jid j (nick room) with
      | None =>
          x |> error (lit "'" ++ nick room ++ lit "' cannot be used as a nickname in a room.") |> drop_room j
      | Some occupant =>
          send (OutPresenceStanza (mkOutPresence (Some occupant) OutAvailable None None (Some (password ≫= not_empty)))) x
      end
  end.

(** * Starting *)

Definition new (c : XmppConfig) (id_prefix : str) : option XSession :=
  match bare_jid parse_jid c with
  | Err _ => None
  | Ok account =>
      let default_nick := clean_name (room_nick parse_jid c) in
      let rooms := foldl (λ rooms room,
        match parse_bare parse_jid (trim room) with
        | Some j => <[show j := new_room (show j) default_nick]> rooms
        | None => rooms
        end) ∅ (xc_rooms c) in
      Some (mkXSession account default_nick rooms ∅ id_prefix 0 default_contacts default_index None ∅ 0 None None)
  end.

Definition own_presence (s : XSession) (to : option str) : OutPresence :=
  match own s with
  | None => available to
  | Some (availability, status) =>
      mkOutPresence to OutAvailable
        (match availability with
         | Away => Some ShowAway
         | Dnd => Some ShowDnd
         | ExtendedAway => Some ShowXa
         | Available | Offline => None
         end)
        (not_empty status) None
  end.

Definition fail_upload (ticket : N) (why : str) (x : St) : St :=
  match tickets (ses x) !! ticket with
  | None => x
  | Some t =>
      x |> with_ses (λ s, set_tickets (delete ticket (tickets s)) (next_ticket s) s)
        |> event (FileTransferEnded ticket (t_target t) (t_filename t) None (Some why))
  end.

(** A request whose answer is awaited. *)
Definition request (p : Pending) (stanza : str → OutStanza) (x : St) : St :=
  let '(id, x) := next_id x in x |> await id p |> send (stanza id).

Definition rejoin (x : St) (j : str) : St :=
  x |> on_room j (λ r, room_set_renaming ∅ (clear_occupants (room_set_flags false false r))) |> send_join j None.

Definition on_online (s : XSession) : St :=
  let x := mkSt (set_pending ∅ s) no_effects in
  let x := event (Registered (account_text s) (Some (domain (account s))) Sasl) x in
  let '(gone, c) := forget_presence (contacts (ses x)) in
  let x := x |> with_ses (set_contacts c) |> events (map lift_contact gone) in
  let '(asking, c) := clear_requests (contacts (ses x)) in
  let x := with_ses (set_contacts c) x in
  let x := events (omap (λ j, if Contacts.contains c j then None else Some (ContactRemoved_ j)) asking) x in
  let x := with_ses (set_upload None) x in
  let waiting := omap (λ kt : N * Ticket, if is_some (t_get kt.2) then None else Some kt.1) (map_to_list (tickets (ses x))) in
  let x := foldl (λ x t, fail_upload t (lit "The connection was lost before the upload began.") x) x waiting in
  let x := x |> request PCarbons (λ id, OutSet id None EnableCarbons)
             |> request PRoster (λ id, OutGet id None (RosterQuery []))
             |> request PDiscoItems (λ id, OutGet id (Some (server s)) ItemsQuery) in
  let x := send (OutPresenceStanza (own_presence (ses x) None)) x in
  let x := match chat_cursor (ses x) with
           | Some cursor => send_catch_up None (After cursor) 0 0 x
           | None => x
           end in
  foldl rejoin x (map fst (map_to_list (rooms (ses x)))).
(** * Commands *)

Definition join (channel : str) (password : option str) (x : St) : St :=
  match room_jid channel with
  | None =>
      error (lit "'" ++ clean_name channel ++ lit "' is not a room address; it looks like room@conference.example.org.") x
  | Some j =>
      if match rooms (ses x) !! show j with Some r => joined r && negb (leaving r) | None => false end then x
      else
        x |> with_ses (λ s, set_rooms (<[show j := new_room (show j) (default_nick s)]> (rooms s)) s)
          |> send_join (show j) password
  end.

Definition part (channel : str) (x : St) : St :=
  match room_jid channel with
  | None => x
  | Some j =>
      match rooms (ses x) !! show j with
      | None => x
      | Some room =>
          if negb (joined room) then
            x |> drop_room (show j) |> event (Parted (jid room) (nick room) true None)
          else
            let x := on_room (show j) (room_set_flags (joined room) true) x in
            match occupant_jid (show j) (nick room) with
            | Some occupant => send (OutPresenceStanza (mkOutPresence (Some occupant) OutUnavailable None None None)) x
            | None => x
            end
      end
  end.

Definition kick_query (nick reason : str) : str :=
  lit "<query xmlns='" ++ NS_MUC_ADMIN ++ lit "'><item nick='" ++ xml_escape (trim nick) ++ lit "' role='none'>" ++ reason ++
  lit "</item></query>".

Definition kick (channel nick : str) (reason : option str) (x : St) : St :=
  match room_jid channel with
  | None => x
  | Some j =>
      let '(id, x) := next_id x in
      let reason := match (clean_text <$> reason) ≫= not_empty with
                    | Some r => lit "<reason>" ++ xml_escape r ++ lit "</reason>"
                    | None => []
                    end in
      let query := kick_query nick reason in
      if negb (xml_parses query) then error (lit "That nickname cannot be sent.") x
      else x |> await id (PKick (show j)) |> send (OutSet id (Some (show j)) (RawQuery query))
  end.

Definition joined_rooms (s : XSession) : list Room := List.filter joined (map snd (map_to_list (rooms s))).

Definition set_nick (nick : str) (x : St) : St :=
  let nick := clean_name (trim nick) in
  if is_empty nick then error (lit "A nickname cannot be empty.") x
  else
    let x := with_ses (set_default_nick nick) x in
    foldl (λ x r,
      match occupant_jid (jid r) nick with
      | Some occupant => send (OutPresenceStanza (available (Some occupant))) x
      | None => error (lit "'" ++ nick ++ lit "' cannot be used as a nickname in a room.") x
      end) x (joined_rooms (ses x)).

Definition set_topic (channel topic : str) (x : St) : St :=
  match room_jid channel with
  | None => x
  | Some j =>
      let flattened := map (λ c, if is_control c then 0x20%N else c) topic in
      let '(id, x) := next_id x in
      send (OutMessageStanza (mkOutMessage (show j) true id false None
        (Some (truncate (trim flattened) MAX_TOPIC)) None None [])) x
  end.

Definition direct (conversation sender : str) (text : str) (is_self is_action : bool) (msgid : option str) (time : option Z)
    (reply_to : option ReplyRef) : ChatMessage :=
  mkMessage (ToDirect conversation) sender None (parse text) is_self false is_action false msgid time reply_to.

(** One piece of what is said. *)
Definition say_part (to conversation : str) (in_room action : bool) (oob : option str) (x : St) (part : str) : St :=
  let body := if action then lit "/me " ++ part else part in
  let '(id, x) := next_id x in
  let x := send (OutMessageStanza (mkOutMessage to in_room id true (Some body) None oob None [])) x in
  if in_room then x
  else
    let '(reply_to, shown) := if action then (None, part) else split_reply part in
    x |> event (Message (direct conversation (account_text (ses x)) shown true action (Some id) None reply_to))
      |> on_index (record (mkEntry conversation (account_text (ses x)) id (Some id) true)).

Definition say_with (target text : str) (action : bool) (oob : option str) (x : St) : St :=
  match parse_jid (trim target) with
  | None => error (lit "'" ++ clean_name target ++ lit "' is not an address.") x
  | Some to =>
      let room := bare to in
      let known_room := rooms (ses x) !! room in
      let in_room := is_some known_room && negb (is_some (resource to)) in
      if match known_room with Some r => negb (joined r) | None => false end
      then error (lit "You are not in " ++ room ++ lit " yet.") x
      else
        let conversation := if is_some known_room then show to else room in
        foldl (say_part (if in_room then room else show to) conversation in_room action oob) x (sanitize_body text)
  end.

Definition say (target text : str) (action : bool) (x : St) : St := say_with target text action None x.

(** * Contacts *)

Definition contact_jid (text : str) : option Jid :=
  j ← parse_jid (trim text); if is_some (node j) then Some (to_bare j) else None.

Definition not_an_address (text : str) : str := lit "'" ++ clean_name text ++ lit "' is not an address.".

Definition add_contact (text : str) (name : option str) (x : St) : St :=
  match contact_jid text with
  | None =>
      error (lit "'" ++ clean_name text ++ lit "' is not a person's address; it looks like name@example.org.") x
  | Some j =>
      if bool_decide (show j = account_text (ses x)) then error (lit "That is your own address.") x
      else if is_some (rooms (ses x) !! show j)
      then error (lit "That is a room. Join it instead of adding it as a contact.") x
      else if negb (Contacts.contains (contacts (ses x)) (show j)) && is_full (contacts (ses x))
      then error (lit "Your contact list is full.") x
      else
        let name := (clean_name <$> name) ≫= not_empty in
        x |> request (PRosterSet (show j)) (λ id, OutSet id None (RosterQuery [mkItem (show j) name RNone false]))
          |> send (OutPresenceStanza (mkOutPresence (Some (show j)) OutSubscribe None None None))
  end.

Definition remove_contact (text : str) (x : St) : St :=
  match contact_jid text with
  | None => error (not_an_address text) x
  | Some j => request (PRosterSet (show j)) (λ id, OutSet id None (RosterQuery [mkItem (show j) None RRemove false])) x
  end.

Definition answer_subscription (text : str) (accept : bool) (x : St) : St :=
  match contact_jid text with
  | None => error (not_an_address text) x
  | Some j =>
      let '(asked, c) := take_request (show j) (contacts (ses x)) in
      let x := with_ses (set_contacts c) x in
      if negb asked then error (show j ++ lit " has not asked to see you.") x
      else send (OutPresenceStanza (mkOutPresence (Some (show j)) (if accept then OutSubscribed else OutUnsubscribed) None None None)) x
  end.

Definition set_availability (availability : Availability) (status : option str) (x : St) : St :=
  let status := match status with Some s => clean_line s STATUS_CHARS | None => [] end in
  let x := with_ses (set_own (Some (availability, status))) x in
  let x := send (OutPresenceStanza (own_presence (ses x) None)) x in
  foldl (λ x r,
    match occupant_jid (jid r) (nick r) with
    | Some occupant => send (OutPresenceStanza (own_presence (ses x) (Some occupant))) x
    | None => x
    end) x (joined_rooms (ses x)).

(** * Correcting and taking back *)

Definition destination (s : XSession) (target : str) : option (Jid * bool) :=
  to ← parse_jid (trim target);
  Some (to, is_some (rooms s !! bare to) && negb (is_some (resource to))).

Definition edit (target msgid text : str) (x : St) : St :=
  match destination (ses x) target with
  | None => error (not_an_address target) x
  | Some (to, group) =>
      match ours (index (ses x)) target msgid with
      | None => error (lit "That message can no longer be edited.") x
      | Some entry =>
          match origin entry with
          | None => error (lit "That message can no longer be edited.") x
          | Some o =>
              match sanitize_body text with
              | [] => error (lit "An edited message cannot be empty. Delete it instead.") x
              | [body] =>
                  let '(id, x) := next_id x in
                  let x := send (OutMessageStanza (mkOutMessage (show to) group id true (Some body) None None (Some o) [])) x in
                  if group then x
                  else
                    let '(reply_to, shown) := split_reply body in
                    let me := account_text (ses x) in
                    event (MessageEdited (ToDirect target) (Edits.msgid entry) me
                      (direct target me shown true false (Some (Edits.msgid entry)) None reply_to)) x
              | _ => error (lit "That is too long to edit into one message.") x
              end
          end
      end
  end.

(** The payloads of [edits::retract], each left out when it is not XML. *)
Definition retract_payloads (retracts : str) : list str :=
  List.filter xml_parses
    [ lit "<retract xmlns='" ++ NS_RETRACT ++ lit "' id='" ++ xml_escape retracts ++ lit "'/>";
      lit "<fallback xmlns='" ++ NS_FALLBACK ++ lit "' for='" ++ NS_RETRACT ++ lit "'/>";
      lit "<store xmlns='" ++ NS_HINTS ++ lit "'/>" ].

Definition retract (target msgid : str) (x : St) : St :=
  match destination (ses x) target with
  | None => error (not_an_address target) x
  | Some (to, group) =>
      match ours (index (ses x)) target msgid with
      | None => error (lit "That message can no longer be deleted.") x
      | Some entry =>
          let '(id, x) := next_id x in
          let x := send (OutMessageStanza (mkOutMessage (show to) group id true
            (Some (lit "/me retracted a previous message, but your client does not support that.")) None None None
            (retract_payloads (Edits.msgid entry)))) x in
          if group then x
          else
            x |> on_index (forget target (Edits.msgid entry))
              |> event (MessageRetracted (ToDirect target) (Edits.msgid entry) (account_text (ses x)))
      end
  end.

Definition on_command (c : ClientCommand) (s : XSession) : St :=
  let x := mkSt s no_effects in
  match c with
  | Join channel key => join channel key x
  | Part channel _ => part channel x
  | Kick channel nick reason => kick channel nick reason x
  | SendMessage target text => say target text false x
  | SendAction target text => say target text true x
  | SendReply target text reply =>
      say target (format_reply (Reply.nick reply) (excerpt (excerpt_of reply)) text) false x
  | SetNick nick => set_nick nick x
  | SetTopic channel topic => set_topic channel topic x
  | AddContact jid name => add_contact jid name x
  | RemoveContact jid => remove_contact jid x
  | AnswerSubscription jid accept => answer_subscription jid accept x
  | SetAvailability availability status => set_availability availability status x
  | CatchUpChats since_ms =>
      if is_some (chat_cursor s) then x else send_catch_up None (Since since_ms) 0 0 x
  | EditMessage target msgid text => edit target msgid text x
  | RetractMessage target msgid => retract target msgid x
  | ListChannels | WhoisOf _ | SendFile _ _ | AcceptFile _ _ | CancelTransfer _ =>
      error (lit "That is not available over XMPP yet.") x
  | Reconnect | Disconnect _ => x
  end.
(** * Sharing a file *)

Definition last_segment (filename : str) : str :=
  rev (take_while (λ c, negb ((c =? ch "/")%N || (c =? 92)%N)) (rev filename)).

Definition begin_upload (target filename : str) (size : N) (s : XSession) : option N * St :=
  let x := mkSt s no_effects in
  match destination s target with
  | None => (None, error (not_an_address target) x)
  | Some (to, group) =>
      match upload s with
      | None => (None, error (lit "This server has nowhere to put a file.") x)
      | Some service =>
          if group && match rooms s !! bare to with Some r => negb (joined r) | None => true end
          then (None, error (lit "You are not in " ++ bare to ++ lit " yet.") x)
          else if (size =? 0)%N then (None, error (lit "That file is empty.") x)
          else if (limit service <? size)%N
          then (None, error (lit "That file is larger than this server takes (" ++ to_dec (limit service / (1024 * 1024)) ++ lit " MB).") x)
          else if Nat.leb MAX_UPLOADS (base.size (tickets s))
          then (None, error (lit "Too many files are already being sent. Wait for one to finish.") x)
          else
            let cleaned := clean_line (last_segment filename) 100 in
            let filename := if is_empty cleaned then lit "file" else cleaned in
            let ticket := (next_ticket s + 1)%N in
            let x := with_ses (λ s, set_tickets (<[ticket := mkTicket target filename None]> (tickets s)) ticket s) x in
            let x := event (FileTransferStarted ticket target filename false (Some size)) x in
            (Some ticket,
             request (PSlot ticket) (λ id, OutGet id (Some (u_jid service)) (SlotRequest filename size (content_type filename))) x)
      end
  end.

Definition on_slot (ticket : N) (payload : option Answer) (x : St) : St :=
  match tickets (ses x) !! ticket with
  | None => x
  | Some entry =>
      match payload with
      | Some (SlotAnswer result) =>
          match check_slot parse_url is_ip result (domain (account (ses x))) with
          | Err e => fail_upload ticket (show_slot_error e ++ lit ".") x
          | Ok slot =>
              x |> with_ses (λ s, set_tickets
                     (<[ticket := mkTicket (t_target entry) (t_filename entry) (Some (slot_get slot))]> (tickets s)) (next_ticket s) s)
                |> push_upload (mkJob ticket slot (content_type (t_filename entry)))
          end
      | _ => fail_upload ticket (lit "The server's answer about where to put it was not understood.") x
      end
  end.

Definition error_text (e : Event) : option str := match e with ErrorEvent m _ => Some m | _ => None end.

Definition upload_finished (ticket : N) (r : result unit str) (s : XSession) : St :=
  let x := mkSt s no_effects in
  match r with
  | Err why => fail_upload ticket why x
  | Ok _ =>
      match tickets s !! ticket with
      | None => x
      | Some entry =>
          let x := with_ses (λ s, set_tickets (delete ticket (tickets s)) (next_ticket s) s) x in
          match t_get entry with
          | None => x
          | Some get =>
              let sent := say_with (t_target entry) get false (Some get) (mkSt (ses x) no_effects) in
              let refused := head (omap error_text (fx_events (fx sent))) in
              let outcome := (λ why, lit "It was uploaded, but the link was not sent: " ++ why) <$> refused in
              let ended := FileTransferEnded ticket (t_target entry) (t_filename entry) None outcome in
              mkSt (ses sent)
                (match outcome with
                 | None => mkFx (ended :: fx_events (fx sent)) (fx_send (fx sent)) []
                 | Some _ => mkFx [ended] [] []
                 end)
          end
      end
  end.

(** * Answers *)

(** An answer is only believed from where the question went. *)
Definition came_from_expected (s : XSession) (id : str) (from : option Jid) : bool :=
  match pending s !! id with
  | None => false
  | Some p =>
      match from with
      | None => match p with PRoster | PCarbons | PDiscoItems | PRosterSet _ | PCatchUp None _ _ _ _ => true | _ => false end
      | Some from =>
          let whole := negb (is_some (resource from)) in
          match p with
          | PKick room | PCatchUp (Some room) _ _ _ _ => whole && bool_decide (bare from = room)
          | PCatchUp None _ _ _ _ => whole && bool_decide (bare from = account_text s)
          | PRoster | PCarbons | PRosterSet _ =>
              bool_decide (bare from = account_text s)
              || (bool_decide (domain from = domain (account s)) && negb (is_some (node from)))
          | PDiscoItems => whole && negb (is_some (node from)) && bool_decide (domain from = domain (account s))
          | PDiscoInfo jid => bool_decide (show from = jid)
          | PSlot _ => match upload s with Some service => bool_decide (show from = u_jid service) | None => false end
          end
      end
  end.

(** Another page only if the archive says there is one and every limit agrees. *)
Definition next_page (fetched pages : nat) (after : str) (fetched_at_start : nat) (payload : option Answer) : option str :=
  match payload with
  | Some (Fin complete (Some last)) =>
      if negb complete && Nat.ltb fetched_at_start fetched && negb (bool_decide (last = after))
         && Nat.ltb fetched CATCH_UP_TOTAL && Nat.ltb pages CATCH_UP_PAGES
      then Some last else None
  | _ => None
  end.

Definition ask_about (x : St) (item : Jid * option str) : St :=
  if is_some item.2 then x
  else request (PDiscoInfo (show item.1)) (λ id, OutGet id (Some (show item.1)) InfoQuery) x.

Definition on_result (id : str) (payload : option Answer) (x : St) : St :=
  let p := pending (ses x) !! id in
  let x := with_ses (λ s, set_pending (delete id (pending s)) s) x in
  match p with
  | Some (PCatchUp room fetched pages after start) =>
      match next_page fetched pages after start payload with
      | Some last => send_catch_up room (After last) fetched pages x
      | None => x
      end
  | Some PRoster =>
      match payload with
      | Some (RosterAnswer items) =>
          let '(es, c) := apply_roster items (account_text (ses x)) true (contacts (ses x)) in
          x |> with_ses (set_contacts c) |> events (map lift_contact es)
      | _ => x
      end
  | Some PDiscoItems =>
      match payload with
      | Some (ItemsAnswer items) => foldl ask_about x (take MAX_DISCO_ITEMS items)
      | _ => x
      end
  | Some (PDiscoInfo jid) =>
      match upload (ses x), payload with
      | None, Some (InfoAnswer info) =>
          match service_from_info jid info with
          | Some service => x |> event (UploadAvailable (Some (limit service))) |> with_ses (set_upload (Some service))
          | None => x
          end
      | _, _ => x
      end
  | Some (PSlot ticket) => on_slot ticket payload x
  | Some (PCarbons | PKick _ | PRosterSet _) | None => x
  end.

Definition on_error (id : str) (condition : DefinedCondition) (x : St) : St :=
  let p := pending (ses x) !! id in
  let x := with_ses (λ s, set_pending (delete id (pending s)) s) x in
  match p with
  | Some (PKick room) => error (lit "Could not remove them from " ++ room ++ lit ": " ++ describe condition ++ lit ".") x
  | Some (PRosterSet jid) =>
      error (lit "Could not change " ++ jid ++ lit " on your contact list: " ++ describe condition ++ lit ".") x
  | Some (PSlot ticket) => fail_upload ticket (lit "The server would not take the file: " ++ describe condition ++ lit ".") x
  | _ => x
  end.

Definition on_roster_push (from : option Jid) (id : str) (items : option (list Item)) (x : St) : St :=
  let ours := match from with
              | None => true
              | Some f => negb (is_some (resource f)) && bool_decide (bare f = account_text (ses x))
              end in
  match (if ours then items else None) with
  | None => send (OutDeclined (show <$> from) id) x
  | Some items =>
      let '(es, c) := apply_roster items (account_text (ses x)) false (contacts (ses x)) in
      x |> with_ses (set_contacts c) |> events (map lift_contact es)
        |> send (OutResult (default (account_text (ses x)) (show <$> from)) id)
  end.

Definition answer_request (from : option Jid) (id : str) (payload : Request) (x : St) : St :=
  match payload with
  | Ping => send (OutResult (default (server (ses x)) (show <$> from)) id) x
  | _ => send (OutDeclined (show <$> from) id) x
  end.

Definition on_iq (i : Iq) (x : St) : St :=
  match i with
  | IqSet from id (RosterRequest items) => on_roster_push from id items x
  | IqGet from id payload | IqSet from id payload => answer_request from id payload x
  | IqResult from id payload => if came_from_expected (ses x) id from then on_result id payload x else x
  | IqError from id condition => if came_from_expected (ses x) id from then on_error id condition x else x
  end.
(** * Presence *)

Definition on_room_error (j : str) (p : XPresence) (x : St) : St :=
  match rooms (ses x) !! j with
  | None => x
  | Some room =>
      if joined room then x
      else if bool_decide (xp_error p = Some Conflict) && (nick_attempts room <? MAX_NICK_ATTEMPTS)%N then
        x |> on_room j (room_set_nick (nick room ++ lit "_") (nick_attempts room + 1)) |> send_join j None
      else
        x |> drop_room j
          |> error (lit "Could not join " ++ jid room ++ lit ": " ++
               match xp_error p with Some c => describe c | None => lit "the room refused" end ++ lit ".")
          |> event (Parted (jid room) (default_nick (ses x)) true None)
  end.

(** Somebody's old nickname goes away, on the way to a new one. *)
Definition on_rename (j : str) (room : Room) (nick raw_nick : str) (item : option MucItem) (x : St) : St :=
  match clean_name <$> (item ≫= mi_nick) with
  | Some new =>
      x |> on_index (forget_conversation (jid room ++ lit "/" ++ raw_nick))
        |> on_room j (λ r, room_set_renaming (<[new := nick]> (renaming r)) (remove nick r).2)
  | None => x
  end.

Definition on_departure (j : str) (room : Room) (nick raw_nick : str) (is_self : bool) (statuses : list MucStatus)
    (item : option MucItem) (x : St) : St :=
  let channel := jid room in
  let reason := match (clean_text <$> (item ≫= mi_reason)) ≫= not_empty with
                | Some r => Some r
                | None => removal_reason statuses
                end in
  let x := on_room j (λ r, (remove nick r).2) x in
  if is_self then
    x |> on_index (forget_conversation channel)
      |> on_index (forget_conversation_prefix (channel ++ lit "/"))
      |> drop_room j
      |> event (Parted channel nick true reason)
  else
    x |> on_index (forget_author channel nick)
      |> on_index (forget_conversation (channel ++ lit "/" ++ raw_nick))
      |> event (Parted channel nick false reason)
      |> event (MemberChanged channel nick None).

#[local] Instance Affiliation_eq_dec : EqDecision Affiliation.
Proof. solve_decision. Defined.
#[local] Instance Role_eq_dec : EqDecision Role.
Proof. solve_decision. Defined.
#[local] Instance Occupant_eq_dec : EqDecision Occupant.
Proof. solve_decision. Defined.

Definition is_away (s : option Show) : bool :=
  match s with Some (ShowAway | ShowXa | ShowDnd) => true | _ => false end.

(** Somebody is there: renamed, on the list before our own name, new, or changed. *)
Definition on_arrival (j : str) (room : Room) (nick : str) (is_self : bool) (item : option MucItem) (p : XPresence) (x : St) : St :=
  let channel := jid room in
  let occupant := mkOccupant nick
    (match item with Some i => mi_affiliation i | None => NoAffiliation end)
    (match item with Some i => mi_role i | None => NoRole end) (is_away (xp_show p)) in
  let view := occupant_view to_lowercase occupant in
  let old_nick := renaming room !! nick in
  let x := on_room j (λ r, room_set_renaming (delete nick (renaming r)) r) x in
  let before := occupants room !! nick in
  let x := on_room j (λ r, (upsert occupant r).2) x in
  match old_nick with
  | Some old =>
      let x := if room_is_self room old then on_room j (λ r, room_set_nick nick (nick_attempts r) r) x else x in
      x |> on_index (rename_author channel old nick)
        |> event (NickChanged channel old nick is_self)
        |> event (MemberChanged channel old (Some view))
  | None =>
      if negb (joined room) then
        if is_self then
          let x := on_room j (λ r, room_set_nick nick (nick_attempts r) (room_set_flags true (leaving r) r)) x in
          let x := event (Joined channel nick true) x in
          let x := match rooms (ses x) !! j with
                   | Some r => event (MemberList channel (members to_lowercase r)) x
                   | None => x
                   end in
          match last_id room with
          | Some after => send_catch_up (Some j) (After after) 0 0 x
          | None => x
          end
        else x
      else
        match before with
        | None => x |> event (Joined channel nick is_self) |> event (MemberChanged channel nick (Some view))
        | Some previous =>
            if bool_decide (previous = occupant) then x else event (MemberChanged channel nick (Some view)) x
        end
  end.

Definition on_room_presence (j : str) (nick : option str) (p : XPresence) (x : St) : St :=
  if bool_decide (xp_type p = XError) then on_room_error j p x
  else
    match nick with
    | None => x
    | Some raw_nick =>
        let nick := clean_name raw_nick in
        let statuses := match xp_user p with Some u => mu_status u | None => [] end in
        let item := xp_user p ≫= mu_item in
        match rooms (ses x) !! j with
        | None => x
        | Some room =>
            let is_self := bool_decide (SelfPresence ∈ statuses) || room_is_self room nick in
            if bool_decide (xp_type p = XUnavailable) then
              if bool_decide (NewNick ∈ statuses) then on_rename j room nick raw_nick item x
              else on_departure j room nick raw_nick is_self statuses item x
            else on_arrival j room nick is_self item p x
        end
    end.

Definition contact_presence (p : XPresence) : Presence :=
  mkPresence (match xp_type p with XNone => PNone | XUnavailable => PUnavailable | _ => POther end)
    (xp_show p) (xp_statuses p) (xp_priority p).

Definition on_presence (p : XPresence) (x : St) : St :=
  match xp_from p with
  | None => x
  | Some from =>
      let b := bare from in
      if is_some (rooms (ses x) !! b) then on_room_presence b (resource from) p x
      else
        match xp_type p with
        | XSubscribe =>
            if negb (bool_decide (b = account_text (ses x))) && is_some (node from) then
              let '(added, c) := add_request b (contacts (ses x)) in
              let x := with_ses (set_contacts c) x in
              if added then event (SubscriptionRequest b) x else x
            else x
        | XUnsubscribe =>
            let '(taken, c) := take_request b (contacts (ses x)) in
            let x := with_ses (set_contacts c) x in
            if taken && negb (Contacts.contains c b) then event (ContactRemoved_ b) x else x
        | XNone | XUnavailable =>
            let '(e, c) := apply_presence b (resource from) (contact_presence p) (contacts (ses x)) in
            let x := with_ses (set_contacts c) x in
            match e with Some e => event (lift_contact e) x | None => x end
        | _ => x
        end
  end.

(** * Messages *)

Definition MAX_SHOWN_ID : nat := 200.

(** A retraction is applied if it comes from whoever wrote what it names. *)
Definition apply_retraction (to : str → Target) (conversation target_id author sender : str) (x : St) : St :=
  match for_retraction (index (ses x)) conversation target_id author with
  | Some entry =>
      x |> on_index (forget conversation (Edits.msgid entry))
        |> event (MessageRetracted (to conversation) (Edits.msgid entry) sender)
  | None => x
  end.

(** A subject with no body is the room's topic. *)
Definition on_subject (j : str) (room : Room) (sender subject : option str) (x : St) : St :=
  match subject with
  | None => x
  | Some subject =>
      let topic := truncate (map (λ c, if (c =? 10)%N then 0x20%N else c) (clean_text subject)) MAX_TOPIC in
      if bool_decide (topic = default [] (Room.topic room)) then x
      else
        x |> on_room j (room_set_topic (Some topic))
          |> event (TopicChanged (jid room) topic (if joined room then sender else None))
  end.

(** The text of a message: an action or not, a reply or not. *)
Definition read_body (body : str) : bool * option ReplyRef * str :=
  let '(is_action, text) := split_action body in
  if is_action then (true, None, text) else let '(reply_to, text) := split_reply text in (false, reply_to, text).

Definition show_room_body (j : str) (room : Room) (sender : option str) (body : str) (m : Said) (time : option Z)
    (replayed : bool) (room_id origin : option str) (x : St) : St :=
  let channel := jid room in
  let msgid := match room_id with Some i => Some i | None => origin end in
  let '(is_action, reply_to, text) := read_body body in
  let '(nick, is_self, prefix, is_notice) :=
    match sender with
    | Some nick => (nick, room_is_self room nick, (λ c, [c]) <$> (occupant room nick ≫= Room.prefix), false)
    | None => (j, false, None, true)
    end in
  let shown text is_mention msgid :=
    mkMessage (ToChannel channel) nick prefix (parse text) is_self is_mention is_action is_notice msgid time reply_to in
  let corrected := replace ← sd_replace m;
                   if (is_notice : bool) then None else for_correction (index (ses x)) channel replace nick in
  match corrected with
  | Some entry =>
      event (MessageEdited (ToChannel channel) (Edits.msgid entry) nick (shown text false (Some (Edits.msgid entry)))) x
  | None =>
      let text := if is_some (sd_replace m) then lit "(edited) " ++ text else text in
      let is_mention := negb replayed && negb is_self && mentions to_lowercase is_alphanumeric (Room.nick room) text in
      let x := match msgid with
               | Some id => if is_notice then x else on_index (record (mkEntry channel nick id origin is_self)) x
               | None => x
               end in
      event (Message (shown text is_mention msgid)) x
  end.

Definition show_room_message (j : str) (from : Jid) (m : Said) (time : option Z) (archived : option str) (x : St) : St :=
  let replayed := is_some archived in
  match rooms (ses x) !! j with
  | None => x
  | Some room =>
      let sender := clean_name <$> resource from in
      let room_id := match archived with
                     | Some i => Some i
                     | None =>
                         '(by_, id) ← sd_stanza_id m;
                         if bool_decide (bare by_ = j) then Some (truncate id MAX_SHOWN_ID) else None
                     end in
      let seen := match room_id with Some id => negb (remember id room).1 | None => false end in
      if seen then x
      else
        let room := match room_id with Some id => room_set_last (Some id) (remember id room).2 | None => room end in
        let x := on_room j (λ _, room) x in
        let origin := origin_id (sd_origin_id m) (sd_id m) in
        match retraction (sd_retract m) with
        | Some target_id =>
            match sender with
            | Some author => apply_retraction ToChannel (jid room) target_id author author x
            | None => x
            end
        | None =>
            match clean_text <$> sd_body m with
            | Some body =>
                if is_empty (trim body) then (if replayed then x else on_subject j room sender (sd_subject m) x)
                else show_room_body j room sender body m time replayed room_id origin x
            | None => if replayed then x else on_subject j room sender (sd_subject m) x
            end
        end
  end.

Definition show_chat (other : Jid) (m : Said) (outgoing : bool) (time : option Z) (replayed : bool) (x : St) : St :=
  let me := account_text (ses x) in
  let from_room := is_some (rooms (ses x) !! bare other) in
  let '(name, sender) :=
    if from_room then (show other, match resource other with Some r => clean_name r | None => [] end)
    else (bare other, bare other) in
  let author := if outgoing then me else sender in
  let key := if outgoing then me else if from_room then show other else author in
  let origin := origin_id (sd_origin_id m) (sd_id m) in
  let msgid := (λ i, truncate i MAX_SHOWN_ID) <$> sd_id m in
  if replayed && match msgid with Some id => Edits.contains (index (ses x)) name id | None => false end then x
  else
    match retraction (sd_retract m) with
    | Some target_id => apply_retraction ToDirect name target_id key author x
    | None =>
        match clean_text <$> sd_body m with
        | None => x
        | Some body =>
            if is_empty (trim body) then x
            else
              let '(is_action, reply_to, text) := read_body body in
              let corrected := replace ← sd_replace m; for_correction (index (ses x)) name replace key in
              match corrected with
              | Some entry =>
                  event (MessageEdited (ToDirect name) (Edits.msgid entry) author
                    (direct name author text outgoing is_action (Some (Edits.msgid entry)) time reply_to)) x
              | None =>
                  let text := if is_some (sd_replace m) then lit "(edited) " ++ text else text in
                  let x := match msgid with
                           | Some id => on_index (record (mkEntry name key id origin outgoing)) x
                           | None => x
                           end in
                  event (Message (direct name author text outgoing is_action msgid time reply_to)) x
              end
        end
    end.

Definition on_archived_chat (inner : Said) (id : str) (time : option Z) (x : St) : St :=
  let x := with_ses (set_cursor (Some id)) x in
  match sd_type inner with
  | Chat | Normal =>
      match sd_from inner, sd_to inner with
      | Some from, Some to =>
          let outgoing := bool_decide (bare from = account_text (ses x)) in
          let other := if outgoing then to else from in
          if bool_decide (bare other = account_text (ses x)) then x else show_chat other inner outgoing time true x
      | _, _ => x
      end
  | _ => x
  end.

Definition on_archived (from : Jid) (r : MamResult) (x : St) : St :=
  match mam_queryid r with
  | None => x
  | Some query =>
      match pending (ses x) !! query with
      | Some (PCatchUp room fetched pages after start) =>
          if is_some (resource from) then x
          else if negb (bool_decide (bare from = default (account_text (ses x)) room)) then x
          else
            let x := await query (PCatchUp room (fetched + 1) pages after start) x in
            let inner := fw_message (mam_forwarded r) in
            let time := fw_delay (mam_forwarded r) in
            let id := truncate (mam_id r) MAX_ARCHIVE_ID in
            match room with
            | None => on_archived_chat inner id time x
            | Some room =>
                match sd_from inner with
                | None => x
                | Some said_by =>
                    if negb (bool_decide (bare said_by = room)) || negb (bool_decide (sd_type inner = Groupchat)) then x
                    else show_room_message room said_by inner time (Some id) x
                end
            end
      | _ => x
      end
  end.

Definition on_chat (from : Jid) (m : XMessage) (x : St) : St :=
  let mine := bool_decide (bare from = account_text (ses x)) in
  match xm_received m with
  | Some f =>
      match sd_from (fw_message f) with
      | Some other => if mine then show_chat other (fw_message f) false (fw_delay f) false x else x
      | None => x
      end
  | None =>
      match xm_sent m with
      | Some f =>
          match sd_to (fw_message f) with
          | Some other => if mine then show_chat other (fw_message f) true (fw_delay f) false x else x
          | None => x
          end
      | None =>
          if mine then x
          else
            let x := match sd_stanza_id (xm_said m) with
                     | Some (by_, id) =>
                         if bool_decide (bare by_ = account_text (ses x))
                         then with_ses (set_cursor (Some (truncate id MAX_ARCHIVE_ID))) x else x
                     | None => x
                     end in
            show_chat from (xm_said m) false (sd_delay (xm_said m)) false x
      end
  end.

Definition on_message (m : XMessage) (x : St) : St :=
  match sd_from (xm_said m) with
  | None => x
  | Some from =>
      match xm_mam m with
      | Some r => on_archived from r x
      | None =>
          match sd_type (xm_said m) with
          | Groupchat => show_room_message (bare from) from (xm_said m) (sd_delay (xm_said m)) None x
          | ErrorMessage =>
              error (lit "Message to " ++ bare from ++ lit " failed: " ++
                match xm_error m with Some c => describe c | None => lit "it was not delivered" end ++ lit ".") x
          | Chat | Normal => on_chat from m x
          | Headline => x
          end
      end
  end.

Definition on_stanza (i : XStanza) (s : XSession) : St :=
  let x := mkSt s no_effects in
  match i with
  | MessageStanza m => on_message m x
  | PresenceStanza p => on_presence p x
  | IqStanza q => on_iq q x
  end.
End Session.
