(* ===== verification/XmppProps.v ===== *)
(** What the server and everyone it speaks for can make a session do: what is
    sent in answer to a stanza, what is shown as the user's own words, and how
    often an archive is asked. *)
From S2P Require Import Prelude RustStr Format Reply Session Room Contacts Edits Outgoing Dates Transfer ServerConfig Upload Xmpp Api XmppSession.

Create HintDb good.

Section Props.
Context {IpAddr : Type}.
Context (parse_jid : str → option Jid) (prepare_resource : str → option str) (xml_parses : str → bool).
Context (parse_url : str → option Url) (is_ip : str → bool).
Context (to_lowercase : char → str) (is_alphanumeric : char → bool).
Abbreviation Event := (IrcEvent IpAddr).
Abbreviation St := (@St IpAddr).
Abbreviation on_stanza := (@on_stanza IpAddr prepare_resource parse_url is_ip to_lowercase is_alphanumeric).

(** * Effects of a stanza *)

(** Words shown as the user's own, or a change of words shown as theirs. *)
Definition shown_as_own (e : Event) : option Target :=
  match e with
  | Message m | MessageEdited _ _ _ m => if cm_is_self m then Some (cm_target m) else None
  | _ => None
  end.

(** What a session sends unasked: it joins a room, and asks what a component is
    and what an archive holds. *)
Definition unasked (o : OutStanza) : Prop :=
  match o with
  | OutPresenceStanza p => op_type p = OutAvailable ∧ is_Some (op_muc p) ∧ op_show p = None ∧ op_status p = None
  | OutGet _ _ InfoQuery | OutSet _ _ (ArchiveQuery _ _ _ _) => True
  | _ => False
  end.

(** Everything but words and changes to them. *)
Definition plain (e : Event) : Prop :=
  match e with Message _ | MessageEdited _ _ _ _ | MessageRetracted _ _ _ => False | _ => True end.

(** ** Who speaks *)

(** In a room it is the occupant a message is from: the room's word, or that of
    the room's own archive, asked for. *)
Inductive room_said (s : XSession) (m : XMessage) : Jid → Prop :=
  | said_live from : sd_from (xm_said m) = Some from → xm_mam m = None → room_said s m from
  | said_archived from r q said_by fetched pages after start :
      sd_from (xm_said m) = Some from → xm_mam m = Some r → mam_queryid r = Some q →
      pending s !! q = Some (PCatchUp (Some (bare from)) fetched pages after start) → resource from = None →
      bare said_by = bare from → room_said s m said_by.

(** In a chat it is whoever it is from, or anyone our own account says. *)
Inductive chat_said (s : XSession) (m : XMessage) : Jid → bool → Prop :=
  | said_by_account from other outgoing :
      sd_from (xm_said m) = Some from → bare from = account_text s → chat_said s m other outgoing
  | said_directly from : sd_from (xm_said m) = Some from → chat_said s m from false.

(** An occupant that is the user: of a room we hold, under the nick we have there. *)
Definition our_occupant (s : XSession) (from : Jid) (conv : str) : Prop :=
  ∃ room, rooms s !! bare from = Some room ∧ conv = jid room ∧ clean_name <$> resource from = Some (Room.nick room).

(** The name a chat's words are filed under. *)
Definition chat_key (s : XSession) (other : Jid) (outgoing : bool) : str :=
  if outgoing then account_text s else if is_some (rooms s !! bare other) then show other else bare other.

Section Good.
Context (P : OutStanza → Prop) (R : Event → Prop) (HP : ∀ o, unasked o → P o) (HR : ∀ e, plain e → R e).

Definition good (x : St) : Prop := Forall P (fx_send (fx x)) ∧ Forall R (fx_events (fx x)).

(** Someone's words may be shown, and those they wrote may be changed. *)
Definition may_say (to : str → Target) (ix : MessageIndex) (key : str) (self : str → bool → Prop) : Prop :=
  (∀ m conv, cm_target m = to conv → self conv (cm_is_self m) → R (Message m)) ∧
  (∀ conv o entry sender m, for_correction ix conv o key = Some entry → cm_target m = to conv → self conv (cm_is_self m) →
     R (MessageEdited (to conv) (Edits.msgid entry) sender m)) ∧
  (∀ conv id entry sender, for_retraction ix conv id key = Some entry →
     R (MessageRetracted (to conv) (Edits.msgid entry) sender)).

Lemma good_ses f x : good x → good (with_ses f x).
Proof. done. Qed.
Lemma good_room j f x : good x → good (on_room j f x).
Proof. done. Qed.
Lemma good_drop j x : good x → good (drop_room j x).
Proof. done. Qed.
Lemma good_index f x : good x → good (on_index f x).
Proof. done. Qed.
Lemma good_await id p x : good x → good (await id p x).
Proof. done. Qed.
Lemma good_upload j x : good x → good (push_upload j x).
Proof. done. Qed.
Lemma good_event e x : R e → good x → good (event e x).
Proof. intros He [H1 H2]. split; [done|]. cbn. apply Forall_app. split; [done|]. by apply Forall_singleton. Qed.
Lemma good_other e x : plain e → good x → good (event e x).
Proof. intros He. by apply good_event, HR. Qed.
Lemma good_error m x : good x → good (error m x).
Proof. by apply good_other. Qed.
Lemma good_send o x : P o → good x → good (send o x).
Proof. intros Ho [H1 H2]. split; [|done]. cbn. apply Forall_app. split; [done|]. by apply Forall_singleton. Qed.
Hint Resolve good_ses good_room good_drop good_index good_await good_upload good_error : good.
Hint Extern 1 (good (event _ _)) => apply good_other; [exact I|] : good.

Lemma good_events es x : Forall plain es → good x → good (events es x).
Proof. revert x. induction es as [|e es IH]; intros x Hf H; [done|]. inversion Hf; subst. apply IH; [done|]. by apply good_other. Qed.
Lemma good_contacts es x : good x → good (events (map lift_contact es) x).
Proof. apply good_events, Forall_map, Forall_forall. by intros [v|j] _. Qed.
Lemma good_foldl {B} (f : St → B → St) l x : (∀ x b, good x → good (f x b)) → good x → good (foldl f x l).
Proof. intros Hf. revert x. induction l; intros x H; [done|]. cbn. auto. Qed.
Hint Resolve good_contacts : good.

Ltac goods := intros; repeat (case_match; subst); eauto 10 with good.

Lemma good_next_id x : good x → good (next_id x).2.
Proof. done. Qed.
Lemma good_request p f x : (∀ id, P (f id)) → good x → good (request p f x).
Proof. intros Hf H. unfold request, next_id. apply good_send; [done|]. eauto with good. Qed.
Lemma good_catch_up room from fetched pages x : good x → good (send_catch_up room from fetched pages x).
Proof. intros H. unfold send_catch_up, next_id. apply good_send; [by apply HP|]. eauto with good. Qed.
Lemma good_join j password x : good x → good (send_join prepare_resource j password x).
Proof.
  intros H. unfold send_join. case_match; [|done]. case_match; [|eauto with good].
  apply good_send; [|done]. apply HP. split_and!; [done|by eexists|done|done].
Qed.
Lemma good_fail ticket why x : good x → good (fail_upload ticket why x).
Proof. unfold fail_upload. goods. Qed.
Hint Resolve good_catch_up good_join good_fail : good.

(** ** Answers *)

Lemma good_slot ticket payload x : good x → good (on_slot parse_url is_ip ticket payload x).
Proof. unfold on_slot. goods. Qed.
Hint Resolve good_slot : good.

Lemma good_result id payload x : good x → good (on_result parse_url is_ip id payload x).
Proof.
  unfold on_result. intros H. cbv zeta. set (x' := with_ses _ x). assert (good x') as H' by done. clearbody x'.
  destruct (pending (ses x) !! id) as [p|]; [|done]. destruct p; try done.
  - goods.
  - case_match; [|done]. case_match; try done. apply good_foldl; [|done]. intros y [j n] Hy. unfold ask_about.
    destruct (is_some _); [done|]. apply good_request; [|done]. intros id'. by apply HP.
  - goods.
  - goods.
  - goods.
Qed.

Lemma good_on_error id c x : good x → good (on_error id c x).
Proof. unfold on_error. cbv zeta. goods. Qed.
(** ** Presence *)

Lemma good_room_error j p x : good x → good (on_room_error prepare_resource j p x).
Proof. unfold on_room_error. goods. Qed.
Lemma good_rename j room nick raw item x : good x → good (on_rename j room nick raw item x).
Proof. unfold on_rename. goods. Qed.
Lemma good_departure j room nick raw self statuses item x : good x → good (on_departure j room nick raw self statuses item x).
Proof. unfold on_departure. cbv zeta. intros. destruct self; eauto 10 with good. Qed.
Lemma good_arrival j room nick self item p x : good x → good (on_arrival to_lowercase j room nick self item p x).
Proof.
  unfold on_arrival. cbv zeta. intros H. destruct (renaming room !! nick) as [old|].
  { destruct (room_is_self room old); eauto 10 with good. }
  destruct (joined room); cbn [negb].
  - destruct (occupants room !! nick); [case_bool_decide|]; eauto 10 with good.
  - destruct self; [|eauto 10 with good].
    match goal with |- context [match ?r with Some _ => event (MemberList _ _) _ | None => _ end] => destruct r end;
      destruct (last_id room); eauto 10 with good.
Qed.
Hint Resolve good_room_error good_rename good_departure good_arrival : good.
Lemma good_room_presence j nick p x : good x → good (on_room_presence prepare_resource to_lowercase j nick p x).
Proof. unfold on_room_presence. goods. Qed.
Hint Resolve good_room_presence : good.
Lemma good_presence p x : good x → good (on_presence prepare_resource to_lowercase p x).
Proof.
  unfold on_presence. goods; apply good_other; try done; match goal with |- plain (lift_contact ?e) => by destruct e end.
Qed.

(** ** Messages *)

Lemma good_retraction to conv id author sender x :
  (∀ entry, for_retraction (index (ses x)) conv id author = Some entry → R (MessageRetracted (to conv) (Edits.msgid entry) sender)) →
  good x → good (apply_retraction to conv id author sender x).
Proof.
  intros Hr H. unfold apply_retraction. destruct (for_retraction _ _ _ _); [|done]. by apply good_event; [apply Hr|].
Qed.
Lemma good_subject j room sender subject x : good x → good (on_subject j room sender subject x).
Proof. unfold on_subject. goods. Qed.
Hint Resolve good_subject : good.

(** A room's message is its sender's, or the room's own; it is the user's only
    when the sender is. *)
Definition room_may_say (ix : MessageIndex) (sender : option str) (self : str → Prop) : Prop :=
  (∀ m conv, cm_target m = ToChannel conv → (cm_is_self m = true → self conv) → R (Message m)) ∧
  (∀ nick, sender = Some nick → may_say ToChannel ix nick (λ conv b, b = true → self conv)).

Lemma remember_same id r : Room.nick (remember id r).2 = Room.nick r ∧ jid (remember id r).2 = jid r.
Proof. unfold remember. by repeat case_match. Qed.

Lemma good_room_body j room sender self body m time replayed room_id origin x :
  room_may_say (index (ses x)) sender self → (sender = Some (Room.nick room) → self (jid room)) → good x →
  good (show_room_body to_lowercase is_alphanumeric j room sender body m time replayed room_id origin x).
Proof.
  unfold show_room_body. intros [Hm Hs] Hself H. destruct (read_body _ _) as [[act reply] text].
  destruct sender as [nick|]; cbv zeta; [destruct (Hs nick eq_refl) as (_ & Hc & _)|].
  - assert (room_is_self room nick = true → self (jid room)) as Hours
      by (unfold room_is_self; intros ->%bool_decide_eq_true; by apply Hself).
    destruct (sd_replace m) as [o|]; cbn; [destruct (for_correction _ _ o nick) eqn:Ec|];
      [apply good_event; [by eapply Hc|done]|apply good_event; [by eapply Hm|]..];
      destruct (match room_id with Some _ => _ | None => _ end); auto with good.
  - destruct (sd_replace m); cbn; (apply good_event; [by eapply Hm|]);
      destruct (match room_id with Some _ => _ | None => _ end); auto with good.
Qed.
Lemma good_room_message from m time archived x :
  room_may_say (index (ses x)) (clean_name <$> resource from) (our_occupant (ses x) from) → good x →
  good (show_room_message to_lowercase is_alphanumeric (bare from) from m time archived x).
Proof.
  intros Hs H. unfold show_room_message. cbv zeta. destruct (rooms (ses x) !! bare from) as [room|] eqn:Er; [|done].
  set (id := match archived with Some _ => _ | None => _ end). destruct (match id with Some _ => _ | None => _ end); [done|].
  set (room' := match id with Some _ => _ | None => _ end).
  assert (Room.nick room' = Room.nick room ∧ jid room' = jid room) as [En Ej]
    by (unfold room'; destruct id; [apply remember_same|done]).
  destruct (retraction _) as [target|].
  - destruct (clean_name <$> resource from) as [author|]; [|done]. apply good_retraction; [|done].
    intros entry He. destruct Hs as [_ Hs]. destruct (Hs author eq_refl) as (_ & _ & Hr). by eapply Hr.
  - destruct (clean_text <$> sd_body m); [destruct (is_empty _)|]; try (destruct (is_some archived); eauto with good; fail).
    eapply good_room_body; [exact Hs| |done]. rewrite En, Ej. intros Hn. by exists room.
Qed.

(** A chat's words are those of whoever they are filed under, ours when they are
    said to be outgoing. *)
Lemma good_chat other m outgoing time replayed x :
  may_say ToDirect (index (ses x)) (chat_key (ses x) other outgoing) (λ _, eq outgoing) → good x →
  good (show_chat is_alphanumeric other m outgoing time replayed x).
Proof.
  intros (Hm & Hc & Hr) H. unfold show_chat. cbv zeta.
  assert (∃ name sender, (if is_some (rooms (ses x) !! bare other)
    then (show other, match resource other with Some r => clean_name r | None => [] end)
    else (bare other, bare other)) = (name, sender) ∧
    (if outgoing then account_text (ses x) else if is_some (rooms (ses x) !! bare other) then show other else
       if outgoing then account_text (ses x) else sender) = chat_key (ses x) other outgoing) as (name & sender & -> & Hk).
  { unfold chat_key. destruct (is_some _); eexists _, _; (split; [done|]); by destruct outgoing. }
  rewrite Hk. destruct (_ && _); [done|]. destruct (retraction _); [by apply good_retraction; [intros; eapply Hr|]|].
  destruct (clean_text <$> _); [|done]. destruct (is_empty _); [done|]. destruct (read_body _ _) as [[act reply] text].
  destruct (sd_replace m) as [o|]; cbn; [destruct (for_correction _ _ o _) eqn:Ec|];
    [apply good_event; [by eapply Hc|done]|apply good_event; [by eapply Hm|]..]; destruct (_ <$> _); auto with good.
Qed.

Lemma good_archived_chat inner id time x :
  (∀ other outgoing, may_say ToDirect (index (ses x)) (chat_key (ses x) other outgoing) (λ _, eq outgoing)) → good x →
  good (on_archived_chat is_alphanumeric inner id time x).
Proof.
  intros HT H. unfold on_archived_chat. destruct (sd_type inner); try done; destruct (sd_from inner), (sd_to inner); try done;
    cbv zeta; repeat case_bool_decide; try done; apply good_chat; try done;
    match goal with |- may_say _ _ (chat_key _ ?o ?b) _ => exact (HT o b) end.
Qed.

(** * One message *)

Lemma good_message m s :
  (∀ from, room_said s m from → room_may_say (index s) (clean_name <$> resource from) (our_occupant s from)) →
  (∀ other outgoing, chat_said s m other outgoing → may_say ToDirect (index s) (chat_key s other outgoing) (λ _, eq outgoing)) →
  good (on_message to_lowercase is_alphanumeric m (mkSt s no_effects)).
Proof.
  intros Hroom Hchat. assert (good (mkSt s no_effects)) as H0 by (split; constructor).
  unfold on_message. destruct (sd_from (xm_said m)) as [from|] eqn:Ef; [|done]. destruct (xm_mam m) as [r|] eqn:Er.
  - unfold on_archived. destruct (mam_queryid r) as [q|] eqn:Eq; [|done]. cbn [ses].
    destruct (pending s !! q) as [p|] eqn:Ep; [|done]. destruct p as [| | | | | | |room fetched pages after start]; try done.
    destruct (resource from) eqn:Eres; [done|]. case_bool_decide as Hb; [|done]. cbn [negb is_some].
    destruct room as [room|]; cbn in Hb.
    + destruct (sd_from (fw_message _)) as [said_by|]; [|done]. destruct (negb _ || _) eqn:Eo; [done|].
      apply orb_false_iff in Eo as [Eo _]. apply negb_false_iff, bool_decide_eq_true in Eo. rewrite <- Hb in Ep, Eo.
      rewrite <- Hb, <- Eo. apply good_room_message; [|done]. apply Hroom. eapply said_archived; eauto.
    + apply good_archived_chat; [|done]. intros other outgoing. apply Hchat. by eapply said_by_account.
  - destruct (sd_type _); eauto with good.
    1: { apply good_room_message; [|done]. apply Hroom. by apply said_live. }
    all: unfold on_chat; cbv zeta; destruct (xm_received m) as [f|];
      [destruct (sd_from (fw_message f)); [|done]; case_bool_decide; [|done]; apply good_chat; [|done]; apply Hchat; by eapply said_by_account|];
      destruct (xm_sent m) as [f|];
      [destruct (sd_to (fw_message f)); [|done]; case_bool_decide; [|done]; apply good_chat; [|done]; apply Hchat; by eapply said_by_account|];
      case_bool_decide; [done|]; apply good_chat;
      [|destruct (sd_stanza_id _) as [[by_ id]|]; [case_bool_decide|]; eauto with good];
      assert (chat_said s m from false) as Hc by (by apply said_directly); apply Hchat in Hc;
      destruct (sd_stanza_id _) as [[by_ id]|]; [case_bool_decide|]; exact Hc.
Qed.
End Good.

(** * What is answered *)

(** What a request is answered with: nothing but that it is declined, unless it
    is a ping, or our own server's word about the contact list. *)
Definition replies (s : XSession) (i : XStanza) (o : OutStanza) : Prop :=
  match i, o with
  | IqStanza (IqGet from id _ | IqSet from id _), OutDeclined to id' => to = show <$> from ∧ id' = id
  | IqStanza (IqGet from id Ping | IqSet from id Ping), OutResult to id' =>
      to = default (server s) (show <$> from) ∧ id' = id
  | IqStanza (IqSet from id (RosterRequest _)), OutResult to id' =>
      to = default (account_text s) (show <$> from) ∧ id' = id ∧ (∀ f, from = Some f → bare f = account_text s)
  | _, _ => False
  end.

Lemma good_iq (P : OutStanza → Prop) (R : Event → Prop) i s :
  (∀ o, unasked o → P o) → (∀ e, plain e → R e) → (∀ o, replies s (IqStanza i) o → P o) →
  good P R (on_iq parse_url is_ip i (mkSt s no_effects)).
Proof.
  intros HP HR Hrep. assert (good P R (mkSt s no_effects)) as H0 by (split; constructor).
  assert (∀ from id q, (∀ o, replies s (IqStanza (IqGet from id q)) o → P o) →
            good P R (answer_request from id q (mkSt s no_effects))) as Hans.
  { intros from id q Hq. unfold answer_request. destruct q; apply good_send; try done; by apply Hq. }
  destruct i as [from id q|from id q|from id a|from id c]; cbn [on_iq].
  - by apply Hans.
  - destruct q as [|items|]; [apply Hans; intros o Ho; apply Hrep; exact Ho| |apply Hans; intros o Ho; apply Hrep; exact Ho].
    unfold on_roster_push. set (ours := match from with Some _ => _ | None => _ end).
    destruct (if ours then items else None) as [l|] eqn:El.
    + destruct (apply_roster _ _ _ _) as [es c]. cbv zeta. apply good_send; [|by apply good_contacts].
      apply Hrep. cbn. split_and!; [done|done|]. intros f ->. destruct ours eqn:Eo; [|done]. unfold ours in Eo.
      apply andb_true_iff in Eo as [_ Eo]. by apply bool_decide_eq_true in Eo.
    + apply good_send; [|done]. apply Hrep. done.
  - destruct (came_from_expected _ _ _); [|done]. by apply good_result.
  - destruct (came_from_expected _ _ _); [|done]. by apply good_on_error.
Qed.

(** A stanza does good if what its speakers say is. *)
Lemma good_stanza (P : OutStanza → Prop) (R : Event → Prop) i s :
  (∀ o, unasked o → P o) → (∀ e, plain e → R e) → (∀ o, replies s i o → P o) →
  (∀ m from, i = MessageStanza m → room_said s m from →
     room_may_say R (index s) (clean_name <$> resource from) (our_occupant s from)) →
  (∀ m other outgoing, i = MessageStanza m → chat_said s m other outgoing →
     may_say R ToDirect (index s) (chat_key s other outgoing) (λ _, eq outgoing)) →
  good P R (on_stanza i s).
Proof.
  intros HP HR Hrep Hroom Hchat. assert (good P R (mkSt s no_effects)) as H0 by (split; constructor).
  destruct i as [m|p|q]; cbn [XmppSession.on_stanza].
  - apply good_message; eauto.
  - by apply good_presence.
  - by apply good_iq.
Qed.

(** C23: nothing is answered that was not asked. Whatever a stanza says, no
    message is sent because of it, no presence but the one that joins a room
    with nothing of the user in it, and a request is declined, or granted when
    it is a ping or the account's own server pushing the contact list; the rest
    are questions of our own. *)
Theorem nothing_volunteered (i : XStanza) (s : XSession) :
  Forall (λ o, unasked o ∨ replies s i o) (fx_send (fx (on_stanza i s))).
Proof. refine (proj1 (good_stanza _ (λ _, True) i s _ _ _ _ _)); unfold room_may_say, may_say; auto. Qed.

(** C5: nobody can put words in the user's mouth. A private message shown as the
    user's own, or a correction in a private conversation shown as theirs,
    arrived in a message from the user's own account. One shown as theirs in a
    room is that room's word, or that of the room's archive, asked for: it
    arrived in a message from the address of a room we hold, which is the one it
    is shown in, as said by the occupant whose nick we have there. *)
Theorem own_words (i : XStanza) (s : XSession) (e : Event) (t : Target) :
  e ∈ fx_events (fx (on_stanza i s)) → shown_as_own e = Some t →
  ∃ m from, i = MessageStanza m ∧ sd_from (xm_said m) = Some from ∧
    match t with
    | ToDirect _ => bare from = account_text s
    | ToChannel conv => ∃ speaker, room_said s m speaker ∧ bare speaker = bare from ∧ our_occupant s speaker conv
    end.
Proof.
  set (T := λ t, ∃ m from, i = MessageStanza m ∧ sd_from (xm_said m) = Some from ∧
    match t with
    | ToDirect _ => bare from = account_text s
    | ToChannel conv => ∃ speaker, room_said s m speaker ∧ bare speaker = bare from ∧ our_occupant s speaker conv
    end).
  intros He Ho. change (T t). assert (good (λ _, True) (λ e, ∀ t, shown_as_own e = Some t → T t) (on_stanza i s)) as [_ Hg].
  { apply good_stanza; [done| |done|..].
    - intros [] Hpl; done.
    - intros m from -> Hs.
      assert (∀ conv c, cm_target c = ToChannel conv → (cm_is_self c = true → our_occupant s from conv) →
        ∀ t, (if cm_is_self c then Some (cm_target c) else None) = Some t → T t) as HT.
      { intros conv c Ht Hc t'. destruct (cm_is_self c); [|done]. intros [= <-]. rewrite Ht. exists m.
        specialize (Hc eq_refl). inversion Hs; subst; eexists; (split_and!; [done|done|]); exists from; (split_and!; [done|congruence|done]). }
      split; [intros c conv Ht Hc; by eapply HT|]. intros nick _. split_and!; [intros c conv Ht Hc; by eapply HT| |done].
      intros conv o entry sender c _ Ht Hc. by eapply HT.
    - intros m other outgoing -> Hs.
      assert (∀ conv c, cm_target c = ToDirect conv → outgoing = cm_is_self c →
        ∀ t, (if cm_is_self c then Some (cm_target c) else None) = Some t → T t) as HT.
      { intros conv c Ht <- t'. destruct outgoing; [|done]. intros [= <-]. rewrite Ht. inversion Hs; subst. unfold T. eauto 10. }
      split_and!; [intros c conv Ht Hc; by eapply HT| |done]. intros conv o entry sender c _ Ht Hc. by eapply HT. }
  rewrite Forall_forall in Hg. by apply (Hg e).
Qed.
End Props.

(** * How often an archive is asked for what was missed: a bound that no answer of
    the archive can move. *)

Create HintDb cheap.

(** * Requests that may still be made *)

(** The pages a catch-up may still ask for, and those of all that are awaited. *)
Definition pages_left (p : Pending) : nat :=
  match p with PCatchUp _ _ pages _ _ => CATCH_UP_PAGES - pages | _ => 0 end.
Definition budget (m : gmap str Pending) : nat := map_fold (λ _ p n, pages_left p + n) 0 m.

Lemma budget_insert id p m : budget (<[id := p]> m) = pages_left p + budget (delete id m).
Proof.
  rewrite <- insert_delete_eq. unfold budget. rewrite map_fold_insert_L; [done|intros; lia|apply lookup_delete_eq].
Qed.
Lemma budget_delete id p m : m !! id = Some p → budget m = pages_left p + budget (delete id m).
Proof. intros H. rewrite <- budget_insert. by rewrite insert_id. Qed.
Lemma budget_delete_le id m : budget (delete id m) ≤ budget m.
Proof. destruct (m !! id) as [p|] eqn:E; [rewrite (budget_delete id p m E); lia|by rewrite delete_id]. Qed.

Definition is_archive_query (o : OutStanza) : bool := match o with OutSet _ _ (ArchiveQuery _ _ _ _) => true | _ => false end.
Definition asked_archive (os : list OutStanza) : nat := length (List.filter is_archive_query os).

Section Archive.
Context {IpAddr : Type}.
Context (prepare_resource : str → option str).
Context (parse_url : str → option Url) (is_ip : str → bool).
Context (to_lowercase : char → str) (is_alphanumeric : char → bool).
Abbreviation St := (@St IpAddr).
Abbreviation on_stanza := (@on_stanza IpAddr prepare_resource parse_url is_ip to_lowercase is_alphanumeric).

(** What was asked, and what may yet be. *)
Definition cost (x : St) : nat := asked_archive (fx_send (fx x)) + budget (pending (ses x)).
Definition cheap (n : nat) (x0 x : St) : Prop := cost x ≤ cost x0 + n.

Lemma cheap_refl n x : cheap n x x.
Proof. unfold cheap. lia. Qed.
Lemma cheap_same n x0 x x' : fx_send (fx x') = fx_send (fx x) → pending (ses x') = pending (ses x) → cheap n x0 x → cheap n x0 x'.
Proof. unfold cheap, cost. by intros -> ->. Qed.
Lemma cheap_room n j f x0 x : cheap n x0 x → cheap n x0 (on_room j f x).
Proof. by apply cheap_same. Qed.
Lemma cheap_drop n j x0 x : cheap n x0 x → cheap n x0 (drop_room j x).
Proof. by apply cheap_same. Qed.
Lemma cheap_index n f x0 x : cheap n x0 x → cheap n x0 (on_index f x).
Proof. by apply cheap_same. Qed.
Lemma cheap_event n e x0 x : cheap n x0 x → cheap n x0 (event e x).
Proof. by apply cheap_same. Qed.
Lemma cheap_error n m x0 x : cheap n x0 x → cheap n x0 (error m x).
Proof. by apply cheap_same. Qed.
Lemma cheap_contacts n c x0 x : cheap n x0 x → cheap n x0 (with_ses (set_contacts c) x).
Proof. by apply cheap_same. Qed.
Lemma cheap_cursor n c x0 x : cheap n x0 x → cheap n x0 (with_ses (set_cursor c) x).
Proof. by apply cheap_same. Qed.
Lemma cheap_service n u x0 x : cheap n x0 x → cheap n x0 (with_ses (set_upload u) x).
Proof. by apply cheap_same. Qed.
Lemma cheap_tickets n f g x0 x : cheap n x0 x → cheap n x0 (with_ses (λ s, set_tickets (f s) (g s) s) x).
Proof. by apply cheap_same. Qed.
Lemma cheap_upload n j x0 x : cheap n x0 x → cheap n x0 (push_upload j x).
Proof. by apply cheap_same. Qed.
Lemma cheap_send n o x0 x : is_archive_query o = false → cheap n x0 x → cheap n x0 (send o x).
Proof. intros Ho. unfold cheap, cost, asked_archive, send. cbn. rewrite List.filter_app, length_app. cbn. rewrite Ho. cbn. lia. Qed.
Lemma cheap_foldl {B} n (f : St → B → St) l x0 x : (∀ x b, cheap n x0 x → cheap n x0 (f x b)) → cheap n x0 x → cheap n x0 (foldl f x l).
Proof. intros Hf. revert x. induction l; intros x H; [done|]. cbn. auto. Qed.
Hint Resolve cheap_refl cheap_room cheap_drop cheap_index cheap_event cheap_error cheap_contacts cheap_cursor cheap_service
  cheap_tickets cheap_upload : cheap.
Hint Extern 1 (cheap _ _ (send _ _)) => apply cheap_send; [reflexivity|] : cheap.
Lemma cheap_events n es x0 x : cheap n x0 x → cheap n x0 (events es x).
Proof. apply cheap_foldl. auto with cheap. Qed.
Hint Resolve cheap_events : cheap.

Ltac cheaps := intros; repeat (case_match; subst); eauto 12 with cheap.

(** Asking for nothing from an archive costs nothing. *)
Lemma cheap_request n p f x0 x : pages_left p = 0 → (∀ id, is_archive_query (f id) = false) → cheap n x0 x → cheap n x0 (request p f x).
Proof.
  intros Hp Hf H. unfold request, next_id. apply cheap_send; [apply Hf|]. unfold cheap, cost in *. cbn.
  rewrite budget_insert, Hp. 
  match goal with |- context [budget (delete ?i ?m)] => pose proof (budget_delete_le i m) end. lia.
Qed.

(** A new catch-up may ask as often as there are pages, and one that goes on has
    paid for its next page already. *)
Lemma cheap_catch_up n room from fetched pages x0 x :
  cost x + S (CATCH_UP_PAGES - (pages + 1)) ≤ cost x0 + n → cheap n x0 (send_catch_up room from fetched pages x).
Proof.
  intros H. unfold send_catch_up, next_id, cheap, cost in *. cbn -[CATCH_UP_PAGES]. rewrite budget_insert. cbn -[CATCH_UP_PAGES].
  unfold asked_archive in *. rewrite List.filter_app, length_app. cbn -[CATCH_UP_PAGES].
  
  match goal with |- context [budget (delete ?i ?m)] => pose proof (budget_delete_le i m) end. lia.
Qed.

Lemma cheap_join n j password x0 x : cheap n x0 x → cheap n x0 (send_join prepare_resource j password x).
Proof. unfold send_join. cheaps. Qed.
Lemma cheap_fail n ticket why x0 x : cheap n x0 x → cheap n x0 (fail_upload ticket why x).
Proof. unfold fail_upload. cheaps. Qed.
Hint Resolve cheap_join cheap_fail : cheap.
Lemma cheap_slot n ticket payload x0 x : cheap n x0 x → cheap n x0 (on_slot parse_url is_ip ticket payload x).
Proof. unfold on_slot. cheaps. Qed.
Hint Resolve cheap_slot : cheap.

Lemma cheap_weaken n x0 x : cheap 0 x0 x → cheap n x0 x.
Proof. unfold cheap. lia. Qed.

(** An answer is charged to the request it ends. *)
Lemma cheap_result id payload x : cheap 0 x (on_result parse_url is_ip id payload x).
Proof.
  unfold on_result. cbv zeta. set (x' := with_ses _ x).
  assert (cheap 0 x x') as H.
  { unfold cheap, cost. cbn. pose proof (budget_delete_le id (pending (ses x))). lia. }
  destruct (pending (ses x) !! id) as [p|] eqn:Ep; [|done]. destruct p; try done; try (clearbody x'; cheaps; fail).
  - destruct payload as [[]|]; try done. apply cheap_foldl; [|done]. intros y [j nd] Hy. unfold ask_about.
    destruct (is_some _); [done|]. by apply cheap_request.
  - destruct (next_page _ _ _ _ _) as [last|] eqn:En; [|done]. apply cheap_catch_up. unfold cost in *.
    cbn -[CATCH_UP_PAGES]. rewrite (budget_delete id _ _ Ep). cbn -[CATCH_UP_PAGES].
    unfold next_page in En. repeat (case_match; try done).
    match goal with H : _ = true |- _ => rewrite !andb_true_iff, !Nat.ltb_lt in H; destruct H as [_ H] end. lia.
Qed.
Lemma cheap_on_error id c x : cheap 0 x (on_error id c x).
Proof.
  unfold on_error. cbv zeta. set (x' := with_ses _ x).
  assert (cheap 0 x x') as H.
  { unfold cheap, cost. cbn. pose proof (budget_delete_le id (pending (ses x))). lia. }
  clearbody x'. cheaps.
Qed.
Lemma cheap_iq i x : cheap 0 x (on_iq parse_url is_ip i x).
Proof.
  destruct i as [from id q|from id q|from id a|from id c]; cbn [on_iq].
  - unfold answer_request. cheaps.
  - unfold answer_request, on_roster_push. cheaps.
  - destruct (came_from_expected _ _ _); [apply cheap_result|apply cheap_refl].
  - destruct (came_from_expected _ _ _); [apply cheap_on_error|apply cheap_refl].
Qed.

(** ** Messages *)

Lemma cheap_retraction n to conv id author sender x0 x : cheap n x0 x → cheap n x0 (apply_retraction to conv id author sender x).
Proof. unfold apply_retraction. cheaps. Qed.
Lemma cheap_subject n j room sender subject x0 x : cheap n x0 x → cheap n x0 (on_subject j room sender subject x).
Proof. unfold on_subject. cheaps. Qed.
Lemma cheap_room_body n j room sender body m time replayed room_id origin x0 x :
  cheap n x0 x → cheap n x0 (show_room_body to_lowercase is_alphanumeric j room sender body m time replayed room_id origin x).
Proof.
  unfold show_room_body. intros H. destruct (read_body _ _) as [[act reply] text].
  destruct (match sender with Some _ => _ | None => _ end) as [[[nick self] prefix] notice]. cbv zeta.
  destruct (_ ≫= _); [auto with cheap|]. apply cheap_event.
  destruct (match room_id with Some _ => _ | None => _ end); [destruct notice|]; auto with cheap.
Qed.
Hint Resolve cheap_retraction cheap_subject cheap_room_body : cheap.
Lemma cheap_room_message n j from m time archived x0 x :
  cheap n x0 x → cheap n x0 (show_room_message to_lowercase is_alphanumeric j from m time archived x).
Proof. unfold show_room_message. cbv zeta. cheaps. Qed.
Lemma cheap_chat n other m outgoing time replayed x0 x :
  cheap n x0 x → cheap n x0 (show_chat is_alphanumeric other m outgoing time replayed x).
Proof.
  intros H. unfold show_chat. cbv zeta. destruct (if is_some _ then _ else _) as [name sender].
  destruct (_ && _); [done|]. destruct (retraction _); [auto with cheap|]. destruct (clean_text <$> _); [|done].
  destruct (is_empty _); [done|]. destruct (read_body _ _) as [[act reply] text].
  destruct (_ ≫= _); [auto with cheap|]. apply cheap_event. destruct (_ <$> _); auto with cheap.
Qed.
Hint Resolve cheap_room_message cheap_chat : cheap.
Lemma cheap_archived_chat n inner id time x0 x : cheap n x0 x → cheap n x0 (on_archived_chat is_alphanumeric inner id time x).
Proof. unfold on_archived_chat. cheaps. Qed.
Hint Resolve cheap_archived_chat : cheap.

(** A result counts towards the total of its request and changes nothing else
    of it. *)
Lemma cheap_archived from r x : cheap 0 x (on_archived to_lowercase is_alphanumeric from r x).
Proof.
  unfold on_archived. destruct (mam_queryid r) as [q|]; [|apply cheap_refl].
  destruct (pending (ses x) !! q) as [[]|] eqn:Ep; try apply cheap_refl.
  destruct (is_some _); [apply cheap_refl|]. case_bool_decide; [|apply cheap_refl]. cbn [negb].
  set (x' := await _ _ _). assert (cheap 0 x x') as H'.
  { unfold cheap, cost. cbn -[CATCH_UP_PAGES]. rewrite budget_insert, (budget_delete _ _ _ Ep). cbn -[CATCH_UP_PAGES]. lia. }
  clearbody x'. cheaps.
Qed.

Lemma cheap_message m x : cheap 0 x (on_message to_lowercase is_alphanumeric m x).
Proof.
  unfold on_message. destruct (sd_from _); [|apply cheap_refl]. destruct (xm_mam m); [apply cheap_archived|].
  unfold on_chat. cbv zeta. cheaps.
Qed.

(** ** Presence *)

Lemma cheap_arrival j room nick self item p x : cheap CATCH_UP_PAGES x (on_arrival to_lowercase j room nick self item p x).
Proof.
  unfold on_arrival. cbv zeta. set (x' := on_room j (λ r, (upsert _ r).2) _).
  assert (cheap 0 x x') as H' by (unfold x'; auto with cheap). clearbody x'.
  destruct (renaming room !! nick) as [old|].
  { apply cheap_weaken. destruct (room_is_self room old); auto 10 with cheap. }
  destruct (joined room); cbn [negb].
  - apply cheap_weaken. destruct (occupants room !! nick); [case_bool_decide|]; auto 10 with cheap.
  - destruct self; [|by apply cheap_weaken].
    match goal with |- context [match ?r with Some _ => event (MemberList _ _) _ | None => _ end] => destruct r end;
      (destruct (last_id room); [apply cheap_catch_up|apply cheap_weaken; auto 10 with cheap]);
      (assert (0 < CATCH_UP_PAGES) as Hpos by (vm_compute; lia));
      unfold cheap, cost, asked_archive in *; cbn -[CATCH_UP_PAGES] in *; lia.
Qed.

Lemma cheap_presence p x : cheap CATCH_UP_PAGES x (on_presence prepare_resource to_lowercase p x).
Proof.
  unfold on_presence, on_room_presence, on_room_error, on_rename, on_departure. cbv zeta.
  repeat (case_match; subst); try apply cheap_arrival; apply cheap_weaken; auto 12 with cheap.
Qed.

(** * Runs *)

Definition run_stanzas (s : XSession) (l : list XStanza) : list OutStanza * XSession :=
  foldl (λ '(os, s) i, let x := on_stanza i s in (os ++ fx_send (fx x), ses x)) ([], s) l.
Definition is_presence (i : XStanza) : bool := match i with PresenceStanza _ => true | _ => false end.
Definition presences (l : list XStanza) : nat := length (List.filter is_presence l).

Lemma stanza_cost i s :
  asked_archive (fx_send (fx (on_stanza i s))) + budget (pending (ses (on_stanza i s)))
  ≤ budget (pending s) + (if is_presence i then CATCH_UP_PAGES else 0).
Proof.
  destruct i as [m|p|q]; cbn [XmppSession.on_stanza is_presence].
  - exact (cheap_message m (mkSt s no_effects)).
  - exact (cheap_presence p (mkSt s no_effects)).
  - exact (cheap_iq q (mkSt s no_effects)).
Qed.

(** C24: an archive cannot keep a session asking. However many messages and
    answers arrive and whatever they say, the requests made of archives number no
    more than those the catch-ups under way may still make, and six for every
    presence: a room joined again. *)
Theorem catch_up_bounded (s : XSession) (l : list XStanza) :
  asked_archive (run_stanzas s l).1 + budget (pending (run_stanzas s l).2)
  ≤ budget (pending s) + CATCH_UP_PAGES * presences l.
Proof.
  induction l as [|i l IH] using rev_ind; [cbn -[CATCH_UP_PAGES]; lia|].
  unfold run_stanzas, presences in *. rewrite foldl_app, List.filter_app, length_app. cbn -[CATCH_UP_PAGES is_presence].
  destruct (foldl _ _ _) as [os s']. cbn [fst snd] in *. unfold asked_archive in *. rewrite List.filter_app, length_app.
  pose proof (stanza_cost i s') as H. unfold asked_archive in H.
  destruct (is_presence i); cbn [length app]; lia.
Qed.
End Archive.
