(* ===== verification/XmppEdits.v ===== *)
(** Who may change what was said: of any session that can come about, a message
    is corrected or taken back only by whoever wrote it. *)
From S2P Require Import Prelude RustStr Format Reply Session Room Contacts Edits EditsProps Outgoing Dates Transfer ServerConfig Upload Xmpp Api XmppSession XmppProps.

Create HintDb indexed.

Section Edits.
Context {IpAddr : Type}.
Context (parse_jid : str → option Jid) (prepare_resource : str → option str) (xml_parses : str → bool).
Context (parse_url : str → option Url) (is_ip : str → bool).
Context (to_lowercase : char → str) (is_alphanumeric : char → bool).
Abbreviation Event := (IrcEvent IpAddr).
Abbreviation St := (@St IpAddr).
Abbreviation on_stanza := (@on_stanza IpAddr prepare_resource parse_url is_ip to_lowercase is_alphanumeric).
Abbreviation on_command := (@on_command IpAddr parse_jid prepare_resource xml_parses is_alphanumeric).
Abbreviation on_online := (@on_online IpAddr prepare_resource).
Abbreviation begin_upload := (@begin_upload IpAddr parse_jid).
Abbreviation upload_finished := (@upload_finished IpAddr parse_jid is_alphanumeric).

(** * Sessions that come about *)

Inductive reachable : XSession → Prop :=
  | reach_new c prefix s : XmppSession.new parse_jid c prefix = Some s → reachable s
  | reach_online s : reachable s → reachable (ses (on_online s))
  | reach_command c s : reachable s → reachable (ses (on_command c s))
  | reach_stanza i s : reachable s → reachable (ses (on_stanza i s))
  | reach_begin target filename size s : reachable s → reachable (ses (begin_upload target filename size s).2)
  | reach_finished ticket r s : reachable s → reachable (ses (upload_finished ticket r s)).

(** ** The index is never out of step with its queue *)

Definition indexed (x : St) : Prop := index_ok (index (ses x)).

Lemma indexed_same x x' : index (ses x') = index (ses x) → indexed x → indexed x'.
Proof. unfold indexed. by intros ->. Qed.
Lemma indexed_room j f x : indexed x → indexed (on_room j f x).
Proof. done. Qed.
Lemma indexed_drop j x : indexed x → indexed (drop_room j x).
Proof. done. Qed.
Lemma indexed_await id p x : indexed x → indexed (await id p x).
Proof. done. Qed.
Lemma indexed_event e x : indexed x → indexed (event e x).
Proof. done. Qed.
Lemma indexed_send o x : indexed x → indexed (send o x).
Proof. done. Qed.
Lemma indexed_error m x : indexed x → indexed (error m x).
Proof. done. Qed.
Lemma indexed_upload j x : indexed x → indexed (push_upload j x).
Proof. done. Qed.
Lemma indexed_record e x : indexed x → indexed (on_index (record e) x).
Proof. intros H. by apply record_spec. Qed.
Lemma indexed_forget conv id x : indexed x → indexed (on_index (forget conv id) x).
Proof. intros H. by apply remove_where_spec. Qed.
Lemma indexed_forget_author conv who x : indexed x → indexed (on_index (forget_author conv who) x).
Proof. intros H. by apply remove_where_spec. Qed.
Lemma indexed_forget_conv conv x : indexed x → indexed (on_index (forget_conversation conv) x).
Proof. intros H. by apply remove_where_spec. Qed.
Lemma indexed_forget_prefix conv x : indexed x → indexed (on_index (forget_conversation_prefix conv) x).
Proof. intros H. by apply remove_where_spec. Qed.
Lemma indexed_rename conv old new x : indexed x → indexed (on_index (rename_author conv old new) x).
Proof. intros H. by apply rename_author_spec. Qed.
Lemma indexed_ses f x : (∀ s, index (f s) = index s) → indexed x → indexed (with_ses f x).
Proof. intros Hf. apply indexed_same, Hf. Qed.
Lemma indexed_foldl {B} (f : St → B → St) l x : (∀ x b, indexed x → indexed (f x b)) → indexed x → indexed (foldl f x l).
Proof. intros Hf. revert x. induction l; intros x H; [done|]. cbn. auto. Qed.
Lemma indexed_events es x : indexed x → indexed (events es x).
Proof. by apply indexed_foldl. Qed.
Hint Resolve indexed_room indexed_drop indexed_await indexed_event indexed_send indexed_error indexed_upload indexed_record
  indexed_forget indexed_forget_author indexed_forget_conv indexed_forget_prefix indexed_rename indexed_events : indexed.
Hint Extern 1 (indexed (with_ses _ _)) => apply indexed_ses; [reflexivity|] : indexed.

Ltac indexes := intros; repeat (case_match; subst); eauto 12 with indexed.

Lemma indexed_request p f x : indexed x → indexed (request p f x).
Proof. unfold request, next_id. indexes. Qed.
Lemma indexed_catch_up room from fetched pages x : indexed x → indexed (send_catch_up room from fetched pages x).
Proof. unfold send_catch_up, next_id. indexes. Qed.
Lemma indexed_join j password x : indexed x → indexed (send_join prepare_resource j password x).
Proof. unfold send_join. indexes. Qed.
Lemma indexed_fail ticket why x : indexed x → indexed (fail_upload ticket why x).
Proof. unfold fail_upload. indexes. Qed.
Hint Resolve indexed_request indexed_catch_up indexed_join indexed_fail : indexed.

Lemma indexed_say target text action oob x : indexed x → indexed (say_with parse_jid is_alphanumeric target text action oob x).
Proof.
  intros H. unfold say_with. destruct (parse_jid _); [|auto with indexed]. cbv zeta. destruct (match _ with Some _ => _ | None => _ end); [auto with indexed|].
  apply indexed_foldl; [|done]. intros y b Hy. unfold say_part, next_id. indexes.
Qed.
Hint Resolve indexed_say : indexed.

Lemma indexed_online s : index_ok (index s) → indexed (on_online s).
Proof.
  intros H. unfold XmppSession.on_online. cbv zeta. destruct (forget_presence _), (clear_requests _).
  apply indexed_foldl; [intros; unfold rejoin; auto with indexed|].
  set (x := foldl _ _ _). assert (indexed x) as Hx.
  { apply indexed_foldl; [auto with indexed|]. auto 10 with indexed. }
  clearbody x. indexes.
Qed.

Lemma indexed_command c s : index_ok (index s) → indexed (on_command c s).
Proof.
  intros H. assert (indexed (mkSt s no_effects)) as H0 by done.
  destruct c; cbn [XmppSession.on_command]; unfold say; auto with indexed;
    unfold join, part, kick, set_nick, set_topic, add_contact, remove_contact, answer_subscription, set_availability,
      edit, retract, next_id; indexes; apply indexed_foldl; indexes.
Qed.

Lemma indexed_upload_ops :
  (∀ target filename size s, index_ok (index s) → indexed (begin_upload target filename size s).2) ∧
  (∀ ticket r s, index_ok (index s) → indexed (upload_finished ticket r s)).
Proof.
  split; intros; assert (indexed (mkSt s no_effects)) as H0 by done.
  - unfold XmppSession.begin_upload. cbv zeta. indexes.
  - unfold XmppSession.upload_finished. cbv zeta. destruct r; [|auto with indexed]. destruct (tickets s !! ticket) as [t|]; [|done].
    destruct (t_get t); [|done]. match goal with |- indexed (mkSt (ses ?y) _) => change (indexed y) end. by apply indexed_say.
Qed.

(** ** Stanzas *)

Lemma indexed_presence p x : indexed x → indexed (on_presence prepare_resource to_lowercase p x).
Proof.
  intros H. unfold on_presence, on_room_presence, on_room_error, on_rename, on_departure, on_arrival. cbv zeta.
  repeat (case_match; subst); eauto 14 with indexed.
Qed.
Lemma indexed_iq i x : indexed x → indexed (on_iq parse_url is_ip i x).
Proof.
  intros H. destruct i; cbn [on_iq]; unfold answer_request, on_roster_push, on_result, on_error, on_slot; cbv zeta; indexes.
  apply indexed_foldl; [|auto with indexed]. intros. unfold ask_about. indexes.
Qed.
Lemma indexed_retraction to conv id author sender x : indexed x → indexed (apply_retraction to conv id author sender x).
Proof. unfold apply_retraction. indexes. Qed.
Hint Resolve indexed_retraction : indexed.
Lemma indexed_room_message j from m time archived x :
  indexed x → indexed (show_room_message to_lowercase is_alphanumeric j from m time archived x).
Proof. intros H. unfold show_room_message, show_room_body, on_subject. cbv zeta. indexes. Qed.
Lemma indexed_chat other m outgoing time replayed x :
  indexed x → indexed (show_chat is_alphanumeric other m outgoing time replayed x).
Proof. intros H. unfold show_chat. cbv zeta. indexes. Qed.
Hint Resolve indexed_room_message indexed_chat : indexed.
Lemma indexed_message m x : indexed x → indexed (on_message to_lowercase is_alphanumeric m x).
Proof. intros H. unfold on_message, on_archived, on_archived_chat, on_chat. cbv zeta. indexes. Qed.

Lemma reachable_indexed s : reachable s → index_ok (index s).
Proof.
  induction 1 as [c prefix s Hn|s _ IH|c s _ IH|i s _ IH|target filename size s _ IH|ticket r s _ IH].
  - unfold XmppSession.new in Hn. destruct (bare_jid _ _); [|done]. injection Hn as <-. apply default_ok.
  - by apply indexed_online.
  - by apply indexed_command.
  - destruct i; cbn [XmppSession.on_stanza]; [by apply indexed_message|by apply indexed_presence|by apply indexed_iq].
  - by apply indexed_upload_ops.
  - by apply indexed_upload_ops.
Qed.

(** * Authorship *)

Lemma found_elem e p l : e ∈ Scan.found p l ↔ p e = true ∧ e ∈ entries l.
Proof. unfold Scan.found. rewrite list_elem_of_In, <- in_rev, <- list_elem_of_In, list_elem_of_filter. done. Qed.

Lemma correction_author x conv o who e :
  index_ok x → for_correction x conv o who = Some e → e ∈ entries (slots x) ∧ conversation e = conv ∧ author e = who.
Proof.
  intros Hok. rewrite for_correction_scan by done. unfold Scan.for_correction. intros Hf.
  apply find_some in Hf as [Hin Ha]. apply list_elem_of_In, found_elem in Hin as [Hp Hin].
  apply bool_decide_eq_true in Ha. apply andb_true_iff in Hp as [Hp _]. by apply bool_decide_eq_true in Hp.
Qed.
Lemma retraction_author x conv id who e :
  index_ok x → for_retraction x conv id who = Some e → e ∈ entries (slots x) ∧ conversation e = conv ∧ author e = who.
Proof.
  intros Hok. rewrite for_retraction_scan by done. unfold Scan.for_retraction. intros Hf.
  apply find_some in Hf as [Hin Ha]. apply bool_decide_eq_true in Ha.
  apply list_elem_of_In, elem_of_app in Hin. rewrite !found_elem in Hin.
  destruct Hin as [[Hp Hin]|[Hp Hin]]; apply andb_true_iff in Hp as [Hp _]; by apply bool_decide_eq_true in Hp.
Qed.

(** A stanza in which a room, or the one a chat is with, speaks for someone. *)
Definition spoken_by (s : XSession) (i : XStanza) (t : Target) (who : str) : Prop :=
  ∃ m, i = MessageStanza m ∧
  match t with
  | ToChannel _ => ∃ from, room_said s m from ∧ clean_name <$> resource from = Some who
  | ToDirect _ => ∃ other outgoing, chat_said s m other outgoing ∧ who = chat_key s other outgoing
  end.

(** C4: only its author changes a message. In any session that can come about,
    whatever stanza arrives: if it leads to a message being shown corrected or
    taken back, that message is on record in that conversation, as written by
    whoever the stanza is from: the occupant a room or its archive says, the
    address a chat comes from, or someone our own account vouches for. *)
Theorem only_author_edits (s : XSession) (i : XStanza) (e : Event) :
  reachable s → e ∈ fx_events (fx (on_stanza i s)) →
  match e with
  | MessageEdited t id _ _ | MessageRetracted t id _ =>
      ∃ entry, entry ∈ entries (slots (index s)) ∧ conversation entry = target_name t ∧ Edits.msgid entry = id ∧
               spoken_by s i t (author entry)
  | _ => True
  end.
Proof.
  intros Hs%reachable_indexed He.
  set (R := λ e : Event, match e with
    | MessageEdited t id _ _ | MessageRetracted t id _ =>
        ∃ entry, entry ∈ entries (slots (index s)) ∧ conversation entry = target_name t ∧ Edits.msgid entry = id ∧
                 spoken_by s i t (author entry)
    | _ => True end). change (R e).
  assert (∀ to key self, (∀ conv, target_name (to conv) = conv) → (∀ conv, spoken_by s i (to conv) key) →
            may_say R to (index s) key self) as Hsay.
  { intros to key self Hto Hspoken. split_and!; [done|..].
    - intros conv o entry sender m Hc _ _. apply correction_author in Hc as (H1 & H2 & H3); [|done]. exists entry.
      rewrite Hto, H3. done.
    - intros conv id entry sender Hc. apply retraction_author in Hc as (H1 & H2 & H3); [|done]. exists entry.
      rewrite Hto, H3. done. }
  assert (good (λ _, True) R (on_stanza i s)) as [_ Hg].
  { apply good_stanza; [done|by intros []|done|..].
    - intros m from -> Hroom. split; [done|]. intros nick Hn. apply Hsay; [done|]. intros conv. exists m. split; [done|]. cbn. eauto.
    - intros m other outgoing -> Hchat. apply Hsay; [done|]. intros conv. exists m. split; [done|]. cbn. eauto. }
  rewrite Forall_forall in Hg. by apply Hg.
Qed.
End Edits.
