(* ===== verification/XmppLogin.v ===== *)
(** Logging an XMPP account in: which mechanisms are accepted
    ([xmpp/auth.rs]), what a failure means ([xmpp/diagnose.rs]) and how often
    it is tried again ([keep_trying] of [xmpp/actor.rs]).

    The libraries' errors are the cases the source tells apart, with the text
    they show themselves as where the source passes it on. One attempt is an
    input: what came of it, whether the stream was closed meanwhile, whether
    the account had been online before, and how the wait after it ended. *)
From Stdlib Require Import SpecFloat.
From S2P Require Import Prelude RustStr RateLimit.

(** * Mechanisms *)

Definition ACCEPTED : list str := map lit ["SCRAM-SHA-256"; "SCRAM-SHA-1"; "PLAIN"]%string.

(** A [BTreeSet] of strings goes through them in order. *)
Definition acceptable (advertised : gset str) : gset str := filter (λ m, m ∈ ACCEPTED) advertised.
Definition describe (advertised : gset str) : str :=
  if bool_decide (advertised = ∅) then lit "none" else join (lit ", ") (sort (elements advertised)).

(** * What went wrong *)

Inductive SaslCondition :=
  | NotAuthorized | AccountDisabled | CredentialsExpired | EncryptionRequired | MechanismTooWeak
  | TemporaryAuthFailure | OtherCondition (debug : str).
Inductive AuthError := Fail (c : SaslCondition) | NoMechanism | SaslFailed (e : str) | ComponentFail.
Inductive TlsError :=
  | NotValidForName | Expired | UnknownIssuer | OtherCertificate (debug : str) | OtherTls (e : str).
Inductive SocksError :=
  | SocksIo | HostUnreachable | NetworkUnreachable | SocksRefused | PasswordAuthFailure | AuthorizationRequired
  | OtherSocks (e : str).
Inductive IoError := IoProxy (e : SocksError) | IoTls (e : TlsError) | TimedOut | ConnectionRefused | NotFound | OtherIo (e : str).
Inductive XmppError :=
  | Auth (e : AuthError) | Io (e : IoError) | ServerDisconnected | StreamError (e : str) | NoTls | Protocol (e : str)
  | JidParse (e : str) | OtherXmpp (e : str).

Record Diagnosis := mkDiagnosis { message : str; fatal : bool }.
Definition stop (m : str) : Diagnosis := mkDiagnosis m true.
Definition transient (m : str) : Diagnosis := mkDiagnosis m false.

Definition explain_auth (e : AuthError) : Diagnosis :=
  match e with
  | Fail NotAuthorized => stop (lit "The server refused the login. The account name or the password is wrong.")
  | Fail AccountDisabled => stop (lit "This account has been disabled.")
  | Fail CredentialsExpired => stop (lit "The password for this account has expired and must be changed.")
  | Fail EncryptionRequired => stop (lit "The server will not log in over this connection because it is not encrypted enough.")
  | Fail MechanismTooWeak => stop (lit "The server considers every login method this client offers too weak.")
  | Fail TemporaryAuthFailure => transient (lit "The server could not log you in just now.")
  | Fail (OtherCondition c) => stop (lit "The server refused the login (" ++ c ++ lit ").")
  | NoMechanism => stop (lit "The server offers no login method this client is willing to use.")
  | SaslFailed e => stop (lit "The login could not be completed: " ++ e)
  | ComponentFail => stop (lit "The server refused the login.")
  end.

Definition explain_tls (e : TlsError) (server : str) : Diagnosis :=
  match e with
  | NotValidForName => stop (lit "The certificate " ++ server ++ lit " presented is for a different name than the account's domain. ddIRC will not connect to a server that cannot prove it is the right one.")
  | Expired => stop (lit "The certificate " ++ server ++ lit " presented has expired. If this device's clock is wrong, fix that first.")
  | UnknownIssuer => stop (lit "The certificate " ++ server ++ lit " presented was not issued by an authority this device trusts.")
  | OtherCertificate e => stop (lit "The certificate " ++ server ++ lit " presented was refused (" ++ e ++ lit ").")
  | OtherTls e => transient (lit "The encrypted connection to " ++ server ++ lit " failed: " ++ e)
  end.

Definition explain_proxy (e : SocksError) (server : str) : Diagnosis :=
  match e with
  | SocksIo => transient (lit "Could not reach the proxy. Check that it is running and that its address is right.")
  | HostUnreachable | NetworkUnreachable => transient (lit "The proxy could not reach " ++ server ++ lit ".")
  | SocksRefused => transient (lit "The proxy was refused by " ++ server ++ lit ".")
  | PasswordAuthFailure | AuthorizationRequired => stop (lit "The proxy refused the username and password given for it.")
  | OtherSocks e => transient (lit "The proxy could not carry the connection: " ++ e)
  end.

Definition explain_io (e : IoError) (server : str) : Diagnosis :=
  match e with
  | IoProxy e => explain_proxy e server
  | IoTls e => explain_tls e server
  | TimedOut => transient (lit "Connecting to " ++ server ++ lit " took too long.")
  | ConnectionRefused => transient (server ++ lit " refused the connection. The server may be down, or this may not be the port it offers encrypted connections on.")
  | NotFound => transient (lit "Could not find " ++ server ++ lit ". Check the spelling, and your connection.")
  | OtherIo e => transient (lit "The connection to " ++ server ++ lit " failed: " ++ e)
  end.

Definition explain (e : XmppError) (server : str) : Diagnosis :=
  match e with
  | Auth e => explain_auth e
  | Io e => explain_io e server
  | ServerDisconnected => transient (lit "The server closed the connection.")
  | StreamError e => transient (lit "The server ended the stream: " ++ e)
  | NoTls => stop (lit "The server does not offer an encrypted connection, and ddIRC will not connect without one.")
  | Protocol e => transient (lit "The server sent something unexpected: " ++ e)
  | JidParse e => stop (lit "The account address is not valid: " ++ e)
  | OtherXmpp e => transient (lit "Could not connect: " ++ e)
  end.

Definition no_acceptable_mechanism (advertised : gset str) : Diagnosis :=
  stop (lit "The server offers no login method this client is willing to use (it offered: " ++ describe advertised ++ lit ").").

(** * Trying again *)

Definition MAX_ATTEMPTS_BEFORE_FIRST_SUCCESS : N := 3.
Definition STABLE_AFTER : Duration := secs 30.

Definition flapped (last_up : option Instant) (now : Instant) : bool :=
  match last_up with Some up => (now - up <? STABLE_AFTER)%N | None => false end.

Inductive LoginError := LoginXmpp (e : XmppError) | LoginNoMechanism (offered : gset str).

(** [login] past the connection: what the library is offered to log in with. *)
Definition offered_mechanisms (advertised : gset str) : result (gset str) LoginError :=
  if bool_decide (acceptable advertised = ∅) then Err (LoginNoMechanism advertised) else Ok (acceptable advertised).

Inductive Report := Attempt (n : N) | FailedReport (diagnosis : Diagnosis) (retry : option (Duration * N)).

(** How a wait ends, and what an attempt came to. *)
Inductive Waited := Slept | RetriedNow | SlotClosed.
Inductive Tried :=
  | ClosedConnecting
  | LoggedIn (now : Instant)
  | LoginFailed (e : LoginError) (ever_online : bool) (jitter : f64) (w : Waited).

Inductive Finished := Handed (now : Instant) | Parked | Gone | Panicked | More.

Section KeepTrying.
Context (powf : f64 → f64 → f64) (server : str).

Definition diagnose (e : LoginError) : Diagnosis :=
  match e with LoginXmpp e => explain e server | LoginNoMechanism offered => no_acceptable_mechanism offered end.

(** The loop; [attempt] is the one about to be made. *)
Fixpoint attempts (attempt : N) (tries : list Tried) (b : Backoff) : list Report * Finished * Backoff :=
  match tries with
  | [] => ([], More, b)
  | t :: tries =>
      match t with
      | ClosedConnecting => ([Attempt attempt], Gone, b)
      | LoggedIn now => ([Attempt attempt], Handed now, b)
      | LoginFailed e ever_online jitter w =>
          let d := diagnose e in
          let gave_up := negb (fatal d) && negb ever_online && (MAX_ATTEMPTS_BEFORE_FIRST_SUCCESS <=? attempt)%N in
          if fatal d || gave_up then
            let d := if gave_up then stop (message d ++ lit " Gave up after " ++ to_dec attempt ++ lit " attempts.") else d in
            ([Attempt attempt; FailedReport d None], Parked, b)
          else
            match next_delay_with_jitter powf jitter b with
            | (None, b) => ([Attempt attempt], Panicked, b)
            | (Some delay, b) =>
                let said := [Attempt attempt; FailedReport d (Some (delay, attempt + 1)%N)] in
                match w with
                | SlotClosed => (said, Gone, b)
                | _ => let '(more, f, b) := attempts (attempt + 1) tries b in (said ++ more, f, b)
                end
            end
      end
  end.

(** A lock held by a task that panicked is not modelled: the code then waits
    thirty seconds instead of asking the backoff. *)
Definition keep_trying (previous : option Instant) (now : Instant) (jitter : f64) (w : Waited) (tries : list Tried)
    (b : Backoff) : list Report * Finished * Backoff :=
  match previous with
  | None => attempts 1 tries b
  | Some _ =>
      if flapped previous now then
        match next_delay_with_jitter powf jitter b with
        | (None, b) => ([], Panicked, b)
        | (Some delay, b) =>
            let said := [FailedReport (transient (lit "The server dropped the connection straight after accepting it.")) (Some (delay, 1%N))] in
            match w with
            | SlotClosed => (said, Gone, b)
            | _ => let '(more, f, b) := attempts 1 tries b in (said ++ more, f, b)
            end
        end
      else attempts 1 tries (reset b)
  end.

(** * What the server sees of it *)

Definition is_attempt (r : Report) : bool := match r with Attempt _ => true | _ => false end.
Definition tried (rs : list Report) : nat := length (List.filter is_attempt rs).

Definition never_online (t : Tried) : Prop := match t with LoginFailed _ true _ _ => False | _ => True end.

(** A refusal and the end of trying are one thing, and the last. *)
Inductive proper : list Report → Prop :=
  | proper_nil : proper []
  | proper_stop d : fatal d = true → proper [FailedReport d None]
  | proper_attempt n rs : proper rs → proper (Attempt n :: rs)
  | proper_retry d delay n rs : fatal d = false → proper rs → proper (FailedReport d (Some (delay, n)) :: rs).

Lemma attempts_proper n tries b : proper (attempts n tries b).1.1.
Proof.
  revert n b. induction tries as [|t tries IH]; intros n b; cbn [attempts]; [constructor|].
  destruct t as [|now|e online jitter w]; [by repeat constructor..|].
  destruct (fatal (diagnose e)) eqn:Ef; cbn [orb negb andb]; [by repeat constructor|].
  destruct (_ && _); [by repeat constructor|].
  destruct (next_delay_with_jitter powf jitter b) as [[delay|] b']; [|by repeat constructor].
  destruct w; [| |by repeat constructor]; specialize (IH (n + 1)%N b');
    destruct (attempts (n + 1) tries b') as [[more f] b2]; by repeat constructor.
Qed.

Lemma attempts_count n tries b :
  Forall never_online tries → tried (attempts n tries b).1.1 ≤ N.to_nat (3 - n) + 1 ∨ (3 < n)%N ∧ tried (attempts n tries b).1.1 ≤ 1.
Proof.
  intros Ht. revert n b. induction Ht as [|t tries Ht _ IH]; intros n b; cbn [attempts]; [left; cbn; lia|].
  destruct t as [|now|e online jitter w]; [left; cbn; lia|left; cbn; lia|]. destruct online; [done|].
  destruct (fatal (diagnose e)); cbn [orb negb andb]; [left; cbn; lia|].
  destruct (N.leb_spec MAX_ATTEMPTS_BEFORE_FIRST_SUCCESS n) as [Hn|Hn]; [left; cbn; lia|].
  unfold MAX_ATTEMPTS_BEFORE_FIRST_SUCCESS in Hn.
  destruct (next_delay_with_jitter powf jitter b) as [[delay|] b']; [|left; cbn; lia].
  left. destruct w; [| |cbn; lia]; destruct (IH (n + 1)%N b') as [H|[? _]]; try lia;
    destruct (attempts (n + 1) tries b') as [[more f] b2]; unfold tried in *; cbn in *; lia.
Qed.

Lemma keep_trying_proper previous now jitter w tries b : proper (keep_trying previous now jitter w tries b).1.1.
Proof.
  unfold keep_trying. destruct previous as [up|]; [|apply attempts_proper]. case_match; [|apply attempts_proper].
  destruct (next_delay_with_jitter powf jitter b) as [[delay|] b']; [|constructor].
  destruct w; [| |apply proper_retry; [done|constructor]]; pose proof (attempts_proper 1 tries b') as Hp;
    destruct (attempts 1 tries b') as [[more f] b2]; (apply proper_retry; [done|exact Hp]).
Qed.

Lemma keep_trying_count previous now jitter w tries b :
  Forall never_online tries → tried (keep_trying previous now jitter w tries b).1.1 ≤ 3.
Proof.
  intros Ht. assert (∀ b, tried (attempts 1 tries b).1.1 ≤ 3) as H.
  { intros b0. destruct (attempts_count 1 tries b0 Ht) as [?|[? _]]; [lia|lia]. }
  unfold keep_trying. destruct previous as [up|]; [|apply H]. case_match; [|apply H].
  destruct (next_delay_with_jitter powf jitter b) as [[delay|] b']; [|cbn; lia].
  destruct w; [| |cbn; lia]; specialize (H b'); destruct (attempts 1 tries b') as [[more f] b2]; exact H.
Qed.

(** What is said of the failure [e] of attempt [k]: why, in the words for it, and
    either that there will be no other, or when the next one is and which. *)
Definition reports (e : LoginError) (k : N) (d : Diagnosis) (retry : option (Duration * N)) : Prop :=
  match retry with
  | None => fatal d = true ∧ message (diagnose e) `prefix_of` message d
  | Some (_, next) => d = diagnose e ∧ fatal d = false ∧ next = (k + 1)%N
  end.

Lemma attempts_reported n tries b i e online jitter w :
  (attempts n tries b).1.2 ≠ Panicked → tries !! i = Some (LoginFailed e online jitter w) → i < tried (attempts n tries b).1.1 →
  ∃ l1 d retry l2, (attempts n tries b).1.1 = l1 ++ Attempt (n + N.of_nat i) :: FailedReport d retry :: l2 ∧
    tried l1 = i ∧ reports e (n + N.of_nat i) d retry.
Proof.
  revert n b i. induction tries as [|t tries IH]; intros n b i Hf Hi Hl; [done|]. cbn [attempts] in *.
  assert (∀ rs, i < tried (Attempt n :: rs) → tried rs = 0 → i = 0) as Hfirst by (intros rs; unfold tried; cbn; lia).
  destruct t as [|now|e' online' jitter' w']; [by specialize (Hfirst _ Hl eq_refl) as ->..|].
  destruct (_ || _) eqn:Eo; cbn [fst snd] in *.
  { specialize (Hfirst _ Hl eq_refl) as ->. injection Hi as -> -> -> ->. rewrite N.add_0_r. eexists [], _, None, []. split; [done|].
    split; [done|]. destruct (_ && _) eqn:Eg; cbn in *; [split; [done|by eexists]|]. by rewrite orb_false_r in Eo. }
  apply orb_false_iff in Eo as [Ef _].
  destruct (next_delay_with_jitter powf jitter' b) as [[delay|] b']; [|done].
  assert (∀ rest, i = 0 → ∃ l1 d retry l2,
    [Attempt n; FailedReport (diagnose e') (Some (delay, n + 1)%N)] ++ rest = l1 ++ Attempt (n + N.of_nat i) :: FailedReport d retry :: l2 ∧
    tried l1 = i ∧ reports e (n + N.of_nat i) d retry) as Hhere.
  { intros rest ->. injection Hi as -> -> -> ->. rewrite N.add_0_r. by eexists [], _, _, rest. }
  destruct w'; [| |by apply (Hhere []), (Hfirst _ Hl)];
    (specialize (IH (n + 1)%N b' (pred i)); destruct (attempts (n + 1) tries b') as [[more f] b2]; cbn [fst snd] in *;
     destruct i as [|i]; [by apply Hhere|]; destruct IH as (l1 & d & retry & l2 & -> & H1 & H2);
     [done|done|unfold tried in *; cbn in *; lia|];
     exists (Attempt n :: FailedReport (diagnose e') (Some (delay, n + 1)%N) :: l1), d, retry, l2;
     replace (n + N.of_nat (S i))%N with (n + 1 + N.of_nat (pred (S i)))%N by (cbn; lia); split_and!;
     [done|unfold tried in *; cbn in *; lia|done]).
Qed.

Lemma keep_trying_reported previous now jitter w tries b i e online jitter' w' :
  (keep_trying previous now jitter w tries b).1.2 ≠ Panicked → tries !! i = Some (LoginFailed e online jitter' w') →
  i < tried (keep_trying previous now jitter w tries b).1.1 →
  ∃ l1 d retry l2, (keep_trying previous now jitter w tries b).1.1 = l1 ++ Attempt (N.of_nat (S i)) :: FailedReport d retry :: l2 ∧
    tried l1 = i ∧ reports e (N.of_nat (S i)) d retry.
Proof.
  replace (N.of_nat (S i)) with (1 + N.of_nat i)%N by lia. unfold keep_trying.
  destruct previous as [up|]; [|by apply attempts_reported]. case_match; [|by apply attempts_reported].
  destruct (next_delay_with_jitter powf jitter b) as [[delay|] b']; [|done].
  destruct w; [| |by unfold tried; cbn; intros; lia]; intros Hf Hi Hl; pose proof (attempts_reported 1 tries b' i e online jitter' w') as Hrep;
    destruct (attempts 1 tries b') as [[more f] b2]; cbn [fst snd] in *; destruct (Hrep Hf Hi Hl) as (l1 & d & retry & l2 & -> & H1 & H2);
    (eexists (_ :: l1), d, retry, l2; split_and!; [done|exact H1|done]).
Qed.

(** C26: an account that has never been online is tried at most three times.
    Every attempt that fails is reported, right after it (unless computing the
    wait panics): in the words for what went wrong, with the wait before the next
    attempt and its number, or with a final word. Once a login is refused for a reason that waiting cannot cure -
    a wrong password, a certificate for another name, no method but an
    anonymous one - it is not tried again: the report of it is the last, says
    so, and promises no other attempt, online before or not. *)
Theorem login_attempts previous now jitter w tries b :
  let rs := (keep_trying previous now jitter w tries b).1.1 in
  (Forall never_online tries → tried rs ≤ 3) ∧
  ((keep_trying previous now jitter w tries b).1.2 ≠ Panicked →
   ∀ i e online jitter' w', tries !! i = Some (LoginFailed e online jitter' w') → i < tried rs →
   ∃ l1 d retry l2, rs = l1 ++ Attempt (N.of_nat (S i)) :: FailedReport d retry :: l2 ∧ tried l1 = i ∧
     reports e (N.of_nat (S i)) d retry) ∧
  (∀ l1 d retry l2, rs = l1 ++ FailedReport d retry :: l2 → fatal d = true → retry = None ∧ l2 = []) ∧
  (∀ l1 d l2, rs = l1 ++ FailedReport d None :: l2 → fatal d = true).
Proof.
  cbv zeta. split; [apply keep_trying_count|]. split; [by intros; eapply keep_trying_reported|].
  pose proof (keep_trying_proper previous now jitter w tries b) as H. revert H.
  generalize (keep_trying previous now jitter w tries b).1.1. intros rs H. split.
  - induction H as [|d Hd|n rs _ IH|d delay n rs Hd _ IH]; intros l1 d' retry l2.
    + by destruct l1.
    + destruct l1 as [|x l1]; [by intros [= -> <- <-]|]. by destruct l1.
    + destruct l1 as [|x l1]; [done|]. intros [= _ E]. by apply (IH l1).
    + destruct l1 as [|x l1]; [intros [= -> _ _]; congruence|]. intros [= _ E]. by apply (IH l1).
  - induction H as [|d Hd|n rs _ IH|d delay n rs Hd _ IH]; intros l1 d' l2.
    + by destruct l1.
    + destruct l1 as [|x l1]; [by intros [= -> _]|]. by destruct l1.
    + destruct l1 as [|x l1]; [done|]. intros [= _ E]. by apply (IH l1 _ l2).
    + destruct l1 as [|x l1]; [done|]. intros [= _ E]. by apply (IH l1 _ l2).
Qed.
End KeepTrying.

(** Whatever a server offers, the library is given only methods that check the
    password, and never the anonymous one; if there is none the login fails for
    good. *)
Theorem never_anonymous advertised :
  match offered_mechanisms advertised with
  | Ok ms => ms ≠ ∅ ∧ ms ⊆ advertised ∧ (∀ m, m ∈ ms → m ∈ ACCEPTED) ∧ lit "ANONYMOUS" ∉ ms
  | Err e => fatal (diagnose [] e) = true ∧ ∀ m, m ∈ advertised → m ∉ ACCEPTED
  end.
Proof.
  unfold offered_mechanisms, acceptable. case_bool_decide as E.
  - split; [done|]. intros m Hm Ha. assert (m ∈ (∅ : gset str)) as H%elem_of_empty by (rewrite <- E; by apply elem_of_filter). done.
  - split; [done|]. split; [by intros m [_ ?]%elem_of_filter|]. split; [by intros m [? _]%elem_of_filter|].
    intros [H _]%elem_of_filter. revert H. apply (bool_decide_unpack (lit "ANONYMOUS" ∉ ACCEPTED)). vm_compute. exact I.
Qed.
