(* ===== verification/XmppActor.v ===== *)
(** The task that owns an XMPP connection ([Actor] of [xmpp/actor.rs]).

    Its loop waits for whichever comes first, so it is a step function on its
    inputs: a command, something from the stream, a report of the login task or
    of an upload, or the end of a wait. The stream library's queue is the list
    of what was put in it. A clock is a function, read once more each time: the
    source asks for the time again in a loop. [None] is a panic of the limiter,
    whose arithmetic is in floating point. *)
From Stdlib Require Import SpecFloat.
From S2P Require Import Prelude RustStr Format Reply Session Room Contacts Edits Outgoing Dates Transfer ServerConfig Upload Xmpp RateLimit Api XmppLogin XmppSession.

Definition EVENT_QUEUE : nat := 1024.
Definition DROP_REPORT_EVERY : Duration := secs 5.
Definition CANCELLED : str := lit "cancelled".
Definition PROGRESS_EVERY : N := 64 * 1024.

Inductive UploadReport := Progress (ticket sent : N) | FinishedUpload (ticket : N) (r : result unit str).
Inductive Ended := QuitAsked | Stopped.

(** What the file system says of a path. *)
Inductive Metadata := IsFile (len : N) | NotAFile | Unreadable.

(** The [StreamEvent]s and stanzas; a bound address may lack its resource. *)
Inductive StreamInput := Reset (full : bool) | Suspended | Resumed | Stanza (s : XStanza).

Definition is_message (o : OutStanza) : bool := match o with OutMessageStanza _ => true | _ => false end.

(** When progress is worth an event: at the end, and each so often. *)
Definition worth_reporting (size reported sent : N) : bool := (sent =? size)%N || (PROGRESS_EVERY <=? sent - reported)%N.

Section Actor.
Context {IpAddr : Type}.
Context (parse_jid : str → option Jid) (prepare_resource : str → option str) (xml_parses : str → bool).
Context (parse_url : str → option Url) (is_ip : str → bool).
Context (to_lowercase : char → str) (is_alphanumeric : char → bool).
Context (file_name : str → option str).
Abbreviation Event := (IrcEvent IpAddr).
Abbreviation on_stanza := (@on_stanza IpAddr prepare_resource parse_url is_ip to_lowercase is_alphanumeric).
Abbreviation on_command := (@on_command IpAddr parse_jid prepare_resource xml_parses is_alphanumeric).
Abbreviation on_online := (@on_online IpAddr prepare_resource).
Abbreviation session_begin_upload := (@XmppSession.begin_upload IpAddr parse_jid).
Abbreviation upload_finished := (@upload_finished IpAddr parse_jid is_alphanumeric).
Abbreviation Effects := (@Effects IpAddr).
Abbreviation no_effects := (@no_effects IpAddr).

(** The actor with the locals of [connect_once]; [wire] is what the stream was
    given, [spawned] the uploads started. *)
Record XActor := mkXActor {
  session : XSession;
  staged : gmap N (str * N);
  running : gset N;
  spawned : list (UploadJob * str * N);
  paced : list OutStanza;
  wire : list OutStanza;
  queue : list Event;
  listening : bool;
  dropped_events : N;
  recv_limiter : ReceiveLimiter;
  send_limiter : SendLimiter;
  last_drop_report : Instant;
  ever_online : bool;
  retry_now : bool;
}.
Definition set_session s a := mkXActor s (staged a) (running a) (spawned a) (paced a) (wire a) (queue a) (listening a) (dropped_events a) (recv_limiter a) (send_limiter a) (last_drop_report a) (ever_online a) (retry_now a).
Definition set_uploads st r sp a := mkXActor (session a) st r sp (paced a) (wire a) (queue a) (listening a) (dropped_events a) (recv_limiter a) (send_limiter a) (last_drop_report a) (ever_online a) (retry_now a).
Definition set_out p w a := mkXActor (session a) (staged a) (running a) (spawned a) p w (queue a) (listening a) (dropped_events a) (recv_limiter a) (send_limiter a) (last_drop_report a) (ever_online a) (retry_now a).
Definition set_queue q n a := mkXActor (session a) (staged a) (running a) (spawned a) (paced a) (wire a) q (listening a) n (recv_limiter a) (send_limiter a) (last_drop_report a) (ever_online a) (retry_now a).
Definition set_limiters r s t a := mkXActor (session a) (staged a) (running a) (spawned a) (paced a) (wire a) (queue a) (listening a) (dropped_events a) r s t (ever_online a) (retry_now a).
Definition set_shared o n a := mkXActor (session a) (staged a) (running a) (spawned a) (paced a) (wire a) (queue a) (listening a) (dropped_events a) (recv_limiter a) (send_limiter a) (last_drop_report a) o n.

(** [try_send] to the interface. *)
Definition emit (e : Event) (a : XActor) : bool * XActor :=
  if negb (listening a) then (false, a)
  else if Nat.ltb (length (queue a)) EVENT_QUEUE then (true, set_queue (queue a ++ [e]) (dropped_events a) a)
  else (true, set_queue (queue a) (dropped_events a + 1)%N a).
Definition emit_ (e : Event) (a : XActor) : XActor := (emit e a).2.
Definition status (s : ConnectionStatus) (detail : option str) (a : XActor) : XActor := emit_ (Status s detail) a.
Definition fatal (m : str) (a : XActor) : XActor := status Disconnected (Some m) (emit_ (ErrorEvent m true) a).

Definition report_drops (now : Instant) (a : XActor) : XActor :=
  if (now - last_drop_report a <? DROP_REPORT_EVERY)%N then a
  else
    let '(flooded, r) := take_dropped (recv_limiter a) in
    let total := (flooded + dropped_events a)%N in
    let a := set_limiters r (send_limiter a) now (set_queue (queue a) 0 a) in
    if (0 <? total)%N then emit_ (MessagesDropped None total) a else a.

(** ** Uploads *)

Definition start_upload (j : UploadJob) (a : XActor) : XActor :=
  match staged a !! j_ticket j with
  | None => a
  | Some (path, size) =>
      set_uploads (delete (j_ticket j) (staged a)) ({[j_ticket j]} ∪ running a) (spawned a ++ [(j, path, size)]) a
  end.

Definition cancel (ticket : N) (a : XActor) : bool * XActor :=
  (bool_decide (is_Some (staged a !! ticket)) || bool_decide (ticket ∈ running a),
   set_uploads (delete ticket (staged a)) (running a ∖ {[ticket]}) (spawned a) a).

(** ** Carrying out what the session decided *)

(** [release]: [n] counts the readings of the clock. *)
Fixpoint release_from (clock : nat → Instant) (n : nat) (waiting : list OutStanza) (s : SendLimiter) (out : list OutStanza) :
    option (list OutStanza * SendLimiter * list OutStanza) :=
  match waiting with
  | [] => Some ([], s, out)
  | m :: rest =>
      match acquire (clock n) s with
      | (None, _) => None
      | (Some 0%N, s) => release_from clock (S n) rest s (out ++ [m])
      | (Some _, s) => Some (waiting, s, out)
      end
  end.
Definition release (clock : nat → Instant) (a : XActor) : option XActor :=
  '(waiting, s, out) ← release_from clock 0 (paced a) (send_limiter a) (wire a);
  Some (set_limiters (recv_limiter a) s (last_drop_report a) (set_out waiting out a)).

Definition show_event (e : Event) (a : XActor) : XActor :=
  let a := match e with
           | FileTransferEnded id _ _ _ _ => set_uploads (delete id (staged a)) (running a ∖ {[id]}) (spawned a) a
           | _ => a
           end in
  emit_ e a.

Definition send_stanza (o : OutStanza) (a : XActor) : XActor :=
  if is_message o then set_out (paced a ++ [o]) (wire a) a else set_out (paced a) (wire a ++ [o]) a.

Definition apply (clock : nat → Instant) (x : @St IpAddr) (a : XActor) : option XActor :=
  let a := set_session (ses x) a in
  let a := foldl (λ a j, start_upload j a) a (fx_uploads (fx x)) in
  let a := foldl (λ a e, show_event e a) a (fx_events (fx x)) in
  let a := foldl (λ a o, send_stanza o a) a (fx_send (fx x)) in
  release clock a.

Definition refuse (m : str) (s : XSession) : @St IpAddr := mkSt s (mkFx [ErrorEvent m false] [] []).

Definition begin_upload (target path : str) (m : Metadata) (a : XActor) : @St IpAddr * XActor :=
  match m with
  | NotAFile => (refuse (lit "That is not a file.") (session a), a)
  | Unreadable => (refuse (lit "Could not read that file.") (session a), a)
  | IsFile len =>
      let '(ticket, x) := session_begin_upload target (default (lit "file") (file_name path)) len (session a) in
      (x, match ticket with
          | Some t => set_uploads (<[t := (path, len)]> (staged a)) (running a) (spawned a) a
          | None => a
          end)
  end.

(** ** One turn *)

Inductive XInput :=
  | Asked (c : option ClientCommand) (m : Metadata)
  | Streamed (e : option StreamInput)
  | Uploaded (r : option UploadReport)
  | Reported (r : option XmppLogin.Report)
  | Waited.

Inductive Turn := Going (a : XActor) | Finished (e : Ended) (a : XActor) | Panicked.
Definition going (o : option XActor) : Turn := match o with Some a => Going a | None => Panicked end.

Definition on_report (r : XmppLogin.Report) (a : XActor) : Turn :=
  match r with
  | XmppLogin.Attempt 1 => Going a
  | XmppLogin.Attempt _ => Going (status Connecting None a)
  | XmppLogin.FailedReport d retry =>
      let a := emit_ (ErrorEvent (XmppLogin.message d) (XmppLogin.fatal d)) a in
      match retry with
      | Some (delay, attempt) =>
          if XmppLogin.fatal d then Finished Stopped (status Disconnected (Some (XmppLogin.message d)) a)
          else Going (status (Reconnecting (N.max (delay / 1000000000) 1) attempt) (Some (XmppLogin.message d)) a)
      | None => Finished Stopped (status Disconnected (Some (XmppLogin.message d)) a)
      end
  end.

(** What the session makes of an input, when the input is the session's. *)
Definition asks_session (clock : nat → Instant) (i : XInput) (a : XActor) : option (@St IpAddr * XActor) :=
  match i with
  | Asked (Some (SendFile target path)) m => Some (begin_upload target path m a)
  | Asked (Some (CancelTransfer id)) _ =>
      let '(found, a) := cancel id a in
      if found then Some (upload_finished id (Err CANCELLED) (session a), a) else None
  | Asked (Some (Disconnect _ | Reconnect)) _ | Asked None _ => None
  | Asked (Some c) _ => Some (on_command c (session a), a)
  | Streamed (Some (Reset true)) => Some (on_online (session a), a)
  | Streamed (Some (Stanza s)) =>
      let '(admitted, r) := match s with
                            | MessageStanza _ => admit_line (clock 0) (recv_limiter a)
                            | _ => (true, recv_limiter a)
                            end in
      if admitted then Some (on_stanza s (session a), set_limiters r (send_limiter a) (last_drop_report a) a) else None
  | Uploaded (Some (FinishedUpload t r)) =>
      Some (upload_finished t r (session a), set_uploads (staged a) (running a ∖ {[t]}) (spawned a) a)
  | _ => None
  end.

(** The rest of what an input does, around the session. *)
Definition aside (clock : nat → Instant) (i : XInput) (a : XActor) : Turn :=
  match i with
  | Asked None _ => Finished QuitAsked a
  | Asked (Some (Disconnect _)) _ => Finished QuitAsked (status Disconnected None a)
  | Asked (Some Reconnect) _ => Going (set_shared (ever_online a) true a)
  | Asked (Some (CancelTransfer id)) _ => Going (cancel id a).2
  | Streamed None => Finished Stopped (status Disconnected None a)
  | Streamed (Some (Reset _)) => Going (status Connected None (set_shared true (retry_now a) a))
  | Streamed (Some Suspended) =>
      Going (status (Reconnecting 0 1) (Some (lit "The connection was lost; resuming.")) a)
  | Streamed (Some Resumed) => Going (status Connected None a)
  | Streamed (Some (Stanza (MessageStanza _))) =>
      Going (set_limiters (admit_line (clock 0) (recv_limiter a)).2 (send_limiter a) (last_drop_report a) a)
  | Uploaded (Some (Progress t sent)) => Going (emit_ (FileTransferProgress t sent) a)
  | Reported (Some r) => on_report r a
  | Waited => going (release clock a)
  | _ => Going a
  end.

Definition before_session (i : XInput) (a : XActor) : XActor :=
  match i with
  | Streamed (Some (Reset _)) => status Connected None (set_shared true (retry_now a) a)
  | _ => a
  end.

Definition round (now : Instant) (clock : nat → Instant) (i : XInput) (a : XActor) : Turn :=
  if negb (listening a) then Finished QuitAsked a
  else
    let a := report_drops now a in
    match asks_session clock i (before_session i a) with
    | Some (x, a) => going (apply clock x a)
    | None => aside clock i a
    end.

(** ** Starting, and waiting to be asked *)

(** What [connect_once] does before its loop, from the actor as it was left.
    [connector] is the error of building the connector, if there was one. *)
Definition connect_start (config : XmppConfig) (prefix : str) (connector : option str) (a : XActor) : Turn :=
  let '(heard, a) := emit (Status Connecting None) a in
  if negb heard then Finished QuitAsked a
  else
    match connector with
    | Some e => Finished Stopped (fatal e a)
    | None =>
        match XmppSession.new parse_jid config prefix with
        | None => Finished Stopped (fatal (lit "The account address is not valid.") a)
        | Some s =>
            match bare_jid parse_jid config with
            | Err _ => Finished Stopped (fatal (lit "The account address is not valid.") a)
            | Ok _ =>
                Going (mkXActor s ∅ ∅ [] [] [] (queue a) (listening a) (dropped_events a) (recv_limiter a) (send_limiter a)
                         (last_drop_report a) false false)
            end
        end
    end.

(** The inner loop of [run]: [Some true] is to connect again. *)
Definition waiting (c : option ClientCommand) (a : XActor) : option bool * XActor :=
  match c with
  | Some Reconnect => (Some true, a)
  | Some (Disconnect _) | None => (Some false, a)
  | Some _ => let '(heard, a) := emit (ErrorEvent (lit "Not connected.") false) a in (if heard then None else Some false, a)
  end.

(** * Messages keep their order *)

(** Every message there ever was: those sent, then those that wait. *)
Definition messages (a : XActor) : list OutStanza := List.filter is_message (wire a) ++ paced a.
Definition only_messages (a : XActor) : Prop := Forall (λ o, is_message o = true) (paced a).

Lemma emit_out e a : paced (emit_ e a) = paced a ∧ wire (emit_ e a) = wire a.
Proof. unfold emit_, emit. by repeat case_match. Qed.

Lemma filter_app_one (o : OutStanza) l :
  List.filter is_message (l ++ [o]) = List.filter is_message l ++ (if is_message o then [o] else []).
Proof. rewrite List.filter_app. cbn. by case_match. Qed.

Lemma release_from_messages clock n waiting s out waiting' s' out' :
  Forall (λ o, is_message o = true) waiting →
  release_from clock n waiting s out = Some (waiting', s', out') →
  List.filter is_message out' ++ waiting' = List.filter is_message out ++ waiting ∧
  Forall (λ o, is_message o = true) waiting'.
Proof.
  intros Hw. revert n s out. induction Hw as [|m rest Hm Hr IH]; intros n s out; cbn [release_from].
  - by intros [= <- <- <-].
  - destruct (acquire (clock n) s) as [[[|d]|] s1]; [|intros [= <- <- <-]; split; [done|by constructor]|done].
    intros [E ?]%IH. split; [|done]. rewrite E, filter_app_one, Hm, <- app_assoc. done.
Qed.

Lemma release_messages clock a a' :
  only_messages a → release clock a = Some a' → messages a' = messages a ∧ only_messages a'.
Proof.
  unfold release, only_messages, messages. intros Hw.
  destruct (release_from clock 0 (paced a) (send_limiter a) (wire a)) as [[[w s] o]|] eqn:E; [|done].
  cbn [mbind option_bind]. intros [= <-]. cbn. by eapply release_from_messages in E.
Qed.

Lemma send_all_messages os a :
  only_messages a →
  let a' := foldl (λ a o, send_stanza o a) a os in
  messages a' = messages a ++ List.filter is_message os ∧ only_messages a'.
Proof.
  revert a. induction os as [|o os IH]; intros a Ha; cbn [foldl].
  - rewrite app_nil_r. done.
  - assert (only_messages (send_stanza o a) ∧ messages (send_stanza o a) = messages a ++ (if is_message o then [o] else [])) as [H1 H2].
    { unfold send_stanza, only_messages, messages. destruct (is_message o) eqn:E; cbn.
      - split; [apply Forall_app; split; [done|by constructor]|]. by rewrite app_assoc.
      - split; [done|]. rewrite filter_app_one, E. by rewrite !app_nil_r. }
    destruct (IH _ H1) as [-> ?]. split; [|done]. rewrite H2, <- app_assoc. cbn [List.filter]. by destruct (is_message o).
Qed.

Lemma foldl_out {B} (f : XActor → B → XActor) l a :
  (∀ a b, paced (f a b) = paced a ∧ wire (f a b) = wire a) → paced (foldl f a l) = paced a ∧ wire (foldl f a l) = wire a.
Proof.
  intros Hf. revert a. induction l as [|b l IH]; intros a; [done|]. cbn. destruct (IH (f a b)) as [-> ->]. apply Hf.
Qed.

Lemma apply_messages clock x a a' :
  only_messages a → apply clock x a = Some a' →
  messages a' = messages a ++ List.filter is_message (fx_send (fx x)) ∧ only_messages a'.
Proof.
  intros Ha. unfold apply. cbv zeta. set (a1 := foldl _ (set_session _ _) _). set (a2 := foldl _ a1 _).
  assert (paced a2 = paced a ∧ wire a2 = wire a) as [Ep Ew].
  { subst a2. rewrite !(proj1 (foldl_out _ _ _ _)) || idtac.
    destruct (foldl_out (λ a e, show_event e a) (fx_events (fx x)) a1) as [-> ->].
    { intros b e. unfold show_event. destruct (emit_out e (match e with FileTransferEnded id _ _ _ _ => set_uploads (delete id (staged b)) (running b ∖ {[id]}) (spawned b) b | _ => b end)) as [-> ->].
      by destruct e. }
    subst a1. destruct (foldl_out (λ a j, start_upload j a) (fx_uploads (fx x)) (set_session (ses x) a)) as [-> ->]; [|done].
    intros b j. unfold start_upload. by repeat case_match. }
  intros E. assert (only_messages a2) as H2 by (unfold only_messages; by rewrite Ep).
  destruct (send_all_messages (fx_send (fx x)) a2 H2) as [E3 H3].
  apply release_messages in E as [-> ?]; [|done]. split; [|done]. rewrite E3. f_equal. unfold messages. by rewrite Ep, Ew.
Qed.

(** Nothing but the session's stanzas and the limiter touches what is sent. *)
Definition same_out (a a' : XActor) : Prop := paced a' = paced a ∧ wire a' = wire a.
Lemma same_out_messages a a' : same_out a a' → only_messages a → messages a' = messages a ∧ only_messages a'.
Proof. unfold same_out, messages, only_messages. by intros [-> ->]. Qed.

Lemma status_out s d a : same_out a (status s d a).
Proof. apply emit_out. Qed.
Lemma report_drops_out now a : same_out a (report_drops now a).
Proof. unfold report_drops. repeat case_match; try done. unfold same_out. by rewrite !(proj1 (emit_out _ _)), !(proj2 (emit_out _ _)). Qed.
Lemma before_session_out i a : same_out a (before_session i a).
Proof. unfold before_session. repeat case_match; try done; exact (status_out _ _ (set_shared true (retry_now a) a)). Qed.

Lemma asks_session_out clock i a x a' : asks_session clock i a = Some (x, a') → same_out a a'.
Proof.
  unfold asks_session, begin_upload, cancel. intros H.
  repeat case_match; simplify_eq; try done.
Qed.

Lemma on_report_out r a a' : on_report r a = Going a' → same_out a a'.
Proof.
  unfold on_report. destruct r as [[|[]]|d [[delay n]|]]; try (intros [= <-]); try done; try apply status_out.
  case_match; [done|]. intros [= <-]. unfold same_out.
  match goal with |- context [status ?s ?d ?b] => destruct (status_out s d b) as [-> ->] end.
  apply emit_out.
Qed.

Lemma aside_messages clock i a a' :
  only_messages a → aside clock i a = Going a' → messages a' = messages a ∧ only_messages a'.
Proof.
  intros Ha. assert (∀ b, same_out a b → Going b = Going a' → messages a' = messages a ∧ only_messages a') as Hs.
  { intros b Hb [= <-]. by apply same_out_messages. }
  destruct i as [[c|] m|[[full| | |[]]|]|[[]|]|[r|]|]; cbn [aside]; try done;
    try (by apply Hs); try (apply Hs, status_out); try (apply Hs, emit_out).
  - destruct c; try done; by apply Hs.
  - apply Hs. exact (status_out _ _ (set_shared true (retry_now a) a)).
  - intros H%on_report_out. by apply same_out_messages.
  - unfold going. destruct (release clock a) as [b|] eqn:E; [|done]. intros [= <-]. by eapply release_messages.
Qed.

(** The messages the session hands over at one turn. *)
Definition handed (now : Instant) (clock : nat → Instant) (i : XInput) (a : XActor) : list OutStanza :=
  match asks_session clock i (before_session i (report_drops now a)) with
  | Some (x, _) => List.filter is_message (fx_send (fx x))
  | None => []
  end.

Lemma round_messages now clock i a a' :
  only_messages a → round now clock i a = Going a' → messages a' = messages a ++ handed now clock i a ∧ only_messages a'.
Proof.
  intros Ha. unfold round, handed. destruct (negb (listening a)); [done|]. cbv zeta.
  destruct (same_out_messages _ _ (report_drops_out now a) Ha) as [E1 H1].
  destruct (same_out_messages _ _ (before_session_out i (report_drops now a)) H1) as [E2 H2].
  destruct (asks_session clock i (before_session i (report_drops now a))) as [[x b]|] eqn:E.
  - apply asks_session_out in E. destruct (same_out_messages _ _ E H2) as [E3 H3].
    unfold going. destruct (apply clock x b) as [b'|] eqn:Eb; [|done]. intros [= <-].
    apply apply_messages in Eb as [-> ?]; [|done]. split; [|done]. congruence.
  - intros H. apply aside_messages in H as [-> ?]; [|done]. by rewrite app_nil_r.
Qed.

(** A connection, turn after turn, with the messages handed over in it. *)
Fixpoint turns (ins : list (Instant * (nat → Instant) * XInput)) (a : XActor) : option (list OutStanza * XActor) :=
  match ins with
  | [] => Some ([], a)
  | (now, clock, i) :: ins =>
      match round now clock i a with
      | Going b => '(said, a') ← turns ins b; Some (handed now clock i a ++ said, a')
      | _ => None
      end
  end.

(** C25: while a connection lasts, whatever comes and however the limiter holds
    back, the messages sent and those that wait are together exactly the ones
    the session handed over, each once and in that order. *)
Theorem messages_in_order config prefix a0 a ins said a' :
  connect_start config prefix None a0 = Going a → turns ins a = Some (said, a') →
  List.filter is_message (wire a') ++ paced a' = said.
Proof.
  intros Hs.
  assert (only_messages a ∧ messages a = []) as [Ha Em].
  { revert Hs. unfold connect_start. repeat case_match; intros [=]; subst; split; by try constructor. }
  intros Ht. change (messages a' = said). rewrite <- (app_nil_l said), <- Em.
  clear Hs Em. revert a said Ha Ht. induction ins as [|[[now clock] i] ins IH]; intros a said Ha; cbn [turns].
  - intros [= <- <-]. by rewrite app_nil_r.
  - destruct (round now clock i a) as [b| |] eqn:E; try done. apply round_messages in E as [Eb Hb]; [|done].
    destruct (turns ins b) as [[said' a2]|] eqn:Et; [|done]. cbn. intros [= <- <-].
    rewrite (IH b said' Hb Et), Eb, app_assoc. done.
Qed.
End Actor.
