(* ===== verification/XmppWitness.v ===== *)
(** A session run by hand: someone writes and takes it back, another device of
    the user speaks, and the user speaks in a room. *)
From Stdlib Require Import SpecFloat.
From S2P Require Import Prelude RustStr Format Reply Session Room Contacts Edits EditsProps Outgoing Dates Transfer ServerConfig Upload Xmpp Api XmppSession XmppProps XmppEdits RateLimit XmppLogin XmppActor.

(** [name@domain/resource], with nothing normalised. *)
Definition xw_parse (s : str) : option Jid :=
  let '(before, resource) := match split_once (ch "/") s with Some (a, r) => (a, Some r) | None => (s, None) end in
  match split_once (ch "@") before with
  | Some (n, d) => if is_empty d then None else Some (mkJid (Some n) d resource)
  | None => if is_empty before then None else Some (mkJid None before resource)
  end.
Definition xw_lower (c : char) : str := [char_lower c].
Definition xw_alnum (c : char) : bool := is_ascii_digit c || is_ascii_uppercase (char_upper c).
Definition xw_jid (s : str) : Jid := default (mkJid None [] None) (xw_parse s).

Abbreviation xw_stanza := (on_stanza (IpAddr := N) Some (λ _, None) (λ _, false) xw_lower xw_alnum).
Abbreviation xw_online := (on_online (IpAddr := N) Some).
Abbreviation xw_reachable := (reachable (IpAddr := N) xw_parse Some (λ _, true) (λ _, None) (λ _, false) xw_lower xw_alnum).

Definition xw_config : XmppConfig := mkXmppConfig (lit "alice@example.org") (lit "secret") None None [] None None None.
Definition xw_new : XSession :=
  default (mkXSession (xw_jid []) [] ∅ ∅ [] 0 default_contacts default_index None ∅ 0 None None) (XmppSession.new xw_parse xw_config (lit "ddirc")).
Definition xw_there : XSession := ses (xw_online xw_new).

Definition xw_said (from to : str) (id body retract : option str) : Said :=
  mkSaid (Some (xw_jid from)) (Some (xw_jid to)) Chat id body None None None None retract None.
Definition xw_plain (s : Said) : XStanza := MessageStanza (mkXMessage s None None None None).

Definition bob : str := lit "bob@example.net/phone".
Definition alice : str := lit "alice@example.org".
Definition xw_hello : XStanza := xw_plain (xw_said bob alice (Some (lit "m1")) (Some (lit "hello")) None).
Definition xw_takes_back : XStanza := xw_plain (xw_said bob alice (Some (lit "m2")) None (Some (lit "m1"))).
(** The same, from someone else. *)
Definition xw_meddles : XStanza := xw_plain (xw_said (lit "mallory@example.net/x") alice (Some (lit "m3")) None (Some (lit "m1"))).
Definition xw_greeted : XSession := ses (xw_stanza xw_hello xw_there).
Definition xw_retracted : IrcEvent N := MessageRetracted (ToDirect (lit "bob@example.net")) (lit "m1") (lit "bob@example.net").

Lemma xw_reached : xw_reachable xw_greeted.
Proof. apply reach_stanza, reach_online. by apply (reach_new _ _ _ _ _ _ _ xw_config (lit "ddirc")). Qed.
Example xw_meddling_is_nothing : fx_events (fx (xw_stanza xw_meddles xw_greeted)) = [].
Proof. vm_compute. reflexivity. Qed.
Example xw_retraction : fx_events (fx (xw_stanza xw_takes_back xw_greeted)) = [xw_retracted].
Proof. vm_compute. reflexivity. Qed.

Lemma only_author_edits_witness :
  ∃ entry, entry ∈ entries (slots (index xw_greeted)) ∧ conversation entry = lit "bob@example.net" ∧
           Edits.msgid entry = lit "m1" ∧ spoken_by xw_greeted xw_takes_back (ToDirect (lit "bob@example.net")) (author entry).
Proof.
  refine (only_author_edits xw_parse Some (λ _, true) (λ _, None) (λ _, false) xw_lower xw_alnum
    xw_greeted xw_takes_back xw_retracted xw_reached _).
  rewrite xw_retraction. apply list_elem_of_singleton. reflexivity.
Defined.

(** Another device of the user writes to Bob, and the account's server says so. *)
Definition xw_carbon (from : str) : XStanza :=
  MessageStanza (mkXMessage (mkSaid (Some (xw_jid from)) None Chat None None None None None None None None) None None None
    (Some (mkForwarded None (xw_said (lit "alice@example.org/phone") bob (Some (lit "m4")) (Some (lit "hi")) None)))).
Definition xw_mine : IrcEvent N :=
  Message (direct (lit "bob@example.net") alice (lit "hi") true false (Some (lit "m4")) None None).
Example xw_shown : fx_events (fx (xw_stanza (xw_carbon alice) xw_there)) = [xw_mine].
Proof. vm_compute. reflexivity. Qed.
Example xw_forged : fx_events (fx (xw_stanza (xw_carbon bob) xw_there)) = [].
Proof. vm_compute. reflexivity. Qed.

(** In a room, the room says what the user said: from another room's address the
    same words are someone else's. *)
Definition tea : str := lit "tea@rooms.example.org".
Definition xw_in_room : XSession :=
  ses (XmppSession.on_command (IpAddr := N) xw_parse Some (λ _, true) xw_alnum (Join tea None) xw_there).
Definition xw_room_said (from : str) : XStanza :=
  xw_plain (mkSaid (Some (xw_jid from)) None Groupchat (Some (lit "r1")) (Some (lit "hi all")) None None None None None None).
Definition xw_room_mine : option (IrcEvent N) := head (fx_events (fx (xw_stanza (xw_room_said (tea ++ lit "/alice")) xw_in_room))).
Example xw_room_own : xw_room_mine ≫= shown_as_own = Some (ToChannel tea).
Proof. vm_compute. reflexivity. Qed.
Example xw_room_others :
  shown_as_own <$> fx_events (fx (xw_stanza (xw_room_said (tea ++ lit "/mallory")) xw_in_room)) = [None].
Proof. vm_compute. reflexivity. Qed.

Lemma own_words_witness :
  (∃ m from, xw_carbon alice = MessageStanza m ∧ sd_from (xm_said m) = Some from ∧ bare from = account_text xw_there) ∧
  ∃ m from, xw_room_said (tea ++ lit "/alice") = MessageStanza m ∧ sd_from (xm_said m) = Some from ∧
    ∃ speaker, room_said xw_in_room m speaker ∧ bare speaker = bare from ∧ our_occupant xw_in_room speaker tea.
Proof.
  split.
  - refine (own_words Some (λ _, None) (λ _, false) xw_lower xw_alnum (xw_carbon alice) xw_there xw_mine
      (ToDirect (lit "bob@example.net")) _ eq_refl).
    rewrite xw_shown. apply list_elem_of_singleton. reflexivity.
  - pose proof xw_room_own as Ho. unfold xw_room_mine in Ho.
    destruct (fx_events (fx (xw_stanza (xw_room_said (tea ++ lit "/alice")) xw_in_room))) as [|e es] eqn:E; [discriminate Ho|].
    refine (own_words Some (λ _, None) (λ _, false) xw_lower xw_alnum (xw_room_said (tea ++ lit "/alice")) xw_in_room e
      (ToChannel tea) _ Ho).
    rewrite E. left.
Defined.

(** * An XMPP connection run by hand: six messages, of which five leave at once,
    and losses that are never told. *)

Definition xa_recv : ReceiveLimiter := default (mkReceive (mkBucket (f64_of 0) (f64_of 0) (f64_of 0) 0) 0) (new_receive 0).
Definition xa_send : SendLimiter := default (mkBucket (f64_of 0) (f64_of 0) (f64_of 0) 0) (new_send 0).
Definition xa_idle : @XActor N := mkXActor xw_new ∅ ∅ [] [] [] [] true 0 xa_recv xa_send 0 false false.
Abbreviation xa_start := (connect_start (IpAddr := N) xw_parse xw_config (lit "ddirc") None).
Abbreviation xa_turns := (turns (IpAddr := N) xw_parse Some (λ _, true) (λ _, None) (λ _, false) xw_lower xw_alnum Some).

Definition xa_input (i : XInput) : Instant * (nat → Instant) * XInput := (0%N, λ _, 0%N, i).
Definition xa_says (n : nat) : XInput := Asked (Some (SendMessage (lit "bob@example.net") (to_dec (N.of_nat n)))) Unreadable.
Definition xa_inputs : list (Instant * (nat → Instant) * XInput) :=
  xa_input (Streamed (Some (Reset true))) :: map (λ n, xa_input (xa_says n)) (seq 1 6).

Definition xa_began : @XActor N := match xa_start xa_idle with XmppActor.Going a => a | _ => xa_idle end.
Definition xa_end : list OutStanza * @XActor N := default ([], xa_idle) (xa_turns xa_inputs xa_began).

Lemma xa_ran : xa_turns xa_inputs xa_began = Some (xa_end.1, xa_end.2).
Proof. vm_compute. reflexivity. Qed.

Lemma messages_in_order_witness :
  List.filter is_message (wire xa_end.2) ++ paced xa_end.2 = xa_end.1 ∧ length xa_end.1 = 6 ∧ length (paced xa_end.2) = 1.
Proof.
  split.
  - apply (messages_in_order xw_parse Some (λ _, true) (λ _, None) (λ _, false) xw_lower xw_alnum Some
      xw_config (lit "ddirc") xa_idle xa_began xa_inputs xa_end.1 xa_end.2).
    + vm_compute. reflexivity.
    + exact xa_ran.
  - vm_compute. split; reflexivity.
Defined.

(** ** Losses *)

(** With the interface's queue full, the notice of a hundred lost events is
    itself lost and counts as one. *)
Definition xa_full : @XActor N :=
  mkXActor xw_new ∅ ∅ [] [] [] (repeat (Status Connected None) EVENT_QUEUE) true 100 xa_recv xa_send 0 false false.
Example losses_forgotten :
  let a := report_drops (secs 6) xa_full in
  length (queue a) = EVENT_QUEUE ∧ dropped_events a = 1%N ∧ dropped (recv_limiter a) = 0%N.
Proof. vm_compute. split; [reflexivity|split; reflexivity]. Qed.

(** ** Attempts *)

Definition xa_fails (e : XmppError) : Tried := LoginFailed (LoginXmpp e) false (f64_of 0) Slept.
Definition xa_trying : list Report * XmppLogin.Finished * Backoff :=
  keep_trying (λ _ _, f64_of 1) (lit "example.org") None 0 (f64_of 0) Slept (repeat (xa_fails (Io TimedOut)) 9) default_backoff.
Lemma login_attempts_witness :
  tried xa_trying.1.1 ≤ 3 ∧
  ∃ l1 d retry l2, xa_trying.1.1 = l1 ++ Attempt 2 :: FailedReport d retry :: l2 ∧ tried l1 = 1 ∧
    reports (lit "example.org") (LoginXmpp (Io TimedOut)) 2 d retry.
Proof.
  destruct (login_attempts (λ _ _, f64_of 1) (lit "example.org") None 0 (f64_of 0) Slept
    (repeat (xa_fails (Io TimedOut)) 9) default_backoff) as (H1 & H2 & _).
  split; [apply H1; repeat constructor|].
  apply (H2 ltac:(vm_compute; discriminate) 1 (LoginXmpp (Io TimedOut)) false (f64_of 0) Slept); [reflexivity|].
  apply Nat.ltb_lt. vm_compute. reflexivity.
Defined.
Example three_attempts :
  tried (keep_trying (λ _ _, f64_of 1) (lit "example.org") None 0 (f64_of 0) Slept
           (repeat (xa_fails (Io TimedOut)) 9) default_backoff).1.1 = 3.
Proof. vm_compute. reflexivity. Qed.
