(* ===== verification/Connector.v ===== *)
(** The transport of an XMPP account ([ddirc-core/src/xmpp/connector.rs]) and
    the upload that goes out over it ([send_file] of [xmpp/actor.rs]).

    Everything that touches the network is an [Act] of a small monad, [M]: a
    computation is given how many of the things it waits for will answer before
    its time is up, and says what it did and what came of it.  What answers -
    the resolver, the sockets, the TLS library, a resolver that lies - is a
    [Net], any function from what is asked.  Certificates and the anchors they
    become are types the source does not look into. *)
From S2P Require Import Prelude RustStr Transfer XmppActor ServerConfig Upload Xmpp XmppLogin.

(** * Trust *)

Inductive ConnectorError := BadConfig (e : XmppConfigError) | Certificate (why : str).

Section Trust.
Context {Der Anchor : Type} (webpki : list Anchor) (native : list Der) (anchor : Der → option Anchor).
(** [pem_file_iter]: the file cannot be opened, or its entries one after the
    other, each of which may be malformed. *)
Context (pem_file : str → result (list (result Der str)) str).

(** [collect::<Result<Vec<_>, _>>]: the first error, or all of them. *)
Fixpoint collect {A E} (l : list (result A E)) : result (list A) E :=
  match l with
  | [] => Ok []
  | Err e :: _ => Err e
  | Ok a :: l => rbind (collect l) (λ l, Ok (a :: l))
  end.

(** [add_parsable_certificates]: what cannot be parsed is left out. *)
Definition add_parsable (certs : list Der) (roots : list Anchor) : list Anchor * nat :=
  let added := omap anchor certs in (roots ++ added, length added).

Definition add_pem (path : str) (roots : list Anchor) : result (list Anchor) ConnectorError :=
  match pem_file path with
  | Err e => Err (Certificate e)
  | Ok entries =>
      match collect entries with
      | Err e => Err (Certificate e)
      | Ok certificates =>
          let '(roots, added) := add_parsable certificates roots in
          if Nat.eqb added 0 then Err (Certificate (path ++ lit " holds no certificate that could be used")) else Ok roots
      end
  end.

Definition trust_store (extra_root_cert : option str) : result (list Anchor) ConnectorError :=
  let roots := webpki in
  let roots := (add_parsable native roots).1 in
  match extra_root_cert with
  | Some path => add_pem path roots
  | None => Ok roots
  end.

(** * The connector *)

(** [ClientConfig], as far as the two of them differ. *)
Record ClientConfig := mkClientConfig { tc_roots : list Anchor; alpn_protocols : list str }.
Record Connector := mkConnector {
  cn_host : str; cn_port : N; cn_proxy : option ProxyConfig; cn_tls : ClientConfig; http_tls : ClientConfig; cn_domain : str;
}.

Definition ALPN : str := lit "xmpp-client".

Section Build.
Context (parse_jid : str → option Jid).

(** [unsupported] is the error of a provider without the usual protocol
    versions, if that is what it is. *)
Definition with_roots (unsupported : option str) (c : XmppConfig) (roots : list Anchor) : result Connector ConnectorError :=
  match unsupported with
  | Some e => Err (Certificate e)
  | None =>
      match dial_host parse_jid c with
      | Err e => Err (BadConfig e)
      | Ok host =>
          Ok (mkConnector host (dial_port c) (xc_proxy c) (mkClientConfig roots [ALPN]) (mkClientConfig roots [lit "http/1.1"])
                (match bare_jid parse_jid c with Ok j => to_ascii_lowercase (domain j) | Err _ => [] end))
      end
  end.

Definition new (is_file : str → bool) (unsupported : option str) (c : XmppConfig) : result Connector ConnectorError :=
  match validate_xmpp parse_jid is_file c with
  | Err e => Err (BadConfig e)
  | Ok _ => rbind (trust_store (xc_extra_root_cert c)) (with_roots unsupported c)
  end.
End Build.

(** * Acts *)

(** How a connection is opened.  Given a name, the operating system resolves it;
    given an address, nothing is resolved; a proxy is given a name to resolve at
    its end. *)
Inductive Dial :=
  | ByName (host : str) (port : N)
  | ByAddress (ip : IpAddr) (port : N)
  | ViaProxy (proxy_host : str) (proxy_port : N) (credentials : option (str * str)) (host : str) (port : N).

Inductive Act :=
  | Resolve (host : str) (port : N)
  | Open (d : Dial)
  | Secure (config : ClientConfig) (name : str) (d : Dial)
  | StreamTo (to from : str).

(** A TLS session: whether it is TLS 1.3, and what exporting a key from it gives. *)
Record TlsSession := mkTls { tls13 : bool; exported : result (list N) str }.

Record Net := mkNet {
  lookup_host : str → N → result (list (IpAddr * N)) IoError;
  tcp : Dial → result unit IoError;
  server_name : str → option str;
  handshake : ClientConfig → str → Dial → result TlsSession IoError;
  initiate_stream : str → str → result unit XmppError;
}.

(** [None] is a computation that was still waiting when its time was up. *)
Definition M (E A : Type) : Type := nat → list Act * option (result A E) * nat.
Definition ret {E A} (r : result A E) : M E A := λ n, ([], Some r, n).
Definition bind {E A B} (m : M E A) (k : A → M E B) : M E B := λ n,
  match m n with
  | (acts, Some (Ok a), n) => let '(more, r, n) := k a n in (acts ++ more, r, n)
  | (acts, Some (Err e), n) => (acts, Some (Err e), n)
  | (acts, None, n) => (acts, None, n)
  end.
(** An act and its answer, if there is time for it. *)
Definition act {E A} (x : Act) (r : result A E) : M E A := λ n,
  match n with O => ([x], None, O) | S n => ([x], Some r, n) end.
Definition map_err {E F A} (f : E → F) (m : M E A) : M F A := λ n,
  let '(acts, r, n) := m n in
  (acts, match r with Some (Ok a) => Some (Ok a) | Some (Err e) => Some (Err (f e)) | None => None end, n).
(** [timeout(CONNECT_TIMEOUT, ..)]: [answers] things happen before it strikes. *)
Definition within {A} (answers : nat) (m : M IoError A) : M IoError A := λ n,
  match m answers with
  | (acts, Some r, _) => (acts, Some r, n)
  | (acts, None, _) => (acts, Some (Err TimedOut), n)
  end.

Notation "'let*' x ':=' m 'in' k" := (bind m (λ x, k)) (at level 100, x name, right associativity).

Section Connecting.
Context (net : Net) (parse_ip : str → option IpAddr).

(** [dial]: credentials are given to the proxy only as a pair. *)
Definition dial_of (c : Connector) (host : str) (port : N) : Dial :=
  match cn_proxy c with
  | None => ByName host port
  | Some p =>
      ViaProxy (px_host p) (px_port p)
        (match px_username p, px_password p with Some u, Some w => Some (u, w) | _, _ => None end) host port
  end.
Definition dial (c : Connector) (host : str) (port : N) : M IoError Dial :=
  let d := dial_of c host port in
  let* _ := act (Open d) (tcp net d) in ret (Ok d).

Definition name_for (verify : str) : result unit IoError :=
  match server_name net verify with Some e => Err (OtherIo e) | None => Ok tt end.

Definition tls_stream (c : Connector) (host : str) (port : N) (verify : str) (config : ClientConfig) : M IoError TlsSession :=
  let* _ := ret (name_for verify) in
  let* d := dial c host port in
  act (Secure config verify d) (handshake net config verify d).

Definition dev_server (c : Connector) : bool :=
  let host := trim_end_matches (N.eqb (ch ".")) (cn_host c) in
  eq_ignore_ascii_case host (lit "localhost")
  || match parse_ip host with Some ip => negb (is_public_address ip) | None => false end.

Definition inside_account_domain (c : Connector) (host : str) : bool :=
  let host := to_ascii_lowercase (trim_end_matches (N.eqb (ch ".")) host) in
  negb (is_empty (cn_domain c))
  && (bool_decide (host = cn_domain c) || ends_with (lit "." ++ cn_domain c) host).

Definition https_stream (answers : nat) (c : Connector) (host : str) (port : N) : M IoError TlsSession :=
  within answers
    (if is_some (cn_proxy c) || (inside_account_domain c host && dev_server c)
     then tls_stream c host port host (http_tls c)
     else
       let* addresses := act (Resolve host port) (lookup_host net host port) in
       match addresses with
       | (ip, p) :: _ =>
           if existsb (λ a, negb (is_public_address a.1)) addresses
           then ret (Err (OtherIo (lit "the upload address does not resolve to a public address")))
           else
             let* _ := ret (name_for host) in
             let d := ByAddress ip p in
             let* _ := act (Open d) (tcp net d) in
             act (Secure (http_tls c) host d) (handshake net (http_tls c) host d)
       | [] => ret (Err (OtherIo (lit "the upload address does not resolve to a public address")))
       end).

Inductive ChannelBinding := NoBinding | TlsExporter (material : list N).

Definition establish (c : Connector) (domain : str) : M IoError ChannelBinding :=
  let* tls := tls_stream c (cn_host c) (cn_port c) domain (cn_tls c) in
  ret (if tls13 tls
       then match exported tls with Ok material => Ok (TlsExporter material) | Err e => Err (OtherIo e) end
       else Ok NoBinding).

(** [ServerConnector::connect]: the stream is started inside TLS. *)
Definition connect (answers : nat) (c : Connector) (jid : Jid) : M XmppError ChannelBinding :=
  let* binding := map_err Io (within answers (establish c (domain jid))) in
  let* _ := act (StreamTo (domain jid) (bare jid)) (initiate_stream net (domain jid) (bare jid)) in
  ret (Ok binding).

(** * An upload *)

(** The closure that is told how much has gone: what it reports. *)
Fixpoint reported (size last : N) (told : list N) : list N :=
  match told with
  | [] => []
  | sent :: told =>
      if worth_reporting size last sent then sent :: reported size sent told
      else reported size last told
  end.

(** [show_io] is the text of an error, the operating system's for its own;
    [known_port] what the crate for addresses knows of a scheme; [source] the
    file as it is opened, with the connection it is written to. *)
Context (show_io : IoError → str) (known_port : str → option N) (parse_head : list N → Head).

Definition send_file (answers : nat) (c : Connector) (slot : Slot) (source : result Wire str) (size : N) (content_type : str)
    (flushed : option UploadError) (response : Reads) : list Act * result unit UploadError * list N * list N :=
  let url := slot_put slot in
  let host := match url_host url with Some (Domain s | Address s) => s | None => [] end in
  let port := default 443%N (match url_port url with Some p => Some p | None => known_port (scheme url) end) in
  match https_stream answers c host port 0 with
  | (acts, Some (Ok _), _) =>
      match source with
      | Err e => (acts, Err (File e), [], [])
      | Ok w =>
          let '(r, w') := put parse_head slot size content_type flushed response w in
          (acts, r, drop (length (written w)) (written w'), reported size 0 (drop (length (progress w)) (progress w')))
      end
  | (acts, Some (Err e), _) => (acts, Err (Connection (show_io e)), [], [])
  | (acts, None, _) => (acts, Err (Connection (show_io TimedOut)), [], [])
  end.
End Connecting.
End Trust.

Arguments Connector : clear implicits.
Arguments ClientConfig : clear implicits.
Arguments Act : clear implicits.
Arguments Net : clear implicits.

(** * Where connections go *)

Section Routes.
Context {Anchor : Type} (parse_jid : str → option Jid) (net : Net Anchor) (parse_ip : str → option IpAddr).
Implicit Types (c : Connector Anchor).

(** A way to [host:port] an upload may take: through the proxy, if there is one;
    otherwise to an address that was looked up and, with all that came with it,
    is public; or by name to a server of the account's own. *)
Definition upload_dial c (host : str) (port : N) (d : Dial) : Prop :=
  match d with
  | ViaProxy _ _ _ _ _ => is_Some (cn_proxy c) ∧ d = dial_of c host port
  | ByName h p =>
      cn_proxy c = None ∧ h = host ∧ p = port ∧ inside_account_domain c host = true ∧ dev_server parse_ip c = true
  | ByAddress ip p =>
      cn_proxy c = None ∧ ∃ l, lookup_host net host port = Ok l ∧ (ip, p) ∈ l ∧ Forall (λ a, is_public_address a.1 = true) l
  end.
Definition upload_act c (host : str) (port : N) (a : Act Anchor) : Prop :=
  match a with
  | Resolve h p => cn_proxy c = None ∧ h = host ∧ p = port
  | Open d => upload_dial c host port d
  | Secure config name d => config = http_tls c ∧ name = host ∧ upload_dial c host port d
  | StreamTo _ _ => False
  end.

Lemma direct_dial c host port :
  is_some (cn_proxy c) || (inside_account_domain c host && dev_server parse_ip c) = true →
  upload_dial c host port (dial_of c host port).
Proof.
  unfold upload_dial, dial_of. destruct (cn_proxy c); [done|]. cbn [is_some orb].
  by intros [H1 H2]%andb_true_iff.
Qed.

Lemma all_public (l : list (IpAddr * N)) :
  existsb (λ a, negb (is_public_address a.1)) l = false → Forall (λ a, is_public_address a.1 = true) l.
Proof.
  intros H. apply Forall_forall. intros a Ha. destruct (is_public_address a.1) eqn:E; [done|].
  assert (existsb (λ a, negb (is_public_address a.1)) l = true); [|congruence].
  apply existsb_exists. exists a. rewrite E. split; [by apply list_elem_of_In|done].
Qed.

Ltac acts_ok := repeat (apply Forall_cons_2; [cbn [upload_act]; auto|]); apply Forall_nil_2.

(** [https_stream] does nothing but what an upload may, it always ends, and it
    succeeds only with a handshake that was for [host]. *)
Lemma https_route answers c host port n :
  ∃ acts r, https_stream net parse_ip answers c host port n = (acts, Some r, n) ∧ Forall (upload_act c host port) acts ∧
    match r with
    | Ok s => ∃ d, last acts = Some (Secure (http_tls c) host d) ∧ handshake net (http_tls c) host d = Ok s ∧
                   tcp net d = Ok tt
    | Err _ => True
    end.
Proof.
  unfold https_stream, within. destruct (is_some (cn_proxy c) || _) eqn:E.
  - pose proof (direct_dial c host port E) as Hd. unfold tls_stream, dial, bind, ret, act.
    destruct (name_for net host); [|eexists _, _; split; [done|]; by split; [apply Forall_nil_2|]].
    destruct answers as [|[|n0]]; cbn; destruct (tcp net (dial_of c host port)) as [[]|] eqn:Et; cbn;
      (eexists _, _; split; [reflexivity|]; split; [acts_ok|]); try done.
    destruct (handshake _ _ _ _) eqn:Eh; [|done]. by exists (dial_of c host port).
  - assert (cn_proxy c = None) as Hp by (by destruct (cn_proxy c)).
    unfold bind, ret, act. destruct answers as [|n1]; cbn.
    { eexists _, _. split; [reflexivity|]. split; [acts_ok|done]. }
    destruct (lookup_host net host port) as [l|] eqn:El.
    2:{ eexists _, _. split; [reflexivity|]. split; [acts_ok|done]. }
    destruct l as [|[ip p] l].
    { eexists _, _. split; [reflexivity|]. split; [acts_ok|done]. }
    destruct (existsb _ _) eqn:Ex.
    { eexists _, _. split; [reflexivity|]. split; [acts_ok|done]. }
    apply all_public in Ex. assert (upload_dial c host port (ByAddress ip p)) as Hd.
    { split; [done|]. exists ((ip, p) :: l). split_and!; [done|set_solver|done]. }
    destruct (name_for net host); cbn.
    2:{ eexists _, _. split; [reflexivity|]. split; [acts_ok|done]. }
    destruct n1 as [|[|n2]]; cbn; destruct (tcp net (ByAddress ip p)) as [[]|] eqn:Et; cbn;
      (eexists _, _; split; [reflexivity|]; split; [acts_ok|]); try done.
    destruct (handshake _ _ _ _) eqn:Eh; [|done]. by exists (ByAddress ip p).
Qed.

(** * Accounts *)

(** The server an account is dialled at is on this machine or this network. *)
Definition own_server (cfg : XmppConfig) : Prop :=
  ∃ h, dial_host parse_jid cfg = Ok h ∧
    let h := trim_end_matches (N.eqb (ch ".")) h in
    eq_ignore_ascii_case h (lit "localhost") = true ∨ ∃ ip, parse_ip h = Some ip ∧ is_public_address ip = false.

Lemma dev_server_own unsupported cfg roots c :
  with_roots parse_jid unsupported cfg roots = Ok c → dev_server parse_ip c = true → own_server cfg.
Proof.
  unfold with_roots, own_server, dev_server. destruct unsupported; [done|].
  destruct (dial_host _ cfg) as [h|]; [|done]. intros [= <-]. cbn [cn_host]. intros [H|H]%orb_true_iff; exists h; (split; [done|]); [by left|].
  right. destruct (parse_ip _) as [ip|]; [|done]. exists ip. split; [done|]. by apply negb_true_iff.
Qed.

Lemma with_roots_parts unsupported cfg roots c j :
  with_roots parse_jid unsupported cfg roots = Ok c → bare_jid parse_jid cfg = Ok j →
  dial_host parse_jid cfg = Ok (cn_host c) ∧ cn_port c = dial_port cfg ∧ cn_proxy c = xc_proxy cfg ∧
  cn_tls c = mkClientConfig roots [ALPN] ∧ http_tls c = mkClientConfig roots [lit "http/1.1"] ∧
  cn_domain c = to_ascii_lowercase (domain j).
Proof.
  unfold with_roots. destruct unsupported; [done|]. destruct (dial_host _ cfg) as [h|]; [|done]. intros [= <-] ->. done.
Qed.

(** Where a file for [name] may go, in terms of the account: the proxy it is
    configured with, and that alone, if there is one; an address looked up for
    [name] that is public, as all those found with it; or [name] itself, when it
    is in the account's domain and the account's server is one's own. *)
Definition file_goes (cfg : XmppConfig) (j : Jid) (name : str) (d : Dial) : Prop :=
  match d with
  | ViaProxy ph pp _ h _ => ∃ p, xc_proxy cfg = Some p ∧ ph = px_host p ∧ pp = px_port p ∧ h = name
  | ByAddress ip p =>
      xc_proxy cfg = None ∧ is_public_address ip = true ∧
      ∃ port l, lookup_host net name port = Ok l ∧ (ip, p) ∈ l ∧ Forall (λ a, is_public_address a.1 = true) l
  | ByName h _ =>
      xc_proxy cfg = None ∧ h = name ∧ own_server cfg ∧
      (plain_name name = to_ascii_lowercase (domain j) ∨
       ends_with (lit "." ++ to_ascii_lowercase (domain j)) (plain_name name) = true)
  end.

Lemma upload_dial_goes unsupported cfg roots c j name port d :
  with_roots parse_jid unsupported cfg roots = Ok c → bare_jid parse_jid cfg = Ok j →
  upload_dial c name port d → file_goes cfg j name d.
Proof.
  intros Hc Hj. pose proof (with_roots_parts _ _ _ _ _ Hc Hj) as (_ & _ & E & _ & _ & Ed).
  unfold upload_dial, file_goes. rewrite <- E. destruct d as [h p|ip p|].
  - intros (H1 & -> & _ & H2 & H3). split_and!; [done|done|by eapply dev_server_own|].
    unfold inside_account_domain in H2. apply andb_true_iff in H2 as [_ H2]. rewrite Ed in H2.
    apply orb_true_iff in H2 as [H2%bool_decide_eq_true|H2]; [by left|by right].
  - intros (H1 & l & H2 & H3 & H4). split_and!; [done| |by exists port, l].
    by apply (proj1 (Forall_forall _ _) H4 _ H3).
  - intros [[p Hp] H]. unfold dial_of in H. rewrite Hp in H. exists p. by simplify_eq.
Qed.

Context (parse_url : str → option Url) (is_ip : str → bool).
Context (show_io : IoError → str) (known_port : str → option N) (parse_head : list N → Head).

Lemma checked_host r dom slot : check_slot parse_url is_ip r dom = Ok slot →
  ∃ name, url_host (slot_put slot) = Some (Domain name).
Proof.
  unfold check_slot. intros H. destruct (parse_https _ _ (put_url r)) as [put|]; [|done].
  destruct (parse_https _ _ (get_url r)); [|done]. destruct (url_host put) as [[name|]|] eqn:Eh; [|done..].
  repeat (destruct (negb _) in H; [done|]). destruct (Nat.ltb _ _) in H; [done|]. destruct (negb _) in H; [done|].
  simplify_eq. by exists name.
Qed.

Definition opens (d : Dial) (a : Act Anchor) : Prop :=
  match a with Open d' | Secure _ _ d' => d = d' | _ => False end.

(** C16: A file goes where it should and nowhere else. For an account's connector and
    a slot that passed the checks, whatever the resolver and the servers answer:
    every connection an upload opens is one a file for the slot's host may take
    ([file_goes]), no name is looked up here when there is a proxy, not a byte is
    sent but over a TLS connection verified for the slot's host against the
    account's own authorities, and an upload that worked has sent the request and
    the whole file, as long as was announced. *)
Theorem upload_leaves_safely (unsupported : option str) (cfg : XmppConfig) (roots : list Anchor) (c : Connector Anchor) (j : Jid)
    (r : SlotResult) (slot : Slot) (answers : nat) (source : result Wire str) (size : N) (ct : str)
    (flushed : option UploadError) (response : Reads) :
  with_roots parse_jid unsupported cfg roots = Ok c → bare_jid parse_jid cfg = Ok j →
  check_slot parse_url is_ip r (domain j) = Ok slot →
  ∃ name, url_host (slot_put slot) = Some (Domain name) ∧
  let '(acts, res, sent, _) :=
    send_file net parse_ip show_io known_port parse_head answers c slot source size ct flushed response in
  (∀ a d, a ∈ acts → opens d a → file_goes cfg j name d) ∧
  (∀ h p, Resolve h p ∈ acts → h = name ∧ xc_proxy cfg = None) ∧
  (sent ≠ [] → ∃ d s, last acts = Some (Secure (mkClientConfig roots [lit "http/1.1"]) name d) ∧
     handshake net (mkClientConfig roots [lit "http/1.1"]) name d = Ok s) ∧
  (res = Ok tt → ∃ w, source = Ok w ∧ sent = request_head slot size ct ++ left w ∧ N.of_nat (length (left w)) = size).
Proof.
  intros Hc Hj Hs. destruct (checked_host _ _ _ Hs) as [name Hn]. exists name. split; [done|].
  unfold send_file. rewrite Hn. set (port := default 443%N _).
  destruct (https_route answers c name port 0) as (acts & res & -> & Ha & Hr).
  pose proof (with_roots_parts _ _ _ _ _ Hc Hj) as (_ & _ & Ep & _ & Et & _). rewrite Et in Hr.
  assert (∀ a d, a ∈ acts → opens d a → file_goes cfg j name d) as G1.
  { intros a d Hin Ho. eapply (upload_dial_goes _ _ _ _ _ _ port); [done..|].
    apply (proj1 (Forall_forall _ _) Ha) in Hin. destruct a; try done; cbn in Ho; subst; [done|by destruct Hin as (_ & _ & ?)]. }
  assert (∀ h p, Resolve h p ∈ acts → h = name ∧ xc_proxy cfg = None) as G2.
  { intros h p Hin. apply (proj1 (Forall_forall _ _) Ha) in Hin. destruct Hin as (H1 & -> & _). by rewrite <- Ep. }
  destruct res as [s|e]; [|by split_and!].
  assert (∃ d s, last acts = Some (Secure (mkClientConfig roots [lit "http/1.1"]) name d) ∧
     handshake net (mkClientConfig roots [lit "http/1.1"]) name d = Ok s) as G3 by (destruct Hr as (d & ? & ? & _); by exists d, s).
  destruct source as [w|e]; [|by split_and!].
  destruct (put parse_head slot size ct flushed response w) as [res w'] eqn:Eput. split_and!; [done..|].
  intros ->. exists w. destruct (upload_whole _ _ _ _ _ _ _ _ _ Eput) as [Hw Hl]. split_and!; [done| |done].
  by rewrite Hw, drop_app_length.
Qed.
End Routes.

(** * The account's own connection *)

Section Login.
Context {Der Anchor : Type} (webpki : list Anchor) (native : list Der) (anchor : Der → option Anchor).
Context (pem_file : str → result (list (result Der str)) str) (parse_jid : str → option Jid) (is_file : str → bool).
Context (net : Net Anchor).
Implicit Types (c : Connector Anchor).

Lemma collect_ok {A E} (l : list (result A E)) (x : list A) : collect l = Ok x → l = map Ok x.
Proof.
  revert x. induction l as [|[a|e] l IH]; cbn; intros x H; [by simplify_eq|..|done].
  destruct (collect l) as [y|]; [|done]. cbn in H. simplify_eq. cbn. by rewrite (IH y).
Qed.

(** The usual roots are always there; a certificate of the user's is added, and
    a file that adds none is an error. *)
Lemma trust_store_adds extra roots : trust_store webpki native anchor pem_file extra = Ok roots →
  ∃ added, roots = webpki ++ omap anchor native ++ added ∧
    match extra with
    | None => added = []
    | Some path => added ≠ [] ∧ ∃ certs, pem_file path = Ok (map Ok certs) ∧ added = omap anchor certs
    end.
Proof.
  unfold trust_store, add_parsable. cbn [fst]. destruct extra as [path|].
  2:{ intros [= <-]. exists []. by rewrite app_nil_r. }
  unfold add_pem. destruct (pem_file path) as [entries|]; [|done]. destruct (collect entries) as [certs|] eqn:Ec; [|done].
  apply collect_ok in Ec as ->. unfold add_parsable. destruct (Nat.eqb _ 0) eqn:E0; [done|]. intros [= <-].
  exists (omap anchor certs). rewrite app_assoc. split_and!; [done| |by exists certs].
  intros E. by rewrite E in E0.
Qed.

(** What [connect] does, in order. *)
Definition login_acts c (jid : Jid) : list (Act Anchor) :=
  let d := dial_of c (cn_host c) (cn_port c) in
  [Open d; Secure (cn_tls c) (domain jid) d; StreamTo (domain jid) (bare jid)].

Lemma establish_acts c dom answers :
  let d := dial_of c (cn_host c) (cn_port c) in
  ∃ acts r n, establish net c dom answers = (acts, r, n) ∧ acts `prefix_of` [Open d; Secure (cn_tls c) dom d] ∧
    (∀ b, r = Some (Ok b) →
       acts = [Open d; Secure (cn_tls c) dom d] ∧ tcp net d = Ok tt ∧
       ∃ s, handshake net (cn_tls c) dom d = Ok s ∧
         if tls13 s then ∃ m, exported s = Ok m ∧ b = TlsExporter m else b = NoBinding).
Proof.
  intros d. unfold establish, tls_stream, dial, bind, ret, act. fold d.
  destruct (name_for net dom); cbn; [|eexists _, _, _; split; [reflexivity|]; split; [by apply prefix_nil|done]].
  destruct answers as [|[|n0]]; cbn; destruct (tcp net d) as [[]|] eqn:Et; cbn;
    try (eexists _, _, _; split; [reflexivity|]; split; [by eexists|done]).
  destruct (handshake net (cn_tls c) dom d) as [s|] eqn:Eh; cbn;
    (eexists _, _, _; split; [reflexivity|]; split; [by eexists|]); [|done].
  intros b Hb. split_and!; [done..|]. exists s. split; [done|]. destruct (tls13 s); [|by simplify_eq].
  destruct (exported s) as [m|]; [|done]. exists m. by simplify_eq.
Qed.

(** C17: an account is logged in to over TLS or not at all. A connector that can be
    built trusts the usual authorities, and beyond them only what the file the
    user named holds, which is something. Connecting with it opens one
    connection, to the server and port of the account and through its proxy if it
    has one; proves the server to be the account's domain, whatever was dialled;
    and only then says anything, to that domain. A key to bind the login to is
    that of the TLS session, and is there exactly with TLS 1.3. *)
Theorem login_inside_tls (unsupported : option str) (cfg : XmppConfig) (c : Connector Anchor) :
  new webpki native anchor pem_file parse_jid is_file unsupported cfg = Ok c →
  dial_host parse_jid cfg = Ok (cn_host c) ∧ cn_port c = dial_port cfg ∧ cn_port c ≠ STARTTLS_PORT ∧ cn_proxy c = xc_proxy cfg ∧
  (∃ added, tc_roots (cn_tls c) = webpki ++ omap anchor native ++ added ∧
     match xc_extra_root_cert cfg with
     | None => added = []
     | Some path => added ≠ [] ∧ ∃ certs, pem_file path = Ok (map Ok certs) ∧ added = omap anchor certs
     end) ∧
  ∀ answers jid n, ∃ acts r n', connect net answers c jid n = (acts, r, n') ∧
    acts `prefix_of` login_acts c jid ∧
    (StreamTo (domain jid) (bare jid) ∈ acts →
       ∃ s, handshake net (cn_tls c) (domain jid) (dial_of c (cn_host c) (cn_port c)) = Ok s) ∧
    (∀ b, r = Some (Ok b) → acts = login_acts c jid ∧
       ∃ s, handshake net (cn_tls c) (domain jid) (dial_of c (cn_host c) (cn_port c)) = Ok s ∧
         if tls13 s then ∃ m, exported s = Ok m ∧ b = TlsExporter m else b = NoBinding).
Proof.
  unfold new. destruct (validate_xmpp _ _ cfg) as [[]|] eqn:Ev; [|done].
  apply validate_xmpp_accepts in Ev as (j & Hj & _ & _ & _ & Hport & _).
  destruct (trust_store _ _ _ _ _) as [roots|] eqn:Et; [|done]. cbn [rbind]. intros Hc.
  destruct (with_roots_parts _ _ _ _ _ _ Hc Hj) as (E1 & E2 & E3 & E4 & _).
  split_and!; [done|done|by rewrite E2|done|rewrite E4; by apply trust_store_adds|].
  intros answers jid n. unfold connect, bind, map_err, within, act, ret, login_acts.
  set (d := dial_of c (cn_host c) (cn_port c)).
  destruct (establish_acts c (domain jid) answers) as (acts & r & n' & -> & Hp & Hok). fold d in Hp, Hok.
  assert (acts `prefix_of` [Open d; Secure (cn_tls c) (domain jid) d; StreamTo (domain jid) (bare jid)]) as Hp'.
  { etrans; [exact Hp|]. by exists [StreamTo (domain jid) (bare jid)]. }
  assert (StreamTo (domain jid) (bare jid) ∉ acts) as Hno.
  { intros Hin. destruct Hp as [k Hk]. assert (StreamTo (domain jid) (bare jid) ∈ acts ++ k) as Hin' by set_solver.
    rewrite <- Hk in Hin'. set_solver. }
  destruct r as [[b|e]|]; [|eexists _, _, _; split; [reflexivity|]; split_and!; done..].
  destruct (Hok b eq_refl) as (-> & Htcp & s & Hs & Hb).
  destruct n as [|n]; cbn; [|destruct (initiate_stream _ _ _)]; cbn; (eexists _, _, _; split; [reflexivity|]);
    (split_and!; [done|by exists s|]); intros b' Hb'; simplify_eq. split; [done|]. by exists s.
Qed.
End Login.

(** * Examples *)

Definition example_parse (s : str) : option Jid :=
  match split_once (ch "@") s with Some (n, d) => Some (mkJid (Some n) d None) | None => None end.
Definition example_account : XmppConfig :=
  mkXmppConfig (lit "juliet@example.org") (lit "secret") None None [] None (Some (lit "own.pem")) None.
Definition example_pem (path : str) : result (list (result N str)) str := Ok [Ok 7%N].
(** Everything answers, and every name is that of one machine. *)
Definition example_net (ip : IpAddr) : Net N :=
  mkNet (λ _ p, Ok [(ip, p)]) (λ _, Ok tt) (λ _, None) (λ _ _ _, Ok (mkTls true (Ok [1%N; 2%N]))) (λ _ _, Ok tt).
Definition example_connector : result (Connector N) ConnectorError :=
  new [1%N; 2%N] [3%N] Some example_pem example_parse (λ _, true) None example_account.
Definition example_built : Connector N :=
  mkConnector (lit "example.org") 5223 None (mkClientConfig [1%N; 2%N; 3%N; 7%N] [ALPN])
    (mkClientConfig [1%N; 2%N; 3%N; 7%N] [lit "http/1.1"]) (lit "example.org").
Definition example_upload (ip : IpAddr) : list (Act N) * result unit UploadError * list N * list N :=
  send_file (example_net ip) (λ _, None) (λ e, match e with OtherIo e => e | _ => [] end) (λ _, Some 443%N) example_head 3
    example_built example_slot (Ok example_wire) 5 (lit "text/plain") None [Ok (lit "HTTP/1.1 201 Created")].

Example example_connector_built : example_connector = Ok example_built.
Proof. vm_compute. reflexivity. Qed.

(** The account's provider is on the public internet, and a name inside its own
    domain that turns out to be a machine of the user's network is refused all
    the same: being in the domain is not enough. *)
Example own_domain_not_enough :
  inside_account_domain example_built (lit "up.example.org") = true ∧
  example_upload (V4 192 168 1 10) =
    ([Resolve (lit "up.example.org") 443],
     Err (Connection (lit "the upload address does not resolve to a public address")), [], []).
Proof. split; vm_compute; reflexivity. Qed.

Lemma upload_leaves_safely_witness :
  let '(acts, res, sent, _) := example_upload (V4 8 8 8 8) in
  acts = [Resolve (lit "up.example.org") 443; Open (ByAddress (V4 8 8 8 8) 443);
          Secure (mkClientConfig [1; 2; 3; 7]%N [lit "http/1.1"]) (lit "up.example.org") (ByAddress (V4 8 8 8 8) 443)] ∧
  res = Ok tt ∧ sent = request_head example_slot 5 (lit "text/plain") ++ lit "hello".
Proof.
  pose proof (upload_leaves_safely example_parse (example_net (V4 8 8 8 8)) (λ _, None)
    (λ s, Some (slot_put example_slot)) (λ _, false)
    (λ e, match e with OtherIo e => e | _ => [] end) (λ _, Some 443%N) example_head None example_account [1; 2; 3; 7]%N example_built
    (mkJid (Some (lit "juliet")) (lit "example.org") None) (mkSlotResult [] [] []) example_slot 3 (Ok example_wire) 5 (lit "text/plain") None
    [Ok (lit "HTTP/1.1 201 Created")] ltac:(vm_compute; reflexivity) ltac:(vm_compute; reflexivity) ltac:(vm_compute; reflexivity))
    as (name & _ & H).
  change (send_file _ _ _ _ _ _ _ _ _ _ _ _ _) with (example_upload (V4 8 8 8 8)) in H.
  assert (example_upload (V4 8 8 8 8) =
    ([Resolve (lit "up.example.org") 443; Open (ByAddress (V4 8 8 8 8) 443);
      Secure (mkClientConfig [1; 2; 3; 7]%N [lit "http/1.1"]) (lit "up.example.org") (ByAddress (V4 8 8 8 8) 443)],
     Ok tt, (example_upload (V4 8 8 8 8)).1.2, [5%N])) as E by (vm_compute; reflexivity).
  rewrite E in H |- *. destruct H as (_ & _ & _ & H). destruct (H eq_refl) as (w & Hw & Hs & _). injection Hw as <-.
  split; [reflexivity|]. split; [reflexivity|exact Hs].
Defined.

Lemma login_inside_tls_witness :
  let jid := mkJid (Some (lit "juliet")) (lit "example.org") (Some (lit "balcony")) in
  connect (example_net (V4 8 8 8 8)) 2 example_built jid 1
    = (login_acts example_built jid, Some (Ok (TlsExporter [1; 2]%N)), 0) ∧
  cn_port example_built ≠ STARTTLS_PORT ∧
  ∃ added, [1; 2; 3; 7]%N = [1; 2]%N ++ [3]%N ++ added ∧ added ≠ [].
Proof.
  split; [vm_compute; reflexivity|].
  destruct (login_inside_tls [1%N; 2%N] [3%N] Some example_pem example_parse (λ _, true) (example_net (V4 8 8 8 8)) None example_account
    example_built ltac:(vm_compute; reflexivity)) as (_ & _ & H1 & _ & (added & H2 & H3 & _) & _).
  split; [exact H1|]. exists added. split; [exact H2|exact H3].
Defined.
