(* ===== verification/Store.v ===== *)
(** The message store ([ddirc-core/src/store/mod.rs]): scrollback, what the user
    wrote about people and conversations, and the upgrade of an older file.

    SQLite is not in the repository. A table is the list of its rows, or a map
    where the source never looks at an order, and each statement of the source
    is the operation it names. Three things are SQLite's own choice and are
    parameters: the id an [AUTOINCREMENT] insertion gets ([pick], larger than
    any given before), what an ignored insertion does to the sequence ([skip],
    which may use a number up), and what matches a full-text expression
    ([fts_match]). A failing disk is not modelled: what is left of an operation
    is that a closed store refuses it. *)
From S2P Require Import Prelude RustStr Format.

Definition SCHEMA_VERSION : Z := 5.
Definition MAX_ROWS : Z := 2000000.
Definition i64_max : Z := 9223372036854775807.

Inductive StoreError := Closed | FromTheFuture (found understood : Z).

Record StoredLine := mkLine {
  profile_id : str;
  conversation : str;
  at_ms : Z;
  sender : option str;
  sender_prefix : option str;
  text : str;
  is_self : bool;
  is_mention : bool;
  is_action : bool;
  is_notice : bool;
  kind : Z;
  msgid : option str;
  reply_msgid : option str;
  reply_nick : option str;
  reply_excerpt : option str;
}.
Definition set_text (t : str) (l : StoredLine) : StoredLine :=
  mkLine (profile_id l) (conversation l) (at_ms l) (sender l) (sender_prefix l) t (is_self l) (is_mention l)
    (is_action l) (is_notice l) (kind l) (msgid l) (reply_msgid l) (reply_nick l) (reply_excerpt l).

Record Row := mkRow { id : Z; line : StoredLine }.

Record ConversationState := mkState {
  cs_draft : option str;
  cs_draft_reply_msgid : option str;
  cs_read_line_id : option Z;
  cs_read_at_ms : option Z;
  cs_pin_order : option Z;
  cs_archived : bool;
}.
Definition none {A} (o : option A) : bool := match o with None => true | Some _ => false end.
Definition is_blank (s : ConversationState) : bool :=
  none (cs_draft s) && none (cs_draft_reply_msgid s) && none (cs_read_line_id s) && none (cs_read_at_ms s)
  && none (cs_pin_order s) && negb (cs_archived s).

Definition MARK_PINNED : Z := 1.
Definition MARK_SAVED : Z := 2.
Record Mark := mkMark {
  mk_id : Z;
  mk_kind : Z;
  mk_profile : str;
  mk_conversation : str;
  mk_line_id : option Z;
  mk_msgid : option str;
  mk_at : Z;
  mk_sender : option str;
  mk_text : str;
  mk_created : Z;
}.

Record Person := mkPerson {
  p_alias : option str;
  p_note : option str;
  p_color : option Z;
  p_avatar : option (list N);
  p_pixel_seed : option Z;
}.
Definition nothing_written (p : Person) : bool :=
  none (p_alias p) && none (p_note p) && none (p_color p) && none (p_avatar p) && none (p_pixel_seed p).

(** The key columns of [people], [persona_nicks] and [conversation_state] are
    the key of the map; the rest of a row is its value. *)
Record Db := mkDb {
  lines : list Row;
  sequence : Z;
  lines_fts : gmap Z (str * str);
  people_t : gmap (str * str) Person;
  personas_t : gmap str str;
  persona_nicks_t : gmap (str * str) str;
  states_t : gmap (str * str) ConversationState;
  marks_t : list Mark;
}.
Definition set_lines l s f (d : Db) := mkDb l s f (people_t d) (personas_t d) (persona_nicks_t d) (states_t d) (marks_t d).
Definition set_people p (d : Db) := mkDb (lines d) (sequence d) (lines_fts d) p (personas_t d) (persona_nicks_t d) (states_t d) (marks_t d).
Definition set_personas p n (d : Db) := mkDb (lines d) (sequence d) (lines_fts d) (people_t d) p n (states_t d) (marks_t d).
Definition set_states s (d : Db) := mkDb (lines d) (sequence d) (lines_fts d) (people_t d) (personas_t d) (persona_nicks_t d) s (marks_t d).
Definition set_marks m (d : Db) := mkDb (lines d) (sequence d) (lines_fts d) (people_t d) (personas_t d) (persona_nicks_t d) (states_t d) m.

(** ** The connections

    The reading connection is open exactly when the writing one is, and sees
    what was last committed. *)
Definition Store := option Db.
Definition with_ {T} (f : Db → T * Db) (s : Store) : result T StoreError * Store :=
  match s with
  | None => (Err Closed, None)
  | Some d => let '(t, d) := f d in (Ok t, Some d)
  end.
Definition read {T} (f : Db → T) (s : Store) : result T StoreError :=
  match s with None => Err Closed | Some d => Ok (f d) end.
Definition close (s : Store) : Store := None.
Definition is_open (s : Store) : bool := match s with Some _ => true | None => false end.

(** ** Statements on [lines] *)

Definition in_conversation (p c : str) (l : StoredLine) : bool :=
  bool_decide (profile_id l = p) && bool_decide (conversation l = c).
(** [msgid = ?3 AND sender = ?4]; a comparison with NULL selects nothing. *)
Definition said_as (p c m s : str) (r : Row) : bool :=
  in_conversation p c (line r) && bool_decide (msgid (line r) = Some m) && bool_decide (sender (line r) = Some s).

(** [DELETE FROM lines WHERE ...], with the trigger that keeps the index in step. *)
Definition delete_lines (p : Row → bool) (d : Db) : Db :=
  let gone := List.filter p (lines d) in
  set_lines (List.filter (λ r, negb (p r)) (lines d)) (sequence d)
    (foldr (λ r f, delete (id r) f) (lines_fts d) gone) d.

(** Whether the unique index on [msgid] has the line already. *)
Definition replayed (l : StoredLine) (rows : list Row) : bool :=
  match msgid l with
  | None => false
  | Some m => existsb (λ r, in_conversation (profile_id l) (conversation l) (line r)
                            && bool_decide (msgid (line r) = Some m)) rows
  end.

Definition index_entry (l : StoredLine) : option (str * str) := (λ s, (s, Format.strip (text l))) <$> sender l.
Definition index_line (i : Z) (l : StoredLine) (f : gmap Z (str * str)) : gmap Z (str * str) :=
  match index_entry l with Some e => <[i := e]> f | None => f end.

Section Store.
Context (pick skip : Z → Z) (fts_match : str → str * str → bool).

(** One turn of [append]'s loop. *)
Definition insert_line (l : StoredLine) (d : Db) : option Z * Db :=
  if replayed l (lines d) then (None, set_lines (lines d) (skip (sequence d)) (lines_fts d) d)
  else
    let i := pick (sequence d) in
    (Some i, set_lines (lines d ++ [mkRow i l]) i (index_line i l (lines_fts d)) d).

Definition highest_id (rows : list Row) : option Z :=
  foldr (λ r m, Some (match m with Some x => Z.max (id r) x | None => id r end)) None rows.

Definition prune_to (ceiling : Z) (d : Db) : Db :=
  match highest_id (lines d) with
  | None => d
  | Some highest => delete_lines (λ r, (id r <=? highest - ceiling)%Z) d
  end.
Definition prune (d : Db) : Db := prune_to MAX_ROWS d.

Fixpoint insert_lines (ls : list StoredLine) (d : Db) : list (option Z) * Db :=
  match ls with
  | [] => ([], d)
  | l :: ls =>
      let '(i, d) := insert_line l d in
      let '(ids, d) := insert_lines ls d in
      (i :: ids, d)
  end.
Definition append_all (ls : list StoredLine) (d : Db) : list (option Z) * Db :=
  let '(ids, d) := insert_lines ls d in (ids, prune d).
Definition append (ls : list StoredLine) (s : Store) : result (list (option Z)) StoreError * Store :=
  if is_empty ls then (Ok [], s) else with_ (append_all ls) s.

(** The first row selected, which the unique index makes the only one. *)
Definition edit_line (p c m s t : str) : Store → result bool StoreError * Store :=
  with_ (λ d,
    match List.find (said_as p c m s) (lines d) with
    | None => (false, d)
    | Some r =>
        let rows := map (λ x, if bool_decide (id x = id r) then mkRow (id x) (set_text t (line x)) else x) (lines d) in
        (true, set_lines rows (sequence d) (<[id r := (s, Format.strip t)]> (delete (id r) (lines_fts d))) d)
    end).

Definition remove_line (p c m s : str) : Store → result bool StoreError * Store :=
  with_ (λ d, (Nat.ltb 0 (length (List.filter (said_as p c m s) (lines d))), delete_lines (said_as p c m s) d)).

Definition clear : Store → result unit StoreError * Store :=
  with_ (λ d, (tt, set_marks [] (set_states ∅ (set_lines [] (sequence d) ∅ d)))).

Definition forget (p c : str) : Store → result unit StoreError * Store :=
  with_ (λ d,
    let d := delete_lines (λ r, in_conversation p c (line r)) d in
    let d := set_states (delete (p, c) (states_t d)) d in
    (tt, set_marks (List.filter (λ m, negb (bool_decide (mk_profile m = p) && bool_decide (mk_conversation m = c))) (marks_t d)) d)).

(** Keep the rows of a keyed table whose key passes. *)
Definition keep_keys {K V} `{Countable K} (p : K → bool) (t : gmap K V) : gmap K V := filter (λ kv, p kv.1 = true) t.

Definition forget_profile (p : str) : Store → result unit StoreError * Store :=
  with_ (λ d,
    let d := delete_lines (λ r, bool_decide (profile_id (line r) = p)) d in
    let d := set_states (keep_keys (λ k, negb (bool_decide (k.1 = p))) (states_t d)) d in
    let d := set_marks (List.filter (λ m, negb (bool_decide (mk_profile m = p))) (marks_t d)) d in
    let d := set_people (keep_keys (λ k, negb (bool_decide (k.1 = p))) (people_t d)) d in
    (tt, set_personas (personas_t d) (keep_keys (λ k, negb (bool_decide (k.2 = p))) (persona_nicks_t d)) d)).

(** ** Reading lines *)

Definition row_le (a b : Row) : Prop :=
  (at_ms (line a) < at_ms (line b))%Z ∨ (at_ms (line a) = at_ms (line b) ∧ (id a ≤ id b)%Z).
#[export] Instance row_le_dec : RelDecision row_le.
Proof. unfold row_le. intros a b. apply _. Defined.

(** [(l.at_ms, l.id) < (?3, ?4)], a comparison of row values. *)
Definition key_lt (at_ : Z) (i : Z) (r : Row) : bool :=
  (at_ms (line r) <? at_)%Z || ((at_ms (line r) =? at_)%Z && (id r <? i)%Z).

Definition before (p c : str) (at_ i : Z) (limit : N) : Store → result (list Row) StoreError :=
  read (λ d, reverse (take (N.to_nat limit)
    (merge_sort (flip row_le) (List.filter (λ r, in_conversation p c (line r) && key_lt at_ i r) (lines d))))).

Definition tail (p c : str) (limit : N) : Store → result (list Row) StoreError := before p c i64_max i64_max limit.

Definition recent (p c : str) (limit : N) (s : Store) : result (list StoredLine) StoreError :=
  match tail p c limit s with Ok rows => Ok (map line rows) | Err e => Err e end.

(** [radius + 1] wraps in a [u32]. *)
Definition around (p c : str) (at_ i : Z) (radius : N) (s : Store) : result (list Row) StoreError :=
  match before p c at_ i radius s with
  | Err e => Err e
  | Ok rows =>
      read (λ d, rows ++ take (N.to_nat ((radius + 1) mod 2 ^ 32))
        (merge_sort row_le (List.filter (λ r, in_conversation p c (line r) && negb (key_lt at_ i r)) (lines d)))) s
  end.

(** [ORDER BY id DESC]. *)
Definition id_ge (a b : Row) : Prop := (id b ≤ id a)%Z.
#[export] Instance id_ge_dec : RelDecision id_ge.
Proof. unfold id_ge. intros a b. apply _. Defined.

Definition last_seen_ms (p : str) : Store → result (option Z) StoreError :=
  read (λ d, (λ r, at_ms (line r)) <$>
    head (merge_sort id_ge (List.filter (λ r, bool_decide (profile_id (line r) = p)) (lines d)))).

Definition quote : char := 34%N.
(** [replace] of a quotation mark by two. *)
Definition double_quotes (w : str) : str := concat (map (λ c, if (c =? quote)%N then [quote; quote] else [c]) w).
Definition quoted (w : str) : str := [quote] ++ double_quotes w ++ [quote].
Definition match_expression (query : str) : option str :=
  let words := map quoted (split_whitespace query) in
  if is_empty words then None else Some (join (lit " ") words ++ lit "*").

Definition optionally {A} `{EqDecision A} (o : option A) (x : A) : bool :=
  match o with None => true | Some y => bool_decide (x = y) end.

Definition search (p c : option str) (query : str) (limit : N) (before_id : option Z) (s : Store) :
    result (list Row) StoreError :=
  match match_expression query with
  | None => Ok []
  | Some expression =>
      read (λ d, take (N.to_nat limit) (merge_sort id_ge
        (List.filter (λ r,
           match lines_fts d !! id r with Some e => fts_match expression e | None => false end
           && (id r <? default i64_max before_id)%Z
           && optionally p (profile_id (line r)) && optionally c (conversation (line r))) (lines d)))) s
  end.

Definition count : Store → result nat StoreError := read (λ d, length (lines d)).
Definition lowest_id (rows : list Row) : option Z :=
  foldr (λ r m, Some (match m with Some x => Z.min (id r) x | None => id r end)) None rows.
Definition approximate_count : Store → result Z StoreError :=
  read (λ d, default 0%Z (h ← highest_id (lines d); l ← lowest_id (lines d); Some (h - l + 1)%Z)).

(** ** Conversations, marks, people and personas *)

Definition conversation_states : Store → result (list ((str * str) * ConversationState)) StoreError :=
  read (λ d, map_to_list (states_t d)).
Definition set_conversation_state (p c : str) (st : ConversationState) : Store → result unit StoreError * Store :=
  with_ (λ d, (tt, set_states (if is_blank st then delete (p, c) (states_t d) else <[(p, c) := st]> (states_t d)) d)).

(** The columns of [marks_unique]; an index holds two NULLs to be different. *)
Definition mark_conflict (a b : Mark) : bool :=
  bool_decide (mk_kind a = mk_kind b) && bool_decide (mk_profile a = mk_profile b)
  && bool_decide (mk_conversation a = mk_conversation b) && bool_decide (mk_at a = mk_at b)
  && match mk_sender a, mk_sender b with Some x, Some y => bool_decide (x = y) | _, _ => false end
  && bool_decide (mk_text a = mk_text b).
(** [sender IS ?5], where two NULLs are the same. *)
Definition mark_same (a b : Mark) : bool :=
  bool_decide (mk_kind a = mk_kind b) && bool_decide (mk_profile a = mk_profile b)
  && bool_decide (mk_conversation a = mk_conversation b) && bool_decide (mk_at a = mk_at b)
  && bool_decide (mk_sender a = mk_sender b) && bool_decide (mk_text a = mk_text b).
Definition mark_le (a b : Mark) : Prop := (mk_at a < mk_at b)%Z ∨ (mk_at a = mk_at b ∧ (mk_id a ≤ mk_id b)%Z).
#[export] Instance mark_le_dec : RelDecision mark_le.
Proof. unfold mark_le. intros a b. apply _. Defined.

Definition marks (k : option Z) (p c : option str) : Store → result (list Mark) StoreError :=
  read (λ d, merge_sort mark_le (List.filter (λ m,
    optionally k (mk_kind m) && optionally p (mk_profile m) && optionally c (mk_conversation m)) (marks_t d))).

(** A row of an [INTEGER PRIMARY KEY] gets one more than the largest in use. *)
Definition next_mark_id (ms : list Mark) : Z := (1 + foldr (λ m x, Z.max (mk_id m) x) 0 ms)%Z.
Definition set_mark_id (i : Z) (m : Mark) : Mark :=
  mkMark i (mk_kind m) (mk_profile m) (mk_conversation m) (mk_line_id m) (mk_msgid m) (mk_at m) (mk_sender m) (mk_text m) (mk_created m).

Definition add_mark (m : Mark) : Store → result (option Z) StoreError * Store :=
  with_ (λ d,
    if existsb (mark_conflict m) (marks_t d) then (mk_id <$> List.find (mark_same m) (marks_t d), d)
    else let i := next_mark_id (marks_t d) in (Some i, set_marks (marks_t d ++ [set_mark_id i m]) d)).

Definition remove_mark (i : Z) : Store → result unit StoreError * Store :=
  with_ (λ d, (tt, set_marks (List.filter (λ m, negb (mk_id m =? i)%Z) (marks_t d)) d)).

Definition pair_le (a b : (str * str) * Person) : Prop :=
  a.1.1 ≠ b.1.1 ∧ str_le a.1.1 b.1.1 ∨ a.1.1 = b.1.1 ∧ str_le a.1.2 b.1.2.
#[export] Instance pair_le_dec : RelDecision pair_le.
Proof. unfold pair_le, str_le. intros a b. apply _. Defined.
Definition people : Store → result (list ((str * str) * Person)) StoreError :=
  read (λ d, merge_sort pair_le (map_to_list (people_t d))).

Definition forget_person (p nick : str) : Store → result unit StoreError * Store :=
  with_ (λ d, (tt, set_people (delete (p, nick) (people_t d)) d)).
Definition set_person (p nick : str) (who : Person) : Store → result unit StoreError * Store :=
  if nothing_written who then forget_person p nick
  else with_ (λ d, (tt, set_people (<[(p, nick) := who]> (people_t d)) d)).
Definition forget_people (p : str) : Store → result unit StoreError * Store :=
  with_ (λ d, (tt, set_people (keep_keys (λ k, negb (bool_decide (k.1 = p))) (people_t d)) d)).

Definition label_le (a b : str * str) : Prop := a.2 ≠ b.2 ∧ str_le a.2 b.2 ∨ a.2 = b.2 ∧ str_le a.1 b.1.
#[export] Instance label_le_dec : RelDecision label_le.
Proof. unfold label_le, str_le. intros a b. apply _. Defined.
Definition personas : Store → result (list (str * str)) StoreError :=
  read (λ d, merge_sort label_le (map_to_list (personas_t d))).
Definition set_persona (i label : str) : Store → result unit StoreError * Store :=
  with_ (λ d, (tt, set_personas (<[i := label]> (personas_t d)) (persona_nicks_t d) d)).
Definition forget_persona (i : str) : Store → result unit StoreError * Store :=
  with_ (λ d, (tt, set_personas (delete i (personas_t d))
                     (keep_keys (λ k, negb (bool_decide (k.1 = i))) (persona_nicks_t d)) d)).
Definition set_persona_nick (persona network nick : str) : Store → result unit StoreError * Store :=
  with_ (λ d, (tt, set_personas (personas_t d) (<[(persona, network) := nick]> (persona_nicks_t d)) d)).
Definition forget_persona_nicks_for_network (network : str) : Store → result unit StoreError * Store :=
  with_ (λ d, (tt, set_personas (personas_t d)
                     (keep_keys (λ k, negb (bool_decide (k.2 = network))) (persona_nicks_t d)) d)).

(** ** What the application asks of the store *)

Inductive StoreOp :=
  | Append (ls : list StoredLine)
  | EditLine (p c m s t : str)
  | RemoveLine (p c m s : str)
  | Clear
  | Forget (p c : str)
  | ForgetProfile (p : str)
  | SetConversationState (p c : str) (st : ConversationState)
  | AddMark (m : Mark)
  | RemoveMark (i : Z)
  | SetPerson (p nick : str) (who : Person)
  | ForgetPerson (p nick : str)
  | ForgetPeople (p : str)
  | SetPersona (i label : str)
  | ForgetPersona (i : str)
  | SetPersonaNick (persona network nick : str)
  | ForgetPersonaNicks (network : str)
  | Close.

Definition perform (op : StoreOp) (s : Store) : Store :=
  match op with
  | Append ls => (append ls s).2
  | EditLine p c m who t => (edit_line p c m who t s).2
  | RemoveLine p c m who => (remove_line p c m who s).2
  | Clear => (clear s).2
  | Forget p c => (forget p c s).2
  | ForgetProfile p => (forget_profile p s).2
  | SetConversationState p c st => (set_conversation_state p c st s).2
  | AddMark m => (add_mark m s).2
  | RemoveMark i => (remove_mark i s).2
  | SetPerson p nick who => (set_person p nick who s).2
  | ForgetPerson p nick => (forget_person p nick s).2
  | ForgetPeople p => (forget_people p s).2
  | SetPersona i label => (set_persona i label s).2
  | ForgetPersona i => (forget_persona i s).2
  | SetPersonaNick persona network nick => (set_persona_nick persona network nick s).2
  | ForgetPersonaNicks network => (forget_persona_nicks_for_network network s).2
  | Close => close s
  end.
End Store.

(** * The file, and its upgrade *)

(** What a file can hold: any of the tables, [lines] with or without the
    columns that version 4 added, and under the name of the search index a
    table made by some statement. *)
Record File := mkFile {
  user_version : Z;
  f_lines : option (list Row);
  f_sequence : Z;
  f_columns : list str;
  f_people : option (gmap (str * str) Person);
  f_personas : option (gmap str str);
  f_nicks : option (gmap (str * str) str);
  f_states : option (gmap (str * str) ConversationState);
  f_marks : option (list Mark);
  f_fts : option (str * gmap Z (str * str));
  f_trigger : bool;
}.
Definition create {A} (empty : A) (t : option A) : option A := match t with Some _ => t | None => Some empty end.

Definition first_columns : list str :=
  map lit ["id"; "profile_id"; "conversation"; "at_ms"; "sender"; "sender_prefix"; "text"; "is_self";
           "is_mention"; "is_action"; "is_notice"; "kind"]%string.
Definition reply_columns : list str := map lit ["msgid"; "reply_msgid"; "reply_nick"; "reply_excerpt"]%string.

Definition migrate_to_1 (f : File) : File :=
  mkFile (user_version f) (create [] (f_lines f)) (f_sequence f)
    (match f_lines f with Some _ => f_columns f | None => first_columns end)
    (f_people f) (f_personas f) (f_nicks f) (f_states f) (f_marks f) (f_fts f) (f_trigger f).
Definition migrate_to_2 (f : File) : File :=
  mkFile (user_version f) (f_lines f) (f_sequence f) (f_columns f)
    (create ∅ (f_people f)) (f_personas f) (f_nicks f) (f_states f) (f_marks f) (f_fts f) (f_trigger f).
Definition migrate_to_3 (f : File) : File :=
  mkFile (user_version f) (f_lines f) (f_sequence f) (f_columns f)
    (f_people f) (create ∅ (f_personas f)) (create ∅ (f_nicks f)) (f_states f) (f_marks f) (f_fts f) (f_trigger f).

(** A column just added is NULL in every row. *)
Definition clear_column (c : str) (l : StoredLine) : StoredLine :=
  let is_ s := bool_decide (c = lit s) in
  let keep s (o : option str) := if is_ s then None else o in
  mkLine (profile_id l) (conversation l) (at_ms l) (sender l) (sender_prefix l) (text l) (is_self l) (is_mention l)
    (is_action l) (is_notice l) (kind l) (keep "msgid"%string (msgid l)) (keep "reply_msgid"%string (reply_msgid l))
    (keep "reply_nick"%string (reply_nick l)) (keep "reply_excerpt"%string (reply_excerpt l)).
Definition add_column (existing : list str) (f : File) (c : str) : File :=
  if bool_decide (c ∈ existing) then f
  else mkFile (user_version f) (map (λ r, mkRow (id r) (clear_column c (line r))) <$> f_lines f) (f_sequence f)
         (f_columns f ++ [c]) (f_people f) (f_personas f) (f_nicks f) (f_states f) (f_marks f) (f_fts f) (f_trigger f).
Definition migrate_to_4 (f : File) : File := foldl (add_column (f_columns f)) f reply_columns.

(** [SELECT MIN(id) ... GROUP BY profile_id, conversation, msgid]. *)
Definition is_first (rows : list Row) (r : Row) : bool :=
  match msgid (line r) with
  | None => true
  | Some m => forallb (λ x, negb (in_conversation (profile_id (line r)) (conversation (line r)) (line x)
                                  && bool_decide (msgid (line x) = Some m)) || (id r <=? id x)%Z) rows
  end.

Definition BACKFILL_PAGE : nat := 5000.
(** The loop of [backfill_search_index]; each turn but the last takes a row. *)
Fixpoint backfill_from (fuel : nat) (after : Z) (rows : list Row) (f : gmap Z (str * str)) : gmap Z (str * str) :=
  match fuel with
  | 0 => f
  | S fuel =>
      let page := take BACKFILL_PAGE (merge_sort (flip id_ge)
        (List.filter (λ r, (after <? id r)%Z && negb (none (sender (line r)))) rows)) in
      match last page with
      | None => f
      | Some l => backfill_from fuel (id l) rows (foldl (λ f r, index_line (id r) (line r) f) f page)
      end
  end.
Definition backfill_search_index (rows : list Row) (f : gmap Z (str * str)) : gmap Z (str * str) :=
  backfill_from (S (length rows)) 0 rows f.

Definition fts_sql : str := lit "CREATE VIRTUAL TABLE lines_fts USING fts5(sender, body, content = '', contentless_delete = 1, tokenize = 'unicode61 remove_diacritics 2')".
Fixpoint contains (needle s : str) : bool :=
  starts_with needle s || match s with [] => false | _ :: s => contains needle s end.
Definition indexed (t : option (str * gmap Z (str * str))) : bool :=
  match t with Some (sql, _) => contains (lit "fts5") (to_ascii_lowercase sql) | None => false end.

Definition migrate_to_5 (f : File) : File :=
  let rows := default [] (f_lines f) in
  let kept := List.filter (is_first rows) rows in
  let gone := List.filter (λ r, negb (is_first rows r)) rows in
  let fts := if f_trigger f then (λ t, (t.1, foldr (λ r f, delete (id r) f) t.2 gone)) <$> f_fts f else f_fts f in
  let done_ := indexed fts in
  mkFile (user_version f) ((λ _, kept) <$> f_lines f) (f_sequence f) (f_columns f) (f_people f) (f_personas f) (f_nicks f)
    (create ∅ (f_states f)) (create [] (f_marks f))
    (if done_ then fts else Some (fts_sql, backfill_search_index kept ∅)) (if done_ then f_trigger f else true).

Definition set_version (v : Z) (f : File) : File :=
  mkFile v (f_lines f) (f_sequence f) (f_columns f) (f_people f) (f_personas f) (f_nicks f) (f_states f) (f_marks f) (f_fts f) (f_trigger f).

Definition migrate (f : File) : result File StoreError :=
  let v := user_version f in
  if (SCHEMA_VERSION <? v)%Z then Err (FromTheFuture v SCHEMA_VERSION)
  else if (v =? SCHEMA_VERSION)%Z then Ok f
  else
    let f := if (v <? 1)%Z then migrate_to_1 f else f in
    let f := if (v <? 2)%Z then migrate_to_2 f else f in
    let f := if (v <? 3)%Z then migrate_to_3 f else f in
    let f := if (v <? 4)%Z then migrate_to_4 f else f in
    let f := if (v <? 5)%Z then migrate_to_5 f else f in
    Ok (set_version SCHEMA_VERSION f).

(** The store a file with every table is. *)
Definition db_of (f : File) : option Db :=
  l ← f_lines f; p ← f_people f; i ← f_personas f; n ← f_nicks f; s ← f_states f; m ← f_marks f; t ← f_fts f;
  Some (mkDb l (f_sequence f) t.2 p i n s m).

(** A file of this version that lacks a table is not opened here: the source
    opens it, and the first statement that needs the table fails. *)
Definition open (f : File) (s : Store) : result unit StoreError * Store :=
  match migrate f with
  | Err e => (Err e, close s)
  | Ok f => (Ok tt, db_of f)
  end.
