(* ===== verification/StoreProps.v ===== *)
(** What the message store keeps true: its invariant, and that every operation
    the application has preserves it. *)
From S2P Require Import Prelude RustStr Format Store.

(** * Rows with increasing ids *)

Definition id_lt (a b : Row) : Prop := (id a < id b)%Z.
Abbreviation increasing := (StronglySorted id_lt).

Lemma filter_elem {A} (p : A → bool) l x : x ∈ List.filter p l ↔ x ∈ l ∧ p x = true.
Proof. rewrite !list_elem_of_In. apply filter_In. Qed.

Lemma rows_filter_sorted {A} (R : relation A) (p : A → bool) l : StronglySorted R l → StronglySorted R (List.filter p l).
Proof.
  induction 1 as [|x l Hl IH Hx]; cbn; [constructor|]. case_match; [|done]. constructor; [done|].
  rewrite Forall_forall in *. intros y [Hy _]%filter_elem. auto.
Qed.

Lemma increasing_inj rows r r' : increasing rows → r ∈ rows → r' ∈ rows → id r = id r' → r = r'.
Proof.
  induction 1 as [|x l Hl IH Hx]; [by rewrite elem_of_nil|]. rewrite Forall_forall in Hx. unfold id_lt in Hx.
  rewrite !elem_of_cons. intros [->|Hr] [->|Hr'] E; [done| | |auto].
  - specialize (Hx _ Hr'). lia.
  - specialize (Hx _ Hr). lia.
Qed.

Lemma increasing_snoc rows r : increasing rows → (∀ x, x ∈ rows → (id x < id r)%Z) → increasing (rows ++ [r]).
Proof.
  intros Hs Hr. apply StronglySorted_app_2; [by intros x1 x2 ?%Hr ->%list_elem_of_singleton|done|].
  by repeat constructor.
Qed.

Lemma increasing_map (g : StoredLine → StoredLine) (p : Row → bool) rows :
  increasing rows → increasing (map (λ x, if p x then mkRow (id x) (g (line x)) else x) rows).
Proof.
  induction 1 as [|x l Hl IH Hx]; cbn; constructor; [done|]. rewrite Forall_forall in *.
  intros y (z & -> & Hz)%list_elem_of_fmap. specialize (Hx _ Hz). unfold id_lt in *. by repeat case_match.
Qed.

Lemma increasing_NoDup rows : increasing rows → NoDup rows.
Proof.
  induction 1 as [|x l Hl IH Hx]; constructor; [|done]. intros Hin. rewrite Forall_forall in Hx.
  specialize (Hx _ Hin). unfold id_lt in Hx. lia.
Qed.

(** * The search index *)

(** Every line somebody said is in the index, as it reads without its codes,
    and nothing else is. *)
Definition index_exact (rows : list Row) (f : gmap Z (str * str)) : Prop :=
  ∀ i e, f !! i = Some e ↔ ∃ r, r ∈ rows ∧ id r = i ∧ index_entry (line r) = Some e.

Lemma delete_all_lookup (gone : list Row) (f : gmap Z (str * str)) i :
  foldr (λ r f, delete (id r) f) f gone !! i = if decide (i ∈ map id gone) then None else f !! i.
Proof.
  induction gone as [|r gone IH]; cbn; [by rewrite decide_False by apply not_elem_of_nil|].
  destruct (decide (i = id r)) as [->|Hne].
  - rewrite lookup_delete_eq, decide_True; [done|by left].
  - rewrite lookup_delete_ne, IH by done. case_decide as H; case_decide as H'; try done.
    + by destruct H'; right.
    + by apply elem_of_cons in H' as [?|?].
Qed.

Lemma delete_index_exact (p : Row → bool) rows f :
  increasing rows → index_exact rows f →
  index_exact (List.filter (λ r, negb (p r)) rows) (foldr (λ r f, delete (id r) f) f (List.filter p rows)).
Proof.
  intros Hi Hx i e. rewrite delete_all_lookup. case_decide as H.
  - split; [done|]. intros (r & [Hr Hp]%filter_elem & <- & _).
    apply list_elem_of_fmap in H as (r' & E & [Hr' Hp']%filter_elem).
    rewrite (increasing_inj rows r r') in Hp by done. by rewrite Hp' in Hp.
  - rewrite (Hx i e). split; intros (r & Hr & <- & E); exists r; (split; [|done]).
    + apply filter_elem. split; [done|]. apply negb_true_iff, not_true_is_false. intros Hp. destruct H.
      apply list_elem_of_fmap. exists r. split; [done|]. by apply filter_elem.
    + by apply filter_elem in Hr as [? _].
Qed.

Lemma index_line_exact rows f i l :
  (∀ x, x ∈ rows → id x ≠ i) → index_exact rows f → index_exact (rows ++ [mkRow i l]) (index_line i l f).
Proof.
  intros Hn Hx j e. unfold index_line.
  assert ((∃ r, r ∈ rows ++ [mkRow i l] ∧ id r = j ∧ index_entry (line r) = Some e) ↔
          f !! j = Some e ∨ (j = i ∧ index_entry l = Some e)) as ->.
  { rewrite (Hx j e). setoid_rewrite elem_of_app. setoid_rewrite list_elem_of_singleton. split.
    - intros (r & [Hr| ->] & <- & E); eauto.
    - intros [(r & ? & ? & ?)|[-> E]]; [eauto|]. exists (mkRow i l). auto. }
  destruct (index_entry l) as [e'|] eqn:E; [|naive_solver].
  destruct (decide (j = i)) as [->|Hne]; [|rewrite lookup_insert_ne by done; naive_solver].
  rewrite lookup_insert_eq. split; [naive_solver|].
  intros [Hf|[_ ?]]; [|done]. apply Hx in Hf as (r & Hr & Hid & _). by destruct (Hn r Hr).
Qed.

(** * The invariant *)

Definition same_msgid (a b : StoredLine) : Prop :=
  profile_id a = profile_id b ∧ conversation a = conversation b ∧ is_Some (msgid a) ∧ msgid a = msgid b.
Lemma same_msgid_sym a b : same_msgid a b → same_msgid b a.
Proof. unfold same_msgid. intros (-> & -> & ? & <-). done. Qed.
Definition said_once (rows : list Row) : Prop :=
  ∀ r r', r ∈ rows → r' ∈ rows → same_msgid (line r) (line r') → r = r'.

Record lines_ok (rows : list Row) (seq : Z) (f : gmap Z (str * str)) : Prop := mkLinesOk {
  lo_increasing : increasing rows;
  lo_issued : ∀ r, r ∈ rows → (0 < id r ≤ seq)%Z;
  lo_once : said_once rows;
  lo_index : index_exact rows f;
}.

(** The ids of one store lie within a window of [MAX_ROWS]. *)
Definition within_ceiling (rows : list Row) : Prop := ∀ r r', r ∈ rows → r' ∈ rows → (id r' - id r < MAX_ROWS)%Z.

Record db_ok (d : Db) : Prop := mkDbOk {
  ok_lines : lines_ok (lines d) (sequence d) (lines_fts d);
  ok_ceiling : within_ceiling (lines d);
  ok_marks : NoDup (map mk_id (marks_t d)) ∧
             ∀ i j a b, marks_t d !! i = Some a → marks_t d !! j = Some b → mark_conflict a b = true → i = j;
  ok_states : map_Forall (λ _ st, is_blank st = false) (states_t d);
  ok_people : map_Forall (λ _ p, nothing_written p = false) (people_t d);
  ok_sequence : (0 ≤ sequence d)%Z;
}.
Definition store_ok (s : Store) : Prop := match s with Some d => db_ok d | None => True end.

Lemma ceiling_bounds rows : increasing rows → within_ceiling rows → (Z.of_nat (length rows) ≤ MAX_ROWS)%Z.
Proof.
  intros Hi Hc.
  assert (∀ rows, increasing rows → ∀ r, head rows = Some r → ∃ l, l ∈ rows ∧ (id r + Z.of_nat (length rows) - 1 ≤ id l)%Z) as H.
  { clear. induction 1 as [|x l Hl IH Hx]; [done|]. intros r [= <-]. destruct l as [|y l].
    - exists x. cbn. split; [left|lia].
    - destruct (IH y eq_refl) as (z & Hz & E). exists z. split; [by right|].
      rewrite Forall_forall in Hx. specialize (Hx y ltac:(left)). unfold id_lt in Hx. cbn [length] in *. lia. }
  destruct rows as [|r rows]; [unfold MAX_ROWS; cbn; lia|].
  destruct (H _ Hi r eq_refl) as (l & Hl & E). specialize (Hc r l ltac:(left) Hl). lia.
Qed.

(** ** Deleting *)

Lemma delete_lines_ok p d :
  lines_ok (lines d) (sequence d) (lines_fts d) →
  let d' := delete_lines p d in lines_ok (lines d') (sequence d') (lines_fts d').
Proof.
  intros [Hi Hs Ho Hx]. cbn. split.
  - by apply rows_filter_sorted.
  - intros r [? _]%filter_elem. auto.
  - intros r r' [? _]%filter_elem [? _]%filter_elem. auto.
  - by apply delete_index_exact.
Qed.

Lemma delete_lines_ceiling p d : within_ceiling (lines d) → within_ceiling (lines (delete_lines p d)).
Proof. intros H r r' [? _]%filter_elem [? _]%filter_elem. auto. Qed.

Lemma delete_lines_db p d : db_ok d → db_ok (delete_lines p d).
Proof. intros [Hl Hc ????]. split; try done; [by apply delete_lines_ok|by apply delete_lines_ceiling]. Qed.

(** ** Inserting and pruning *)

Lemma highest_id_spec rows :
  match highest_id rows with
  | None => rows = []
  | Some h => (∀ r, r ∈ rows → (id r ≤ h)%Z) ∧ ∃ r, r ∈ rows ∧ id r = h
  end.
Proof.
  induction rows as [|r rows IH]; cbn [highest_id foldr]; [done|]. change (foldr _ None rows) with (highest_id rows).
  destruct (highest_id rows) as [h|].
  - destruct IH as [Hall (x & Hx & <-)]. split.
    + intros y [->|Hy]%elem_of_cons; [lia|]. specialize (Hall y Hy). lia.
    + destruct (Z.max_spec (id r) (id x)) as [[_ ->]|[_ ->]]; [exists x|exists r]; rewrite elem_of_cons; auto.
  - subst. split; [|exists r; split; [left|done]]. by intros y ->%list_elem_of_singleton.
Qed.

Lemma prune_ceiling d : within_ceiling (lines (prune d)).
Proof.
  unfold prune, prune_to. pose proof (highest_id_spec (lines d)) as H.
  destruct (highest_id (lines d)) as [h|]; [|rewrite H; by intros r r' ?%elem_of_nil].
  intros r r' [_ Hr]%filter_elem [Hr' _]%filter_elem. destruct H as [Hall _]. specialize (Hall _ Hr').
  apply negb_true_iff, Z.leb_gt in Hr. lia.
Qed.

Lemma prune_lines_ok d :
  lines_ok (lines d) (sequence d) (lines_fts d) →
  lines_ok (lines (prune d)) (sequence (prune d)) (lines_fts (prune d)).
Proof. intros H. unfold prune, prune_to. case_match; [by apply delete_lines_ok|done]. Qed.

Lemma prune_rest d :
  marks_t (prune d) = marks_t d ∧ states_t (prune d) = states_t d ∧ people_t (prune d) = people_t d ∧
  sequence (prune d) = sequence d.
Proof. unfold prune, prune_to. by case_match. Qed.

Lemma not_replayed l rows r : replayed l rows = false → r ∈ rows → ¬ same_msgid (line r) l.
Proof.
  unfold replayed. intros H Hr (Hp & Hc & [m Hm] & E). rewrite <- E, Hm, existsb_elem_false in H.
  specialize (H r Hr). unfold in_conversation in H. by rewrite !bool_decide_eq_true_2 in H.
Qed.

Section Ops.
Context (pick skip : Z → Z) (pick_new : ∀ s, (s < pick s)%Z) (skip_back : ∀ s, (s ≤ skip s)%Z).

Lemma insert_line_ok l d :
  lines_ok (lines d) (sequence d) (lines_fts d) → (0 ≤ sequence d)%Z →
  let d' := (insert_line pick skip l d).2 in
  lines_ok (lines d') (sequence d') (lines_fts d') ∧ (0 ≤ sequence d')%Z.
Proof.
  intros [Hi Hs Ho Hx] H0. unfold insert_line. pose proof (pick_new (sequence d)). pose proof (skip_back (sequence d)).
  destruct (replayed l (lines d)) eqn:E; cbn.
  - split; [|lia]. split; try done. intros r Hr. specialize (Hs r Hr). lia.
  - split; [|lia]. split.
    + apply increasing_snoc; [done|]. intros x Hr. cbn. specialize (Hs x Hr). lia.
    + intros r [Hr| ->%list_elem_of_singleton]%elem_of_app; [specialize (Hs r Hr)|]; cbn; lia.
    + intros r r' [Hr| ->%list_elem_of_singleton]%elem_of_app [Hr'| ->%list_elem_of_singleton]%elem_of_app; try done.
      * auto.
      * intros Hm. by destruct (not_replayed _ _ _ E Hr).
      * intros Hm%same_msgid_sym. by destruct (not_replayed _ _ _ E Hr').
    + apply index_line_exact; [|done]. intros x Hr. specialize (Hs x Hr). lia.
Qed.

Lemma insert_lines_ok ls d :
  lines_ok (lines d) (sequence d) (lines_fts d) → (0 ≤ sequence d)%Z →
  let d' := (insert_lines pick skip ls d).2 in
  lines_ok (lines d') (sequence d') (lines_fts d') ∧ (0 ≤ sequence d')%Z.
Proof.
  revert d. induction ls as [|l ls IH]; intros d H H0; cbn [insert_lines]; [done|].
  pose proof (insert_line_ok l d H H0) as [H1 H2]. destruct (insert_line pick skip l d) as [i d1]. cbn [snd] in *.
  specialize (IH d1 H1 H2). by destruct (insert_lines pick skip ls d1).
Qed.

Lemma insert_lines_rest ls d :
  let d' := (insert_lines pick skip ls d).2 in
  marks_t d' = marks_t d ∧ states_t d' = states_t d ∧ people_t d' = people_t d.
Proof.
  revert d. induction ls as [|l ls IH]; intros d; cbn [insert_lines]; [done|].
  destruct (insert_line pick skip l d) as [i d1] eqn:E. specialize (IH d1). destruct (insert_lines pick skip ls d1) as [ids d2].
  cbn in *. destruct IH as (-> & -> & ->). revert E. unfold insert_line. by case_match; intros [= _ <-].
Qed.

Lemma append_all_ok ls d : db_ok d → db_ok (append_all pick skip ls d).2.
Proof.
  intros [Hl Hc Hm Hs Hp H0]. unfold append_all.
  pose proof (insert_lines_ok ls d Hl H0) as [H1 H2]. pose proof (insert_lines_rest ls d) as (Em & Es & Ep).
  destruct (insert_lines pick skip ls d) as [ids d']. cbn [snd] in *.
  destruct (prune_rest d') as (Em' & Es' & Ep' & Eq').
  split; [by apply prune_lines_ok|apply prune_ceiling|..]; rewrite ?Em', ?Es', ?Ep', ?Eq', ?Em, ?Es, ?Ep; done.
Qed.

(** ** Editing *)

Definition edit_rows (i : Z) (t : str) (rows : list Row) : list Row :=
  map (λ x, if bool_decide (id x = i) then mkRow (id x) (set_text t (line x)) else x) rows.

Lemma edit_rows_elem i t rows r :
  r ∈ edit_rows i t rows → ∃ x, x ∈ rows ∧ id x = id r ∧
    line r = (if bool_decide (id x = i) then set_text t (line x) else line x).
Proof. intros (x & -> & Hx)%list_elem_of_fmap. exists x. by case_bool_decide. Qed.

Lemma edit_index_exact rows f r s t :
  increasing rows → index_exact rows f → r ∈ rows → sender (line r) = Some s →
  index_exact (edit_rows (id r) t rows) (<[id r := (s, Format.strip t)]> (delete (id r) f)).
Proof.
  intros Hi Hx Hr Hs i e. destruct (decide (i = id r)) as [->|Hne].
  - rewrite lookup_insert_eq. split.
    + intros [= <-]. exists (mkRow (id r) (set_text t (line r))). split; [|by unfold index_entry; cbn; rewrite Hs].
      apply list_elem_of_fmap. exists r. by rewrite bool_decide_eq_true_2.
    + intros (x & (y & Hy & Ey & El)%edit_rows_elem & Ex & E). rewrite Ex in Ey.
      rewrite bool_decide_eq_true_2 in El by done. rewrite (increasing_inj rows y r) in El by done.
      rewrite El in E. unfold index_entry in E. cbn in E. by rewrite Hs in E.
  - rewrite lookup_insert_ne, lookup_delete_ne by done. rewrite (Hx i e). split.
    + intros (x & Hxx & <- & E). exists x. split; [|done]. apply list_elem_of_fmap. exists x.
      by rewrite bool_decide_eq_false_2.
    + intros (x & (y & Hy & Ey & El)%edit_rows_elem & <- & E). rewrite bool_decide_eq_false_2 in El by congruence.
      exists y. by rewrite <- El.
Qed.

Lemma edit_once i t rows : said_once rows → said_once (edit_rows i t rows).
Proof.
  intros Ho r r' (x & -> & Hx)%list_elem_of_fmap (y & -> & Hy)%list_elem_of_fmap Hm.
  assert (x = y) as ->; [|done]. apply Ho; [done..|]. by repeat case_bool_decide.
Qed.

Lemma find_some {A} (p : A → bool) l x : List.find p l = Some x → x ∈ l ∧ p x = true.
Proof. intros H%List.find_some. by rewrite list_elem_of_In. Qed.

Lemma said_as_true p c m s r :
  said_as p c m s r = true ↔
  profile_id (line r) = p ∧ conversation (line r) = c ∧ msgid (line r) = Some m ∧ sender (line r) = Some s.
Proof. unfold said_as, in_conversation. rewrite !andb_true_iff, !bool_decide_eq_true. tauto. Qed.

Lemma edit_line_ok p c m s t st : store_ok st → store_ok (edit_line p c m s t st).2.
Proof.
  destruct st as [d|]; [|done]. cbn. intros Hd. destruct (List.find _ _) as [r|] eqn:E; [|done]. cbn.
  apply find_some in E as [Hr (_ & _ & _ & Hs)%said_as_true].
  destruct Hd as [[Hi Hl Ho Hx] Hc Hm Hst Hp H0]. split; try done; cbn; [split|].
  - by apply increasing_map.
  - intros x (y & Hy & <- & _)%edit_rows_elem. auto.
  - by apply edit_once.
  - by apply edit_index_exact.
  - intros x x' (y & Hy & <- & _)%edit_rows_elem (y' & Hy' & <- & _)%edit_rows_elem. auto.
Qed.

(** ** Marks *)

Definition marks_ok (ms : list Mark) : Prop :=
  NoDup (map mk_id ms) ∧
  ∀ i j a b, ms !! i = Some a → ms !! j = Some b → mark_conflict a b = true → i = j.

Lemma next_mark_id_new ms m : m ∈ ms → (mk_id m < next_mark_id ms)%Z.
Proof.
  unfold next_mark_id. induction ms as [|x ms IH]; [by rewrite elem_of_nil|]. cbn [foldr].
  intros [->|Hm]%elem_of_cons; [|specialize (IH Hm)]; lia.
Qed.

Lemma mark_conflict_true a b :
  mark_conflict a b = true ↔
  mk_kind a = mk_kind b ∧ mk_profile a = mk_profile b ∧ mk_conversation a = mk_conversation b ∧ mk_at a = mk_at b ∧
  mk_sender a = mk_sender b ∧ is_Some (mk_sender a) ∧ mk_text a = mk_text b.
Proof.
  unfold mark_conflict. rewrite !andb_true_iff, !bool_decide_eq_true.
  destruct (mk_sender a) as [x|], (mk_sender b) as [y|]; rewrite ?bool_decide_eq_true;
    (split; [intros [[[[[??]?]?]?]?]; try done; subst; split_and!; try done; by eexists
            |intros (?&?&?&?&?&[??]&?); split_and!; try done; congruence]).
Qed.

Lemma mark_conflict_sym a b : mark_conflict a b = mark_conflict b a.
Proof. apply eq_true_iff_eq. rewrite !mark_conflict_true. unfold is_Some.
  split; intros (-> & -> & -> & -> & -> & ? & ->); by split_and!. Qed.

Lemma add_mark_marks m ms :
  existsb (mark_conflict m) ms = false → marks_ok ms → marks_ok (ms ++ [set_mark_id (next_mark_id ms) m]).
Proof.
  intros Hc [Hn Hu]. rewrite existsb_elem_false in Hc. split.
  - rewrite map_app. apply NoDup_app. split; [done|]. split; [|apply NoDup_singleton].
    intros x (y & -> & Hy)%list_elem_of_fmap E%list_elem_of_singleton. apply next_mark_id_new in Hy. cbn in E. lia.
  - assert (∀ a, a ∈ ms → mark_conflict (set_mark_id (next_mark_id ms) m) a = false) as Hnew by (intros a Ha; exact (Hc a Ha)).
    intros i j a b [Ha|[Hi Ha]]%lookup_app_Some [Hb|[Hj Hb]]%lookup_app_Some Hab; [by eapply Hu|..];
      repeat match goal with H : [_] !! _ = Some _ |- _ => apply list_lookup_singleton_Some in H as [??] end; subst.
    + rewrite mark_conflict_sym, Hnew in Hab; [done|by eapply list_elem_of_lookup_2].
    + rewrite Hnew in Hab; [done|by eapply list_elem_of_lookup_2].
    + lia.
Qed.

Lemma filter_lookup {A} (p : A → bool) l i x :
  List.filter p l !! i = Some x → ∃ k, l !! k = Some x ∧ length (List.filter p (take k l)) = i.
Proof.
  revert i. induction l as [|y l IH]; intros i; cbn [List.filter]; [done|]. destruct (p y) eqn:E.
  - destruct i as [|i]; [intros [= <-]; by exists 0|]. intros (k & ? & <-)%IH. exists (S k). split; [done|].
    cbn. by rewrite E.
  - intros (k & ? & <-)%IH. exists (S k). split; [done|]. cbn. by rewrite E.
Qed.

Lemma filter_marks p ms : marks_ok ms → marks_ok (List.filter p ms).
Proof.
  intros [Hn Hu]. split.
  - clear Hu. induction ms as [|m ms IH]; [done|]. cbn in *. apply NoDup_cons in Hn as [Hm Hn].
    destruct (p m); [|auto]. cbn. constructor; [|auto].
    intros (x & E & [Hx _]%filter_elem)%list_elem_of_fmap. destruct Hm. apply list_elem_of_fmap. by exists x.
  - intros i j a b (k & Ha & <-)%filter_lookup (k' & Hb & <-)%filter_lookup Hab. by rewrite (Hu _ _ _ _ Ha Hb Hab).
Qed.

(** ** Every operation *)

Lemma with_ok {T} (f : Db → T * Db) s : (∀ d, db_ok d → db_ok (f d).2) → store_ok s → store_ok (with_ f s).2.
Proof. intros Hf. destruct s as [d|]; [|done]. cbn. intros H%Hf. by destruct (f d). Qed.

Lemma set_marks_ok ms d : marks_ok ms → db_ok d → db_ok (set_marks ms d).
Proof. intros H []. by split. Qed.
Lemma set_states_ok t d : map_Forall (λ _ st, is_blank st = false) t → db_ok d → db_ok (set_states t d).
Proof. intros H []. by split. Qed.
Lemma set_people_ok t d : map_Forall (λ _ p, nothing_written p = false) t → db_ok d → db_ok (set_people t d).
Proof. intros H []. by split. Qed.
Lemma set_personas_ok p n d : db_ok d → db_ok (set_personas p n d).
Proof. intros []. by split. Qed.

Lemma keep_keys_Forall {K V} `{Countable K} (P : K → V → Prop) p (t : gmap K V) :
  map_Forall P t → map_Forall P (keep_keys p t).
Proof. intros Ht k v [? _]%map_lookup_filter_Some. by apply Ht. Qed.

(** Peel the changes an operation makes to the tables, one statement at a time. *)
Ltac db_ok_now Hd :=
  repeat first
    [ exact Hd | exact (ok_marks _ Hd) | exact (ok_states _ Hd) | exact (ok_people _ Hd)
    | apply set_marks_ok | apply set_states_ok | apply set_people_ok | apply set_personas_ok | apply delete_lines_db
    | apply filter_marks | apply keep_keys_Forall | apply map_Forall_delete | apply map_Forall_insert_2; [assumption|] ].

Lemma clear_lines_ok s : lines_ok [] s ∅.
Proof.
  split; [constructor|by intros r ?%elem_of_nil|by intros r r' ?%elem_of_nil|].
  intros i e. rewrite lookup_empty. split; [done|]. by intros (r & ?%elem_of_nil & _).
Qed.

Lemma set_person_ok p nick who s : store_ok s → store_ok (set_person p nick who s).2.
Proof.
  unfold set_person, forget_person. destruct (nothing_written who) eqn:E; apply with_ok; intros d Hd; cbn [snd]; db_ok_now Hd.
Qed.

Lemma append_ok ls s : store_ok s → store_ok (append pick skip ls s).2.
Proof. unfold append. case_match; [done|]. apply with_ok, append_all_ok. Qed.

Lemma clear_ok s : store_ok s → store_ok (clear s).2.
Proof.
  apply with_ok. intros d []. split; try done; [apply clear_lines_ok|by intros r r' ?%elem_of_nil|].
  split; [constructor|by intros ????[=]].
Qed.

Lemma set_conversation_state_ok p c st s : store_ok s → store_ok (set_conversation_state p c st s).2.
Proof. apply with_ok. intros d Hd. cbn [snd]. destruct (is_blank st) eqn:E; db_ok_now Hd. Qed.

Lemma add_mark_ok m s : store_ok s → store_ok (add_mark m s).2.
Proof.
  apply with_ok. intros d Hd. case_match eqn:E; [done|]. apply set_marks_ok; [|done].
  apply add_mark_marks; [done|apply Hd].
Qed.

Lemma perform_ok op s : store_ok s → store_ok (perform pick skip op s).
Proof.
  destruct op; cbn [perform];
    auto using append_ok, edit_line_ok, clear_ok, set_conversation_state_ok, add_mark_ok, set_person_ok;
    try exact (λ _, I); apply with_ok; intros d Hd; cbn [snd]; db_ok_now Hd.
Qed.
End Ops.
