(* ===== verification/StoreReads.v ===== *)
(** What the message store answers: pages of a conversation, the lines around
    one, and searches. *)
From S2P Require Import Prelude RustStr Format Store StoreProps.

(** * Orders *)

#[export] Instance row_le_trans : Transitive row_le.
Proof. unfold row_le. intros a b c ??. lia. Qed.
#[export] Instance row_le_total : Total row_le.
Proof. unfold row_le. intros a b. lia. Qed.
#[export] Instance id_ge_trans : Transitive id_ge.
Proof. unfold id_ge. intros a b c ??. lia. Qed.
#[export] Instance id_ge_total : Total id_ge.
Proof. unfold id_ge. intros a b. lia. Qed.

Lemma row_le_id a b : row_le a b → row_le b a → id a = id b.
Proof. unfold row_le. lia. Qed.

(** Rows told apart by their ids are put in one order only. *)
Lemma sort_unique (R : relation Row) `{∀ x y, Decision (R x y), !Total R, !Transitive R} rows sorted :
  increasing rows → (∀ a b, R a b → R b a → id a = id b) →
  StronglySorted R sorted → sorted ≡ₚ rows → merge_sort R rows = sorted.
Proof.
  intros Hi Ha Hs Hp. eapply StronglySorted_unique_strong; [|by apply StronglySorted_merge_sort|exact Hs|by rewrite merge_sort_Permutation].
  intros x1 x2 H1 H2 H12 H21. rewrite merge_sort_Permutation in H1. rewrite Hp in H2.
  apply (increasing_inj rows); auto.
Qed.

Lemma StronglySorted_rev {A} (R : relation A) l : StronglySorted R l → StronglySorted (flip R) (reverse l).
Proof.
  induction 1 as [|x l Hl IH Hx]; [constructor|]. rewrite reverse_cons. rewrite Forall_forall in Hx.
  apply StronglySorted_app_2; [|exact IH|by repeat constructor].
  intros y z Hy ->%list_elem_of_singleton. apply Hx. by apply elem_of_reverse.
Qed.

Lemma sort_desc rows : increasing rows → merge_sort id_ge rows = reverse rows.
Proof.
  intros Hi. apply (sort_unique _); [done|unfold id_ge; lia| |apply reverse_Permutation].
  assert (StronglySorted (flip id_ge) rows) as H.
  { clear -Hi. induction Hi as [|x l Hl IH Hx]; constructor; [done|]. eapply Forall_impl; [exact Hx|].
    unfold id_lt, id_ge. cbn. lia. }
  exact (StronglySorted_rev _ _ H).
Qed.

Lemma sort_flip rows : increasing rows → merge_sort (flip row_le) rows = reverse (merge_sort row_le rows).
Proof.
  intros Hi. assert (Transitive (flip row_le)) by (intros a b c ? ?; by etransitivity).
  assert (Total (flip row_le)) by (intros a b; destruct (row_le_total a b); auto).
  apply (sort_unique _); [done|by intros; apply row_le_id| |].
  - by apply StronglySorted_rev, StronglySorted_merge_sort; apply _.
  - by rewrite reverse_Permutation, merge_sort_Permutation.
Qed.

Lemma filter_Permutation {A} (p : A → bool) l l' : l ≡ₚ l' → List.filter p l ≡ₚ List.filter p l'.
Proof.
  induction 1 as [|x l l' H IH|x y l|l1 l2 l3 _ IH1 _ IH2]; cbn; repeat case_match; try done;
    [by constructor|by apply perm_swap|by etransitivity].
Qed.

Lemma filter_sort (p : Row → bool) rows :
  increasing rows → merge_sort row_le (List.filter p rows) = List.filter p (merge_sort row_le rows).
Proof.
  intros Hi. apply (sort_unique _); [by apply rows_filter_sorted|by intros; apply row_le_id| |].
  - apply rows_filter_sorted, StronglySorted_merge_sort; apply _.
  - by apply filter_Permutation, merge_sort_Permutation.
Qed.

Lemma filter_and {A} (p q : A → bool) l : List.filter (λ x, p x && q x) l = List.filter q (List.filter p l).
Proof. induction l as [|x l IH]; cbn; [done|]. destruct (p x); cbn; [|done]. case_match; by rewrite IH. Qed.

Lemma filter_rev {A} (p : A → bool) l : List.filter p (reverse l) = reverse (List.filter p l).
Proof.
  induction l as [|x l IH]; [done|]. rewrite reverse_cons, List.filter_app, IH. cbn [List.filter].
  destruct (p x); [by rewrite reverse_cons|by rewrite app_nil_r].
Qed.

Lemma filter_ext_elem {A} (p q : A → bool) l : (∀ x, x ∈ l → p x = q x) → List.filter p l = List.filter q l.
Proof. intros H. apply filter_ext_in. intros x Hx. apply H. by apply list_elem_of_In. Qed.

Lemma filter_none {A} (p : A → bool) l : (∀ x, x ∈ l → p x = false) → List.filter p l = [].
Proof.
  induction l as [|x l IH]; cbn; [done|]. intros H. rewrite (H x ltac:(left)). apply IH. intros y Hy. apply H. by right.
Qed.
Lemma filter_all {A} (p : A → bool) l : (∀ x, x ∈ l → p x = true) → List.filter p l = l.
Proof.
  induction l as [|x l IH]; cbn; [done|]. intros H. rewrite (H x ltac:(left)). f_equal. apply IH. intros y Hy. apply H. by right.
Qed.

(** * Pages *)

(** A conversation as it is read: by time, then in the order written. *)
Definition scrollback (p c : str) (d : Db) : list Row :=
  merge_sort row_le (List.filter (λ r, in_conversation p c (line r)) (lines d)).

Definition last_n {A} (n : nat) (l : list A) : list A := reverse (take n (reverse l)).

Lemma last_n_drop {A} n (l : list A) : last_n n l = drop (length l - n) l.
Proof. unfold last_n. rewrite take_reverse. apply reverse_involutive. Qed.

Lemma before_spec p c at_ i limit d :
  db_ok d →
  before p c at_ i limit (Some d) = Ok (last_n (N.to_nat limit) (List.filter (key_lt at_ i) (scrollback p c d))).
Proof.
  intros [[Hi _ _ _] _ _ _ _ _]. unfold before, read, last_n. do 3 f_equal.
  rewrite filter_and, sort_flip by (by repeat apply rows_filter_sorted). f_equal.
  apply filter_sort. by apply rows_filter_sorted.
Qed.

Lemma scrollback_sorted p c d : StronglySorted row_le (scrollback p c d).
Proof. apply StronglySorted_merge_sort; apply _. Qed.
Lemma scrollback_elem p c d r :
  r ∈ scrollback p c d ↔ r ∈ lines d ∧ profile_id (line r) = p ∧ conversation (line r) = c.
Proof.
  unfold scrollback. rewrite merge_sort_Permutation, filter_elem. unfold in_conversation.
  by rewrite andb_true_iff, !bool_decide_eq_true.
Qed.

(** What comes before a row of the conversation is what precedes it. *)
Lemma key_lt_prefix p c d l1 r l2 :
  db_ok d → scrollback p c d = l1 ++ r :: l2 →
  List.filter (key_lt (at_ms (line r)) (id r)) (l1 ++ r :: l2) = l1 ∧
  List.filter (λ x, negb (key_lt (at_ms (line r)) (id r) x)) (l1 ++ r :: l2) = r :: l2.
Proof.
  intros [[Hi _ _ _] _ _ _ _ _] E.
  assert (NoDup (l1 ++ r :: l2)) as Hn.
  { rewrite <- E. unfold scrollback. rewrite merge_sort_Permutation. by apply increasing_NoDup, rows_filter_sorted. }
  pose proof (scrollback_sorted p c d) as Hs. rewrite E in Hs.
  assert (∀ x, x ∈ l1 ++ r :: l2 → x ∈ lines d) as Hin by (intros x; rewrite <- E; by intros [? _]%scrollback_elem).
  apply StronglySorted_app in Hs as (H12 & _ & [Hr _]%StronglySorted_cons).
  assert (∀ x, x ∈ l1 → key_lt (at_ms (line r)) (id r) x = true) as Hl1.
  { intros x Hx. specialize (H12 x r Hx ltac:(left)). unfold key_lt, row_le in *.
    assert (id x ≠ id r); [|lia]. intros Eq. apply (increasing_inj _ _ _ Hi) in Eq; [|apply Hin; set_solver..].
    subst. apply NoDup_app in Hn as (_ & Hd & _). apply (Hd r Hx). left. }
  assert (∀ x, x ∈ r :: l2 → key_lt (at_ms (line r)) (id r) x = false) as Hl2.
  { rewrite Forall_forall in Hr. unfold key_lt, row_le in *. intros x [->|Hx]%elem_of_cons; [lia|].
    specialize (Hr x Hx). lia. }
  rewrite !List.filter_app. split.
  - by rewrite (filter_all _ l1), (filter_none _ (r :: l2)), app_nil_r by done.
  - rewrite (filter_none _ l1) by (intros x Hx; by rewrite Hl1).
    by rewrite (filter_all _ (r :: l2)) by (intros x Hx; by rewrite Hl2).
Qed.

Lemma before_row p c limit d l1 r l2 :
  db_ok d → scrollback p c d = l1 ++ r :: l2 →
  before p c (at_ms (line r)) (id r) limit (Some d) = Ok (last_n (N.to_nat limit) l1).
Proof. intros Hd E. rewrite before_spec, E by done. by destruct (key_lt_prefix p c d l1 r l2 Hd E) as [-> _]. Qed.

(** Reading a conversation from its end, a page at a time, each from where the
    last one began; how a scrollback is filled as the user goes up. *)
Fixpoint pages (fuel : nat) (p c : str) (at_ i : Z) (limit : N) (s : Store) : list Row :=
  match fuel with
  | 0 => []
  | S fuel =>
      match before p c at_ i limit s with
      | Ok (r :: rows) => pages fuel p c (at_ms (line r)) (id r) limit s ++ r :: rows
      | _ => []
      end
  end.

Lemma last_n_split {A} n (l : list A) :
  0 < n → l ≠ [] → ∃ l1 r rest, last_n n l = r :: rest ∧ l = l1 ++ r :: rest.
Proof.
  intros Hn Hl. rewrite last_n_drop.
  destruct (drop (length l - n) l) as [|r rest] eqn:E.
  - apply (f_equal length) in E. rewrite length_drop in E. destruct l; [done|]. cbn [length] in E. lia.
  - exists (take (length l - n) l), r, rest. by rewrite <- E, take_drop.
Qed.

Lemma pages_prefix fuel p c limit d l1 r l2 :
  db_ok d → (0 < limit)%N → scrollback p c d = l1 ++ r :: l2 → length l1 < fuel →
  pages fuel p c (at_ms (line r)) (id r) limit (Some d) = l1.
Proof.
  intros Hd Hl. revert l1 r l2. induction fuel as [|fuel IH]; [lia|]. intros l1 r l2 E Hf. cbn [pages].
  rewrite (before_row p c limit d l1 r l2) by done.
  destruct (decide (l1 = [])) as [->|Hne]; [by rewrite last_n_drop, drop_nil|].
  destruct (last_n_split (N.to_nat limit) l1) as (l0 & r0 & rest & -> & E1); [lia|done|]. subst l1.
  rewrite (IH l0 r0 (rest ++ r :: l2)); [done|by rewrite E, <- app_assoc|]. rewrite length_app in Hf. cbn in Hf. lia.
Qed.

(** Times and ids as the columns hold them: 64 bits, and never the last id. *)
Definition in_i64 (rows : list Row) : Prop :=
  Forall (λ r, (at_ms (line r) ≤ i64_max)%Z ∧ (id r < i64_max)%Z) rows.

Lemma tail_all p c d :
  in_i64 (lines d) → List.filter (key_lt i64_max i64_max) (scrollback p c d) = scrollback p c d.
Proof.
  intros Hb. apply filter_all. intros r [Hr _]%scrollback_elem. unfold in_i64 in Hb. rewrite Forall_forall in Hb. specialize (Hb r Hr).
  unfold key_lt. lia.
Qed.

Lemma pages_all fuel p c limit d :
  db_ok d → in_i64 (lines d) → (0 < limit)%N → length (lines d) < fuel →
  pages fuel p c i64_max i64_max limit (Some d) = scrollback p c d.
Proof.
  intros Hd Hb Hl Hf. destruct fuel as [|fuel]; [lia|]. cbn [pages]. rewrite before_spec, tail_all by done.
  destruct (decide (scrollback p c d = [])) as [E|Hne]; [by rewrite E, last_n_drop, drop_nil|].
  destruct (last_n_split (N.to_nat limit) (scrollback p c d)) as (l0 & r0 & rest & -> & E); [lia|done|].
  rewrite (pages_prefix fuel p c limit d l0 r0 rest); [done..|].
  assert (length (scrollback p c d) ≤ length (lines d)) as Hlen.
  { unfold scrollback. rewrite merge_sort_Permutation. apply List.filter_length_le. }
  rewrite E, length_app in Hlen. cbn in Hlen. lia.
Qed.

(** ** Around a line *)

Lemma around_row p c radius d l1 r l2 :
  db_ok d → (radius < 2 ^ 32 - 1)%N → scrollback p c d = l1 ++ r :: l2 →
  around p c (at_ms (line r)) (id r) radius (Some d) =
    Ok (last_n (N.to_nat radius) l1 ++ r :: take (N.to_nat radius) l2).
Proof.
  intros Hd Hr E. unfold around. rewrite (before_row p c radius d l1 r l2) by done. cbn [read]. do 2 f_equal.
  rewrite filter_and, filter_sort by apply rows_filter_sorted, Hd. fold (scrollback p c d). rewrite E.
  destruct (key_lt_prefix p c d l1 r l2 Hd E) as [_ ->]. rewrite N.mod_small by lia.
  by replace (N.to_nat (radius + 1)) with (S (N.to_nat radius)) by lia.
Qed.

(** * Search *)

Section Search.
Context (fts_match : str → str * str → bool).

(** What a search is for: every line somebody said whose name and text, as
    they read without codes, match. *)
Definition found (p c : option str) (expression : str) (before_id : option Z) (r : Row) : bool :=
  match sender (line r) with
  | Some s => fts_match expression (s, Format.strip (text (line r)))
  | None => false
  end
  && (id r <? default i64_max before_id)%Z
  && optionally p (profile_id (line r)) && optionally c (conversation (line r)).

Lemma index_lookup d r :
  db_ok d → r ∈ lines d → lines_fts d !! id r = index_entry (line r).
Proof.
  intros [[Hi _ _ Hx] _ _ _ _ _] Hr. apply option_eq. intros e. rewrite (Hx (id r) e). split; [|eauto].
  intros (x & Hxx & E & ?). by rewrite (increasing_inj (lines d) r x).
Qed.

Lemma search_spec p c query limit before_id d :
  db_ok d →
  search fts_match p c query limit before_id (Some d) =
    Ok (match match_expression query with
        | None => []
        | Some expression => take (N.to_nat limit) (List.filter (found p c expression before_id) (reverse (lines d)))
        end).
Proof.
  intros Hd. unfold search. destruct (match_expression query) as [ex|]; [|done]. cbn [read]. do 2 f_equal.
  rewrite sort_desc by apply rows_filter_sorted, Hd. rewrite filter_rev. f_equal. apply filter_ext_elem.
  intros r Hr. unfold found. rewrite index_lookup by done. unfold index_entry. by destruct (sender (line r)).
Qed.
End Search.

(** ** What was typed, as a query *)

(** A string of the query language: up to a quotation mark that is not doubled. *)
Fixpoint fts_string (s : str) : option (str * str) :=
  match s with
  | [] => None
  | c :: s =>
      if (c =? quote)%N then
        match s with
        | c' :: s' =>
            if (c' =? quote)%N then match fts_string s' with Some (w, r) => Some (quote :: w, r) | None => None end
            else Some ([], s)
        | [] => Some ([], [])
        end
      else match fts_string s with Some (w, r) => Some (c :: w, r) | None => None end
  end.

(** Strings side by side, all of which must be found; a star after the last
    makes it a prefix. *)
Fixpoint fts_strings (fuel : nat) (s : str) : option (list str * bool) :=
  match fuel with
  | 0 => None
  | S fuel =>
      match s with
      | [] => None
      | c :: s =>
          if (c =? quote)%N then
            match fts_string s with
            | Some (w, []) => Some ([w], false)
            | Some (w, [c']) => if (c' =? ch "*")%N then Some ([w], true) else None
            | Some (w, c' :: s) =>
                if (c' =? ch " ")%N then
                  match fts_strings fuel s with Some (ws, star) => Some (w :: ws, star) | None => None end
                else None
            | None => None
            end
          else None
      end
  end.

Lemma fts_string_quoted w rest :
  match rest with c :: _ => (c =? quote)%N = false | [] => True end →
  fts_string (double_quotes w ++ quote :: rest) = Some (w, rest).
Proof.
  intros Hr. unfold double_quotes. induction w as [|c w IH]; cbn.
  - destruct rest as [|c rest]; [done|]. by rewrite Hr.
  - destruct (c =? quote)%N eqn:E; cbn.
    + apply N.eqb_eq in E as ->. by rewrite IH.
    + by rewrite E, IH.
Qed.

Lemma fts_strings_join fuel ws :
  ws ≠ [] → length ws ≤ fuel → fts_strings fuel (join (lit " ") (map quoted ws) ++ lit "*") = Some (ws, true).
Proof.
  revert ws. induction fuel as [|fuel IH]; intros [|w ws]; cbn [length]; try done; [lia|]. intros _ Hf.
  destruct ws as [|w' ws].
  - cbn -[fts_string double_quotes]. rewrite <- app_assoc. cbn -[fts_string double_quotes]. by rewrite fts_string_quoted.
  - specialize (IH (w' :: ws) ltac:(done) ltac:(cbn [length] in *; lia)). revert IH. set (rest := join _ _ ++ lit "*").
    intros IH. change (join (lit " ") (map quoted (w :: w' :: ws)) ++ lit "*")
      with ((quoted w ++ lit " " ++ join (lit " ") (map quoted (w' :: ws))) ++ lit "*").
    rewrite <- !app_assoc. fold rest. unfold quoted. rewrite <- !app_assoc. cbn -[fts_string double_quotes rest].
    rewrite fts_string_quoted by done. clearbody rest. destruct rest as [|c rest]; [by destruct fuel|].
    change (lit " " ++ c :: rest) with (32%N :: c :: rest). cbv iota beta. change (32 =? ch " ")%N with true. cbv iota.
    by rewrite IH.
Qed.
