(* ===== verification/StoreUpgrade.v ===== *)
(** Opening a file: what an older one becomes, and that a store that can be is
    one whose invariant holds. *)
From S2P Require Import Prelude RustStr Format Store StoreProps StoreReads.

(** * The search index of a file that had none *)

Definition to_index (after : Z) (rows : list Row) : list Row :=
  List.filter (λ r, (after <? id r)%Z && negb (none (sender (line r)))) rows.

Lemma sort_asc rows : increasing rows → merge_sort (flip id_ge) rows = rows.
Proof.
  intros Hi. assert (Transitive (flip id_ge)) by (unfold id_ge; intros a b c ??; cbn in *; lia).
  assert (Total (flip id_ge)) by (unfold id_ge; intros a b; cbn; lia).
  apply (sort_unique _); [done|unfold id_ge; cbn; lia| |done].
  clear -Hi. induction Hi as [|x l Hl IH Hx]; constructor; [done|]. eapply Forall_impl; [exact Hx|].
  unfold id_lt, id_ge. cbn. lia.
Qed.

(** After a page, what is left to index is what the page did not hold. *)
Lemma to_index_drop after rows n l :
  increasing rows → last (take n (to_index after rows)) = Some l →
  to_index (id l) rows = drop n (to_index after rows).
Proof.
  intros Hi Hl.
  assert (to_index (id l) rows = List.filter (λ r, (id l <? id r)%Z) (to_index after rows)) as ->.
  { unfold to_index. rewrite <- filter_and. apply filter_ext_elem. intros r _.
    assert (after < id l)%Z; [|destruct (none _); cbn; lia].
    apply last_Some_elem_of in Hl. assert (l ∈ to_index after rows) as [_ H]%filter_elem
      by (rewrite <- (take_drop n (to_index after rows)); apply elem_of_app; by left).
    apply andb_true_iff in H as [H _]. lia. }
  assert (increasing (to_index after rows)) as Hs by by apply rows_filter_sorted.
  apply last_Some in Hl as [l1 Hl].
  rewrite <- (take_drop n (to_index after rows)) in Hs at 1. rewrite <- (take_drop n (to_index after rows)) at 1.
  revert Hs. rewrite Hl. generalize (drop n (to_index after rows)). clear. intros rest Hs.
  apply StronglySorted_app in Hs as (H12 & H1 & _). apply StronglySorted_app in H1 as (H1 & _ & _).
  rewrite !List.filter_app. cbn [List.filter]. rewrite Z.ltb_irrefl.
  rewrite (filter_none _ l1), (filter_all _ rest).
  - done.
  - intros x Hx. specialize (H12 l x ltac:(set_solver) Hx). unfold id_lt in H12. lia.
  - intros x Hx. specialize (H1 x l Hx ltac:(set_solver)). unfold id_lt in H1. lia.
Qed.

Definition index_all (rows : list Row) (f : gmap Z (str * str)) : gmap Z (str * str) :=
  foldl (λ f r, index_line (id r) (line r) f) f rows.

Lemma backfill_from_all fuel after rows f :
  increasing rows → length (to_index after rows) < fuel →
  backfill_from fuel after rows f = index_all (to_index after rows) f.
Proof.
  intros Hi. revert after f. induction fuel as [|fuel IH]; intros after f Hf; [lia|]. cbn [backfill_from].
  fold (to_index after rows). rewrite sort_asc by (by apply rows_filter_sorted).
  assert (0 < BACKFILL_PAGE) as Hp by (unfold BACKFILL_PAGE; apply Nat.ltb_lt; by vm_compute).
  generalize dependent BACKFILL_PAGE. intros page Hp.
  destruct (last (take page (to_index after rows))) as [l|] eqn:E.
  - rewrite IH.
    + rewrite (to_index_drop after rows page l) by done. unfold index_all. rewrite <- foldl_app, take_drop. done.
    + rewrite (to_index_drop after rows page l) by done. rewrite length_drop.
      destruct (to_index after rows); [by rewrite take_nil in E|]. cbn [length] in *. lia.
  - apply last_None in E. destruct (to_index after rows) as [|r l]; [done|]. destruct page; [by apply Nat.lt_irrefl in Hp|done].
Qed.

Lemma index_all_exact rows f done_ :
  increasing (done_ ++ rows) → index_exact done_ f → index_exact (done_ ++ rows) (index_all rows f).
Proof.
  revert f done_. induction rows as [|r rows IH]; intros f done_ Hi Hx; cbn [index_all foldl].
  - by rewrite app_nil_r.
  - rewrite cons_middle, app_assoc. apply IH; [by rewrite <- app_assoc|]. destruct r as [i l].
    apply index_line_exact; [|done]. intros x Hin. apply StronglySorted_app in Hi as (H & _ & _).
    specialize (H x (mkRow i l) Hin ltac:(left)). unfold id_lt in H. cbn [id] in *. lia.
Qed.

Lemma backfill_exact rows :
  increasing rows → (∀ r, r ∈ rows → (0 < id r)%Z) → index_exact rows (backfill_search_index rows ∅).
Proof.
  intros Hi Hpos. unfold backfill_search_index. rewrite backfill_from_all; [|done|].
  2: { pose proof (List.filter_length_le (λ r, (0 <? id r)%Z && negb (none (sender (line r)))) rows).
       unfold to_index. lia. }
  assert (index_exact (to_index 0 rows) (index_all (to_index 0 rows) ∅)) as Hx.
  { apply (index_all_exact _ _ []); [by apply rows_filter_sorted|]. intros i e. rewrite lookup_empty.
    split; [done|]. by intros (? & ?%elem_of_nil & _). }
  intros i e. rewrite (Hx i e). split; intros (r & Hr & ? & E); exists r; (split; [|done]).
  - by apply filter_elem in Hr as [? _].
  - apply filter_elem. split; [done|]. specialize (Hpos r Hr). unfold index_entry in E.
    destruct (sender (line r)); [cbn; lia|done].
Qed.

(** * Keeping the first of what was stored twice *)

Lemma is_first_spec rows r :
  is_first rows r = true ↔ ∀ x, x ∈ rows → same_msgid (line x) (line r) → (id r ≤ id x)%Z.
Proof.
  unfold is_first, same_msgid, in_conversation. destruct (msgid (line r)) as [m|] eqn:E.
  - rewrite forallb_Forall_true, Forall_forall. apply forall_proper; intros x.
    rewrite orb_true_iff, negb_true_iff, Z.leb_le.
    destruct (bool_decide (profile_id (line x) = profile_id (line r))
              && bool_decide (conversation (line x) = conversation (line r)) && bool_decide (msgid (line x) = Some m)) eqn:B;
      [rewrite !andb_true_iff, !bool_decide_eq_true in B|rewrite !andb_false_iff, !bool_decide_eq_false in B].
    + destruct B as [[? ?] Em]. rewrite Em. split; [intros HH Hx _; by destruct (HH Hx)|].
      intros HH Hx. right. apply HH; eauto.
    + split; [|by left]. intros _ _ (? & ? & _ & ?). naive_solver.
  - split; [|done]. intros _ x _ (_ & _ & [y Hy] & ?). congruence.
Qed.

Lemma first_once rows : increasing rows → said_once (List.filter (is_first rows) rows).
Proof.
  intros Hi r r' [Hr Hf]%filter_elem [Hr' Hf']%filter_elem Hm.
  rewrite is_first_spec in Hf, Hf'. apply (increasing_inj rows); [done..|].
  specialize (Hf r' Hr' (same_msgid_sym _ _ Hm)). specialize (Hf' r Hr Hm). lia.
Qed.

(** What is not the first of its id has a first before it. *)
Lemma first_exists rows r :
  increasing rows → is_first rows r = false → r ∈ rows →
  ∃ x, x ∈ List.filter (is_first rows) rows ∧ same_msgid (line x) (line r) ∧ (id x < id r)%Z.
Proof.
  intros Hi.
  assert (∀ l, l `suffix_of` rows → (∃ x, x ∈ l ∧ same_msgid (line x) (line r) ∧ (id x < id r)%Z) →
            ∃ x, x ∈ l ∧ same_msgid (line x) (line r) ∧ (id x < id r)%Z ∧
                 ∀ y, y ∈ l → same_msgid (line y) (line r) → (id x ≤ id y)%Z) as Hmin.
  { intros l [l0 El]. assert (increasing l) as Hl by (rewrite El in Hi; by apply StronglySorted_app in Hi as (_ & _ & ?)).
    clear El. induction Hl as [|z l Hl IH Hz]; [intros (? & ?%elem_of_nil & _); done|]. rewrite Forall_forall in Hz.
    intros (x & Hx & Hm & Hlt).
    destruct (decide (profile_id (line z) = profile_id (line r) ∧ conversation (line z) = conversation (line r) ∧
                      msgid (line z) = msgid (line r))) as [(?&?&?)|Hn].
    - exists z. destruct Hm as (? & ? & [m Em] & E). split; [left|]. split; [split_and!; try done; rewrite E in Em; by exists m; congruence|].
      assert (∀ y, y ∈ z :: l → (id z ≤ id y)%Z) as Hle.
      { intros y [->|Hy]%elem_of_cons; [done|]. specialize (Hz y Hy). unfold id_lt in Hz. lia. }
      pose proof (Hle x Hx). split; [lia|]. intros y Hy _. by apply Hle.
    - apply elem_of_cons in Hx as [->|Hx]; [destruct Hm as (? & ? & _ & ?); by destruct Hn|].
      destruct IH as (w & Hw & Hwm & Hwl & Hall); [eauto|]. exists w. split; [by right|]. do 2 (split; [done|]).
      intros y [->|Hy]%elem_of_cons Hym; [destruct Hym as (? & ? & _ & ?); by destruct Hn|auto]. }
  intros Hf Hr. apply not_true_iff_false in Hf. rewrite is_first_spec in Hf.
  destruct (Hmin rows) as (x & Hx & Hm & Hlt & Hall); [done| |].
  - destruct (decide (Exists (λ x, profile_id (line x) = profile_id (line r) ∧ conversation (line x) = conversation (line r) ∧
        is_Some (msgid (line x)) ∧ msgid (line x) = msgid (line r) ∧ (id x < id r)%Z) rows)) as [He|Hn].
    + apply Exists_exists in He as (x & Hx & ? & ? & ? & ? & ?). exists x. by split_and!.
    + destruct Hf. intros x Hx (? & ? & ? & ?). apply Z.nlt_ge. intros Hlt. destruct Hn. apply Exists_exists.
      exists x. by split_and!.
  - exists x. split; [|done]. apply filter_elem. split; [done|]. apply is_first_spec. intros y Hy Hym. apply Hall; [done|].
    destruct Hm as (? & ? & ? & ?), Hym as (? & ? & ? & ?). split_and!; try done; congruence.
Qed.

Lemma first_kept rows : said_once rows → List.filter (is_first rows) rows = rows.
Proof.
  intros Ho. apply filter_all. intros r Hr. apply is_first_spec. intros x Hx Hm. rewrite (Ho x r) by done. lia.
Qed.

(** * The ladder *)

(** A file some build before this one wrote: rows as their table keeps them,
    the tables of its version, no more lines than are kept, and no search index
    or one that was made for the lines. *)
Record older (f : File) : Prop := mkOlder {
  old_version : (user_version f < SCHEMA_VERSION)%Z;
  old_rows : increasing (default [] (f_lines f));
  old_issued : (∀ r, r ∈ default [] (f_lines f) → (0 < id r ≤ f_sequence f)%Z) ∧ (0 ≤ f_sequence f)%Z;
  old_ceiling : within_ceiling (default [] (f_lines f));
  old_tables :
    ((1 ≤ user_version f)%Z → is_Some (f_lines f)) ∧
    ((2 ≤ user_version f)%Z → is_Some (f_people f)) ∧
    ((3 ≤ user_version f)%Z → is_Some (f_personas f) ∧ is_Some (f_nicks f));
  old_people : map_Forall (λ _ p, nothing_written p = false) (default ∅ (f_people f));
  old_states : map_Forall (λ _ st, is_blank st = false) (default ∅ (f_states f));
  old_marks : marks_ok (default [] (f_marks f));
  old_index : indexed (f_fts f) = true → f_trigger f = true ∧
    ∃ sql t, f_fts f = Some (sql, t) ∧ index_exact (default [] (f_lines f)) t;
}.

Definition add_columns (ex cols : list str) (r : Row) : Row :=
  foldl (λ r c, if bool_decide (c ∈ ex) then r else mkRow (id r) (clear_column c (line r))) r cols.
Definition columns_of (f : File) : list str := match f_lines f with Some _ => f_columns f | None => first_columns end.

(** What a row of an older file is once the columns it lacks are there. *)
Definition upgraded (f : File) (r : Row) : Row :=
  if (user_version f <? 4)%Z
  then add_columns (columns_of f) reply_columns r
  else r.

(** [migrate_to_4] touches the rows and the list of columns only. *)
Lemma add_columns_spec cols ex f :
  let f' := foldl (add_column ex) f cols in
  f_lines f' = map (add_columns ex cols) <$> f_lines f ∧
  user_version f' = user_version f ∧ f_sequence f' = f_sequence f ∧ f_people f' = f_people f ∧
  f_personas f' = f_personas f ∧ f_nicks f' = f_nicks f ∧ f_states f' = f_states f ∧ f_marks f' = f_marks f ∧
  f_fts f' = f_fts f ∧ f_trigger f' = f_trigger f.
Proof.
  revert f. induction cols as [|c cols IH]; intros f; cbn [foldl].
  - split; [|done]. destruct (f_lines f); cbn; [|done]. by rewrite (map_ext _ (λ r, r)), map_id.
  - destruct (IH (add_column ex f c)) as (-> & -> & -> & -> & -> & -> & -> & -> & -> & ->).
    split; [|unfold add_column; by case_bool_decide].
    unfold add_column. destruct (f_lines f) as [l|] eqn:El; [|by case_bool_decide; cbn; rewrite ?El].
    case_bool_decide as Hin; cbn; rewrite ?El; cbn; [|rewrite map_map]; f_equal; apply map_ext; intros r;
      unfold add_columns at 2; cbn [foldl].
    + by rewrite bool_decide_eq_true_2.
    + by rewrite bool_decide_eq_false_2.
Qed.

Lemma add_columns_id ex cols r :
  id (add_columns ex cols r) = id r ∧ index_entry (line (add_columns ex cols r)) = index_entry (line r).
Proof.
  unfold add_columns. revert r. induction cols as [|c cols IH]; intros r; cbn [foldl]; [done|].
  destruct (IH (if bool_decide (c ∈ ex) then r else mkRow (id r) (clear_column c (line r)))) as [-> ->]. by case_bool_decide.
Qed.

Lemma upgraded_id f r : id (upgraded f r) = id r ∧ index_entry (line (upgraded f r)) = index_entry (line r).
Proof. unfold upgraded. case_match; [apply add_columns_id|done]. Qed.

(** The file before the last rung. *)
Definition rung4 (f : File) : File :=
  let v := user_version f in
  let f := if (v <? 1)%Z then migrate_to_1 f else f in
  let f := if (v <? 2)%Z then migrate_to_2 f else f in
  let f := if (v <? 3)%Z then migrate_to_3 f else f in
  if (v <? 4)%Z then migrate_to_4 f else f.

Lemma some_default {A} (o : option A) x : is_Some o → o = Some (default x o).
Proof. by intros [y ->]. Qed.

Lemma create_default {A} (o : option A) x : create x o = Some (default x o).
Proof. by destruct o. Qed.

Lemma rung4_spec f :
  older f →
  let f4 := rung4 f in
  f_lines f4 = Some (map (upgraded f) (default [] (f_lines f))) ∧
  f_sequence f4 = f_sequence f ∧ f_people f4 = Some (default ∅ (f_people f)) ∧
  f_personas f4 = Some (default ∅ (f_personas f)) ∧ f_nicks f4 = Some (default ∅ (f_nicks f)) ∧
  f_states f4 = f_states f ∧ f_marks f4 = f_marks f ∧ f_fts f4 = f_fts f ∧ f_trigger f4 = f_trigger f.
Proof.
  intros Hf. destruct (old_tables f Hf) as (H1 & H2 & H3). cbv zeta. unfold rung4.
  set (g1 := if (user_version f <? 1)%Z then migrate_to_1 f else f).
  assert (f_lines g1 = Some (default [] (f_lines f)) ∧ f_columns g1 = columns_of f ∧
          f_sequence g1 = f_sequence f ∧ f_people g1 = f_people f ∧ f_personas g1 = f_personas f ∧ f_nicks g1 = f_nicks f ∧
          f_states g1 = f_states f ∧ f_marks g1 = f_marks f ∧ f_fts g1 = f_fts f ∧ f_trigger g1 = f_trigger f)
    as (L1 & C1 & S1 & P1 & I1 & N1 & T1 & M1 & F1 & R1).
  { subst g1. destruct (Z.ltb_spec (user_version f) 1).
    - unfold columns_of. cbn. by destruct (f_lines f).
    - unfold columns_of. destruct H1 as [l ->]; [lia|]. by split_and!. }
  clearbody g1.
  set (g2 := if (user_version f <? 2)%Z then migrate_to_2 g1 else g1).
  set (g3 := if (user_version f <? 3)%Z then migrate_to_3 g2 else g2).
  assert (f_lines g3 = Some (default [] (f_lines f)) ∧ f_columns g3 = columns_of f ∧
          f_sequence g3 = f_sequence f ∧ f_people g3 = Some (default ∅ (f_people f)) ∧
          f_personas g3 = Some (default ∅ (f_personas f)) ∧ f_nicks g3 = Some (default ∅ (f_nicks f)) ∧
          f_states g3 = f_states f ∧ f_marks g3 = f_marks f ∧ f_fts g3 = f_fts f ∧ f_trigger g3 = f_trigger f)
    as (L3 & C3 & S3 & P3 & I3 & N3 & T3 & M3 & F3 & R3).
  { subst g3 g2. destruct (Z.ltb_spec (user_version f) 2), (Z.ltb_spec (user_version f) 3); try lia; cbn;
      rewrite ?P1, ?I1, ?N1, ?create_default; split_and!; try done;
      first [by apply some_default, H2; lia | by apply some_default; destruct H3; [lia|] ]. }
  clearbody g3. destruct (Z.ltb_spec (user_version f) 4) as [Hv|Hv].
  - unfold migrate_to_4. destruct (add_columns_spec reply_columns (f_columns g3) g3) as (-> & _ & -> & -> & -> & -> & -> & -> & -> & ->).
    rewrite L3, C3. split_and!; try done. cbn. do 2 f_equal. unfold upgraded.
    by rewrite (proj2 (Z.ltb_lt _ _) Hv).
  - split_and!; try done. rewrite L3. f_equal. unfold upgraded. rewrite (proj2 (Z.ltb_ge _ _) Hv). by rewrite map_id.
Qed.

Lemma upgraded_rows f rows :
  increasing rows → (∀ r, r ∈ rows → (0 < id r ≤ f_sequence f)%Z) → within_ceiling rows →
  let new := map (upgraded f) rows in
  increasing new ∧ (∀ r, r ∈ new → (0 < id r ≤ f_sequence f)%Z) ∧ within_ceiling new ∧
  ∀ t, index_exact rows t → index_exact new t.
Proof.
  intros Hi Hs Hc. cbv zeta. split_and!.
  - induction Hi as [|x l Hl IH Hx]; cbn; constructor.
    + apply IH; [intros r Hr; apply Hs; by right|intros r r' ??; apply Hc; by right].
    + rewrite Forall_forall in *. intros y (z & -> & Hz)%list_elem_of_fmap. unfold id_lt.
      rewrite !(proj1 (upgraded_id f _)). by apply Hx.
  - intros r (x & -> & Hx)%list_elem_of_fmap. rewrite (proj1 (upgraded_id f _)). auto.
  - intros r r' (x & -> & Hx)%list_elem_of_fmap (y & -> & Hy)%list_elem_of_fmap.
    rewrite !(proj1 (upgraded_id f _)). auto.
  - intros t Ht i e. rewrite (Ht i e). split.
    + intros (r & Hr & Ei & E). exists (upgraded f r). destruct (upgraded_id f r) as [-> ->]. split; [|done].
      apply list_elem_of_fmap. eauto.
    + intros (r & (x & -> & Hx)%list_elem_of_fmap & Ei & E). destruct (upgraded_id f x) as [E1 E2]. exists x.
      by rewrite E1 in Ei; rewrite E2 in E.
Qed.

Lemma migrate_older f : older f → migrate f = Ok (set_version SCHEMA_VERSION (migrate_to_5 (rung4 f))).
Proof.
  intros Hf. pose proof (old_version f Hf). unfold migrate, SCHEMA_VERSION in *.
  rewrite (proj2 (Z.ltb_ge _ _)) by lia. rewrite (proj2 (Z.eqb_neq _ _)) by lia.
  by rewrite (proj2 (Z.ltb_lt (user_version f) 5)) by lia.
Qed.

(** ** What is left of an older file *)

(** The store an older file becomes. *)
Definition upgraded_db (f : File) (t : gmap Z (str * str)) : Db :=
  let rows := map (upgraded f) (default [] (f_lines f)) in
  mkDb (List.filter (is_first rows) rows) (f_sequence f) t (default ∅ (f_people f)) (default ∅ (f_personas f))
    (default ∅ (f_nicks f)) (default ∅ (f_states f)) (default [] (f_marks f)).

Lemma migrate_to_5_db f :
  older f → ∃ t, db_of (migrate_to_5 (rung4 f)) = Some (upgraded_db f t) ∧ index_exact (lines (upgraded_db f t)) t.
Proof.
  intros Hf. destruct (rung4_spec f Hf) as (L & S & P & I & N & T & M & F & R).
  pose proof (upgraded_rows f _ (old_rows f Hf) (proj1 (old_issued f Hf)) (old_ceiling f Hf)) as (Hi & Hs & _ & Hx).
  unfold db_of, migrate_to_5. cbn [f_lines f_people f_personas f_nicks f_states f_marks f_fts f_sequence].
  rewrite L, S, P, I, N, T, M, F, R, !create_default. cbn [mbind option_bind fmap option_fmap option_map default].
  cbn [from_option]. change (from_option (λ x, x)) with (@default (list Row)).
  set (rows := map (upgraded f) (default [] (f_lines f))) in *.
  set (fts := if f_trigger f then _ else f_fts f).
  assert (indexed fts = indexed (f_fts f)) as Ei.
  { subst fts. destruct (f_trigger f), (f_fts f) as [[sql t]|]; done. }
  rewrite Ei. destruct (indexed (f_fts f)) eqn:E.
  - destruct (old_index f Hf E) as (Ht & sql & t & Eft & Hex).
    subst fts. rewrite Ht, Eft. cbn. eexists. split; [reflexivity|]. cbn.
    pose proof (delete_index_exact (λ r, negb (is_first rows r)) rows t Hi (Hx t Hex)) as Hd.
    intros i e. rewrite (Hd i e). f_equiv. intros r. rewrite !filter_elem. by rewrite negb_involutive.
  - cbn. eexists. split; [reflexivity|]. apply backfill_exact; [by apply rows_filter_sorted|].
    intros r [Hr _]%filter_elem. specialize (Hs r Hr). lia.
Qed.

Lemma upgraded_ok f t : older f → index_exact (lines (upgraded_db f t)) t → db_ok (upgraded_db f t).
Proof.
  intros Hf Hx. pose proof (upgraded_rows f _ (old_rows f Hf) (proj1 (old_issued f Hf)) (old_ceiling f Hf)) as (Hi & Hs & Hc & _).
  unfold upgraded_db in *. cbv zeta in *. set (rows := map _ _) in *. split; cbn [lines sequence lines_fts marks_t states_t people_t].
  - split; [by apply rows_filter_sorted| |by apply first_once|done]. intros r [Hr _]%filter_elem. auto.
  - intros r r' [Hr _]%filter_elem [Hr' _]%filter_elem. auto.
  - apply (old_marks f Hf).
  - apply (old_states f Hf).
  - apply (old_people f Hf).
  - apply (old_issued f Hf).
Qed.

Lemma open_older f s :
  older f → ∃ t, open f s = (Ok tt, Some (upgraded_db f t)) ∧ db_ok (upgraded_db f t).
Proof.
  intros Hf. destruct (migrate_to_5_db f Hf) as (t & Ed & Hx). exists t. unfold open. rewrite migrate_older by done.
  split; [f_equal; exact Ed|by apply upgraded_ok].
Qed.

(** * Every store that can be *)

Section Reachable.
Context (pick skip : Z → Z) (pick_new : ∀ s, (s < pick s)%Z) (skip_back : ∀ s, (s ≤ skip s)%Z).

(** Opened from nothing, from an older file, from a file this build wrote or
    from a newer one (which is refused), and then used. *)
Inductive reachable : Store → Prop :=
  | reach_closed : reachable None
  | reach_older f s : older f → reachable s → reachable (open f s).2
  | reach_own f d s : user_version f = SCHEMA_VERSION → db_of f = Some d → reachable (Some d) → reachable s → reachable (open f s).2
  | reach_newer f s : (SCHEMA_VERSION < user_version f)%Z → reachable s → reachable (open f s).2
  | reach_op op s : reachable s → reachable (perform pick skip op s).

Lemma store_reachable_ok s : reachable s → store_ok s.
Proof.
  induction 1 as [|f s Hf _ _|f d s Hv Hd _ IH _ _|f s Hv _ _|op s _ IH]; [done|..].
  - destruct (open_older f s Hf) as (t & -> & ?). done.
  - unfold open, migrate. rewrite Hv, Z.ltb_irrefl, Z.eqb_refl, Hd. exact IH.
  - unfold open, migrate. by rewrite (proj2 (Z.ltb_lt _ _) Hv).
  - by apply perform_ok.
Qed.

(** C6: in every store that can be there are at most [MAX_ROWS] lines, no two of
    them with one id, no conversation with a server's id twice, exactly the
    lines somebody said are in the search index, no message is marked twice in
    one way by one sender, and nothing is kept that says nothing. *)
Theorem store_sound d :
  reachable (Some d) →
  (Z.of_nat (length (lines d)) ≤ MAX_ROWS)%Z ∧ NoDup (map id (lines d)) ∧ said_once (lines d) ∧
  index_exact (lines d) (lines_fts d) ∧ marks_ok (marks_t d) ∧
  map_Forall (λ _ st, is_blank st = false) (states_t d) ∧ map_Forall (λ _ p, nothing_written p = false) (people_t d).
Proof.
  intros [[Hi Hs Ho Hx] Hc Hm Hst Hp _]%store_reachable_ok. split_and!; try done; [by apply ceiling_bounds|].
  clear -Hi. induction Hi as [|x l Hl IH Hx]; cbn; constructor; [|done].
  intros (y & E & Hy)%list_elem_of_fmap. rewrite Forall_forall in Hx. specialize (Hx y Hy). unfold id_lt in Hx. lia.
Qed.

(** ** Writing *)

(** The rows a batch became, with the ids it was given. *)
Definition stored (ids : list (option Z)) (ls : list StoredLine) : list Row :=
  omap (λ il, (λ i, mkRow i il.2) <$> il.1) (zip ids ls).

Lemma insert_lines_spec ls d :
  let '(ids, d') := insert_lines pick skip ls d in
  length ids = length ls ∧ lines d' = lines d ++ stored ids ls ∧
  ∀ k l, ls !! k = Some l → ids !! k = Some None → ∃ r, r ∈ lines d' ∧ same_msgid (line r) l.
Proof.
  revert d. induction ls as [|l ls IH]; intros d; cbn [insert_lines]; [by rewrite app_nil_r|].
  destruct (insert_line pick skip l d) as [i d1] eqn:E. specialize (IH d1).
  destruct (insert_lines pick skip ls d1) as [ids d2]. destruct IH as (Hlen & Hrows & Hno).
  assert (lines d1 = lines d ++ match i with Some i => [mkRow i l] | None => [] end ∧
          (i = None → ∃ r, r ∈ lines d ∧ same_msgid (line r) l)) as [E1 E2].
  { revert E. unfold insert_line. destruct (replayed l (lines d)) eqn:Er; intros [= <- <-]; cbn.
    - rewrite app_nil_r. split; [done|]. intros _. revert Er. unfold replayed. destruct (msgid l) as [m|] eqn:Em; [|done].
      intros (r & Hr & Hin)%existsb_elem. exists r. unfold in_conversation in Hin. bool_simp.
      split; [done|]. unfold same_msgid. rewrite Em. by split_and!.
    - done. }
  split; [by cbn; rewrite Hlen|]. split.
  - rewrite Hrows, E1. unfold stored. cbn. destruct i; cbn; rewrite <- app_assoc; done.
  - intros [|k] l0; cbn [lookup list_lookup].
    + intros [= <-] [= ->]. destruct (E2 eq_refl) as (r & Hr & ?). exists r. split; [|done]. rewrite Hrows, E1.
      apply elem_of_app. left. apply elem_of_app. by left.
    + apply Hno.
Qed.
End Reachable.
