(* ===== verification/StoreTheorems.v ===== *)
(** The message store's promises, for every store that can be. *)
From S2P Require Import Prelude RustStr Format Store StoreProps StoreReads StoreUpgrade.

Section Promises.
Context (pick skip : Z → Z) (pick_new : ∀ s, (s < pick s)%Z) (skip_back : ∀ s, (s ≤ skip s)%Z).
Context (fts_match : str → str * str → bool).
Abbreviation reachable := (reachable pick skip).

(** Nothing of a batch is lost: every line is stored under the id that comes
    back for it, or is one its conversation has stored already under the
    server's id; and only the oldest lines leave, as far as it takes for the
    rest to be within [MAX_ROWS] of the newest. *)
Theorem append_accounts ls d :
  reachable (Some d) → ls ≠ [] →
  ∃ ids d', append pick skip ls (Some d) = (Ok ids, Some d') ∧ length ids = length ls ∧
    let all := lines d ++ stored ids ls in
    (∀ k l, ls !! k = Some l → ids !! k = Some None → ∃ r, r ∈ all ∧ same_msgid (line r) l) ∧
    match highest_id all with
    | Some h => lines d' = List.filter (λ r, (h - MAX_ROWS <? id r)%Z) all
    | None => lines d' = []
    end.
Proof.
  intros _ Hne. pose proof (insert_lines_spec pick skip ls d) as H.
  unfold append. rewrite (proj2 (is_empty_false ls) Hne). unfold with_, append_all.
  destruct (insert_lines pick skip ls d) as [ids d1]. destruct H as (Hlen & Hrows & Hno).
  exists ids, (prune d1). split; [done|]. split; [done|]. cbv zeta. rewrite <- Hrows. split; [done|].
  unfold prune, prune_to. destruct (highest_id (lines d1)) as [h|] eqn:Eh.
  - cbn. apply filter_ext_elem. intros r _. lia.
  - pose proof (highest_id_spec (lines d1)) as Hs. by rewrite Eh in Hs.
Qed.

(** C7: A search gives, newest first and no more of them than asked for, exactly
    the lines in its scope that somebody said and whose name and text match,
    codes left out: the index never misses a line or finds one that is gone. *)
Theorem search_exact p c query limit before_id d :
  reachable (Some d) →
  search fts_match p c query limit before_id (Some d) =
    Ok (match match_expression query with
        | None => []
        | Some expression =>
            take (N.to_nat limit) (List.filter (found fts_match p c expression before_id) (reverse (lines d)))
        end).
Proof. intros H%(store_reachable_ok pick skip pick_new skip_back). by apply search_spec. Qed.

(** C14: going up through a conversation a page at a time, each page asked for from
    the first line of the one below, gives the whole conversation in order,
    each line once, whatever the size of a page and however many lines share a
    millisecond. *)
Theorem pages_whole fuel p c limit d :
  reachable (Some d) → in_i64 (lines d) → (0 < limit)%N → length (lines d) < fuel →
  pages fuel p c i64_max i64_max limit (Some d) = scrollback p c d ∧
  StronglySorted row_le (scrollback p c d) ∧ NoDup (scrollback p c d) ∧
  ∀ r, r ∈ scrollback p c d ↔ r ∈ lines d ∧ profile_id (line r) = p ∧ conversation (line r) = c.
Proof.
  intros H%(store_reachable_ok pick skip pick_new skip_back) Hb Hl Hf. split; [by apply pages_all|].
  split; [apply scrollback_sorted|]. split; [|apply scrollback_elem].
  unfold scrollback. rewrite merge_sort_Permutation. apply increasing_NoDup, rows_filter_sorted, H.
Qed.

(** A conversation opened at a line of it shows that line with as many as were
    asked for before and after it, or all there are. *)
Theorem around_centred p c radius d l1 r l2 :
  reachable (Some d) → (radius < 2 ^ 32 - 1)%N → scrollback p c d = l1 ++ r :: l2 →
  around p c (at_ms (line r)) (id r) radius (Some d) =
    Ok (drop (length l1 - N.to_nat radius) l1 ++ r :: take (N.to_nat radius) l2).
Proof.
  intros H%(store_reachable_ok pick skip pick_new skip_back) Hr E. rewrite (around_row p c radius d l1 r l2) by done.
  by rewrite last_n_drop.
Qed.

(** ** Forgetting *)

(** What asks only for what another network said finds it all the same. *)
Lemma others_filter {A} (of_ : A → str) (p q : str) (f : A → bool) l :
  q ≠ p → (∀ x, of_ x ≠ q → f x = false) →
  List.filter f (List.filter (λ x, negb (bool_decide (of_ x = p))) l) = List.filter f l.
Proof.
  intros Hq Hf. rewrite <- filter_and. apply filter_ext_elem. intros x _.
  destruct (decide (of_ x = q)) as [Hx|?]; [by rewrite bool_decide_eq_false_2 by congruence|].
  by rewrite (Hf x), andb_false_r.
Qed.

Lemma of_network q (r : Row) : profile_id (line r) ≠ q → optionally (Some q) (profile_id (line r)) = false ∧
  ∀ c, in_conversation q c (line r) = false.
Proof. intros H. unfold optionally, in_conversation. by rewrite bool_decide_eq_false_2. Qed.

Lemma keep_keys_lookup {V} (t : gmap (str * str) V) (f : str * str → bool) k :
  keep_keys f t !! k = if f k then t !! k else None.
Proof.
  unfold keep_keys. rewrite map_lookup_filter. destruct (f k) eqn:E; destruct (t !! k); cbn; try done;
    [by rewrite option_guard_True|by rewrite option_guard_False by (cbn; congruence)].
Qed.

(** Every question about another network has the answer it had. *)
Lemma others_unchanged p q d d' :
  db_ok d → db_ok d' → (forget_profile p (Some d)).2 = Some d' → q ≠ p →
  (∀ c at_ i limit, before q c at_ i limit (Some d') = before q c at_ i limit (Some d)) ∧
  (∀ c at_ i radius, around q c at_ i radius (Some d') = around q c at_ i radius (Some d)) ∧
  (∀ c query limit b, search fts_match (Some q) c query limit b (Some d') = search fts_match (Some q) c query limit b (Some d)) ∧
  last_seen_ms q (Some d') = last_seen_ms q (Some d) ∧
  (∀ k c, marks k (Some q) c (Some d') = marks k (Some q) c (Some d)) ∧
  (∀ c, states_t d' !! (q, c) = states_t d !! (q, c)) ∧
  (∀ nick, people_t d' !! (q, nick) = people_t d !! (q, nick)) ∧
  (∀ i, persona_nicks_t d' !! (i, q) = persona_nicks_t d !! (i, q)).
Proof.
  intros Hd Hd' E Hq.
  assert (∀ c at_ i limit, before q c at_ i limit (Some d') = before q c at_ i limit (Some d)) as Hbefore.
  { injection E as <-. intros. cbn. do 4 f_equal. apply (others_filter (λ r, profile_id (line r)) p q); [done|].
    intros r Hr. by rewrite (proj2 (of_network q r Hr)). }
  split; [exact Hbefore|]. split.
  { intros. unfold around. rewrite Hbefore. injection E as <-. cbn. do 4 f_equal.
    apply (others_filter (λ r, profile_id (line r)) p q); [done|]. intros r Hr. by rewrite (proj2 (of_network q r Hr)). }
  split.
  { intros. rewrite !search_spec by done. injection E as <-. destruct (match_expression query); [|done].
    cbn -[reverse]. rewrite !filter_rev. do 3 f_equal.
    apply (others_filter (λ r, profile_id (line r)) p q); [done|]. intros r Hr. unfold found.
    rewrite (proj1 (of_network q r Hr)). by rewrite ?andb_false_r, ?andb_false_l. }
  injection E as <-. cbn. split_and!; intros; rewrite ?keep_keys_lookup; cbn; rewrite ?(bool_decide_eq_false_2 (q = p)) by done; try done.
  - do 4 f_equal. apply (others_filter (λ r, profile_id (line r)) p q); [done|]. intros r Hr. by rewrite bool_decide_eq_false_2.
  - do 2 f_equal. apply (others_filter mk_profile p q); [done|]. intros m Hm.
    by rewrite (bool_decide_eq_false_2 (mk_profile m = q)), andb_false_r.
Qed.

(** C15: after a network is forgotten nothing the store can be asked for is about
    it: no line, search result, mark, state, person or persona nick, nor the
    time it was last seen. Every answer about another network is as it was, and
    so are the personas. *)
Theorem network_forgotten p d d' :
  reachable (Some d) → (forget_profile p (Some d)).2 = Some d' →
  (∀ c at_ i limit, before p c at_ i limit (Some d') = Ok []) ∧
  (∀ c query limit b, search fts_match (Some p) c query limit b (Some d') = Ok []) ∧
  last_seen_ms p (Some d') = Ok None ∧ (∀ k c, marks k (Some p) c (Some d') = Ok []) ∧
  (∀ c, states_t d' !! (p, c) = None) ∧ (∀ nick, people_t d' !! (p, nick) = None) ∧
  (∀ i, persona_nicks_t d' !! (i, p) = None) ∧
  (∀ q, q ≠ p →
    (∀ c at_ i limit, before q c at_ i limit (Some d') = before q c at_ i limit (Some d)) ∧
    (∀ c at_ i radius, around q c at_ i radius (Some d') = around q c at_ i radius (Some d)) ∧
    (∀ c query limit b, search fts_match (Some q) c query limit b (Some d') = search fts_match (Some q) c query limit b (Some d)) ∧
    last_seen_ms q (Some d') = last_seen_ms q (Some d) ∧
    (∀ k c, marks k (Some q) c (Some d') = marks k (Some q) c (Some d)) ∧
    (∀ c, states_t d' !! (q, c) = states_t d !! (q, c)) ∧
    (∀ nick, people_t d' !! (q, nick) = people_t d !! (q, nick)) ∧
    (∀ i, persona_nicks_t d' !! (i, q) = persona_nicks_t d !! (i, q))) ∧
  personas (Some d') = personas (Some d) ∧
  (∀ r, r ∈ lines d' ↔ r ∈ lines d ∧ profile_id (line r) ≠ p).
Proof.
  intros Hd E. assert (db_ok d') as Hd'.
  { apply (store_reachable_ok pick skip pick_new skip_back (Some d')). rewrite <- E. by apply (reach_op _ _ (ForgetProfile p)). }
  apply (store_reachable_ok pick skip pick_new skip_back) in Hd.
  pose proof (λ q, others_unchanged p q d d' Hd Hd' E) as Hothers. injection E as <-.
  split_and!; try exact Hothers; try done; intros; cbn; rewrite ?keep_keys_lookup; cbn; rewrite ?(bool_decide_eq_true_2 (p = p)) by done; try done.
  - rewrite filter_and, (filter_none (λ r, in_conversation p c (line r))); [by cbn; rewrite take_nil|].
    intros r [_ Hr]%filter_elem. unfold in_conversation. by apply negb_true_iff in Hr as ->.
  - unfold search. destruct (match_expression query) as [ex|]; [|done]. cbn.
    rewrite filter_none; [by cbn; rewrite take_nil|]. intros r [_ Hr]%filter_elem. apply negb_true_iff in Hr. rewrite Hr.
    by rewrite andb_false_r.
  - rewrite filter_none; [done|]. intros r [_ Hr]%filter_elem. by apply negb_true_iff in Hr.
  - rewrite filter_none; [done|]. intros m [_ Hm]%filter_elem. apply negb_true_iff in Hm. rewrite Hm.
    by rewrite andb_false_r.
  - rewrite filter_elem, negb_true_iff, bool_decide_eq_false. tauto.
Qed.
End Promises.

(** ** Queries *)

(** What is typed into the search box is never syntax: read back as the query
    language reads it, the expression is the words that were typed, each a
    string, the last one a prefix; and there is none only when no word was. *)
Theorem query_literal query :
  match match_expression query with
  | None => split_whitespace query = []
  | Some e => fts_strings (length e) e = Some (split_whitespace query, true) ∧ split_whitespace query ≠ []
  end.
Proof.
  unfold match_expression. destruct (split_whitespace query) as [|w ws] eqn:E; [done|]. cbn [map is_empty].
  split; [|done]. change (quoted w :: map quoted ws) with (map quoted (w :: ws)). apply fts_strings_join; [done|].
  clear E. generalize (w :: ws). clear w ws. intros ws. rewrite length_app.
  enough (length ws ≤ length (join (lit " ") (map quoted ws))) by lia.
  induction ws as [|w [|w' ws] IH]; [done|cbn; lia|].
  cbn [map join]. rewrite !length_app. cbn [map join length] in IH |- *. unfold quoted at 1. rewrite !length_app. cbn [length]. lia.
Qed.

(** ** Upgrades *)

(** C8: opening an older file loses nothing that was stored once: every line it
    held is there, with the columns it lacked empty, except a line that its
    conversation holds earlier under the same server's id; people, identities,
    states and marks are as they were, the file opens again unchanged, and the
    store is one that keeps its promises. *)
Theorem upgrade_keeps pick skip f s :
  older f →
  ∃ d f', migrate f = Ok f' ∧ open f s = (Ok tt, Some d) ∧ reachable pick skip (Some d) ∧
    user_version f' = SCHEMA_VERSION ∧ migrate f' = Ok f' ∧
    people_t d = default ∅ (f_people f) ∧ personas_t d = default ∅ (f_personas f) ∧
    persona_nicks_t d = default ∅ (f_nicks f) ∧ states_t d = default ∅ (f_states f) ∧ marks_t d = default [] (f_marks f) ∧
    (∀ r, r ∈ lines d → ∃ x, x ∈ default [] (f_lines f) ∧ r = upgraded f x) ∧
    (∀ x, x ∈ default [] (f_lines f) →
       upgraded f x ∈ lines d ∨ ∃ r, r ∈ lines d ∧ same_msgid (line r) (line (upgraded f x)) ∧ (id r < id x)%Z).
Proof.
  intros Hf. destruct (open_older f s Hf) as (t & Eo & Hd). exists (upgraded_db f t), (set_version SCHEMA_VERSION (migrate_to_5 (rung4 f))).
  split; [by apply migrate_older|]. split; [done|]. split.
  { replace (Some (upgraded_db f t)) with ((open f None).2).
    - constructor; [done|constructor].
    - unfold open in Eo |- *. rewrite migrate_older in Eo |- * by done. by injection Eo as ->. }
  split; [done|]. split; [done|]. do 5 (split; [done|]). unfold upgraded_db. cbn [lines]. set (rows := map _ _).
  pose proof (upgraded_rows f _ (old_rows f Hf) (proj1 (old_issued f Hf)) (old_ceiling f Hf)) as Hrows. fold rows in Hrows. split.
  { intros r [(x & -> & Hx)%list_elem_of_fmap _]%filter_elem. eauto. }
  intros x Hx. destruct (is_first rows (upgraded f x)) eqn:E.
  { left. apply filter_elem. split; [|done]. apply list_elem_of_fmap. eauto. }
  right. destruct (first_exists rows (upgraded f x)) as (r & Hr & Hm & Hlt);
    [apply Hrows|done|apply list_elem_of_fmap; eauto|]. exists r. by rewrite <- (proj1 (upgraded_id f x)).
Qed.

(** * Concrete stores: the promises applied to them, and two that show what the
    store does not promise. *)

Definition next (s : Z) : Z := (s + 1)%Z.
Definition stay (s : Z) : Z := s.
Lemma next_new s : (s < next s)%Z.
Proof. unfold next. lia. Qed.
Lemma stay_back s : (s ≤ stay s)%Z.
Proof. unfold stay. lia. Qed.

(** Two strings match when one is the other between marks and a star. *)
Definition whole_match (e : str) (entry : str * str) : bool := bool_decide (e = quoted entry.2 ++ lit "*").

Definition a_line (p c t : str) (at_ : Z) (who m : option str) : StoredLine :=
  mkLine p c at_ who None t false false false false 0 m None None None.
Definition said (t : string) (at_ : Z) (m : option str) : StoredLine :=
  a_line (lit "net") (lit "#c") (lit t) at_ (Some (lit "bob")) m.

Definition blank : File := mkFile 0 None 0 [] None None None None None None false.

Lemma no_marks : marks_ok [].
Proof. split; [constructor|by intros ????[=]]. Qed.

Lemma blank_older : older blank.
Proof.
  split; cbn.
  - done.
  - constructor.
  - split; [by intros r ?%elem_of_nil|lia].
  - by intros r r' ?%elem_of_nil.
  - split_and!; lia.
  - apply map_Forall_empty.
  - apply map_Forall_empty.
  - apply no_marks.
  - done.
Qed.

Definition first_batch : list StoredLine :=
  [said "one" 5 (Some (lit "m1")); said "two" 5 None; said "one" 5 (Some (lit "m1")); said "three" 4 (Some (lit "m2"))].
Definition used : Store := perform next stay (Append first_batch) (open blank None).2.
Definition used_db : Db := default (mkDb [] 0 ∅ ∅ ∅ ∅ ∅ []) used.

Lemma used_some : used = Some used_db.
Proof. vm_compute. reflexivity. Qed.
Lemma used_reachable : reachable next stay (Some used_db).
Proof. rewrite <- used_some. apply reach_op, reach_older; [apply blank_older|constructor]. Qed.

Definition used_lines : list Row :=
  [mkRow 1 (said "one" 5 (Some (lit "m1"))); mkRow 2 (said "two" 5 None); mkRow 3 (said "three" 4 (Some (lit "m2")))].
Lemma used_rows : lines used_db = used_lines.
Proof. vm_compute. reflexivity. Qed.
Lemma used_i64 : in_i64 (lines used_db).
Proof.
  rewrite used_rows. unfold in_i64, used_lines, i64_max.
  apply Forall_forall. intros r Hr. repeat (apply elem_of_cons in Hr as [->|Hr]; [cbn; lia|]). by apply elem_of_nil in Hr.
Qed.

Lemma store_sound_witness : (Z.of_nat (length (lines used_db)) ≤ MAX_ROWS)%Z ∧ length (lines used_db) = 3.
Proof. split; [apply (store_sound next stay next_new stay_back used_db used_reachable)|vm_compute; reflexivity]. Defined.

Lemma append_accounts_witness :
  ∃ ids d', append next stay [said "again" 9 (Some (lit "m1"))] (Some used_db) = (Ok ids, Some d') ∧ length ids = 1.
Proof.
  destruct (append_accounts next stay [said "again" 9 (Some (lit "m1"))] used_db used_reachable) as (ids & d' & H1 & H2 & _);
    [discriminate|]. exists ids, d'. split; [exact H1|exact H2].
Defined.

Lemma search_exact_witness :
  search whole_match None None (lit "two") 10 None (Some used_db) = Ok [mkRow 2 (said "two" 5 None)].
Proof.
  rewrite (search_exact next stay next_new stay_back whole_match None None (lit "two") 10 None used_db used_reachable).
  vm_compute. reflexivity.
Defined.

Lemma pages_whole_witness :
  pages 9 (lit "net") (lit "#c") i64_max i64_max 1 (Some used_db) =
    [mkRow 3 (said "three" 4 (Some (lit "m2"))); mkRow 1 (said "one" 5 (Some (lit "m1"))); mkRow 2 (said "two" 5 None)].
Proof.
  rewrite (proj1 (pages_whole next stay next_new stay_back 9 (lit "net") (lit "#c") 1 used_db used_reachable
    used_i64 ltac:(lia) ltac:(rewrite used_rows; cbn; lia))).
  vm_compute. reflexivity.
Defined.

Lemma around_centred_witness :
  around (lit "net") (lit "#c") 5 1 1 (Some used_db) =
    Ok [mkRow 3 (said "three" 4 (Some (lit "m2"))); mkRow 1 (said "one" 5 (Some (lit "m1"))); mkRow 2 (said "two" 5 None)].
Proof.
  apply (around_centred next stay next_new stay_back (lit "net") (lit "#c") 1 used_db [mkRow 3 (said "three" 4 (Some (lit "m2")))]
    (mkRow 1 (said "one" 5 (Some (lit "m1")))) [mkRow 2 (said "two" 5 None)] used_reachable); [lia|vm_compute; reflexivity].
Defined.

(** A mark and a persona's nick on another network. *)
Definition other_mark : Mark := mkMark 0 MARK_SAVED (lit "other") (lit "#d") None None 5 (Some (lit "ann")) (lit "kept") 9.
Definition two_networks : Store :=
  perform next stay (SetPersonaNick (lit "me") (lit "other") (lit "ann")) (perform next stay (AddMark other_mark) used).
Definition two_db : Db := default used_db two_networks.
Lemma two_some : two_networks = Some two_db.
Proof. vm_compute. reflexivity. Qed.
Lemma two_reachable : reachable next stay (Some two_db).
Proof. rewrite <- two_some. apply reach_op, reach_op. rewrite used_some. apply used_reachable. Qed.

Lemma network_forgotten_witness :
  ∃ d', (forget_profile (lit "net") (Some two_db)).2 = Some d' ∧
    (∀ c query limit b, search whole_match (Some (lit "net")) c query limit b (Some d') = Ok []) ∧
    marks None (Some (lit "other")) None (Some d') = Ok [set_mark_id 1 other_mark] ∧
    persona_nicks_t d' !! (lit "me", lit "other") = Some (lit "ann").
Proof.
  eexists. split; [reflexivity|].
  destruct (network_forgotten next stay next_new stay_back whole_match (lit "net") two_db _ two_reachable eq_refl)
    as (_ & Hs & _ & _ & _ & _ & _ & Ho & _).
  split; [exact Hs|]. destruct (Ho (lit "other") ltac:(discriminate)) as (_ & _ & _ & _ & Hm & _ & _ & Hn).
  split; [rewrite Hm|rewrite Hn]; vm_compute; reflexivity.
Defined.

(** A file of version 4 in which a message was stored twice. *)
Definition twice : File :=
  mkFile 4 (Some [mkRow 1 (said "one" 5 (Some (lit "m1"))); mkRow 2 (said "one" 6 (Some (lit "m1")))]) 2
    (first_columns ++ reply_columns) (Some ∅) (Some ∅) (Some ∅) None None None false.

Lemma twice_older : older twice.
Proof.
  split; cbn.
  - done.
  - repeat constructor.
  - split; [|lia]. intros r Hr. repeat (apply elem_of_cons in Hr as [->|Hr]; [cbn; lia|]). by apply elem_of_nil in Hr.
  - intros r r' Hr Hr'. unfold MAX_ROWS.
    repeat (apply elem_of_cons in Hr as [->|Hr]; [repeat (apply elem_of_cons in Hr' as [->|Hr']; [cbn; lia|]); by apply elem_of_nil in Hr'|]).
    by apply elem_of_nil in Hr.
  - by split_and!.
  - apply map_Forall_empty.
  - apply map_Forall_empty.
  - apply no_marks.
  - done.
Qed.

Lemma upgrade_keeps_witness :
  ∃ d, open twice None = (Ok tt, Some d) ∧ reachable next stay (Some d) ∧ lines d = [mkRow 1 (said "one" 5 (Some (lit "m1")))].
Proof.
  destruct (upgrade_keeps next stay twice None twice_older) as (d & f' & _ & Ho & Hr & _).
  exists d. split; [exact Ho|]. split; [exact Hr|]. assert (lines d = lines (default d (open twice None).2)) as -> by (by rewrite Ho).
  vm_compute. reflexivity.
Defined.

(** * What is not promised *)

(** A line no one said, marked twice, has two marks: the unique index holds two
    NULL senders to be different. *)
Definition joined_mark : Mark := mkMark 0 MARK_SAVED (lit "net") (lit "#c") None None 5 None (lit "bob joined") 9.
Example system_line_marked_twice :
  ∃ s, (add_mark joined_mark (open blank None).2).1 = Ok (Some 1%Z) ∧
       s = (add_mark joined_mark (open blank None).2).2 ∧
       (add_mark joined_mark s).1 = Ok (Some 2%Z).
Proof. eexists. split; [vm_compute; reflexivity|]. split; [reflexivity|]. vm_compute. reflexivity. Qed.

(** Ids, not lines, are counted: a store far below its ceiling drops a line
    once enough others have been forgotten. Here the ceiling is three. *)
Example pruned_below_ceiling :
  let d := delete_lines (λ r, (1 <? id r)%Z && (id r <? 4)%Z)
             (mkDb (map (λ i, mkRow i (said "x" i None)) [1; 2; 3; 4]%Z) 4 ∅ ∅ ∅ ∅ ∅ []) in
  length (lines d) = 2 ∧ length (lines (prune_to 3 d)) = 1.
Proof. vm_compute. split; reflexivity. Qed.
