(* ===== verification/Args.v ===== *)
(** The command line of the terminal program ([ddirc-cli/src/cli.rs]): flags,
    and the secrets that come from the environment instead. *)
From S2P Require Import Prelude RustStr Transfer ServerConfig Upload Xmpp.

Inductive Usage := GeneralUsage | ClientUsage | ServerUsage.
Inductive Connection := Irc (c : ServerConfig.ServerConfig) | XmppAccount (c : Xmpp.XmppConfig).

(** A directory: where it starts and what is joined to it. *)
Record Path := mkPath { base : str; parts : list str }.
Definition path (s : str) : Path := mkPath s [].
Definition join_path (p : Path) (part : string) : Path := mkPath (base p) (parts p ++ [lit part]).

Record ClientArgs := mkClientArgs { connection : Connection; ca_tui : bool; log_file : option str }.
Record ServerArgs := mkServerArgs { sa_port : N; sa_name : str; sa_network : str; sa_motd : list str; sa_data_dir : Path; sa_tui : bool }.
Inductive Parsed := Help (u : Usage) | Client (a : ClientArgs) | Server (a : ServerArgs).

Definition DEFAULT_SERVER_NAME : str := lit "ddirc.local".
Definition DEFAULT_NETWORK_NAME : str := lit "Local".
Definition IRC_TLS_PORT : N := 6697.

(** ** The environment *)

(** A variable's value may not be Unicode, and is then not a string. *)
Inductive Var := Text (s : str) | NotUnicode.
Abbreviation Env := (gmap str Var).

Definition secret (name : string) (e : Env) : option str * Env :=
  match e !! lit name with
  | Some (Text s) => (if is_empty s then None else Some s, delete (lit name) e)
  | _ => (None, e)
  end.

(** ** The client's flags *)

Definition parse_proxy (raw : str) : result ProxyConfig str :=
  match Upload.rsplit_once (ch ":") raw with
  | None => Err (lit "--proxy needs host:port, got " ++ raw)
  | Some (host, port) =>
      let host := trim_end_matches (N.eqb (ch "]")) (trim_start_matches (N.eqb (ch "[")) host) in
      match parse_unsigned u16_max port with
      | None => Err (lit "invalid proxy port: " ++ port)
      | Some port => Ok (mkProxy host port None None)
      end
  end.

(** What the loop of [parse_client] has gathered. *)
Record Flags := mkFlags {
  f_host : str; f_port : N; f_nick : str; f_channels : list str; f_account : option str; f_ca : option str;
  f_proxy : option ProxyConfig; server_given : bool; port_given : bool; f_xmpp : option str; f_tui : bool;
  f_log : option str; proxy_user : option str }.
Definition no_flags : Flags :=
  mkFlags (lit "irc.libera.chat") IRC_TLS_PORT [] [] None None None false false None true None None.

(** A flag that takes a value. *)
Definition set_flag (arg value : str) (f : Flags) : option (result Flags str) :=
  let is_ s := bool_decide (arg = lit s) in
  let '(mkFlags h p n c a ca px sg pg x t l u) := f in
  if is_ "--server"%string then Some (Ok (mkFlags value p n c a ca px true pg x t l u))
  else if is_ "--port"%string then
    Some (match parse_unsigned u16_max value with
          | Some p => Ok (mkFlags h p n c a ca px sg true x t l u)
          | None => Err (lit "invalid port: " ++ value)
          end)
  else if is_ "--xmpp"%string then Some (Ok (mkFlags h p n c a ca px sg pg (Some value) t l u))
  else if is_ "--nick"%string then Some (Ok (mkFlags h p value c a ca px sg pg x t l u))
  else if is_ "--channel"%string then Some (Ok (mkFlags h p n (c ++ [value]) a ca px sg pg x t l u))
  else if is_ "--sasl-account"%string then Some (Ok (mkFlags h p n c (Some value) ca px sg pg x t l u))
  else if is_ "--ca-file"%string then Some (Ok (mkFlags h p n c a (Some value) px sg pg x t l u))
  else if is_ "--proxy"%string then
    Some (match parse_proxy value with Ok px => Ok (mkFlags h p n c a ca (Some px) sg pg x t l u) | Err e => Err e end)
  else if is_ "--proxy-user"%string then Some (Ok (mkFlags h p n c a ca px sg pg x t l (Some value)))
  else if is_ "--log-file"%string then Some (Ok (mkFlags h p n c a ca px sg pg x t (Some value) u))
  else None.
Definition no_tui (f : Flags) : Flags :=
  let '(mkFlags h p n c a ca px sg pg x _ l u) := f in mkFlags h p n c a ca px sg pg x false l u.

(** The loop: [Ok None] is a request for help. *)
Fixpoint client_flags (args : list str) (f : Flags) : result (option Flags) str :=
  match args with
  | [] => Ok (Some f)
  | arg :: args =>
      if bool_decide (arg = lit "-h") || bool_decide (arg = lit "--help") then Ok None
      else if bool_decide (arg = lit "--no-tui") then client_flags args (no_tui f)
      else
        match set_flag arg [] f with
        | None => Err (lit "unrecognised argument: " ++ arg)
        | Some _ =>
            match args with
            | [] => Err (arg ++ lit " needs a value")
            | value :: args =>
                match set_flag arg value f with
                | Some (Ok f) => client_flags args f
                | Some (Err e) => Err e
                | None => Err (lit "unrecognised argument: " ++ arg)
                end
            end
        end
  end.

(** The proxy's credentials, or the complaint that there is no proxy. *)
Definition proxy_secrets (f : Flags) (e : Env) : result (option ProxyConfig) str * Env :=
  match f_proxy f with
  | Some px =>
      let '(pw, e) := secret "DDIRC_PROXY_PASSWORD" e in
      (Ok (Some (mkProxy (px_host px) (px_port px) (proxy_user f) pw)), e)
  | None => (if is_some (proxy_user f) then Err (lit "--proxy-user requires --proxy") else Ok None, e)
  end.

Definition xmpp_client (jid : str) (f : Flags) (e : Env) : result Parsed str * Env :=
  if negb (is_empty (f_nick f)) || is_some (f_account f) then
    (Err (lit "--nick and --sasl-account are IRC's, and do not apply with --xmpp"), e)
  else
    match secret "DDIRC_XMPP_PASSWORD" e with
    | (None, e) => (Err (lit "--xmpp requires DDIRC_XMPP_PASSWORD to be set"), e)
    | (Some password, e) =>
        let '(r, e) := proxy_secrets f e in
        (match r with
         | Err m => Err m
         | Ok px =>
             Ok (Client (mkClientArgs
               (XmppAccount (Xmpp.mkXmppConfig jid password (if server_given f then Some (f_host f) else None)
                  (if port_given f then Some (f_port f) else None) (f_channels f) None (f_ca f) px)) (f_tui f) (f_log f)))
         end, e)
    end.

Definition irc_client (f : Flags) (e : Env) : result Parsed str * Env :=
  if is_empty (f_nick f) then (Err (lit "--nick is required"), e)
  else
    let '(sasl, e) := secret "DDIRC_SASL_PASSWORD" e in
    let '(nickserv, e) := secret "DDIRC_NICKSERV_PASSWORD" e in
    let '(server, e) := secret "DDIRC_SERVER_PASSWORD" e in
    if is_some (f_account f) && negb (is_some sasl) then
      (Err (lit "--sasl-account requires DDIRC_SASL_PASSWORD to be set"), e)
    else if is_some sasl && negb (is_some (f_account f)) then
      (Err (lit "DDIRC_SASL_PASSWORD requires --sasl-account"), e)
    else
      let '(r, e) := proxy_secrets f e in
      (match r with
       | Err m => Err m
       | Ok px =>
           Ok (Client (mkClientArgs
             (Irc (mkConfig (f_host f) (f_port f) (f_nick f) [] None None (f_channels f) (f_account f) sasl nickserv server
                (f_ca f) px)) (f_tui f) (f_log f)))
       end, e).

Definition parse_client (args : list str) (e : Env) : result Parsed str * Env :=
  match client_flags args no_flags with
  | Err m => (Err m, e)
  | Ok None => (Ok (Help ClientUsage), e)
  | Ok (Some f) => match f_xmpp f with Some jid => xmpp_client jid f e | None => irc_client f e end
  end.

(** ** The server's flags *)

Definition word (flag value : str) : result str str :=
  if is_empty value || existsb (λ c, is_whitespace c || is_control c) value
  then Err (flag ++ lit " must be a single word") else Ok value.

Inductive Platform := Windows | MacOs | OtherUnix.

Definition default_data_dir_from (os : Platform) (var : string → option Path) : option Path :=
  let home := match os with
    | Windows => var "LOCALAPPDATA"%string
    | MacOs => (λ h, join_path (join_path h "Library") "Application Support") <$> var "HOME"%string
    | OtherUnix =>
        match var "XDG_DATA_HOME"%string with
        | Some p => Some p
        | None => (λ h, join_path (join_path h ".local") "share") <$> var "HOME"%string
        end
    end in
  (λ b, join_path (join_path b "ddirc") "server") <$> home.

Definition default_data_dir (os : Platform) (var_os : string → option str) : option Path :=
  default_data_dir_from os (λ name, v ← var_os name; if is_empty v then None else Some (path v)).

Definition resolve_data_dir (explicit default_ : option Path) : result Path str :=
  match explicit, default_ with
  | Some p, _ | None, Some p => Ok p
  | None, None => Err (lit "no per-user data directory could be found (LOCALAPPDATA, XDG_DATA_HOME or HOME is not set), and the server's private key will not be kept in a shared one; pass --data-dir")
  end.

Record ServerFlags := mkServerFlags {
  sf_port : N; sf_name : str; sf_network : str; sf_motd : list str; sf_dir : option str; sf_tui : bool }.
Definition no_server_flags : ServerFlags := mkServerFlags 6697 DEFAULT_SERVER_NAME DEFAULT_NETWORK_NAME [] None true.

Definition set_server_flag (arg value : str) (f : ServerFlags) : option (result ServerFlags str) :=
  let is_ s := bool_decide (arg = lit s) in
  let '(mkServerFlags p n w m d t) := f in
  if is_ "--port"%string then
    Some (match parse_unsigned u16_max value with
          | Some p => Ok (mkServerFlags p n w m d t)
          | None => Err (lit "invalid port: " ++ value)
          end)
  else if is_ "--name"%string then
    Some (match word arg value with Ok n => Ok (mkServerFlags p n w m d t) | Err e => Err e end)
  else if is_ "--network"%string then
    Some (match word arg value with Ok w => Ok (mkServerFlags p n w m d t) | Err e => Err e end)
  else if is_ "--motd"%string then Some (Ok (mkServerFlags p n w (m ++ [value]) d t))
  else if is_ "--data-dir"%string then Some (Ok (mkServerFlags p n w m (Some value) t))
  else None.
Definition server_no_tui (f : ServerFlags) : ServerFlags :=
  let '(mkServerFlags p n w m d _) := f in mkServerFlags p n w m d false.

Fixpoint server_flags (args : list str) (f : ServerFlags) : result (option ServerFlags) str :=
  match args with
  | [] => Ok (Some f)
  | arg :: args =>
      if bool_decide (arg = lit "-h") || bool_decide (arg = lit "--help") then Ok None
      else if bool_decide (arg = lit "--no-tui") then server_flags args (server_no_tui f)
      else
        match set_server_flag arg [] f with
        | None => Err (lit "unrecognised argument: " ++ arg)
        | Some _ =>
            match args with
            | [] => Err (arg ++ lit " needs a value")
            | value :: args =>
                match set_server_flag arg value f with
                | Some (Ok f) => server_flags args f
                | Some (Err e) => Err e
                | None => Err (lit "unrecognised argument: " ++ arg)
                end
            end
        end
  end.

Section Parse.
Context (os : Platform) (var_os : string → option str).

Definition parse_server (args : list str) : result Parsed str :=
  match server_flags args no_server_flags with
  | Err m => Err m
  | Ok None => Ok (Help ServerUsage)
  | Ok (Some f) =>
      match resolve_data_dir (path <$> sf_dir f) (default_data_dir os var_os) with
      | Err m => Err m
      | Ok dir => Ok (Server (mkServerArgs (sf_port f) (sf_name f) (sf_network f) (sf_motd f) dir (sf_tui f)))
      end
  end.

Definition parse (args : list str) (e : Env) : result Parsed str * Env :=
  match args with
  | first :: rest =>
      let is_ s := bool_decide (first = lit s) in
      if is_ "server"%string then (parse_server rest, e)
      else if is_ "client"%string then parse_client rest e
      else if is_ "-h"%string || is_ "--help"%string || is_ "help"%string then (Ok (Help GeneralUsage), e)
      else parse_client args e
  | [] => parse_client args e
  end.
End Parse.

(** ** The connection asked for *)

Definition is_xmpp (c : Connection) : bool := match c with XmppAccount _ => true | Irc _ => false end.
Definition nick (c : Connection) : str := match c with Irc c => nickname c | XmppAccount c => Xmpp.xc_jid c end.
Definition first_channel (c : Connection) : option str :=
  match c with Irc c => head (cf_channels c) | XmppAccount c => head (Xmpp.xc_rooms c) end.

Section Describe.
Context (parse_jid : str → option Xmpp.Jid).
Definition host (c : Connection) : str :=
  match c with
  | Irc c => ServerConfig.host c
  | XmppAccount c => match Xmpp.dial_host parse_jid c with Ok h => h | Err _ => [] end
  end.
Definition describe (c : Connection) : str :=
  let '(target, proxy) := match c with
    | Irc i => (host c ++ lit ":" ++ to_dec (cf_port i) ++ lit " as " ++ nickname i, cf_proxy i)
    | XmppAccount x => (host c ++ lit ":" ++ to_dec (Xmpp.dial_port x) ++ lit " as " ++ Xmpp.xc_jid x, Xmpp.xc_proxy x)
    end in
  let via := match proxy with
    | Some p => lit ", via SOCKS5 " ++ px_host p ++ lit ":" ++ to_dec (px_port p)
    | None => []
    end in
  lit "connecting to " ++ target ++ lit " (TLS" ++ via ++ lit ")".
End Describe.

(** * Secrets *)

(** Every secret a connection carries, with the variable it is read from. *)
Definition secrets_of (c : Connection) : list (string * option str) :=
  match c with
  | Irc c =>
      [("DDIRC_SASL_PASSWORD"%string, sasl_password c); ("DDIRC_NICKSERV_PASSWORD"%string, nickserv_password c);
       ("DDIRC_SERVER_PASSWORD"%string, server_password c); ("DDIRC_PROXY_PASSWORD"%string, cf_proxy c ≫= px_password)]
  | XmppAccount c =>
      [("DDIRC_XMPP_PASSWORD"%string, Some (Xmpp.xc_password c)); ("DDIRC_PROXY_PASSWORD"%string, Xmpp.xc_proxy c ≫= px_password)]
  end.

(** A value came from a variable that is there no longer. *)
Definition taken (e e' : Env) (name : string) (o : option str) : Prop :=
  ∀ s, o = Some s → e !! lit name = Some (Text s) ∧ s ≠ [] ∧ e' !! lit name = None.

Lemma secret_taken name e : let '(o, e') := secret name e in taken e e' name o ∧ e' ⊆ e.
Proof.
  unfold secret, taken. destruct (e !! lit name) as [[s|]|] eqn:E; try (split; [by intros ? [=]|done]).
  split; [|apply delete_subseteq]. intros s' Hs. destruct (is_empty s) eqn:Es; [done|]. injection Hs as <-.
  rewrite lookup_delete_eq. by apply is_empty_false in Es.
Qed.

(** What was taken before stays so, whatever is taken after. *)
Lemma taken_trans e e1 e2 name o : taken e e1 name o → e2 ⊆ e1 → taken e e2 name o.
Proof.
  intros H He s Hs. destruct (H s Hs) as (? & ? & Hn). split_and!; try done.
  by eapply lookup_weaken_None.
Qed.
Lemma taken_weaken e e1 e2 name o : taken e1 e2 name o → e1 ⊆ e → taken e e2 name o.
Proof. intros H He s Hs. destruct (H s Hs) as (Hv & ? & ?). split_and!; try done. by eapply lookup_weaken. Qed.

Lemma proxy_secrets_taken f e :
  match proxy_secrets f e with
  | (Ok px, e') => taken e e' "DDIRC_PROXY_PASSWORD" (px ≫= px_password) ∧ e' ⊆ e
  | (Err _, e') => e' = e
  end.
Proof.
  unfold proxy_secrets. destruct (f_proxy f) as [px|].
  - pose proof (secret_taken "DDIRC_PROXY_PASSWORD" e) as H. by destruct (secret _ e).
  - destruct (is_some (proxy_user f)); [done|]. split; [by intros s [=]|done].
Qed.

Lemma xmpp_client_taken jid f e a e' :
  xmpp_client jid f e = (Ok (Client a), e') → Forall (λ v, taken e e' v.1 v.2) (secrets_of (connection a)).
Proof.
  unfold xmpp_client. case_match; [done|]. pose proof (secret_taken "DDIRC_XMPP_PASSWORD" e) as Hs.
  destruct (secret _ e) as [[pw|] e1]; [|done]. destruct Hs as [Hs1 Hs2].
  pose proof (proxy_secrets_taken f e1) as Hp. destruct (proxy_secrets f e1) as [[px|m] e2]; [|done].
  destruct Hp as [Hp1 Hp2]. intros [= <- <-]. repeat (apply Forall_cons; split); [..|constructor]; cbn.
  - by eapply taken_trans.
  - by eapply taken_weaken.
Qed.

Lemma irc_client_taken f e a e' :
  irc_client f e = (Ok (Client a), e') → Forall (λ v, taken e e' v.1 v.2) (secrets_of (connection a)).
Proof.
  unfold irc_client. case_match; [done|].
  pose proof (secret_taken "DDIRC_SASL_PASSWORD" e) as H1. destruct (secret _ e) as [s1 e1]. destruct H1 as [H1 L1].
  pose proof (secret_taken "DDIRC_NICKSERV_PASSWORD" e1) as H2. destruct (secret _ e1) as [s2 e2]. destruct H2 as [H2 L2].
  pose proof (secret_taken "DDIRC_SERVER_PASSWORD" e2) as H3. destruct (secret _ e2) as [s3 e3]. destruct H3 as [H3 L3].
  do 2 (case_match; [done|]).
  pose proof (proxy_secrets_taken f e3) as Hp. destruct (proxy_secrets f e3) as [[px|m] e4]; [|done].
  destruct Hp as [H4' L4]. intros [= <- <-]. repeat (apply Forall_cons; split); [..|constructor]; cbn [fst snd].
  - apply (taken_trans _ e1); [done|]. trans e3; [done|]. by trans e2.
  - apply (taken_trans _ e2); [by eapply taken_weaken|]. by trans e3.
  - apply (taken_trans _ e3); [|done]. eapply taken_weaken; [done|]. by trans e1.
  - eapply taken_weaken; [done|]. trans e2; [done|]. by trans e1.
Qed.

(** No secret comes from the command line: each one a connection carries is the
    value of its own variable, and the variable is gone from the environment
    before anything else can be started with it. *)
Theorem secrets_from_environment os var_os args e a e' :
  parse os var_os args e = (Ok (Client a), e') → Forall (λ v, taken e e' v.1 v.2) (secrets_of (connection a)).
Proof.
  assert (∀ args, parse_client args e = (Ok (Client a), e') → Forall (λ v, taken e e' v.1 v.2) (secrets_of (connection a))) as H.
  { intros l. unfold parse_client. destruct (client_flags l no_flags) as [[f|]|m]; try done.
    case_match; [apply xmpp_client_taken|apply irc_client_taken]. }
  unfold parse. destruct args as [|first rest]; [apply H|].
  repeat (case_match; try done); try apply H.
  intros [= Hs _]. revert Hs. unfold parse_server. by repeat case_match.
Qed.

(** * Names of a server *)

Definition single_word (s : str) : Prop := s ≠ [] ∧ Forall (λ c, is_whitespace c = false ∧ is_control c = false) s.

Lemma word_single flag v s : word flag v = Ok s → single_word s.
Proof.
  unfold word. destruct (is_empty v || _) eqn:E; [done|]. intros [= <-]. apply orb_false_iff in E as [E1 E2].
  split; [by apply is_empty_false|]. rewrite existsb_elem_false in E2. apply Forall_forall. intros c Hc.
  by apply orb_false_iff, E2.
Qed.

Definition names_ok (f : ServerFlags) : Prop := single_word (sf_name f) ∧ single_word (sf_network f).

Lemma set_server_flag_names arg v f f' : set_server_flag arg v f = Some (Ok f') → names_ok f → names_ok f'.
Proof.
  unfold set_server_flag, names_ok. destruct f. cbn.
  repeat case_match; intros [= <-]; cbn; try done; intros [??]; split; try done; by eapply word_single.
Qed.

Lemma server_flags_names n args f f' : length args ≤ n → server_flags args f = Ok (Some f') → names_ok f → names_ok f'.
Proof.
  revert args f. induction n as [|n IH]; intros [|arg args] f Hn; cbn [length] in Hn; try lia; cbn [server_flags];
    try (intros [= <-]; done).
  destruct (_ || _); [done|]. case_bool_decide.
  { intros H' Hf. eapply IH; [|exact H'|by destruct f]. lia. }
  destruct (set_server_flag arg [] f); [|done]. destruct args as [|v args]; [done|].
  destruct (set_server_flag arg v f) as [[f1|]|] eqn:E; try done. intros H' Hf.
  eapply IH; [|exact H'|by eapply set_server_flag_names]. cbn [length] in Hn. lia.
Qed.

(** The names a server is started with, which end up in the middle of protocol
    lines, are single words without control characters. *)
Theorem server_names_single os var_os args e a e' :
  parse os var_os args e = (Ok (Server a), e') → single_word (sa_name a) ∧ single_word (sa_network a).
Proof.
  assert (∀ l, parse_client l e ≠ (Ok (Server a), e')) as Hc.
  { intros l. unfold parse_client, xmpp_client, irc_client. by repeat case_match. }
  unfold parse. destruct args as [|first rest]; [by intros ?%Hc|].
  repeat (case_match; try done); try (by intros ?%Hc).
  intros [= Hs _]. revert Hs. unfold parse_server. destruct (server_flags rest no_server_flags) as [[f|]|] eqn:E; try done.
  case_match; [|done]. intros [= <-]. cbn.
  apply (server_flags_names (length rest) rest no_server_flags f); [done|done|].
  split; (split; [done|by repeat constructor]).
Qed.

(** Where the port ends is found from the right, so an address that is all
    colons gives up its end as a port. *)
Example bare_address_as_proxy :
  parse_proxy (lit "::1") = Ok (mkProxy (lit ":") 1 None None) ∧
  parse_proxy (lit "fe80::1:9050") = Ok (mkProxy (lit "fe80::1") 9050 None None) ∧
  parse_proxy (lit "[::1]:9050") = Ok (mkProxy (lit "::1") 9050 None None).
Proof. by vm_compute. Qed.

Definition some_client : ClientArgs :=
  mkClientArgs (Irc (mkConfig (lit "irc.libera.chat") 6697 (lit "me") [] None None [] (Some (lit "me")) (Some (lit "pw"))
    None None None None)) true None.
Lemma secrets_from_environment_witness :
  parse OtherUnix (λ _, None) (map lit ["--nick"; "me"; "--sasl-account"; "me"]%string)
    {[lit "DDIRC_SASL_PASSWORD" := Text (lit "pw")]} = (Ok (Client some_client), ∅) ∧
  taken {[lit "DDIRC_SASL_PASSWORD" := Text (lit "pw")]} ∅ "DDIRC_SASL_PASSWORD" (Some (lit "pw")).
Proof.
  assert (parse OtherUnix (λ _, None) (map lit ["--nick"; "me"; "--sasl-account"; "me"]%string)
    {[lit "DDIRC_SASL_PASSWORD" := Text (lit "pw")]} = (Ok (Client some_client), ∅)) as E by (vm_compute; reflexivity).
  split; [exact E|]. exact (Forall_inv (secrets_from_environment _ _ _ _ _ _ E)).
Defined.

Lemma server_names_single_witness :
  ∃ a e', parse OtherUnix (λ _, None) (map lit ["server"; "--name"; "irc.here"; "--data-dir"; "d"]%string) ∅ = (Ok (Server a), e') ∧
    single_word (sa_name a).
Proof.
  eexists _, _. split; [vm_compute; reflexivity|].
  refine (proj1 (server_names_single OtherUnix (λ _, None) (map lit ["server"; "--name"; "irc.here"; "--data-dir"; "d"]%string) ∅ _ _ _)).
  vm_compute. reflexivity.
Defined.
