(* ===== verification/Composer.v ===== *)
(** The bar a line is typed in ([ddirc-cli/src/composer.rs]): where its pieces
    go on the screen, and where the cursor is.

    Coordinates are [u16]. An addition or a subtraction that leaves them is
    [None], where the source would panic; one the source lets saturate
    saturates. Colours and glyphs are not modelled. *)
From Stdlib Require Import ZArith Lia.
From S2P Require Import Prelude.

(** * Coordinates *)

Definition U16_MAX : N := 65535.
Definition add16 (a b : N) : option N := if (a + b <=? U16_MAX)%N then Some (a + b)%N else None.
Definition sub16 (a b : N) : option N := if (b <=? a)%N then Some (a - b)%N else None.
Definition saturating_sub (a b : N) : N := (a - b)%N.

Record Rect := mkRect { x : N; y : N; width : N; height : N }.
#[export] Instance Rect_eq_dec : EqDecision Rect.
Proof. solve_decision. Defined.

Definition MIN_TEXT : N := 8.

Record Places := mkPlaces { top : Rect; middle : Rect; bottom : Rect; label : Rect; text : Rect; hint : Rect }.

(** * The layout *)

(** A piece and the column after it, if there is a piece. *)
Definition with_gap (w : N) : option N := if (0 <? w)%N then add16 w 1 else Some 0%N.

(** [room]: what a label and a hint leave for the text. *)
Definition room (inner : Rect) (label hint : N) : option N :=
  l ← with_gap label; h ← with_gap hint;
  taken ← add16 2 l; taken ← add16 taken h;
  Some (saturating_sub (width inner) taken).

Definition row (bar : Rect) (dy : N) : option Rect :=
  y ← add16 (y bar) dy; Some (mkRect (x bar) y (width bar) 1).

Definition places (area : Rect) (label_width hint_width : N) : option Places :=
  let margin := if (6 <=? width area)%N then 1%N else 0%N in
  bar_x ← add16 (x area) margin;
  bar_width ← sub16 (width area) (2 * margin);
  let bar := mkRect bar_x (y area) bar_width (height area) in
  let none := mkRect (x bar) (y bar) (width bar) 0 in
  '(top, middle, bottom) ←
    (if (3 <=? height bar)%N then
       r0 ← row bar 0; r1 ← row bar 1; r2 ← row bar 2; Some (r0, r1, r2)
     else r0 ← row bar 0; Some (none, r0, none));
  inner_x ← add16 (x middle) 1;
  let inner := mkRect inner_x (y middle) (saturating_sub (width middle) 2) (height middle) in
  r ← room inner label_width hint_width;
  let hint := if (r <? MIN_TEXT)%N then 0%N else hint_width in
  r ← room inner label_width hint;
  let label := if (r <? MIN_TEXT)%N then 0%N else label_width in
  label_x ← add16 (x inner) 1;
  gap ← with_gap label;
  text_x ← add16 label_x gap;
  text_width ← room inner label hint;
  end_x ← add16 (x inner) (width inner);
  back ← add16 1 hint;
  let piece x w := mkRect x (y inner) w (height inner) in
  Some (mkPlaces top middle bottom (piece label_x label) (piece text_x text_width) (piece (saturating_sub end_x back) hint)).

(** [render], as far as the cursor goes: [None] is a panic, [Some None] no
    cursor. [visual] is the column of the text field's cursor, and
    [visual_scroll] how far the field is scrolled to show it in so many columns;
    [as u16] keeps the low sixteen bits. *)
Definition cursor_at (area : Rect) (label_width hint_width : N) (has_text : bool) (visual : N) (visual_scroll : N → N)
    (cursor : bool) : option (option (N * N)) :=
  if (width area =? 0)%N || (height area =? 0)%N then Some None
  else
    p ← places area label_width (if has_text then hint_width else 0%N);
    if (width (text p) =? 0)%N then Some None
    else if has_text then
      if negb cursor then Some None
      else
        let column := (saturating_sub visual (visual_scroll (width (text p))) mod 65536)%N in
        a ← add16 (x (text p)) column;
        b ← add16 (x (text p)) (width (text p));
        b ← sub16 b 1;
        Some (Some (N.min a b, y (text p)))
    else if negb cursor then Some None
    else Some (Some (x (text p), y (text p))).

(** * Where the pieces are *)

Definition cell (r : Rect) (c w : N) : Prop :=
  (x r <= c < x r + width r)%N ∧ (y r <= w < y r + height r)%N.
Definition inside (r area : Rect) : Prop := ∀ c w, cell r c w → cell area c w.
Definition apart (r r' : Rect) : Prop := ∀ c w, cell r c w → ¬ cell r' c w.

(** A screen whose coordinates are [u16] with a little to spare, and captions
    that are shorter than it can be. *)
Definition on_screen (area : Rect) (label_width hint_width : N) : Prop :=
  (x area + width area + 2 <= U16_MAX)%N ∧ (y area + height area <= U16_MAX)%N ∧ (0 < height area)%N ∧
  (label_width + hint_width + 4 <= U16_MAX)%N.

Definition gap (w : N) : N := if (0 <? w)%N then (w + 1)%N else 0%N.

Lemma add16_fits a b : (a + b <= U16_MAX)%N → add16 a b = Some (a + b)%N.
Proof. unfold add16. intros H. by rewrite (proj2 (N.leb_le _ _) H). Qed.
Lemma sub16_fits a b : (b <= a)%N → sub16 a b = Some (a - b)%N.
Proof. unfold sub16. intros H. by rewrite (proj2 (N.leb_le _ _) H). Qed.
Lemma gap_le w : (gap w <= w + 1)%N.
Proof. unfold gap. destruct (0 <? w)%N; lia. Qed.
Lemma with_gap_fits w : (w + 1 <= U16_MAX)%N → with_gap w = Some (gap w).
Proof. unfold with_gap, gap. intros H. destruct (0 <? w)%N; [by apply add16_fits|done]. Qed.
Lemma room_fits r l h : (l + h + 4 <= U16_MAX)%N → room r l h = Some (width r - (2 + gap l + gap h))%N.
Proof.
  intros H. pose proof (gap_le l). pose proof (gap_le h). unfold room. rewrite !with_gap_fits by lia. cbn.
  rewrite add16_fits by lia. cbn. by rewrite add16_fits by lia.
Qed.
Lemma row_fits b dy : (y b + dy <= U16_MAX)%N → row b dy = Some (mkRect (x b) (y b + dy) (width b) 1).
Proof. intros H. unfold row. by rewrite add16_fits. Qed.

(** The columns of the text row, and what is dropped to leave room. *)
Definition margin (area : Rect) : N := if (6 <=? width area)%N then 1 else 0.
Definition inner_width (area : Rect) : N := (width area - 2 * margin area - 2)%N.
Definition left_over (area : Rect) (l h : N) : N := (inner_width area - (2 + gap l + gap h))%N.
Definition kept_hint (area : Rect) (l h : N) : N := if (left_over area l h <? MIN_TEXT)%N then 0%N else h.
Definition kept_label (area : Rect) (l h : N) : N :=
  if (left_over area l (kept_hint area l h) <? MIN_TEXT)%N then 0%N else l.

Lemma places_fit area l h : on_screen area l h →
  ∃ p, places area l h = Some p ∧
    let dy := if (3 <=? height area)%N then 1%N else 0%N in
    let l' := kept_label area l h in let h' := kept_hint area l h in
    let piece x w := mkRect x (y area + dy) w 1 in
    let strip d := mkRect (x area + margin area) (y area + d) (width area - 2 * margin area) dy in
    p = mkPlaces (strip 0%N) (piece (x area + margin area) (width area - 2 * margin area))%N (strip (2 * dy)%N)
          (piece (x area + margin area + 1 + 1)%N l')
          (piece (x area + margin area + 1 + 1 + gap l') (left_over area l' h'))%N
          (piece (x area + margin area + 1 + inner_width area - (1 + h'))%N h').
Proof.
  intros (Hx & Hy & Hh & Hw). eexists. split; [|reflexivity]. unfold places.
  change (if (6 <=? width area)%N then 1%N else 0%N) with (margin area).
  assert (margin area <= 1 ∧ 2 * margin area <= width area)%N as [Hm Hm'] by (unfold margin; destruct (N.leb_spec 6 (width area)); lia).
  assert (kept_hint area l h <= h)%N by (unfold kept_hint; destruct (_ <? _)%N; lia).
  assert (kept_label area l h <= l)%N by (unfold kept_label; destruct (_ <? _)%N; lia).
  assert (x area + margin area + 1 + 1 + gap (kept_label area l h) <= U16_MAX)%N as Hg.
  { unfold kept_label. destruct (N.ltb_spec (left_over area l (kept_hint area l h)) MIN_TEXT); [cbn; lia|].
    unfold left_over, inner_width, MIN_TEXT in *. lia. }
  rewrite add16_fits by lia. cbn [mbind option_bind]. rewrite sub16_fits by lia. cbn [mbind option_bind x y width height].
  destruct (N.leb_spec 3 (height area)).
  all: rewrite !row_fits by (cbn [y]; lia); cbn [mbind option_bind x y width height].
  all: rewrite (add16_fits (x area + margin area) 1) by lia; cbn [mbind option_bind x y width height].
  all: rewrite (room_fits _ l h) by lia; cbn [mbind option_bind x y width height].
  all: unfold saturating_sub; fold (inner_width area); fold (left_over area l h); fold (kept_hint area l h).
  all: rewrite (room_fits _ l (kept_hint area l h)) by lia; cbn [mbind option_bind x y width height].
  all: fold (left_over area l (kept_hint area l h)); fold (kept_label area l h).
  all: rewrite (add16_fits (x area + margin area + 1) 1) by lia; cbn [mbind option_bind].
  all: rewrite with_gap_fits by lia; cbn [mbind option_bind]; rewrite add16_fits by lia; cbn [mbind option_bind].
  all: rewrite room_fits by lia; cbn [mbind option_bind x y width height].
  all: rewrite add16_fits by (unfold inner_width; lia); cbn [mbind option_bind]; rewrite add16_fits by lia; cbn [mbind option_bind].
  all: repeat f_equal; lia.
Qed.

Lemma gap_spec w : (w = 0 ∧ gap w = 0 ∨ 0 < w ∧ gap w = w + 1)%N.
Proof. unfold gap. destruct (N.ltb_spec 0 w); lia. Qed.

(** Both are kept, or the hint goes, or both go. *)
Lemma kept_spec area l h :
  (kept_label area l h = l ∧ kept_hint area l h = h ∧ (MIN_TEXT <= left_over area l h)%N) ∨
  (kept_label area l h = l ∧ kept_hint area l h = 0%N ∧ (MIN_TEXT <= left_over area l 0)%N) ∨
  (kept_label area l h = 0%N ∧ kept_hint area l h = 0%N).
Proof.
  unfold kept_label, kept_hint. destruct (N.ltb_spec (left_over area l h) MIN_TEXT) as [H|H].
  - destruct (N.ltb_spec (left_over area l 0) MIN_TEXT); auto.
  - rewrite (proj2 (N.ltb_ge _ _) H). auto.
Qed.

(** C40: the bar lays itself out in any area of a screen: no coordinate leaves
    [u16]; no cell of a piece is outside the area; label, text and hint do not
    share a cell and stay between the caps; and either the text has the room it
    needs or label and hint have made way for it, the hint first. *)
Theorem bar_fits (area : Rect) (l h : N) : on_screen area l h →
  ∃ p, places area l h = Some p ∧
    Forall (λ r, inside r area) [top p; middle p; bottom p; label p; text p; hint p] ∧
    apart (label p) (text p) ∧ apart (label p) (hint p) ∧ apart (text p) (hint p) ∧
    Forall (λ r, ∀ c w, cell r c w → (x (middle p) < c)%N ∧ (c + 1 < x (middle p) + width (middle p))%N)
      [label p; text p; hint p] ∧
    ((MIN_TEXT <= width (text p))%N ∨ (width (label p) = 0 ∧ width (hint p) = 0))%N ∧
    (width (hint p) = 0 ∨ width (label p) = l)%N.
Proof.
  intros Hs. pose proof (places_fit _ _ _ Hs) as (p & Hp & ->). destruct Hs as (Hx & Hy & Hh & Hw).
  eexists. split; [exact Hp|]. cbn [top middle bottom label text hint].
  unfold inside, apart, cell. rewrite !Forall_cons. cbn [x y width height]. clear Hp.
  pose proof (gap_spec (kept_label area l h)). pose proof (gap_spec (kept_hint area l h)).
  pose proof (kept_spec area l h) as Hk. unfold left_over, inner_width, margin, MIN_TEXT in *.
  set (l' := kept_label area l h) in *. set (h' := kept_hint area l h) in *. clearbody l' h'.
  destruct (N.leb_spec 6 (width area)), (N.leb_spec 3 (height area)), Hk as [(-> & -> & Hk)|[(-> & -> & Hk)|(-> & ->)]];
    split_and!; try apply Forall_nil_2; intros; lia.
Qed.

(** The cursor, if it is shown, is on a cell of the text, and it is shown
    whenever it is asked for and the area has more than six columns; given a
    text field that scrolls so that its cursor is at most a column past what it
    shows. *)
Theorem cursor_on_text (area : Rect) (l h : N) (has_text : bool) (visual : N) (visual_scroll : N → N) (cursor : bool) :
  on_screen area l h → (∀ w, visual - visual_scroll w <= w)%N →
  ∃ r, cursor_at area l h has_text visual visual_scroll cursor = Some r ∧
    match r with
    | Some (c, w) => cursor = true ∧ ∃ p, places area l (if has_text then h else 0%N) = Some p ∧ cell (text p) c w
    | None => cursor = false ∨ (width area <= 6)%N
    end.
Proof.
  intros Hs Hv. unfold cursor_at. destruct Hs as (Hx & Hy & Hh & Hw).
  destruct (N.eqb_spec (width area) 0) as [|Hn]; cbn [orb]; [eexists; split; [done|right; lia]|].
  destruct (N.eqb_spec (height area) 0); [lia|].
  set (h0 := if has_text then h else 0%N).
  assert (on_screen area l h0) as Hs by (unfold h0; destruct has_text; unfold on_screen; lia).
  destruct (bar_fits _ _ _ Hs) as (p & Hp & Hin & _). destruct (places_fit _ _ _ Hs) as (p' & Hp' & E).
  rewrite Hp in Hp'. injection Hp' as <-. rewrite Hp. cbn [mbind option_bind].
  assert (width (text p) = left_over area (kept_label area l h0) (kept_hint area l h0)) as Ew by by rewrite E.
  assert (height (text p) = 1)%N as Eh1 by by rewrite E.
  destruct (N.eqb_spec (width (text p)) 0) as [E0|E0].
  { eexists; split; [done|right]. destruct (kept_spec area l h0) as [(E1 & E2 & Hk)|[(E1 & E2 & Hk)|(E1 & E2)]];
      rewrite Ew, E1, E2 in E0; unfold MIN_TEXT in *; [lia..|]. unfold left_over, inner_width, margin in E0. cbn in E0.
    destruct (N.leb_spec 6 (width area)); lia. }
  assert (inside (text p) area) as Hi by (rewrite !Forall_cons in Hin; tauto).
  assert (x (text p) + width (text p) <= x area + width area)%N as Hr.
  { destruct (Hi (x (text p) + width (text p) - 1)%N (y (text p))) as [? _]; [unfold cell; lia|]. lia. }
  specialize (Hv (width (text p))). destruct has_text, cursor; cbn [negb]; try (exists None; split; [reflexivity|by left]; fail).
  - unfold saturating_sub. set (d := (visual - _)%N) in *. rewrite N.mod_small by (unfold U16_MAX in *; lia).
    rewrite add16_fits by lia. cbn. rewrite add16_fits by lia. cbn. rewrite sub16_fits by lia. cbn.
    eexists; split; [reflexivity|]. cbn beta iota. split; [done|]. exists p. split; [done|]. unfold cell. lia.
  - eexists; split; [reflexivity|]. cbn beta iota. split; [done|]. exists p. split; [done|]. unfold cell. lia.
Qed.

(** A line of an ordinary terminal, with something typed. *)
Lemma bar_fits_witness :
  let area := mkRect 0 20 80 3 in
  on_screen area 7 6 ∧
  ∃ p, places area 7 6 = Some p ∧ Forall (λ r, inside r area) [top p; middle p; bottom p; label p; text p; hint p] ∧
       apart (label p) (text p) ∧ apart (text p) (hint p).
Proof.
  assert (on_screen (mkRect 0 20 80 3) 7 6) as H by (unfold on_screen, U16_MAX; cbn; lia).
  split; [exact H|]. destruct (bar_fits (mkRect 0 20 80 3) 7 6 H) as (p & H1 & H2 & H3 & _ & H4 & _).
  exists p. split_and!; assumption.
Defined.

Lemma cursor_on_text_witness :
  let area := mkRect 0 20 80 3 in
  cursor_at area 7 6 true 200 (λ w, 200 - w)%N true = Some (Some (69, 21)%N) ∧
  ∃ r, cursor_at area 7 6 true 200 (λ w, 200 - w)%N true = Some r ∧
    match r with Some (c, w) => true = true ∧ ∃ p, places area 7 6 = Some p ∧ cell (text p) c w | None => true = false ∨ (80 <= 6)%N end.
Proof.
  split; [vm_compute; reflexivity|].
  apply (cursor_on_text (mkRect 0 20 80 3) 7 6 true 200 (λ w, 200 - w)%N true); [unfold on_screen, U16_MAX; cbn; lia|intros; lia].
Defined.
