(* ===== verification/Plain.v ===== *)
(** The client as lines of text, for pipes and scripts
    ([ddirc-cli/src/client/plain.rs]).

    What the loop waits for is its input, one thing after the other: events of
    the connection and lines typed, with whether the connection still took what
    a line asked for. What it prints and what it asks the connection for are its
    output. *)
From S2P Require Import Prelude RustStr Args Format Room Contacts Listing Offer Transfer Api ClientCommands.

(** A line on standard output, or on standard error. *)
Inductive Printed := Out (line : str) | ErrOut (line : str).

(** [{:<28}] and [{:>6}]: spaces up to a width. *)
Definition pad_right (width : nat) (s : str) : str := s ++ replicate (width - length s) 0x20%N.
Definition pad_left (width : nat) (s : str) : str := replicate (width - length s) 0x20%N ++ s.

Definition HELP : list (str * str) := map (λ p, (lit p.1, lit p.2))
  [ ("/join <#channel> [key]", "join a channel");
    ("/part [#channel] [reason]", "leave a channel (this one by default)");
    ("/msg <target> <text>", "send a message to a nick or channel");
    ("/query <nick>", "open a private conversation");
    ("/me <action>", "say something in the third person");
    ("/nick <new>", "change your nickname");
    ("/topic <text>", "set the channel's topic");
    ("/kick <nick> [reason]", "remove someone (channel operators)");
    ("/whois <nick>", "who is this?");
    ("/list", "browse the server's channels");
    ("/accept <address>", "XMPP: let someone who asked see when you are online");
    ("/decline <address>", "XMPP: refuse someone who asked");
    ("/addcontact <address> [name]", "XMPP: add a contact and ask to see them");
    ("/rmcontact <address>", "XMPP: remove a contact");
    ("/away [text]", "XMPP: say you are away");
    ("/dnd [text]", "XMPP: say you are busy");
    ("/back", "XMPP: say you are here again");
    ("/file <path>", "XMPP: send a file to this conversation");
    ("/close", "close this conversation");
    ("/clear", "empty this conversation's scrollback");
    ("/quit [reason]", "disconnect and exit") ]%string.

(** * What an event looks like *)

Definition plain (spans : list TextSpan) : str := concat (map text spans).
Definition suffix (reason : option str) : str := match reason with Some r => lit " (" ++ r ++ lit ")" | None => [] end.

(** A line between dashes, the way most of them are. *)
Definition dashed (s : str) : Printed := Out (lit "-- " ++ s ++ lit " --").

Definition render_message (m : ChatMessage) : list Printed :=
  let body := plain (cm_spans m) in
  let scope := match cm_target m with ToChannel name => name | ToDirect nick => lit "(" ++ nick ++ lit ")" end in
  let prefix := default [] (cm_sender_prefix m) in
  let mention := if cm_is_mention m then lit " *" else [] in
  if cm_is_action m then [Out (scope ++ lit " * " ++ prefix ++ cm_sender m ++ lit " " ++ body ++ mention)]
  else if cm_is_notice m then [Out (scope ++ lit " -" ++ prefix ++ cm_sender m ++ lit "- " ++ body ++ mention)]
  else [Out (scope ++ lit " <" ++ prefix ++ cm_sender m ++ lit "> " ++ body ++ mention)].

Definition status_text (s : ConnectionStatus) : str :=
  match s with
  | Disconnected => lit "disconnected"
  | Connecting => lit "connecting"
  | Registering => lit "registering"
  | Connected => lit "connected"
  | Reconnecting retry_in_secs attempt =>
      lit "reconnecting in " ++ to_dec retry_in_secs ++ lit "s (attempt " ++ to_dec attempt ++ lit ")"
  end.
Definition auth_text (a : AuthOutcome) : str :=
  match a with
  | Sasl => lit "SASL"
  | NickServFallback reason => lit "NickServ fallback (" ++ reason ++ lit ")"
  | Anonymous => lit "anonymous"
  end.
Definition bytes_text (n : option N) : str := match n with Some b => lit ", " ++ to_dec b ++ lit " bytes" | None => [] end.

Section Render.
Context {IpAddr : Type} (show_ip : IpAddr → str).
Abbreviation Event := (IrcEvent IpAddr).

Definition offer_how (o : DccOffer IpAddr) : str :=
  if is_reverse o then lit "reverse"
  else match addr o, port o with
       | Some a, Some p => show_ip a ++ lit ":" ++ to_dec p
       | _, _ => lit "?"
       end.

Definition render_listing (c : ChannelListing) : Printed :=
  let topic := if is_empty (l_topic c) then [] else lit "  " ++ l_topic c in
  Out (pad_left 6 (to_dec (users c)) ++ lit "  " ++ l_name c ++ topic).

Definition render_member (channel previous : str) (member : option MemberView) : Printed :=
  match member with
  | Some m =>
      if negb (bool_decide (v_nick m = previous)) then dashed (channel ++ lit ": " ++ previous ++ lit " is now " ++ v_nick m)
      else dashed (channel ++ lit ": " ++ default [] (v_prefix m) ++ v_nick m ++ (if v_away m then lit " (away)" else []))
  | None => dashed (channel ++ lit ": " ++ previous ++ lit " is gone")
  end.

Definition render_whois (w : WhoisInfo) : list Printed :=
  if negb (wi_found w) then [dashed (lit "no such nick: " ++ wi_nick w)]
  else
    dashed (wi_nick w ++ lit " is " ++ default (lit "?") (wi_user w) ++ lit "@" ++ default (lit "?") (wi_host w) ++
            lit " (" ++ default [] (wi_realname w) ++ lit ")")
    :: (if is_empty (wi_channels w) then [] else [dashed (lit "on " ++ join (lit " ") (wi_channels w))]).

Definition render (e : Event) : list Printed :=
  match e with
  | Message m => render_message m
  | Status s detail =>
      let detail := default [] detail in
      [dashed (status_text s ++ (if is_empty detail then [] else lit ": ") ++ detail)]
  | Registered nick network auth =>
      [dashed (lit "registered on " ++ default (lit "server") network ++ lit " as " ++ nick ++ lit " [auth: " ++ auth_text auth ++ lit "]")]
  | NetworkNamed network => [dashed (lit "network: " ++ network)]
  | Joined channel nick _ => [dashed (nick ++ lit " joined " ++ channel)]
  | Parted channel nick _ reason => [dashed (nick ++ lit " left " ++ channel ++ suffix reason)]
  | Quit_ channel nick reason => [dashed (nick ++ lit " quit [" ++ channel ++ lit "]" ++ suffix reason)]
  | NickChanged channel old new _ => [dashed (old ++ lit " is now " ++ new ++ lit " [" ++ channel ++ lit "]")]
  | TopicChanged channel topic set_by =>
      [match set_by with
       | Some who => dashed (who ++ lit " set the topic of " ++ channel ++ lit ": " ++ topic)
       | None => dashed (lit "topic for " ++ channel ++ lit ": " ++ topic)
       end]
  | MemberList channel members => [dashed (channel ++ lit ": " ++ to_dec (N.of_nat (length members)) ++ lit " members")]
  | MemberChanged channel previous member => [render_member channel previous member]
  | FileOffered _ channel from offer =>
      [dashed (from ++ lit " offered " ++ [34%N] ++ filename offer ++ [34%N] ++ lit " [" ++ channel ++ lit "] via " ++
               offer_how offer ++ bytes_text (size offer))]
  | ModeChanged channel by_ affected =>
      [dashed (default (lit "server") by_ ++ lit " changed modes in " ++ channel ++ lit " for " ++ join (lit ", ") affected)]
  | MessagesDropped _ count => [dashed (to_dec count ++ lit " message(s) dropped by flood protection")]
  | FileTransferStarted _ _ filename incoming total =>
      [dashed ((if incoming then lit "receiving" else lit "sending") ++ lit " " ++ [34%N] ++ filename ++ [34%N] ++ bytes_text total)]
  | FileTransferProgress _ _ | Contact_ _ | ContactRemoved_ _ | UploadAvailable _ => []
  | SubscriptionRequest jid =>
      [dashed (jid ++ lit " asks to see when you are online: /accept " ++ jid ++ lit " or /decline " ++ jid)]
  | MessageEdited target _ sender message =>
      [Out (lit "(" ++ target_name target ++ lit ") * " ++ sender ++ lit " corrected a message: " ++ plain (cm_spans message))]
  | MessageRetracted target _ sender =>
      [Out (lit "(" ++ target_name target ++ lit ") * " ++ sender ++ lit " deleted a message")]
  | FileTransferEnded _ _ filename path error =>
      let named s := [34%N] ++ filename ++ [34%N] ++ s in
      [match error with
       | Some reason => dashed (named (lit " failed: " ++ reason))
       | None => match path with Some path => dashed (named (lit " saved to " ++ path)) | None => dashed (named (lit " sent")) end
       end]
  | ChannelList channels true truncated =>
      let count := to_dec (N.of_nat (length channels)) in
      map render_listing channels ++
      [if truncated then dashed (lit "the " ++ count ++ lit " busiest; there are more") else dashed (count ++ lit " channels")]
  | ChannelList _ false _ => []
  | WhoisEvent w => render_whois w
  | ErrorEvent message fatal => [ErrOut (lit "-- " ++ (if fatal then lit "fatal" else lit "error") ++ lit ": " ++ message ++ lit " --")]
  end.

(** * The loop *)

Inductive Input :=
  | Heard (e : Event)
  | CoreStopped
  | Typed (line : str) (taken : bool)
  | EndOfInput.

Record PlainState := mkPlain { current : option str; rooms : list str }.

(** A loop that goes on, one that is saying goodbye, and one that has returned. *)
Inductive Phase := Running (s : PlainState) | Goodbye | Returned.

Definition on_joined (e : Event) (s : PlainState) : PlainState :=
  match e with
  | Joined channel _ true =>
      mkPlain (match current s with Some c => Some c | None => Some channel end)
        (if bool_decide (channel ∈ rooms s) then rooms s else rooms s ++ [channel])
  | _ => s
  end.

Definition is_room (s : PlainState) (name : str) : bool :=
  existsb (λ r, eq_ignore_ascii_case r name) (rooms s) || (contains_char (ch "@") name && negb (contains_char (ch "/") name)).

Definition action_for (xmpp : bool) (line : str) (s : PlainState) : option Action :=
  if xmpp then command_for_with (is_room s) false (current s) line else command_for line (current s).

Definition on_typed (xmpp : bool) (line : str) (taken : bool) (s : PlainState) : list Printed * list ClientCommand * Phase :=
  match action_for xmpp line s with
  | Some (Send command) =>
      let s := match command with Join channel _ => mkPlain (Some channel) (rooms s) | _ => s end in
      let said := if taken then [] else [Out (lit "-- not connected --")] in
      let quitting := match command with Disconnect _ => true | _ => false end in
      (said, [command], if quitting then Goodbye else Running s)
  | Some (NoticeText text) => ([dashed text], [], Running s)
  | Some (Query nick) => ([dashed (lit "talking to " ++ nick)], [], Running (mkPlain (Some nick) (rooms s)))
  | Some Help => (map (λ h, Out (lit "-- " ++ pad_right 28 h.1 ++ lit " " ++ h.2)) HELP, [], Running s)
  | Some (Close | Clear) => ([Out (lit "-- there is only one stream of text here; try without --no-tui --")], [], Running s)
  | None => ([], [], Running s)
  end.

(** One turn. Saying goodbye, only what the connection still reports is
    handled; [CoreStopped] or the end of the two seconds ends it. *)
Definition turn (xmpp : bool) (i : Input) (p : Phase) : list Printed * list ClientCommand * Phase :=
  match p with
  | Returned => ([], [], Returned)
  | Goodbye =>
      match i with
      | Heard e => (render e, [], Goodbye)
      | CoreStopped => ([], [], Returned)
      | _ => ([], [], Goodbye)
      end
  | Running s =>
      match i with
      | Heard e => (render e, [], Running (on_joined e s))
      | CoreStopped => ([Out (lit "-- core stopped --")], [], Returned)
      | Typed line taken => on_typed xmpp line taken s
      | EndOfInput => ([], [Disconnect (Some (lit "ddirc-cli"))], Goodbye)
      end
  end.

Fixpoint turns (xmpp : bool) (inputs : list Input) (p : Phase) : list Printed * list ClientCommand * Phase :=
  match inputs with
  | [] => ([], [], p)
  | i :: inputs =>
      let '(out, sent, p) := turn xmpp i p in
      let '(out', sent', p) := turns xmpp inputs p in
      (out ++ out', sent ++ sent', p)
  end.

(** [run]; [invalid] is why the configuration is refused, if it is. Whether it
    succeeded is the exit code. *)
Definition run (parse_jid : str → option Xmpp.Jid) (invalid : option str) (c : Connection) (inputs : list Input) :
    list Printed * list ClientCommand * bool :=
  match invalid with
  | Some error => ([ErrOut (lit "error: " ++ error)], [], false)
  | None =>
      let '(out, sent, _) := turns (is_xmpp c) inputs (Running (mkPlain (first_channel c) [])) in
      (Out (describe parse_jid c) :: out, sent, true)
  end.

(** * What is sent and what is shown *)

Definition harmless (c : ClientCommand) : Prop :=
  match c with AcceptFile _ _ | CancelTransfer _ | EditMessage _ _ _ | RetractMessage _ _ | CatchUpChats _ => False | _ => True end.

Lemma dispatch_harmless is_chan add_sigil cur command argument c :
  dispatch is_chan add_sigil cur command argument = Send c → harmless c.
Proof.
  unfold dispatch, join_command, part_command, in_conversation, msg_command, topic_command, kick_command, add_contact_command.
  intros H. repeat (case_match; try done); by simplify_eq.
Qed.

Lemma action_harmless xmpp line s c : action_for xmpp line s = Some (Send c) → harmless c.
Proof.
  unfold action_for, command_for, command_for_with. intros H.
  destruct xmpp; repeat (case_match; try done); simplify_eq; try done; by eapply dispatch_harmless.
Qed.

Definition is_disconnect (c : ClientCommand) : bool := match c with Disconnect _ => true | _ => false end.

(** One turn sends at most one command, only for something typed, and is saying
    goodbye just when that was to disconnect. *)
Lemma turn_sends xmpp i p : let '(_, sent, p') := turn xmpp i p in
  match p with
  | Running _ =>
      (sent = [] ∨ ∃ c, sent = [c] ∧ harmless c ∧ match i with Typed _ _ | EndOfInput => True | _ => False end) ∧
      (existsb is_disconnect sent = true ↔ p' = Goodbye)
  | _ => sent = [] ∧ (p' = Goodbye ∨ p' = Returned)
  end.
Proof.
  destruct p as [s| |]; [|destruct i; cbn; auto|cbn; auto].
  destruct i as [e| |line taken|]; cbn; [split; [by left|done]..| |split; [right; by eexists|done]].
  unfold on_typed. destruct (action_for xmpp line s) as [[c|why|who| | |]|] eqn:E; cbn; try (split; [by left|done]).
  apply action_harmless in E. split; [right; by exists c|]. by destruct c.
Qed.

(** Only what is typed is sent: a run sends at most one command for each line
    and one at the end of the input, nothing for any event, never accepts a file
    or changes what was said, and nothing after it has disconnected. *)
Theorem plain_obeys (xmpp : bool) (inputs : list Input) (s : PlainState) :
  let '(_, sent, _) := turns xmpp inputs (Running s) in
  Forall harmless sent ∧
  length sent ≤ length (List.filter (λ i, match i with Typed _ _ | EndOfInput => true | _ => false end) inputs) ∧
  (∀ before c after, sent = before ++ c :: after → is_disconnect c = true → after = []).
Proof.
  assert (∀ inputs p, (p = Goodbye ∨ p = Returned) → (turns xmpp inputs p).1.2 = []) as Hover.
  { clear. induction inputs as [|i inputs IH]; intros p Hp; [done|]. cbn. pose proof (turn_sends xmpp i p) as H.
    destruct (turn xmpp i p) as [[out sent] p']. destruct p; [by destruct Hp| |];
      destruct H as [-> Hp']; specialize (IH p' Hp'); by destruct (turns xmpp inputs p') as [[? ?] ?]. }
  revert s. induction inputs as [|i inputs IH]; intros s; [split_and!; [by apply Forall_nil_2|done|by intros []]|].
  cbn [turns]. pose proof (turn_sends xmpp i (Running s)) as H. destruct (turn xmpp i (Running s)) as [[out sent] p'].
  destruct H as [Hs Hd].
  assert (let '(_, sent', _) := turns xmpp inputs p' in
    Forall harmless sent' ∧
    length sent' ≤ length (List.filter (λ i, match i with Typed _ _ | EndOfInput => true | _ => false end) inputs) ∧
    (∀ before c after, sent' = before ++ c :: after → is_disconnect c = true → after = []) ∧ (p' = Goodbye → sent' = [])) as Hrest.
  { destruct p' as [s'| |]; [specialize (IH s')|specialize (Hover inputs Goodbye (or_introl eq_refl))|specialize (Hover inputs Returned (or_intror eq_refl))].
    - destruct (turns xmpp inputs (Running s')) as [[? sent'] ?]. destruct IH as (? & ? & ?). by split_and!.
    - destruct (turns xmpp inputs Goodbye) as [[? sent'] ?]. cbn in Hover. subst. split_and!; [by apply Forall_nil_2|cbn; lia|by intros []|done].
    - destruct (turns xmpp inputs Returned) as [[? sent'] ?]. cbn in Hover. subst. split_and!; [by apply Forall_nil_2|cbn; lia|by intros []|done]. }
  destruct (turns xmpp inputs p') as [[out' sent'] p'']. destruct Hrest as (R1 & R2 & R3 & R4).
  destruct Hs as [->|(c & -> & Hc & Hi)].
  - split_and!; [done| |done]. cbn. destruct i; cbn; lia.
  - split_and!; [by constructor|cbn; destruct i; try done; cbn; lia|].
    intros before c' after E Hc'. destruct before as [|b before]; cbn in E; simplify_eq; [|by eapply R3].
    apply R4, Hd. cbn. by rewrite Hc'.
Qed.

(** Nothing is hidden: the events without a line are how far a transfer is, the
    contact list, that files can be sent, and a channel list that is not whole. *)
Theorem hides_nothing (e : Event) :
  render e = [] ↔
  match e with
  | FileTransferProgress _ _ | Contact_ _ | ContactRemoved_ _ | UploadAvailable _ | ChannelList _ false _ => True
  | _ => False
  end.
Proof.
  destruct e as [| | |m| | | | | | | | | | | | | |cs [] tr|w| | | | | | | ]; cbn; try done.
  - unfold render_message. by repeat case_match.
  - split; [|done]. by intros []%app_eq_nil.
  - unfold render_whois. by repeat case_match.
Qed.
End Render.

(** A session over IRC: hello typed before a channel is there goes nowhere, the
    channel joined is where the next line goes, and nothing follows a quit. *)
Example plain_session :
  turns (IpAddr := N) (λ _, []) false
    [Typed (lit "hello") true; Heard (Joined (lit "#rust") (lit "me") true); Typed (lit "hello") true;
     Typed (lit "/quit bye") true; Typed (lit "again") true; CoreStopped] (Running (mkPlain None []))
  = ([Out (lit "-- me joined #rust --")], [SendMessage (lit "#rust") (lit "hello"); Disconnect (Some (lit "bye"))], Returned).
Proof. vm_compute. reflexivity. Qed.

(** A typed line can offer a file. *)
Example plain_offers_files :
  (turn (IpAddr := N) (λ _, []) true (Typed (lit "/file notes.txt") true) (Running (mkPlain (Some (lit "bob@example.org")) []))).1.2
  = [SendFile (lit "bob@example.org") (lit "notes.txt")].
Proof. vm_compute. reflexivity. Qed.
