(* ===== verification/Serve.v ===== *)
(** One accepted connection of the local server ([ddirc-server/src/session.rs]):
    the bound on a line, the keepalive and the loop of the reading task.

    The sockets, the codec and the clock are inputs. What can wake the reader,
    or change what it shares with the writing task and the state task, is a
    [Woken] at a time; the source lets some of them win over others when
    several are ready at once, which orders the list, no more. *)
From S2P Require Import Prelude RustStr Proto Admin Network NetworkAdmin NetworkSteps.
Import Proto.

Definition MAX_PENDING : nat := 8 * 1024.
Definition REGISTRATION_GRACE : Z := 30.

(** * Framing *)

Section Framing.
Context {Item : Type} (codec : list N → result (option Item) str).

Definition decode (src : list N) : result (option Item) str :=
  if Nat.ltb MAX_PENDING (length src) && negb (existsb (N.eqb 10) src) then Err (lit "line too long") else codec src.
End Framing.

(** * Silence *)

Record Keepalive := mkKeepalive { after : Z; timeout : Z }.
Inductive Lapse := LapsePing | LapseDrop.
Record Idle := mkIdle { keepalive : Keepalive; probing : bool; deadline : Z }.

Definition new_idle (k : Keepalive) (now : Z) : Idle := mkIdle k false (now + after k).
Definition heard (now : Z) (i : Idle) : Idle := new_idle (keepalive i) now.
Definition lapsed (now : Z) (i : Idle) : Lapse * Idle :=
  if probing i then (LapseDrop, i) else (LapsePing, mkIdle (keepalive i) true (now + timeout (keepalive i))).

(** * The reader *)

Inductive Read := Parsed (m : Message) | Unparseable | Failed (e : str) | Eof.

Inductive Woken :=
  | WelcomeStored
  | WelcomePermit
  | ServerGone
  | WriterDone
  | WelcomeNotified
  | Next (r : Read)
  | DeadlineReached.

Record Reader := mkReader {
  id : ClientId;
  registered : bool;
  permit : bool;
  server_up : bool;
  registered_by : option Z;
  idle : Idle;
  sent : list NetworkSteps.Event;
  ended : option str;
}.
Definition set_idle i (r : Reader) := mkReader (id r) (registered r) (permit r) (server_up r) (registered_by r) i (sent r) (ended r).
Definition set_wait w i (r : Reader) := mkReader (id r) (registered r) (permit r) (server_up r) w i (sent r) (ended r).
Definition set_shared g p u (r : Reader) := mkReader (id r) g p u (registered_by r) (idle r) (sent r) (ended r).
Definition push_event e (r : Reader) := mkReader (id r) (registered r) (permit r) (server_up r) (registered_by r) (idle r) (sent r ++ [e]) (ended r).
Definition set_ended m (r : Reader) := mkReader (id r) (registered r) (permit r) (server_up r) (registered_by r) (idle r) (sent r) (Some m).

(** [events.send]: nothing arrives once the state task is gone. *)
Definition send_event (e : NetworkSteps.Event) (r : Reader) : Reader := if server_up r then push_event e r else r.

(** [break reason], and what follows the loop. *)
Definition finish (reason : str) (r : Reader) : Reader :=
  set_ended reason (send_event (NetworkSteps.Disconnected (id r) reason) r).

(** The top of the loop. *)
Definition top (now : Z) (r : Reader) : Reader :=
  match registered_by r with
  | Some _ => if registered r then set_wait None (heard now (idle r)) r else r
  | None => r
  end.

Definition waiting_for (r : Reader) : Z := default (deadline (idle r)) (registered_by r).

Definition on_deadline (now : Z) (r : Reader) : Reader :=
  match registered_by r with
  | Some _ =>
      if registered r then top now (set_wait None (heard now (idle r)) r) else finish (lit "Registration timeout") r
  | None =>
      let '(l, i) := lapsed now (idle r) in
      let k := keepalive (idle r) in
      let r := set_idle i r in
      match l with
      | LapsePing =>
          if server_up r then top now (push_event (NetworkSteps.Quiet (id r)) r)
          else finish (lit "Server shutting down") r
      | LapseDrop => finish (lit "Ping timeout: " ++ to_dec (Z.to_N (after k + timeout k)) ++ lit " seconds") r
      end
  end.

Definition on_next (now : Z) (x : Read) (r : Reader) : Reader :=
  match x with
  | Parsed m =>
      let r := set_idle (heard now (idle r)) r in
      if server_up r then top now (push_event (NetworkSteps.Line (id r) m) r) else finish (lit "Server shutting down") r
  | Unparseable => top now (set_idle (heard now (idle r)) r)
  | Failed e => finish e r
  | Eof => finish (lit "Connection closed") r
  end.

(** One turn. A deadline is not reached before its time, and a permit is only
    waited for while registering. *)
Definition wake (now : Z) (w : Woken) (r : Reader) : Reader :=
  match ended r with
  | Some _ => r
  | None =>
      match w with
      | WelcomeStored => set_shared true (permit r) (server_up r) r
      | WelcomePermit => set_shared (registered r) true (server_up r) r
      | ServerGone => set_shared (registered r) (permit r) false r
      | WriterDone => finish (lit "Closed by the server") r
      | WelcomeNotified =>
          if permit r && negb (bool_decide (registered_by r = None))
          then top now (set_shared (registered r) false (server_up r) r) else r
      | Next x => on_next now x r
      | DeadlineReached => if (waiting_for r <=? now)%Z then on_deadline now r else r
      end
  end.

(** [serve] from where the connection has been announced. *)
Definition start (c : ClientId) (k : Keepalive) (now : Z) : Reader :=
  mkReader c false false true (Some (now + REGISTRATION_GRACE)%Z) (new_idle k now) [NetworkSteps.Connected c] None.

Definition serve (r : Reader) (wakes : list (Z * Woken)) : Reader := foldl (λ r w, wake w.1 w.2 r) r wakes.

(** * What ends a connection *)

(** Times do not run backwards. *)
Fixpoint timely (now : Z) (wakes : list (Z * Woken)) : Prop :=
  match wakes with [] => True | (t, _) :: wakes => (now ≤ t)%Z ∧ timely t wakes end.

Definition is_heard (w : Woken) : bool := match w with Next (Parsed _) | Next Unparseable => true | _ => false end.

(** A line heard at [t] keeps the connection at least so long. *)
Definition heard_at (k : Keepalive) (t : Z) (r : Reader) : Prop :=
  keepalive (idle r) = k ∧
  (t + after k + (if probing (idle r) then timeout k else 0) ≤ deadline (idle r))%Z.

Lemma heard_at_new k t now r :
  (t ≤ now)%Z → keepalive (idle r) = k → heard_at k t (set_idle (heard now (idle r)) r).
Proof. intros Ht Hk. unfold heard_at, heard, new_idle. cbn. rewrite Hk. split; [done|lia]. Qed.

Lemma top_heard k t now r : (t ≤ now)%Z → heard_at k t r → heard_at k t (top now r).
Proof.
  intros Ht H. unfold top. do 2 (case_match; [|done]). destruct H as [Hk Hd].
  unfold heard_at, heard, new_idle. cbn. rewrite Hk. split; [done|lia].
Qed.

Lemma finish_idle m r : idle (finish m r) = idle r.
Proof. unfold finish, send_event. by case_match. Qed.

Lemma finish_heard k t m r : heard_at k t r → heard_at k t (finish m r).
Proof. unfold heard_at. by rewrite finish_idle. Qed.

Lemma on_deadline_heard k t now r :
  (t ≤ now)%Z → (waiting_for r ≤ now)%Z → heard_at k t r → heard_at k t (on_deadline now r).
Proof.
  intros Ht Hw H. pose proof H as [Hk Hd]. unfold on_deadline, waiting_for in *. destruct (registered_by r) as [g|] eqn:Eg.
  - destruct (registered r); [|by apply finish_heard]. apply top_heard; [done|]. unfold heard_at, heard, new_idle. cbn. rewrite Hk.
    split; [done|lia].
  - cbn in Hw. unfold lapsed. destruct (probing (idle r)) eqn:Ep.
    + apply finish_heard. unfold heard_at. cbn. by rewrite Ep.
    + assert (heard_at k t (set_idle (mkIdle (keepalive (idle r)) true (now + timeout (keepalive (idle r)))) r)) as H1.
      { unfold heard_at. cbn. rewrite Hk. split; [done|lia]. }
      destruct (server_up _); [|by apply finish_heard]. apply top_heard; [done|]. exact H1.
Qed.

Lemma wake_heard k t now w r : (t ≤ now)%Z → heard_at k t r → heard_at k t (wake now w r).
Proof.
  intros Ht H. unfold wake. destruct (ended r); [done|]. destruct w as [| | | | |x|]; try done.
  - by apply finish_heard.
  - case_match; [|done]. apply top_heard; [done|]. exact H.
  - destruct x as [m| |e|]; cbn [on_next]; try (by apply finish_heard).
    + assert (heard_at k t (set_idle (heard now (idle r)) r)) by (apply heard_at_new; [done|apply H]).
      case_match; [|by apply finish_heard]. by apply top_heard.
    + apply top_heard; [done|]. apply heard_at_new; [done|apply H].
  - case_match eqn:E; [|done]. apply on_deadline_heard; [done|lia|done].
Qed.

Lemma wake_hears k now w r :
  ended r = None → keepalive (idle r) = k → is_heard w = true → heard_at k now (wake now w r).
Proof.
  intros He Hk Hw. unfold wake. rewrite He. destruct w as [| | | | |[m| |e|]|]; try done; cbn [on_next].
  - assert (heard_at k now (set_idle (heard now (idle r)) r)) by (by apply heard_at_new; [lia|]).
    case_match; [|by apply finish_heard]. apply top_heard; [lia|]. done.
  - apply top_heard; [lia|]. by apply heard_at_new; [lia|].
Qed.

Lemma top_keepalive now r : keepalive (idle (top now r)) = keepalive (idle r).
Proof. unfold top. by repeat case_match. Qed.

Lemma wake_keepalive now w r : keepalive (idle (wake now w r)) = keepalive (idle r).
Proof.
  unfold wake. destruct (ended r); [done|]. destruct w as [| | | | |x|]; try done; rewrite ?finish_idle; try done.
  - case_match; [|done]. by rewrite top_keepalive.
  - destruct x; cbn [on_next]; rewrite ?finish_idle, ?top_keepalive; try done.
    case_match; by rewrite ?finish_idle, ?top_keepalive.
  - case_match; [|done]. unfold on_deadline, lapsed.
    repeat case_match; simplify_eq; by rewrite ?finish_idle, ?top_keepalive.
Qed.

Lemma serve_heard k wakes r t now :
  timely now wakes → (t ≤ now)%Z → heard_at k t r → heard_at k t (serve r wakes).
Proof.
  revert r now. induction wakes as [|[s w] wakes IH]; intros r now; cbn; [done|]. intros [Hs Ht] Hn Hr.
  apply (IH _ s); [done|lia|]. apply wake_heard; [lia|done].
Qed.

Lemma serve_keepalive wakes r : keepalive (idle (serve r wakes)) = keepalive (idle r).
Proof.
  revert r. induction wakes as [|[s w] wakes IH]; intros r; cbn; [done|]. unfold serve in IH. by rewrite IH, wake_keepalive.
Qed.

Lemma wake_over now w r m : ended r = Some m → wake now w r = r.
Proof. intros E. unfold wake. by rewrite E. Qed.
Lemma serve_over wakes r m : ended r = Some m → serve r wakes = r.
Proof.
  revert r. induction wakes as [|[s w] wakes IH]; intros r E; [done|]. cbn. rewrite (wake_over _ _ _ m E). by apply IH.
Qed.

Lemma timely_app now l1 t w l2 : timely now (l1 ++ (t, w) :: l2) → timely now l1 ∧ (now ≤ t)%Z ∧ timely t l2.
Proof.
  revert now. induction l1 as [|[s x] l1 IH]; intros now; cbn; [by intros [??]|]. intros [Hs (Ha & Hb & Hc)%IH].
  split_and!; try done. lia.
Qed.

(** The time of the last of them. *)
Definition last_time (now : Z) (wakes : list (Z * Woken)) : Z := foldl (λ _ w, w.1) now wakes.
Lemma last_time_ge now wakes : timely now wakes → (now ≤ last_time now wakes)%Z.
Proof.
  revert now. induction wakes as [|[s w] wakes IH]; intros now; cbn; [lia|]. intros [Hs Ht]. specialize (IH s Ht).
  unfold last_time in IH. lia.
Qed.

(** A registered connection is dropped for its silence only when nothing has
    been heard of it for as long as the keepalive says, pause and answer
    together, however the lines and deadlines fell; a line that could not be
    parsed counts. *)
Theorem talking_not_dropped c k t0 l1 t w l2 now m :
  timely t0 (l1 ++ (t, w) :: l2) → is_heard w = true → (last_time t l2 ≤ now)%Z →
  let r := serve (start c k t0) (l1 ++ (t, w) :: l2) in
  ended r = None → registered_by r = None → server_up r = true →
  ended (wake now DeadlineReached r) = Some m → (t + after k + timeout k ≤ now)%Z.
Proof.
  intros Ht Hw Hn. cbv zeta. unfold serve. rewrite foldl_app. cbn [foldl fst snd]. fold (serve (start c k t0) l1).
  set (r1 := serve (start c k t0) l1). fold (serve (wake t w r1) l2). intros He Hr Hu Hm.
  apply timely_app in Ht as (_ & _ & Ht2).
  assert (ended r1 = None) as He1.
  { destruct (ended r1) as [m1|] eqn:E; [|done]. rewrite (wake_over _ _ _ m1 E), (serve_over _ _ m1 E) in He. congruence. }
  assert (keepalive (idle r1) = k) as Hk by (subst r1; by rewrite serve_keepalive).
  pose proof (serve_heard k l2 _ t t Ht2 ltac:(lia) (wake_hears k t w r1 He1 Hk Hw)) as [Hk2 Hd].
  revert He Hr Hu Hm Hk2 Hd. generalize (serve (wake t w r1) l2). clear. intros r He Hr Hu Hm Hk2 Hd.
  revert Hm. unfold wake. rewrite He. destruct (waiting_for r <=? now)%Z eqn:E; [|intros; congruence]. apply Z.leb_le in E.
  unfold waiting_for in E. rewrite Hr in E. cbn in E. unfold on_deadline. rewrite Hr. unfold lapsed.
  destruct (probing (idle r)); [intros _; lia|].
  cbn [set_idle server_up]. rewrite Hu. unfold top. cbn. rewrite Hr. cbn. rewrite He. done.
Qed.

(** ** Silence *)

(** Nothing but deadlines, each when it comes. *)
Fixpoint silence (n : nat) (now : Z) (r : Reader) : Z * Reader :=
  match n with
  | 0 => (now, r)
  | S n =>
      match ended r with
      | Some _ => (now, r)
      | None => let t := Z.max now (waiting_for r) in silence n t (wake t DeadlineReached r)
      end
  end.

(** No deadline is further away than its wait. *)
Definition due (now : Z) (r : Reader) : Prop :=
  (∀ g, registered_by r = Some g → (g ≤ now + REGISTRATION_GRACE)%Z) ∧
  (deadline (idle r) ≤ now + if probing (idle r) then timeout (keepalive (idle r)) else after (keepalive (idle r)))%Z.

Lemma due_later now now' r : (now ≤ now')%Z → due now r → due now' r.
Proof. intros Hn [H1 H2]. split; [intros g Hg; specialize (H1 g Hg); lia|lia]. Qed.

Lemma top_due now r : due now r → due now (top now r).
Proof. intros H. unfold top. do 2 (case_match; [|done]). split; [done|]. unfold heard, new_idle. cbn. lia. Qed.
Lemma finish_due now m r : due now r → due now (finish m r).
Proof. unfold due. rewrite finish_idle. unfold finish, send_event. by destruct (server_up r). Qed.
Lemma heard_due now r : due now r → due now (set_idle (heard now (idle r)) r).
Proof. intros [H1 _]. split; [done|]. unfold heard, new_idle. cbn. lia. Qed.

Lemma wake_due now w r : due now r → due now (wake now w r).
Proof.
  intros H. unfold wake. destruct (ended r); [done|]. destruct w as [| | | | |x|]; try done.
  - by apply finish_due.
  - case_match; [|done]. by apply top_due.
  - destruct x as [m| |e|]; cbn [on_next]; try (by apply finish_due).
    + case_match; [apply top_due|apply finish_due]; by apply heard_due.
    + by apply top_due, heard_due.
  - case_match; [|done]. unfold on_deadline. case_match.
    + case_match; [|by apply finish_due]. apply top_due. split; [done|]. unfold heard, new_idle. cbn. lia.
    + unfold lapsed. destruct (probing (idle r)) eqn:Ep.
      * apply finish_due. destruct r. exact H.
      * assert (due now (set_idle (mkIdle (keepalive (idle r)) true (now + timeout (keepalive (idle r)))) r)) as Hdue
          by (split; [apply H|cbn; lia]).
        case_match; [apply top_due|apply finish_due]; exact Hdue.
Qed.

Lemma serve_due t0 wakes r : timely t0 wakes → due t0 r → due (last_time t0 wakes) (serve r wakes).
Proof.
  revert t0 r. induction wakes as [|[s w] wakes IH]; intros t0 r; [done|]. cbn [timely]. intros [Hs Ht] H.
  apply (IH s); [done|]. apply wake_due. by eapply due_later.
Qed.

(** The three stages of a silence. *)
Lemma wake_registering t r g :
  ended r = None → registered_by r = Some g → (g ≤ t)%Z →
  let r' := wake t DeadlineReached r in
  is_Some (ended r') ∨ (ended r' = None ∧ registered_by r' = None ∧ idle r' = new_idle (keepalive (idle r)) t).
Proof.
  intros He Hr Hg. cbv zeta. unfold wake, waiting_for, on_deadline. rewrite He, Hr. cbn. rewrite (proj2 (Z.leb_le _ _) Hg).
  destruct (registered r); [right|left; by eexists]. unfold top. cbn. by split_and!.
Qed.

Lemma wake_quiet t r :
  ended r = None → registered_by r = None → (deadline (idle r) ≤ t)%Z →
  let r' := wake t DeadlineReached r in
  is_Some (ended r') ∨
  (probing (idle r) = false ∧ ended r' = None ∧ registered_by r' = None ∧
   idle r' = mkIdle (keepalive (idle r)) true (t + timeout (keepalive (idle r)))).
Proof.
  intros He Hr Hd. cbv zeta. unfold wake, waiting_for, on_deadline, lapsed. rewrite He, Hr. cbn. rewrite (proj2 (Z.leb_le _ _) Hd).
  destruct (probing (idle r)); cbn; [left; by eexists|].
  destruct (server_up r); cbn; [|left; by eexists]. right. unfold top. cbn. rewrite Hr. cbn. by split_and!.
Qed.

Lemma silence_over n now r : is_Some (ended r) → silence n now r = (now, r).
Proof. intros [m E]. destruct n; [done|]. cbn. by rewrite E. Qed.

Lemma silence_S n now r w :
  ended r = None → waiting_for r = w →
  silence (S n) now r = silence n (Z.max now w) (wake (Z.max now w) DeadlineReached r).
Proof. intros E <-. cbn. by rewrite E. Qed.

Lemma waiting_registered r : registered_by r = None → waiting_for r = deadline (idle r).
Proof. intros E. unfold waiting_for. by rewrite E. Qed.

Lemma silence_probing n now r :
  ended r = None → registered_by r = None → probing (idle r) = true →
  let '(t, r') := silence (S n) now r in is_Some (ended r') ∧ t = Z.max now (deadline (idle r)).
Proof.
  intros He Hr Hp. rewrite (silence_S n now r (deadline (idle r))) by (done || by apply waiting_registered).
  destruct (wake_quiet (Z.max now (deadline (idle r))) r He Hr ltac:(lia)) as [H|[Hn _]]; [|congruence].
  by rewrite silence_over.
Qed.

Lemma silence_registered n now r :
  ended r = None → registered_by r = None → (0 ≤ timeout (keepalive (idle r)))%Z →
  let '(t, r') := silence (S (S n)) now r in
  is_Some (ended r') ∧ (t ≤ Z.max now (deadline (idle r)) + timeout (keepalive (idle r)))%Z.
Proof.
  intros He Hr Hk. rewrite (silence_S (S n) now r (deadline (idle r))) by (done || by apply waiting_registered).
  destruct (wake_quiet (Z.max now (deadline (idle r))) r He Hr ltac:(lia)) as [H|(Hn & He' & Hr' & Hi')].
  - rewrite silence_over by done. split; [done|lia].
  - pose proof (silence_probing n (Z.max now (deadline (idle r))) _ He' Hr' ltac:(by rewrite Hi')) as E.
    rewrite Hi' in E. cbn [deadline] in E. destruct (silence (S n) _ _). destruct E as [? ->]. split; [done|lia].
Qed.

(** C27: A connection that goes quiet is gone: whatever happened before, three
    deadlines end it, and they are all reached within the time to register,
    the pause and the wait for an answer. *)
Theorem silence_ends c k t0 wakes :
  timely t0 wakes → (0 ≤ after k)%Z → (0 ≤ timeout k)%Z →
  let now := last_time t0 wakes in
  let '(t, r) := silence 3 now (serve (start c k t0) wakes) in
  is_Some (ended r) ∧ (t ≤ now + REGISTRATION_GRACE + after k + timeout k)%Z.
Proof.
  intros Ht Ha Hm. cbv zeta.
  assert (due (last_time t0 wakes) (serve (start c k t0) wakes)) as Hd.
  { apply serve_due; [done|]. split; [intros g [= <-]; lia|]. cbn. lia. }
  assert (keepalive (idle (serve (start c k t0) wakes)) = k) as Hk by by rewrite serve_keepalive.
  revert Hd Hk. generalize (serve (start c k t0) wakes) as r, (last_time t0 wakes) as now. clear -Ha Hm.
  assert (0 < REGISTRATION_GRACE)%Z as Hg by done. intros r now [H1 H2] Hk. rewrite Hk in H2.
  destruct (ended r) as [m|] eqn:He; [rewrite silence_over by (by eexists); split; [by eexists|lia]|].
  destruct (registered_by r) as [g|] eqn:Er.
  - rewrite (silence_S 2 now r g) by (done || unfold waiting_for; by rewrite Er). specialize (H1 g eq_refl).
    destruct (wake_registering (Z.max now g) r g He Er ltac:(lia)) as [H|(He' & Hr' & Hi')].
    + rewrite silence_over by done. split; [done|lia].
    + pose proof (silence_registered 0 (Z.max now g) _ He' Hr') as E. rewrite Hi', Hk in E. cbn [keepalive deadline new_idle] in E.
      specialize (E Hm). destruct (silence 2 _ _). destruct E as [? ?]. split; [done|lia].
  - destruct (probing (idle r)) eqn:Ep.
    + pose proof (silence_probing 2 now r He Er Ep) as E. destruct (silence 3 now r). destruct E as [? ->]. split; [done|lia].
    + pose proof (silence_registered 1 now r He Er) as E. rewrite Hk in E. specialize (E Hm).
      destruct (silence 3 now r). destruct E as [? ?]. split; [done|lia].
Qed.

(** ** What the state task is told *)

Definition reading_event (c : ClientId) (e : NetworkSteps.Event) : Prop :=
  e = NetworkSteps.Quiet c ∨ ∃ m, e = NetworkSteps.Line c m.

(** One arrival, then lines and pauses, then, if the connection is over, one
    departure with its reason. *)
Definition told (r : Reader) : Prop :=
  ∃ mid, Forall (reading_event (id r)) mid ∧
    sent r = NetworkSteps.Connected (id r) :: mid ++
      match ended r with
      | Some m => if server_up r then [NetworkSteps.Disconnected (id r) m] else []
      | None => []
      end.

Lemma top_told now r : told r → told (top now r).
Proof. unfold top. by repeat case_match. Qed.
Lemma push_told e r : ended r = None → reading_event (id r) e → told r → told (push_event e r).
Proof.
  intros He Hr (mid & Hm & E). rewrite He in E. exists (mid ++ [e]). split; [by apply Forall_app; split; [|constructor]|].
  cbn. rewrite He, E, !app_nil_r. done.
Qed.
Lemma finish_told m r : ended r = None → told r → told (finish m r).
Proof.
  intros He (mid & Hm & E). rewrite He, app_nil_r in E. exists mid. unfold finish, send_event.
  destruct (server_up r) eqn:Eu; cbn; rewrite Eu, E; cbn; [|rewrite app_nil_r]; done.
Qed.
Lemma quiet_told r r' :
  id r' = id r → sent r' = sent r → ended r = None → ended r' = None → told r → told r'.
Proof. unfold told. intros -> -> -> ->. done. Qed.

Lemma wake_told now w r : told r → told (wake now w r).
Proof.
  intros H. unfold wake. destruct (ended r) eqn:He; [done|].
  destruct w as [| | | | |x|]; try (by apply (quiet_told r)); try (by apply finish_told).
  - case_match; [|done]. apply top_told. by apply (quiet_told r).
  - destruct x as [m| |e|]; cbn [on_next]; try (by apply finish_told).
    + assert (told (set_idle (heard now (idle r)) r)) by (by apply (quiet_told r)).
      case_match; [|by apply finish_told]. apply top_told, push_told; [done|right; by eexists|done].
    + apply top_told. by apply (quiet_told r).
  - case_match; [|done]. unfold on_deadline, lapsed. case_match.
    + case_match; [|by apply finish_told]. apply top_told. by apply (quiet_told r).
    + destruct (probing (idle r)).
      * apply finish_told; [done|]. by apply (quiet_told r).
      * assert (told (set_idle (mkIdle (keepalive (idle r)) true (now + timeout (keepalive (idle r)))) r)) by (by apply (quiet_told r)).
        case_match; [|by apply finish_told]. apply top_told, push_told; [done|by left|done].
Qed.

(** The state task is told of a connection's arrival first, then of its lines
    and pauses, and, once it is over and while there is somebody to tell, of
    its departure once and of nothing after it. *)
Theorem session_told c k t0 wakes : told (serve (start c k t0) wakes) ∧ id (serve (start c k t0) wakes) = c.
Proof.
  split.
  - assert (told (start c k t0)) as H by (exists []; split; [constructor|done]). revert H. generalize (start c k t0).
    induction wakes as [|[s w] wakes IH]; intros r H; [done|]. by apply IH, wake_told.
  - transitivity (id (start c k t0)); [|done]. generalize (start c k t0).
    induction wakes as [|[s w] wakes IH]; intros r0; [done|]. cbn. unfold serve in IH. rewrite IH.
    unfold wake, on_next, on_deadline, finish, send_event, top, lapsed. by repeat (case_match; simplify_eq; cbn).
Qed.

(** * A connection that registers and goes quiet *)

Definition ninety : Keepalive := mkKeepalive 90 45.
Definition hello : list (Z * Woken) := [(1, Next Unparseable); (2, WelcomeStored); (2, WelcomePermit); (2, WelcomeNotified)]%Z.

Lemma talking_not_dropped_witness :
  let r := serve (start 7 ninety 0) (hello ++ (5, Next Unparseable) :: [(95, DeadlineReached)])%Z in
  ended (wake 140 DeadlineReached r) = Some (lit "Ping timeout: 135 seconds") ∧ (5 + after ninety + timeout ninety ≤ 140)%Z.
Proof.
  split; [vm_compute; reflexivity|].
  apply (talking_not_dropped 7 ninety 0 hello 5 (Next Unparseable) [(95, DeadlineReached)]%Z 140 (lit "Ping timeout: 135 seconds")).
  - cbn. lia.
  - reflexivity.
  - cbn. lia.
  - vm_compute. reflexivity.
  - vm_compute. reflexivity.
  - vm_compute. reflexivity.
  - vm_compute. reflexivity.
Defined.

Lemma silence_ends_witness : is_Some (ended (silence 3 2 (serve (start 7 ninety 0) hello)).2).
Proof.
  pose proof (silence_ends 7 ninety 0 hello ltac:(cbn; lia) ltac:(cbn; lia) ltac:(cbn; lia)) as H. cbv zeta in H.
  change (last_time 0 hello) with 2%Z in H. destruct (silence 3 2 (serve (start 7 ninety 0) hello)) as [t r]. exact (proj1 H).
Defined.
