(* ===== verification/Socks.v ===== *)
(** The SOCKS5 listener in front of the built-in Tor ([ddirc-tor/src/socks.rs]).

    A connection is the bytes it will send before it closes and the bytes it
    has been sent. Tor itself is the answer to one question: was the host
    reached. How an IPv6 address is written is the standard library's and a
    parameter. *)
From S2P Require Import Prelude RustStr Transfer.

Definition VERSION : N := 5.
Definition NO_AUTH : N := 0.
Definition NO_ACCEPTABLE : N := 255.
Definition CMD_CONNECT : N := 1.
Definition ATYP_V4 : N := 1.
Definition ATYP_DOMAIN : N := 3.
Definition ATYP_V6 : N := 4.
Definition REP_OK : N := 0.
Definition REP_FAILED : N := 1.
Definition REP_UNREACHABLE : N := 4.
Definition REP_CMD_UNSUPPORTED : N := 7.
Definition REP_ATYP_UNSUPPORTED : N := 8.

(** * UTF-8 *)

Definition is_tail (b : N) : bool := (0x80 <=? b)%N && (b <=? 0xBF)%N.
(** Whether a code point is one, written in no more bytes than it takes. *)
Definition scalar (lo c : N) : bool := (lo <=? c)%N && (c <=? 0x10FFFF)%N && negb ((0xD800 <=? c)%N && (c <=? 0xDFFF)%N).

(** [String::from_utf8]. *)
Fixpoint from_utf8 (bytes : list N) : option str :=
  match bytes with
  | [] => Some []
  | a :: rest =>
      if (a <? 0x80)%N then s ← from_utf8 rest; Some (a :: s)
      else
        match rest with
        | b :: rest =>
            if (0xC0 <=? a)%N && (a <? 0xE0)%N && is_tail b then
              let c := ((a - 0xC0) * 64 + (b - 0x80))%N in
              if scalar 0x80 c then s ← from_utf8 rest; Some (c :: s) else None
            else
              match rest with
              | d :: rest =>
                  if (0xE0 <=? a)%N && (a <? 0xF0)%N && is_tail b && is_tail d then
                    let c := ((a - 0xE0) * 4096 + (b - 0x80) * 64 + (d - 0x80))%N in
                    if scalar 0x800 c then s ← from_utf8 rest; Some (c :: s) else None
                  else
                    match rest with
                    | e :: rest =>
                        if (0xF0 <=? a)%N && (a <? 0xF8)%N && is_tail b && is_tail d && is_tail e then
                          let c := ((a - 0xF0) * 262144 + (b - 0x80) * 4096 + (d - 0x80) * 64 + (e - 0x80))%N in
                          if scalar 0x10000 c then s ← from_utf8 rest; Some (c :: s) else None
                        else None
                    | [] => None
                    end
              | [] => None
              end
        | [] => None
        end
  end.

(** * The conversation *)

Record Socket := mkSocket { incoming : list N; outgoing : list N }.
Inductive IoError := UnexpectedEof | InvalidData (m : str).

Definition read_exact (n : nat) (s : Socket) : result (list N * Socket) IoError :=
  if Nat.leb n (length (incoming s)) then Ok (take n (incoming s), mkSocket (drop n (incoming s)) (outgoing s))
  else Err UnexpectedEof.
Definition write_all (b : list N) (s : Socket) : Socket := mkSocket (incoming s) (outgoing s ++ b).

Definition reply (code : N) (s : Socket) : Socket := write_all [VERSION; code; 0; ATYP_V4; 0; 0; 0; 0; 0; 0]%N s.

(** An error leaves the socket as it was last: it is returned with it, since
    what was written before stays written. *)
Definition greet (s : Socket) : result Socket (IoError * Socket) :=
  match read_exact 2 s with
  | Ok ([v; n], s) =>
      if negb (v =? VERSION)%N then Err (InvalidData (lit "not SOCKS5: version byte " ++ to_dec v), s)
      else
        match read_exact (N.to_nat n) s with
        | Ok (methods, s) =>
            if negb (existsb (N.eqb NO_AUTH) methods) then
              Err (InvalidData (lit "the client offered no authentication method this proxy accepts"),
                   write_all [VERSION; NO_ACCEPTABLE] s)
            else Ok (write_all [VERSION; NO_AUTH] s)
        | Err e => Err (e, s)
        end
  | Ok (_, s) => Err (UnexpectedEof, s)
  | Err e => Err (e, s)
  end.

Section Request.
Context (show_v6 : list N → str).

Definition show_v4 (o : list N) : str := join (lit ".") (map to_dec o).

Definition read_port (host : str) (s : Socket) : result (option (str * N) * Socket) (IoError * Socket) :=
  match read_exact 2 s with
  | Ok ([hi; lo], s) => Ok (Some (host, hi * 256 + lo)%N, s)
  | Ok (_, s) => Err (UnexpectedEof, s)
  | Err e => Err (e, s)
  end.

Definition request (s : Socket) : result (option (str * N) * Socket) (IoError * Socket) :=
  match read_exact 4 s with
  | Ok ([v; cmd; _; atyp], s) =>
      if negb (v =? VERSION)%N then Err (InvalidData (lit "the request did not repeat the SOCKS version"), s)
      else if negb (cmd =? CMD_CONNECT)%N then Ok (None, reply REP_CMD_UNSUPPORTED s)
      else if (atyp =? ATYP_V4)%N then
        match read_exact 4 s with Ok (o, s) => read_port (show_v4 o) s | Err e => Err (e, s) end
      else if (atyp =? ATYP_DOMAIN)%N then
        match read_exact 1 s with
        | Ok ([len], s) =>
            match read_exact (N.to_nat len) s with
            | Ok (name, s) =>
                match from_utf8 name with
                | Some name => read_port name s
                | None => Ok (None, reply REP_FAILED s)
                end
            | Err e => Err (e, s)
            end
        | Ok (_, s) => Err (UnexpectedEof, s)
        | Err e => Err (e, s)
        end
      else if (atyp =? ATYP_V6)%N then
        match read_exact 16 s with Ok (o, s) => read_port (show_v6 o) s | Err e => Err (e, s) end
      else Ok (None, reply REP_ATYP_UNSUPPORTED s)
  | Ok (_, s) => Err (UnexpectedEof, s)
  | Err e => Err (e, s)
  end.

(** What a connection came to: an error, a refusal, a host Tor could not reach,
    or a stream with what is left to copy. *)
Inductive Handled := Broken (e : IoError) | Refused | Unreachable (host : str) (port : N) | Connected (host : str) (port : N).

Definition handle (reached : str → N → bool) (s : Socket) : Handled * Socket :=
  match greet s with
  | Err (e, s) => (Broken e, s)
  | Ok s =>
      match request s with
      | Err (e, s) => (Broken e, s)
      | Ok (None, s) => (Refused, s)
      | Ok (Some (host, port), s) =>
          if reached host port then (Connected host port, reply REP_OK s)
          else (Unreachable host port, reply REP_UNREACHABLE s)
      end
  end.
End Request.

(** * UTF-8 is read as it is written *)

Definition is_char (c : char) : Prop := (c < 0xD800 ∨ 0xDFFF < c ∧ c <= 0x10FFFF)%N.

Ltac decide_bytes :=
  repeat match goal with
  | |- context [(?a <? ?b)%N] => first [rewrite (proj2 (N.ltb_lt a b)) by lia | rewrite (proj2 (N.ltb_ge a b)) by lia]
  | |- context [(?a <=? ?b)%N] => first [rewrite (proj2 (N.leb_le a b)) by lia | rewrite (proj2 (N.leb_gt a b)) by lia]
  end; cbn [andb negb].

Lemma from_utf8_char c bytes : is_char c → from_utf8 (utf8_char c ++ bytes) = (λ s, c :: s) <$> from_utf8 bytes.
Proof.
  intros Hc. unfold is_char in Hc. unfold utf8_char.
  destruct (N.ltb_spec c 0x80) as [H1|H1]; [cbn; rewrite (proj2 (N.ltb_lt _ _) H1); by destruct (from_utf8 bytes)|].
  pose proof (N.div_mod c 64 ltac:(lia)). pose proof (N.mod_lt c 64 ltac:(lia)).
  pose proof (N.div_mod (c / 64) 64 ltac:(lia)). pose proof (N.mod_lt (c / 64) 64 ltac:(lia)).
  pose proof (N.div_mod (c / 64 / 64) 64 ltac:(lia)). pose proof (N.mod_lt (c / 64 / 64) 64 ltac:(lia)).
  try (assert (c / 4096 = c / 64 / 64)%N as -> by (rewrite N.Div0.div_div; done)).
  try (assert (c / 262144 = c / 64 / 64 / 64)%N as -> by (rewrite !N.Div0.div_div; done)).
  set (q1 := (c / 64)%N) in *. set (r1 := (c mod 64)%N) in *. set (q2 := (q1 / 64)%N) in *. set (r2 := (q1 mod 64)%N) in *.
  set (q3 := (q2 / 64)%N) in *. set (r3 := (q2 mod 64)%N) in *. clearbody q1 r1 q2 r2 q3 r3.
  assert (∀ s : option str, (s ≫= λ s, Some (c :: s)) = (λ s, c :: s) <$> s) as Hb by (by intros []).
  destruct (N.ltb_spec c 0x800) as [H6|H6]; [|destruct (N.ltb_spec c 0x10000) as [H7|H7]]; cbn [app from_utf8];
    unfold is_tail, scalar; decide_bytes.
  - replace ((192 + q1 - 192) * 64 + (128 + r1 - 128))%N with c by lia. decide_bytes. apply Hb.
  - replace ((224 + q2 - 224) * 4096 + (128 + r2 - 128) * 64 + (128 + r1 - 128))%N with c by lia.
    destruct Hc; decide_bytes; apply Hb.
  - replace ((240 + q3 - 240) * 262144 + (128 + r3 - 128) * 4096 + (128 + r2 - 128) * 64 + (128 + r1 - 128))%N with c by lia.
    decide_bytes. apply Hb.
Qed.

Lemma from_utf8_encoded s : Forall is_char s → from_utf8 (as_bytes s) = Some s.
Proof.
  unfold as_bytes. induction 1 as [|c s Hc _ IH]; [done|]. cbn [map concat]. by rewrite from_utf8_char, IH.
Qed.

(** * A request is understood *)

(** What RFC 1928 has a client send to be connected to a name. *)
Definition hello (methods : list N) : list N := [5; N.of_nat (length methods)]%N ++ methods.
Definition connect_to (host : str) (port : N) : list N :=
  [5; 1; 0; 3; N.of_nat (length (as_bytes host))]%N ++ as_bytes host ++ [port / 256; port mod 256]%N.

Lemma read_exact_app a b out : read_exact (length a) (mkSocket (a ++ b) out) = Ok (a, mkSocket b out).
Proof.
  unfold read_exact. cbn [incoming outgoing]. rewrite length_app, (proj2 (Nat.leb_le _ _)) by lia.
  by rewrite take_app_length, drop_app_length.
Qed.

Lemma read_exact_n n a b out : n = length a → read_exact n (mkSocket (a ++ b) out) = Ok (a, mkSocket b out).
Proof. intros ->. apply read_exact_app. Qed.

Lemma greet_hello methods b out :
  NO_AUTH ∈ methods → greet (mkSocket (hello methods ++ b) out) = Ok (mkSocket b (out ++ [VERSION; NO_AUTH])).
Proof.
  intros Hm. unfold greet, hello. rewrite <- app_assoc.
  rewrite (read_exact_n 2 [5%N; N.of_nat (length methods)] (methods ++ b) out) by done. cbn [negb N.eqb VERSION Pos.eqb].
  rewrite Nat2N.id, read_exact_app. replace (existsb (N.eqb NO_AUTH) methods) with true; [done|].
  symmetry. apply existsb_elem. exists NO_AUTH. split; [done|]. apply N.eqb_refl.
Qed.

Section Requests.
Context (show_v6 : list N → str).

Lemma request_connect host port b out :
  Forall is_char host → (port < 65536)%N → length (as_bytes host) < 256 →
  request show_v6 (mkSocket (connect_to host port ++ b) out) = Ok (Some (host, port), mkSocket b out).
Proof.
  intros Hh Hp Hl. unfold request, connect_to.
  change (([5; 1; 0; 3; N.of_nat (length (as_bytes host))]%N ++ as_bytes host ++ [port / 256; port mod 256]%N) ++ b)
    with ([5; 1; 0; 3]%N ++ [N.of_nat (length (as_bytes host))] ++ (as_bytes host ++ [port / 256; port mod 256]%N) ++ b).
  rewrite (read_exact_n 4 [5; 1; 0; 3]%N) by done. change (negb (5 =? VERSION)%N) with false. change (negb (1 =? CMD_CONNECT)%N) with false.
  change (3 =? ATYP_V4)%N with false. change (3 =? ATYP_DOMAIN)%N with true. cbv iota.
  rewrite (read_exact_n 1 [N.of_nat (length (as_bytes host))]) by done. rewrite Nat2N.id, <- app_assoc, read_exact_app.
  rewrite from_utf8_encoded by done. unfold read_port.
  rewrite (read_exact_n 2 [port / 256; port mod 256]%N) by done. do 4 f_equal.
  pose proof (N.div_mod port 256 ltac:(lia)). lia.
Qed.

(** A client that asks as RFC 1928 has it for a name is connected to that name
    and that port and no other, or told that it could not be reached, and
    either way the name goes to Tor as it was sent: nothing here resolves it. *)
Theorem socks_connects reached methods host port b :
  NO_AUTH ∈ methods → Forall is_char host → (port < 65536)%N → length (as_bytes host) < 256 →
  handle show_v6 reached (mkSocket (hello methods ++ connect_to host port ++ b) []) =
    if reached host port
    then (Connected host port, mkSocket b ([5; 0] ++ [5; 0; 0; 1; 0; 0; 0; 0; 0; 0])%N)
    else (Unreachable host port, mkSocket b ([5; 0] ++ [5; 4; 0; 1; 0; 0; 0; 0; 0; 0])%N).
Proof.
  intros Hm Hh Hp Hl. unfold handle. rewrite greet_hello by done. rewrite request_connect by done.
  by destruct (reached host port).
Qed.

(** ** What is sent back *)

Lemma read_exact_out n s b s' : read_exact n s = Ok (b, s') → outgoing s' = outgoing s.
Proof. unfold read_exact. by case_match; intros [= _ <-]. Qed.

Lemma request_out s :
  match request show_v6 s with
  | Ok (Some _, s') | Err (_, s') => outgoing s' = outgoing s
  | Ok (None, s') => ∃ c, outgoing s' = outgoing s ++ [VERSION; c; 0; ATYP_V4; 0; 0; 0; 0; 0; 0]%N
  end.
Proof.
  assert (∀ host s0, outgoing s0 = outgoing s →
    match read_port host s0 with
    | Ok (Some _, s') | Err (_, s') => outgoing s' = outgoing s
    | Ok (None, s') => ∃ c, outgoing s' = outgoing s ++ [VERSION; c; 0; ATYP_V4; 0; 0; 0; 0; 0; 0]%N
    end) as Hp.
  { intros host s0 E0. unfold read_port. destruct (read_exact 2 s0) as [[b s']|e] eqn:E; [|done].
    apply read_exact_out in E. rewrite E0 in E. by destruct b as [|x [|y [|? ?]]]. }
  unfold request. destruct (read_exact 4 s) as [[b s1]|e] eqn:E1; [apply read_exact_out in E1|done].
  destruct b as [|v [|cmd [|x [|atyp [|? ?]]]]]; try done.
  destruct (negb (v =? VERSION)%N); [done|]. destruct (negb _); [eexists; cbn; by rewrite E1|].
  destruct (atyp =? ATYP_V4)%N.
  { destruct (read_exact 4 s1) as [[o s2]|e] eqn:E2; [|done]. apply read_exact_out in E2. apply Hp. congruence. }
  destruct (atyp =? ATYP_DOMAIN)%N.
  { destruct (read_exact 1 s1) as [[o s2]|e] eqn:E2; [apply read_exact_out in E2; rewrite E1 in E2|done].
    destruct o as [|len [|? ?]]; try done.
    destruct (read_exact (N.to_nat len) s2) as [[name s3]|e] eqn:E3; [apply read_exact_out in E3; rewrite E2 in E3|done].
    destruct (from_utf8 name); [by apply Hp|]. eexists. cbn. by rewrite E3. }
  destruct (atyp =? ATYP_V6)%N.
  { destruct (read_exact 16 s1) as [[o s2]|e] eqn:E2; [|done]. apply read_exact_out in E2. apply Hp. congruence. }
  eexists. cbn. by rewrite E1.
Qed.

(** Nothing but a choice of method and one reply is ever sent before Tor's own
    bytes, whatever a client sends: at most twelve bytes, and no host is given
    to Tor unless the method was agreed and the request read whole. *)
Theorem socks_says_little reached s h s' :
  outgoing s = [] → handle show_v6 reached s = (h, s') → length (outgoing s') ≤ 12.
Proof.
  intros Ho. unfold handle, greet.
  destruct (read_exact 2 s) as [[b s1]|e] eqn:E1; [apply read_exact_out in E1; rewrite Ho in E1|intros [= _ <-]; rewrite Ho; cbn; lia].
  assert (∀ e, (Broken e, s1) = (h, s') → length (outgoing s') ≤ 12) as Hb by (intros e [= _ <-]; rewrite E1; cbn; lia).
  destruct b as [|v [|n [|? ?]]]; try apply Hb. destruct (negb (v =? VERSION)%N); [apply Hb|].
  destruct (read_exact (N.to_nat n) s1) as [[ms s2]|e] eqn:E2; [apply read_exact_out in E2; rewrite E1 in E2|apply Hb].
  destruct (negb _); [intros [= _ <-]; cbn; rewrite E2; cbn; lia|].
  set (s3 := write_all [VERSION; NO_AUTH] s2). assert (outgoing s3 = [VERSION; NO_AUTH]) as E3 by (cbn; by rewrite E2).
  pose proof (request_out s3) as Hr. destruct (request show_v6 s3) as [[[[host port]|] s4]|[e s4]].
  - destruct (reached host port); intros [= _ <-]; cbn; rewrite Hr, E3; cbn; lia.
  - intros [= _ <-]. destruct Hr as [c ->]. rewrite E3. cbn. lia.
  - intros [= _ <-]. rewrite Hr, E3. cbn. lia.
Qed.
End Requests.

Lemma socks_connects_witness :
  handle (λ _, []) (λ _ _, true) (mkSocket (hello [0; 2]%N ++ connect_to (lit "irc.example") 6697 ++ [1; 2]%N) []) =
    (Connected (lit "irc.example") 6697, mkSocket [1; 2]%N ([5; 0] ++ [5; 0; 0; 1; 0; 0; 0; 0; 0; 0])%N).
Proof.
  apply (socks_connects (λ _, []) (λ _ _, true) [0; 2]%N (lit "irc.example") 6697 [1; 2]%N).
  - left.
  - repeat (apply Forall_cons; split; [left; reflexivity|]). constructor.
  - lia.
  - apply Nat.ltb_lt; vm_compute; reflexivity.
Defined.

Lemma socks_says_little_witness :
  length (outgoing (handle (λ _, []) (λ _ _, true) (mkSocket [5; 1; 9]%N [])).2) ≤ 12.
Proof.
  apply (socks_says_little (λ _, []) (λ _ _, true) (mkSocket [5; 1; 9]%N []) (handle (λ _, []) (λ _ _, true) (mkSocket [5; 1; 9]%N [])).1);
    reflexivity.
Defined.
