(* ===== verification/Probe.v ===== *)
(** Trying a configuration once and reporting on it: the "test connection" of
    an IRC network ([ddirc-core/src/conn/probe.rs]) and of an XMPP account
    ([ddirc-core/src/xmpp/probe.rs]).

    The first is a loop over what the server says, so a step function on it,
    with a failed send as an input ([broken]); the second is one login, whose
    result is an input. Clocks are inputs. What is proved is that a test says
    no more than a login does, and that what it finds out is what a real
    connection to the same server would. *)
From S2P Require Import Prelude RustStr Proto Format RateLimit Sasl SaslProps ISupport Session Offer Transfer Transfers Listing ServerConfig Diagnose Api Actor Connection ConnectionProps Upload Xmpp XmppLogin.
Import Proto.

Record ProbeReport := mkProbeReport {
  pr_nickname : str;
  pr_server : option str;
  pr_auth : AuthOutcome;
  pr_elapsed_ms : N;
}.

Definition TIMEOUT : N := 30.

Section Probe.
Context (base64 : str → str) (is_file : str → bool) (numeric : Response → N) (debug : Response → str).
Context (show_prefix : Prefix → str) (show_socks : Diagnose.SocksError → str) (causes : IrcError → list str).

(** * An IRC network *)

(** The locals of [attempt]; [said] is what went out. *)
Record Probing := mkProbing {
  negotiator : SaslNegotiator;
  auth : AuthOutcome;
  complaint : option str;
  said : list Command;
}.
Inductive Progress := Going (p : Probing) | Answered (r : result ProbeReport str) (said : list Command).

Definition describe_auth (o : SaslOutcome) (c : ServerConfig) : AuthOutcome :=
  match o with
  | Authenticated => Sasl
  | NotAttemptedBecause NoCredentials =>
      if is_some (nickserv_password c) then NickServFallback (lit "no SASL credentials configured") else Anonymous
  | NotAttemptedBecause Unsupported => NickServFallback (lit "server does not offer SASL")
  | Rejected reason => NickServFallback reason
  end.

Definition credentials (c : ServerConfig) : option Credentials :=
  account ← sasl_account c; password ← sasl_password c; Some (mkCredentials account password).

(** [send(..)?] for each command in turn. *)
Definition send_each (c : ServerConfig) (broken : option IrcError) (cmds : list Command) (p : Probing)
    (k : Probing → Progress) : Progress :=
  match cmds, broken with
  | [], _ => k p
  | _, Some e => Answered (Err (Diagnose.explain show_socks causes e c)) (said p)
  | _, None => k (mkProbing (negotiator p) (auth p) (complaint p) (said p ++ cmds))
  end.

(** Up to the loop. [dialled] is the network's answer to the attempt. *)
Definition begin (c : ServerConfig) (dialled : option IrcError) (broken : option IrcError) : Progress :=
  match validate is_file c with
  | Err e => Answered (Err (show_config_error e)) []
  | Ok _ =>
      match dialled with
      | Some e => Answered (Err (Diagnose.explain show_socks causes e c)) []
      | None =>
          let '(first, n) := start (Sasl.new (credentials c)) in
          send_each c broken
            ([first] ++ (match server_password c with Some p => [PASS p] | None => [] end)
             ++ [NICK (nickname c); USER (username c) (lit "0") (realname c)])
            (mkProbing n Anonymous None []) Going
      end
  end.

Inductive Heard := Said (m : Message) | Failed (e : IrcError) | Closed.

(** The negotiation, while it lasts. *)
Definition negotiate (c : ServerConfig) (broken : option IrcError) (m : Message) (p : Probing) (k : Probing → Progress) :
    Progress :=
  if is_finished (negotiator p) then k p
  else
    let '(step, n) := advance base64 m (negotiator p) in
    send_each c broken (to_send step) (mkProbing n (auth p) (complaint p) (said p)) (λ p,
      k (match outcome step with
         | Some o => mkProbing (negotiator p) (describe_auth o c) (complaint p) (said p)
         | None => p
         end)).

(** What a line means for the test; the farewell is sent if it can be. *)
Definition judge (c : ServerConfig) (broken : option IrcError) (elapsed : N) (m : Message) (p : Probing) : Progress :=
  match command m with
  | Reply RPL_WELCOME args =>
      Answered
        (Ok (mkProbeReport (default (nickname c) (head args)) (show_prefix <$> prefix m) (auth p) (elapsed mod 2 ^ 64)%N))
        (said p ++ match broken with None => [QUIT (Some (lit "ddIRC connection test"))] | Some _ => [] end)
  | ERROR reason => Answered (Err (ServerConfig.host c ++ lit ": " ++ strip reason)) (said p)
  | Reply response args =>
      if is_error_numeric numeric response
      then Going (mkProbing (negotiator p) (auth p) (Some (strip (default (debug response) (last args)))) (said p))
      else Going p
  | _ => Going p
  end.

Definition listen (c : ServerConfig) (broken : option IrcError) (elapsed : N) (h : Heard) (p : Probing) : Progress :=
  match h with
  | Said m => negotiate c broken m p (judge c broken elapsed m)
  | Failed e => Answered (Err (default (Diagnose.explain show_socks causes e c) (complaint p))) (said p)
  | Closed =>
      Answered (Err (default (at_port (ServerConfig.host c) (cf_port c) ++ lit " closed the connection before registration finished.")
                             (complaint p))) (said p)
  end.

(** The loop. *)
Fixpoint attempt (c : ServerConfig) (heard : list (option IrcError * N * Heard)) (x : Progress) : Progress :=
  match x, heard with
  | Going p, (broken, elapsed, h) :: heard => attempt c heard (listen c broken elapsed h p)
  | _, _ => x
  end.

(** [probe]: a test that has no answer when its time is over gets one. *)
Definition probe (c : ServerConfig) (dialled broken : option IrcError) (heard : list (option IrcError * N * Heard)) :
    result ProbeReport str * list Command :=
  match attempt c heard (begin c dialled broken) with
  | Answered r said => (r, said)
  | Going p =>
      (Err (at_port (ServerConfig.host c) (cf_port c) ++ lit " did not finish registering within " ++ to_dec TIMEOUT ++
            lit " seconds. The server accepted the connection but never completed the handshake."), said p)
  end.

(** * An XMPP account *)

Definition XMPP_TIMEOUT : N := 60.

Section Xmpp.
Context (parse_jid : str → option Jid) (jid_error : str → str).

Definition show_error (c : XmppConfig) (e : XmppConfigError) : str :=
  match e with
  | InvalidJid => lit "the account address must look like name@example.org: " ++ jid_error (trim (xc_jid c))
  | NoLocalPart => lit "an XMPP account address needs a name before the @, as in name@example.org"
  | EmptyPassword => lit "the password must not be empty"
  | XmppEmptyHost => lit "the server name must not be empty when one is given"
  | PortZero => lit "the server port must not be 0"
  | StartTlsPort =>
      lit "port 5222 is where XMPP servers start in plaintext and upgrade with STARTTLS; ddIRC requires TLS " ++
      lit "from the first byte. Use 5223, or the port your server offers direct TLS on."
  | InvalidRoom room =>
      lit "'" ++ room ++ lit "' is not a room address; it must look like room@conference.example.org"
  | Common e => show_config_error e
  end.

(** What the login gave: an error, or nothing of interest. *)
Definition xmpp_attempt (c : XmppConfig) (connector : option str) (elapsed : N) (login : result unit LoginError) :
    result ProbeReport str :=
  match connector, bare_jid parse_jid c with
  | Some e, _ => Err e
  | None, Err e => Err (show_error c e)
  | None, Ok account =>
      match dial_host parse_jid c with
      | Err e => Err (show_error c e)
      | Ok server =>
          match login with
          | Err e => Err (XmppLogin.message (XmppLogin.diagnose server e))
          | Ok _ => Ok (mkProbeReport (Xmpp.show account) (Some (domain account)) Sasl (N.min elapsed (2 ^ 64 - 1)))
          end
      end
  end.

Definition xmpp_probe (c : XmppConfig) (connector : option str) (elapsed : N) (login : option (result unit LoginError)) :
    result ProbeReport str :=
  match validate_xmpp parse_jid is_file c with
  | Err e => Err (show_error c e)
  | Ok _ =>
      match login with
      | Some login => xmpp_attempt c connector elapsed login
      | None =>
          Err (match dial_host parse_jid c with Ok h => h | Err _ => [] end ++ lit " did not finish logging in within " ++ to_dec XMPP_TIMEOUT ++
               lit " seconds. The server may be down, or slow to reach through the proxy.")
      end
  end.
End Xmpp.

(** * What a test says *)

(** A line of a login: the negotiation, the configured name and server password,
    and goodbye. There is nothing here that joins, talks or identifies. *)
Definition harmless (c : ServerConfig) (cmd : Command) : Prop :=
  match cmd with
  | CAP _ _ _ _ | AUTHENTICATE _ => True
  | PASS p => server_password c = Some p
  | NICK n => n = nickname c
  | USER u _ r => u = username c ∧ r = realname c
  | QUIT m => m = Some (lit "ddIRC connection test")
  | _ => False
  end.

Definition negotiates (cmd : Command) : Prop := match cmd with CAP _ _ _ _ | AUTHENTICATE _ => True | _ => False end.

Lemma encode_negotiates a p : Forall negotiates (encode_plain base64 a p).
Proof.
  apply Forall_forall. intros x [y ->]%encode_plain_authenticates. done.
Qed.

Lemma advance_negotiates m n : Forall negotiates (to_send (advance base64 m n).1).
Proof.
  unfold advance. case_decide; [constructor|].
  destruct (command m); try solve [constructor];
    unfold Sasl.on_cap, Sasl.on_authenticate, Sasl.on_response, request_sasl_or_finish, finish_with;
    repeat case_match; cbn -[encode_plain]; first [apply encode_negotiates|repeat constructor].
Qed.

Lemma negotiates_harmless c cmds : Forall negotiates cmds → Forall (harmless c) cmds.
Proof. intros H. eapply Forall_impl; [exact H|]. by intros []. Qed.

(** The probe has said only harmless things, and its answer satisfies [Q]. *)
Definition so_far (c : ServerConfig) (Q : result ProbeReport str → Prop) (x : Progress) : Prop :=
  match x with
  | Going p => Forall (harmless c) (said p)
  | Answered r said => Forall (harmless c) said ∧ Q r
  end.

Lemma send_each_so_far c Q broken cmds p k :
  Forall (harmless c) cmds → Forall (harmless c) (said p) → (∀ e, Q (Err e)) →
  (∀ p', Forall (harmless c) (said p') → so_far c Q (k p')) → so_far c Q (send_each c broken cmds p k).
Proof.
  intros Hc Hp HQ Hk. unfold send_each. destruct cmds, broken; simpl; auto; apply Hk; simpl; apply Forall_app; auto.
Qed.

(** What a report says comes from a welcome that was heard. *)
Definition welcomed (c : ServerConfig) (heard : list (option IrcError * N * Heard)) (r : result ProbeReport str) : Prop :=
  match r with
  | Err _ => True
  | Ok rep =>
      ∃ broken elapsed m args, (broken, elapsed, Said m) ∈ heard ∧ command m = Reply RPL_WELCOME args ∧
        pr_nickname rep = default (nickname c) (head args) ∧ pr_server rep = show_prefix <$> prefix m
  end.

Lemma judge_so_far c broken elapsed m p :
  Forall (harmless c) (said p) → so_far c (welcomed c [(broken, elapsed, Said m)]) (judge c broken elapsed m p).
Proof.
  intros Hp. unfold judge. destruct (command m) eqn:E; try exact Hp; [split; [exact Hp|exact I]|].
  destruct response; try (destruct (is_error_numeric numeric _); exact Hp).
  split; [apply Forall_app; split; [done|destruct broken; repeat constructor]|].
  exists broken, elapsed, m, args. split; [by left|done].
Qed.

Lemma listen_so_far c broken elapsed h p :
  Forall (harmless c) (said p) → so_far c (welcomed c [(broken, elapsed, h)]) (listen c broken elapsed h p).
Proof.
  intros Hp. destruct h as [m|e|]; simpl; [|done..].
  unfold negotiate. case_match; [by apply judge_so_far|].
  destruct (advance base64 m (negotiator p)) as [step n] eqn:E.
  apply send_each_so_far; [|done..|].
  - apply negotiates_harmless. rewrite <- (f_equal fst E : _ = step). apply advance_negotiates.
  - intros p' Hp'. by destruct (outcome step); apply judge_so_far.
Qed.

Lemma welcomed_mono c l l' r : l ⊆ l' → welcomed c l r → welcomed c l' r.
Proof. destruct r; [|done]. intros ? (b & e & m & args & ? & ?). exists b, e, m, args. auto. Qed.

Lemma attempt_so_far c heard x l :
  so_far c (welcomed c l) x → so_far c (welcomed c (l ++ heard)) (attempt c heard x).
Proof.
  revert x l. induction heard as [|[[broken elapsed] h] heard IH]; intros x l Hx.
  - rewrite app_nil_r. by destruct x.
  - destruct x as [p|r s]; simpl.
    + rewrite (cons_middle _ l), app_assoc. apply IH.
      pose proof (listen_so_far c broken elapsed h p Hx) as Hl.
      destruct (listen _ _ _ _ _) as [|r s]; simpl in *; [done|].
      destruct Hl as [? Hr]. split; [done|]. revert Hr. apply welcomed_mono. set_solver.
    + destruct Hx as [? Hr]. split; [done|]. revert Hr. apply welcomed_mono. set_solver.
Qed.

Lemma begin_so_far c dialled broken : so_far c (welcomed c []) (begin c dialled broken).
Proof.
  unfold begin. destruct (validate is_file c); [|by repeat constructor].
  destruct dialled; [by repeat constructor|].
  apply send_each_so_far; [|by constructor|done|done].
  apply Forall_app. split; [repeat constructor|]. apply Forall_app. split; [|repeat constructor].
  destruct (server_password c) eqn:E; repeat constructor. done.
Qed.

(** A test leaves no trace but a login: whatever the server says, it sends the
    negotiation, the configured name and server password, and a goodbye;
    nothing if the configuration is refused; and it reports success only after
    a welcome, with the name and server of that welcome. *)
Theorem probe_harmless c dialled broken heard :
  let '(r, said) := probe c dialled broken heard in
  Forall (harmless c) said ∧ welcomed c heard r ∧ (validate is_file c ≠ Ok () → said = [] ∧ ∃ e, r = Err e).
Proof.
  pose proof (attempt_so_far c heard _ [] (begin_so_far c dialled broken)) as H. simpl in H.
  unfold probe. destruct (attempt c heard (begin c dialled broken)) as [p|r s] eqn:E; simpl in *.
  - split; [done|]. split; [done|]. intros Hv. exfalso. revert E. unfold begin.
    destruct (validate is_file c) as [[]|]; [done|]. by destruct heard.
  - destruct H as [? ?]. split; [done|]. split; [done|]. intros Hv. revert E. unfold begin.
    destruct (validate is_file c) as [[]|]; [done|]. destruct heard; intros [= <- <-]; eauto.
Qed.

(** * What a test finds out *)

Section Foretells.
Context {IpAddr : Type} (v4 : N → IpAddr) (parse_ip : str → option IpAddr).
Context (to_lowercase : char → str) (is_alphanumeric : char → bool) (source_nickname : Message → option str).
Abbreviation Conn := (@Conn IpAddr).
Abbreviation on_line := (on_line v4 parse_ip to_lowercase is_alphanumeric source_nickname numeric debug).
Abbreviation on_heard := (on_heard v4 parse_ip to_lowercase is_alphanumeric source_nickname numeric debug base64).
Abbreviation round := (round v4 parse_ip to_lowercase is_alphanumeric source_nickname numeric debug base64).

(** A real connection that hears these lines, one after another; the times are
    those of the loop's head and of the line. *)
Fixpoint hears (lines : list (Instant * Instant * Line)) (c : Conn) : option Conn :=
  match lines with
  | [] => Some c
  | (head, now, l) :: lines =>
      match round head (Connection.Heard now (Some (inl l))) None c with
      | Connection.Going c => hears lines c
      | _ => None
      end
  end.

(** A connection and a test of the same configuration, equally far along. *)
Definition alike (cfg : ServerConfig) (c : Conn) (p : Probing) : Prop :=
  config (actor c) = cfg ∧ sasl c = negotiator p ∧ Connection.auth c = auth p.

Lemma on_line_sasl now l c c' :
  on_line now l c = Connection.Going c' → sasl c' = sasl c ∧ Connection.auth c' = Connection.auth c.
Proof.
  unfold Connection.on_line, foot. destruct (_ && _); [|destruct (admit_line _ _) as [[] r]];
    repeat case_match; by intros [= <-].
Qed.

Lemma on_heard_sasl now l c c' :
  on_heard now (Some (inl l)) None c = Connection.Going c' →
  if is_finished (sasl c) then sasl c' = sasl c ∧ Connection.auth c' = Connection.auth c
  else
    let '(step, n) := advance base64 (Actor.message l) (sasl c) in
    sasl c' = n ∧
    Connection.auth c' = match outcome step with Some o => auth_outcome (config (actor c)) o | None => Connection.auth c end.
Proof.
  unfold Connection.on_heard.
  set (c1 := match command (Actor.message l) with ERROR _ => _ | _ => _ end).
  assert (sasl c1 = sasl c ∧ Connection.auth c1 = Connection.auth c ∧ actor c1 = actor c) as (<- & <- & <-)
    by by (unfold c1; destruct (command (Actor.message l))).
  destruct (is_finished (sasl c1)); [apply on_line_sasl|].
  destruct (advance base64 (Actor.message l) (sasl c1)) as [step n].
  unfold Connection.negotiate, send_all. cbn [fst snd].
  destruct (map line (to_send step)); intros [-> ->]%on_line_sasl; by destruct (outcome step).
Qed.

(** The loop's head only asks how long to wait. *)
Lemma round_heard head now l c c' :
  round head (Connection.Heard now (Some (inl l))) None c = Connection.Going c' →
  ∃ c0, actor c0 = actor c ∧ sasl c0 = sasl c ∧ Connection.auth c0 = Connection.auth c ∧
    on_heard now (Some (inl l)) None c0 = Connection.Going c'.
Proof.
  unfold Connection.round. destruct (is_empty _); [by exists c|].
  destruct (wait_time _ _) as [[w|] s]; [|done]. by exists (set_send s c).
Qed.

(** What the answer to a line is worth: an answer's authentication is the real
    one, and otherwise the two stay alike. *)
Definition is_welcome (m : Message) : Prop := ∃ args, command m = Reply RPL_WELCOME args.
Definition agrees (cfg : ServerConfig) (m : Message) (c : Conn) (x : Progress) : Prop :=
  match x with
  | Going p => alike cfg c p
  | Answered (Ok rep) _ => is_welcome m ∧ pr_auth rep = Connection.auth c
  | Answered (Err _) _ => True
  end.

Lemma judge_agrees cfg c elapsed m p : alike cfg c p → agrees cfg m c (judge cfg None elapsed m p).
Proof.
  intros (H1 & H2 & H3). unfold judge, agrees, is_welcome. destruct (command m); try done.
  destruct response; try (destruct (is_error_numeric numeric _); by split_and!). split; [by eexists|done].
Qed.

Lemma listen_agrees cfg c c' p head now elapsed l :
  alike cfg c p → round head (Connection.Heard now (Some (inl l))) None c = Connection.Going c' →
  agrees cfg (Actor.message l) c' (listen cfg None elapsed (Said (Actor.message l)) p).
Proof.
  intros (Hc & Hs & Ha) Hr.
  assert (config (actor c') = cfg) as Hc'.
  { rewrite <- Hc.
    pose proof (round_keeps v4 parse_ip to_lowercase is_alphanumeric source_nickname numeric debug base64 head
      (Connection.Heard now (Some (inl l))) None c) as Hk. rewrite Hr in Hk. by destruct Hk. }
  apply round_heard in Hr as (c0 & E0 & E1 & E2 & Hr). apply on_heard_sasl in Hr.
  rewrite E0, E1, E2, Hs, Ha, Hc in Hr. unfold listen, negotiate.
  destruct (is_finished (negotiator p)) eqn:Hf; [by apply judge_agrees|].
  destruct (advance base64 (Actor.message l) (negotiator p)) as [step n]. destruct Hr as [Hs' Ha'].
  unfold send_each. destruct (to_send step), (outcome step); apply judge_agrees; by split_and!.
Qed.

Lemma hears_agrees cfg lines c c' p elapsed :
  alike cfg c p → hears lines c = Some c' →
  match attempt cfg (map (λ x, (None, elapsed, Said (Actor.message x.2))) lines) (Going p) with
  | Answered (Ok rep) _ => ∃ before x after mid, lines = before ++ x :: after ∧ is_welcome (Actor.message x.2) ∧
      hears (before ++ [x]) c = Some mid ∧ pr_auth rep = Connection.auth mid
  | Answered (Err _) _ => True
  | Going p' => alike cfg c' p'
  end.
Proof.
  revert c p. induction lines as [|[[head now] l] lines IH]; intros c p Hal Hh; cbn [map hears attempt fst snd] in *; [by simplify_eq|].
  destruct (round head _ None c) as [c1| |] eqn:Hr; try done.
  pose proof (listen_agrees cfg c c1 p head now elapsed l Hal Hr) as Hag.
  destruct (listen cfg None elapsed (Said (Actor.message l)) p) as [p1|[rep|e] s]; cbn in Hag.
  - specialize (IH c1 p1 Hag Hh). destruct (attempt _ _ _) as [|[rep|e] s]; [exact IH| |done].
    destruct IH as (before & x & after & mid & -> & Hw & Hb & Ha). exists ((head, now, l) :: before), x, after, mid.
    split_and!; [done|done| |done]. cbn. by rewrite Hr.
  - replace (attempt cfg _ (Answered (Ok rep) s)) with (Answered (Ok rep) s) by by destruct lines.
    destruct Hag as [Hw Ha]. exists [], (head, now, l), lines, c1. split_and!; [done|done| |done]. cbn. by rewrite Hr.
  - replace (attempt cfg _ (Answered (Err e) s)) with (Answered (@Err ProbeReport _ e) s) by by destruct lines. done.
Qed.

(** C21: A test tells the truth about a login: give the same lines to a test and to
    a real connection with the same configuration, and the authentication the
    test reports is the one the connection has once it has heard the welcome. *)
Theorem probe_foretells (a : @Actor IpAddr) (r : ReceiveLimiter) (now : Instant) (c c' : Conn)
    (lines : list (Instant * Instant * Line)) (elapsed : N) (rep : ProbeReport) (told : list Command) :
  open_conn now None a r = Connection.Going c → hears lines c = Some c' →
  probe (config a) None None (map (λ x, (None, elapsed, Said (Actor.message x.2))) lines) = (Ok rep, told) →
  ∃ before x after mid, lines = before ++ x :: after ∧ is_welcome (Actor.message x.2) ∧
    hears (before ++ [x]) c = Some mid ∧ pr_auth rep = Connection.auth mid.
Proof.
  intros Ho Hh. unfold probe, begin. destruct (validate is_file (config a)); [|by destruct lines].
  destruct (start (Sasl.new (credentials (config a)))) as [first n] eqn:Es.
  assert (alike (config a) c (mkProbing n Anonymous None
    ([first] ++ (match server_password (config a) with Some p => [PASS p] | None => [] end)
     ++ [NICK (nickname (config a)); USER (username (config a)) (lit "0") (realname (config a))]))) as Hal.
  { pose proof (open_keeps now None a r) as Hk. revert Ho Hk.
    unfold open_conn. destruct (new_send now); [|done].
    destruct (keeps_status Registering None a a (keeps_refl a)) as [Ecfg _]. cbv zeta. rewrite Ecfg.
    replace (sasl_credentials (config a)) with (credentials (config a))
      by (unfold credentials, sasl_credentials; by destruct (sasl_account _), (sasl_password _)).
    rewrite Es. intros [= <-] [Hk _]. done. }
  pose proof (hears_agrees (config a) lines c c' _ elapsed Hal Hh) as H.
  unfold send_each. cbn [app]. cbn [app] in H. cbn [said]. destruct (attempt _ _ _) as [|[rep'|e] s]; [done| |done].
  intros [= <- <-]. exact H.
Qed.
End Foretells.
End Probe.

(** ** A test run by hand *)

Definition pw_cap : Line := line (CAP (Some (lit "*")) CapLS None (Some (lit "multi-prefix"))).
Definition pw_ack : Line := line (CAP (Some (lit "*")) CapNAK None (Some (lit "multi-prefix"))).
Definition pw_lines : list (Instant * Instant * Line) := [(0%N, 0%N, pw_cap); (0%N, 0%N, pw_ack); (0%N, 0%N, welcome)].
Definition pw_actor : @Actor N := new_actor cw_config.
Definition pw_recv : ReceiveLimiter := default (mkReceive (mkBucket (f64_of 0) (f64_of 0) (f64_of 0) 0) 0) (new_receive 0).
Definition pw_conn (o : Outcome) : @Conn N :=
  match o with Connection.Going c => c | _ => mkConn pw_actor pw_recv (default (bucket pw_recv) (new_send 0)) (Sasl.new None) Anonymous None [] end.
Definition pw_opened : @Conn N := pw_conn (open_conn 0 None pw_actor pw_recv).
Abbreviation pw_hears := (hears (λ s, s) (λ _, 0%N) (λ _, []) (λ n : N, n) (λ _, None) cw_lower cw_alnum cw_source).
Abbreviation pw_probe := (probe (λ s, s) (λ _, true) (λ _, 0%N) (λ _, []) (λ _, []) (λ _, []) (λ _, [])).
Definition pw_end : @Conn N := default pw_opened (pw_hears pw_lines pw_opened).

Lemma probe_foretells_witness :
  ∃ rep told, pw_probe cw_config None None (map (λ x, (None, 5%N, Said (Actor.message x.2))) pw_lines) = (Ok rep, told) ∧
    ∃ before x after mid, pw_lines = before ++ x :: after ∧ is_welcome (Actor.message x.2) ∧
      pw_hears (before ++ [x]) pw_opened = Some mid ∧ pr_auth rep = Connection.auth mid.
Proof.
  eexists _, _. split; [vm_compute; reflexivity|].
  eapply (probe_foretells (λ s, s) (λ _, true) (λ _, 0%N) (λ _, []) (λ _, []) (λ _, []) (λ _, []) (λ n : N, n) (λ _, None)
    cw_lower cw_alnum cw_source pw_actor pw_recv 0 pw_opened pw_end pw_lines 5).
  - vm_compute. reflexivity.
  - vm_compute. reflexivity.
  - vm_compute. reflexivity.
Defined.
