(* ===== verification/Bridge.v ===== *)
(** The boundary to the application: the data that crosses it, in both
    directions ([ddirc-bridge/src/api/types.rs]).

    The application has types of its own, one for each of the core's; [of_]
    functions convert what the core reports, [core_] functions what the
    application asks for. A secret is its string. Text of addresses is the
    standard library's and a parameter ([show_ip]). *)
From S2P Require Import Prelude RustStr Format Reply Media MediaStrip Offer Transfer Room Contacts Listing ServerConfig Upload Xmpp Api Probe.

(** * The application's types *)

Record DartStyle := mkDartStyle {
  d_bold : bool; d_italic : bool; d_underline : bool; d_strikethrough : bool; d_monospace : bool; d_inverse : bool;
  d_fg : option N; d_bg : option N }.
Record DartSpan := mkDartSpan { d_text : str; d_style : DartStyle }.

Inductive DartStatus :=
  | DDisconnected | DConnecting | DRegistering | DConnected | DReconnecting (retry_in_secs attempt : N).
Inductive DartAuth := DSasl | DNickServFallback (reason : str) | DAnonymous.
Record DartMember := mkDartMember { dm_nick : str; dm_prefix : option str; dm_away : bool; dm_sort_key : str }.
Record DartListing := mkDartListing { dl_name : str; dl_users : N; dl_topic : str }.
Record DartWhois := mkDartWhois {
  dw_nick : str; dw_found : bool; dw_user : option str; dw_host : option str; dw_realname : option str;
  dw_server : option str; dw_server_info : option str; dw_account : option str; dw_channels : list str;
  dw_idle_secs : option N; dw_signon_secs : option N; dw_away : option str; dw_operator : bool; dw_secure : bool }.
Inductive DartTarget := DChannel (name : str) | DDirect (nick : str).
Inductive DartAvailability := DOffline | DAvailable | DAway | DDnd | DExtendedAway.
Inductive DartSubscription := DUnlinked | DTo | DFrom | DBoth.
Record DartContact := mkDartContact {
  dc_jid : str; dc_name : option str; dc_subscription : DartSubscription; dc_asked : bool;
  dc_availability : DartAvailability; dc_status : str }.
Record DartReply := mkDartReply { dr_msgid : option str; dr_nick : str; dr_excerpt : str }.
Record DartMessage := mkDartMessage {
  dg_target : DartTarget; dg_sender : str; dg_sender_prefix : option str; dg_spans : list DartSpan; dg_is_self : bool;
  dg_is_mention : bool; dg_is_action : bool; dg_is_notice : bool; dg_msgid : option str; dg_server_time_ms : option Z;
  dg_reply_to : option DartReply }.
Record DartOffer := mkDartOffer {
  do_filename : str; do_host : option str; do_port : option N; do_size : option N; do_token : option N }.

Inductive DartEvent :=
  | DStatus (status : DartStatus) (detail : option str)
  | DRegistered (nick : str) (network : option str) (auth : DartAuth)
  | DNetworkNamed (network : str)
  | DMessage (message : DartMessage)
  | DJoined (channel nick : str) (is_self : bool)
  | DParted (channel nick : str) (is_self : bool) (reason : option str)
  | DQuit (channel nick : str) (reason : option str)
  | DNickChanged (channel old new : str) (is_self : bool)
  | DTopicChanged (channel topic : str) (set_by : option str)
  | DMemberList (channel : str) (members : list DartMember)
  | DMemberChanged (channel previous : str) (member : option DartMember)
  | DModeChanged (channel : str) (by_ : option str) (affected : list str)
  | DMessagesDropped (channel : option str) (count : N)
  | DFileOffered (id : N) (channel from : str) (offer : DartOffer)
  | DFileTransferStarted (id : N) (channel filename : str) (incoming : bool) (total : option N)
  | DFileTransferProgress (id transferred : N)
  | DFileTransferEnded (id : N) (channel filename : str) (path error : option str)
  | DChannelList (channels : list DartListing) (done_ truncated : bool)
  | DWhois (info : DartWhois)
  | DContact (contact : DartContact)
  | DContactRemoved (jid : str)
  | DSubscriptionRequest (jid : str)
  | DMessageEdited (target : DartTarget) (msgid sender : str) (message : DartMessage)
  | DMessageRetracted (target : DartTarget) (msgid sender : str)
  | DUploadAvailable (max_bytes : option N)
  | DError (message : str) (fatal : bool).

Record DartProbe := mkDartProbe { dp_nickname : str; dp_server : option str; dp_auth : DartAuth; dp_elapsed_ms : N }.

Record DartProxy := mkDartProxy { dx_host : str; dx_port : N; dx_username : option str; dx_password : option str }.
Record DartServerConfig := mkDartServerConfig {
  ds_host : str; ds_port : N; ds_nickname : str; ds_alt_nicks : list str; ds_username : option str;
  ds_realname : option str; ds_channels : list str; ds_sasl_account : option str; ds_sasl_password : option str;
  ds_nickserv_password : option str; ds_server_password : option str; ds_proxy : option DartProxy }.
Record DartXmppConfig := mkDartXmppConfig {
  dj_jid : str; dj_password : str; dj_host : option str; dj_port : option N; dj_rooms : list str;
  dj_nickname : option str; dj_proxy : option DartProxy }.

Record DartRemoved := mkDartRemoved { drm_what : str; drm_bytes : N }.
Inductive CleanOutcome :=
  | Cleaned (bytes : list N) (kind : str) (removed : list DartRemoved)
  | AlreadyClean (kind : str)
  | NotAnImage
  | MalformedImage (detail : str).

(** * From the core *)

Definition of_style (s : SpanStyle) : DartStyle :=
  mkDartStyle (bold s) (italic s) (underline s) (strikethrough s) (monospace s) (inverse s) (fg s) (bg s).
Definition of_span (s : TextSpan) : DartSpan := mkDartSpan (text s) (of_style (style s)).
Definition of_status (s : ConnectionStatus) : DartStatus :=
  match s with
  | Disconnected => DDisconnected
  | Connecting => DConnecting
  | Registering => DRegistering
  | Connected => DConnected
  | Reconnecting retry_in_secs attempt => DReconnecting retry_in_secs attempt
  end.
Definition of_auth (a : AuthOutcome) : DartAuth :=
  match a with Sasl => DSasl | NickServFallback reason => DNickServFallback reason | Anonymous => DAnonymous end.
Definition of_member (m : MemberView) : DartMember := mkDartMember (v_nick m) (v_prefix m) (v_away m) (v_sort_key m).
Definition of_listing (l : ChannelListing) : DartListing := mkDartListing (l_name l) (users l) (l_topic l).
Definition of_whois (w : WhoisInfo) : DartWhois :=
  mkDartWhois (wi_nick w) (wi_found w) (wi_user w) (wi_host w) (wi_realname w) (wi_server w) (wi_server_info w)
    (wi_account w) (wi_channels w) (wi_idle_secs w) (wi_signon_secs w) (wi_away w) (wi_operator w) (wi_secure w).
Definition of_target (t : Target) : DartTarget := match t with ToChannel name => DChannel name | ToDirect nick => DDirect nick end.
Definition of_availability (a : Availability) : DartAvailability :=
  match a with
  | Offline => DOffline | Available => DAvailable | Away => DAway | Dnd => DDnd | ExtendedAway => DExtendedAway
  end.
Definition of_subscription (s : Subscription) : DartSubscription :=
  match s with SubNone => DUnlinked | SubTo => DTo | SubFrom => DFrom | SubBoth => DBoth end.
Definition of_contact (c : ContactView) : DartContact :=
  mkDartContact (cv_jid c) (cv_name c) (of_subscription (cv_subscription c)) (cv_asked c)
    (of_availability (cv_availability c)) (cv_status c).
Definition of_reply (r : ReplyRef) : DartReply := mkDartReply (Reply.msgid r) (Reply.nick r) (excerpt_of r).
Definition of_message (m : ChatMessage) : DartMessage :=
  mkDartMessage (of_target (cm_target m)) (cm_sender m) (cm_sender_prefix m) (map of_span (cm_spans m)) (cm_is_self m)
    (cm_is_mention m) (cm_is_action m) (cm_is_notice m) (cm_msgid m) (cm_server_time_ms m) (of_reply <$> cm_reply_to m).
Definition of_probe (r : ProbeReport) : DartProbe :=
  mkDartProbe (pr_nickname r) (pr_server r) (of_auth (pr_auth r)) (pr_elapsed_ms r).

Section Addresses.
Context {IpAddr : Type} (show_ip : IpAddr → str).

Definition of_offer (o : DccOffer IpAddr) : DartOffer :=
  mkDartOffer (filename o) (show_ip <$> addr o) (port o) (size o) (token o).

Definition of_event (e : IrcEvent IpAddr) : DartEvent :=
  match e with
  | Status s detail => DStatus (of_status s) detail
  | Registered nick network auth => DRegistered nick network (of_auth auth)
  | NetworkNamed network => DNetworkNamed network
  | Message m => DMessage (of_message m)
  | Joined channel nick is_self => DJoined channel nick is_self
  | Parted channel nick is_self reason => DParted channel nick is_self reason
  | Quit_ channel nick reason => DQuit channel nick reason
  | NickChanged channel old new is_self => DNickChanged channel old new is_self
  | TopicChanged channel topic set_by => DTopicChanged channel topic set_by
  | MemberList channel members => DMemberList channel (map of_member members)
  | MemberChanged channel previous member => DMemberChanged channel previous (of_member <$> member)
  | ModeChanged channel by_ affected => DModeChanged channel by_ affected
  | MessagesDropped channel count => DMessagesDropped channel count
  | FileOffered id channel from offer => DFileOffered id channel from (of_offer offer)
  | FileTransferStarted id channel filename incoming total => DFileTransferStarted id channel filename incoming total
  | FileTransferProgress id transferred => DFileTransferProgress id transferred
  | FileTransferEnded id channel filename path error => DFileTransferEnded id channel filename path error
  | ChannelList channels done_ truncated => DChannelList (map of_listing channels) done_ truncated
  | WhoisEvent info => DWhois (of_whois info)
  | Contact_ view => DContact (of_contact view)
  | ContactRemoved_ jid => DContactRemoved jid
  | SubscriptionRequest jid => DSubscriptionRequest jid
  | MessageEdited target msgid sender message => DMessageEdited (of_target target) msgid sender (of_message message)
  | MessageRetracted target msgid sender => DMessageRetracted (of_target target) msgid sender
  | UploadAvailable max_bytes => DUploadAvailable max_bytes
  | ErrorEvent message fatal => DError message fatal
  end.
End Addresses.

(** * To the core *)

Definition not_empty (o : option str) : option str := v ← o; if is_empty v then None else Some v.
Definition not_blank (o : option str) : option str := v ← o; if is_empty (trim v) then None else Some v.

Definition core_style (s : DartStyle) : SpanStyle :=
  mkStyle (d_bold s) (d_italic s) (d_underline s) (d_strikethrough s) (d_monospace s) (d_inverse s) (d_fg s) (d_bg s).
Definition core_span (s : DartSpan) : TextSpan := mkSpan (d_text s) (core_style (d_style s)).
Definition core_availability (a : DartAvailability) : Availability :=
  match a with
  | DOffline => Offline | DAvailable => Available | DAway => Away | DDnd => Dnd | DExtendedAway => ExtendedAway
  end.
Definition core_reply (r : DartReply) : ReplyRef := mkReplyRef (dr_msgid r) (dr_nick r) (dr_excerpt r).
Definition core_proxy (p : DartProxy) : ProxyConfig :=
  mkProxy (dx_host p) (dx_port p) (not_empty (dx_username p)) (not_empty (dx_password p)).
Definition core_config (c : DartServerConfig) : ServerConfig :=
  mkConfig (ds_host c) (ds_port c) (ds_nickname c) (ds_alt_nicks c) (not_empty (ds_username c)) (not_empty (ds_realname c))
    (ds_channels c) (not_empty (ds_sasl_account c)) (not_empty (ds_sasl_password c)) (not_empty (ds_nickserv_password c))
    (not_empty (ds_server_password c)) None (core_proxy <$> ds_proxy c).
Definition core_xmpp (c : DartXmppConfig) : XmppConfig :=
  mkXmppConfig (dj_jid c) (dj_password c) (not_blank (dj_host c)) (p ← dj_port c; if (p =? 0)%N then None else Some p)
    (dj_rooms c) (not_blank (dj_nickname c)) None (core_proxy <$> dj_proxy c).

(** * Cleaning a picture *)

Definition show_strip_error (e : StripError) : str :=
  match e with
  | Empty => lit "the file is empty"
  | Unsupported => lit "this is not a JPEG, PNG, GIF or WebP, so its metadata cannot be removed here"
  | Malformed kind detail => lit "the file is not a valid " ++ kind ++ lit ": " ++ detail
  end.

Definition clean_outcome (r : result Stripped StripError) : CleanOutcome :=
  match r with
  | Ok s =>
      if was_already_clean s then AlreadyClean (as_str (Media.kind s))
      else Cleaned (s_bytes s) (as_str (Media.kind s)) (map (λ r, mkDartRemoved (what r) (r_bytes r)) (removed s))
  | Err (Unsupported | Empty) => NotAnImage
  | Err e => MalformedImage (show_strip_error e)
  end.
Definition clean_media (b : list N) : result CleanOutcome Exit :=
  match strip b with
  | Ok s => Ok (clean_outcome (Ok s))
  | Err (Returned e) => Ok (clean_outcome (Err e))
  | Err x => Err x
  end.

(** * Nothing is lost on the way *)

#[export] Instance of_style_inj : Inj (=) (=) of_style.
Proof. intros [] []. by intros [= -> -> -> -> -> -> -> ->]. Qed.
#[export] Instance of_span_inj : Inj (=) (=) of_span.
Proof. intros [? []] [? []]. by intros [= -> -> -> -> -> -> -> -> ->]. Qed.
#[export] Instance of_status_inj : Inj (=) (=) of_status.
Proof. intros [] []; simpl; congruence. Qed.
#[export] Instance of_auth_inj : Inj (=) (=) of_auth.
Proof. intros [] []; simpl; congruence. Qed.
#[export] Instance of_member_inj : Inj (=) (=) of_member.
Proof. intros [] []. by intros [= -> -> -> ->]. Qed.
#[export] Instance of_listing_inj : Inj (=) (=) of_listing.
Proof. intros [] []. by intros [= -> -> ->]. Qed.
#[export] Instance of_whois_inj : Inj (=) (=) of_whois.
Proof. intros [] []. by intros [= -> -> -> -> -> -> -> -> -> -> -> -> -> ->]. Qed.
#[export] Instance of_target_inj : Inj (=) (=) of_target.
Proof. intros [] []; simpl; congruence. Qed.
#[export] Instance of_availability_inj : Inj (=) (=) of_availability.
Proof. intros [] []; simpl; congruence. Qed.
#[export] Instance of_subscription_inj : Inj (=) (=) of_subscription.
Proof. intros [] []; simpl; congruence. Qed.
#[export] Instance of_contact_inj : Inj (=) (=) of_contact.
Proof.
  intros [] []. unfold of_contact. cbn. intros [= -> -> H1 -> H2 ->].
  apply (inj of_subscription) in H1. apply (inj of_availability) in H2. by subst.
Qed.
#[export] Instance of_reply_inj : Inj (=) (=) of_reply.
Proof. intros [] []. by intros [= -> -> ->]. Qed.
#[export] Instance of_message_inj : Inj (=) (=) of_message.
Proof.
  intros [] []. unfold of_message. cbn. intros [= H1 -> -> H2 -> -> -> -> -> -> H3].
  apply (inj of_target) in H1. apply (inj (map of_span)) in H2. apply (inj (fmap of_reply)) in H3. by subst.
Qed.

Section Whole.
Context {IpAddr : Type} (show_ip : IpAddr → str) `{!Inj (=) (=) show_ip}.

#[export] Instance of_offer_inj : Inj (=) (=) (of_offer show_ip).
Proof.
  intros [] []. unfold of_offer. cbn. intros [= -> H -> -> ->]. apply (inj (fmap show_ip)) in H. by subst.
Qed.

(** Give names to the fields of converted records before comparing them. *)
Ltac open_records :=
  repeat match goal with
  | |- context [of_message ?x] => destruct (of_message x) eqn:?
  | |- context [of_whois ?x] => destruct (of_whois x) eqn:?
  | |- context [of_contact ?x] => destruct (of_contact x) eqn:?
  | |- context [of_offer show_ip ?x] => destruct (of_offer show_ip x) eqn:?
  end.

(** What the core reports reaches the application whole: two events that look
    the same on the other side are the same event. *)
Theorem events_whole (e e' : IrcEvent IpAddr) : of_event show_ip e = of_event show_ip e' → e = e'.
Proof.
  destruct e, e'; cbn [of_event]; try discriminate; open_records; intros [=]; subst; f_equal.
  all: first [by eapply (inj of_status) | by eapply (inj of_auth) | by eapply (inj (map of_member))
    | by eapply (inj (fmap of_member)) | by eapply (inj (map of_listing)) | by eapply (inj of_target)
    | apply (inj of_message); congruence | apply (inj of_whois); congruence | apply (inj of_contact); congruence
    | apply (inj (of_offer show_ip)); congruence].
Qed.
End Whole.

Lemma core_of_span s : core_span (of_span s) = s.
Proof. by destruct s as [? []]. Qed.
Lemma of_core_span s : of_span (core_span s) = s.
Proof. by destruct s as [? []]. Qed.
Lemma core_of_spans l : map core_span (map of_span l) = l.
Proof. induction l as [|s l IH]; cbn; [done|]. by rewrite core_of_span, IH. Qed.
Lemma of_core_spans l : map of_span (map core_span l) = l.
Proof. induction l as [|s l IH]; cbn; [done|]. by rewrite of_core_span, IH. Qed.
Lemma core_of_reply r : core_reply (of_reply r) = r.
Proof. by destruct r. Qed.
Lemma core_of_availability a : core_availability (of_availability a) = a.
Proof. by destruct a. Qed.

(** A picture is called cleaned only when something was taken out of it, and
    every call gives one of the four answers. *)
Theorem cleaned_is_true b :
  ∃ o, clean_media b = Ok o ∧
    match o with
    | Cleaned bytes kind removed =>
        removed ≠ [] ∧ ∃ s, strip b = Ok s ∧ bytes = s_bytes s ∧ kind = as_str (Media.kind s) ∧
        foldr (λ r n, drm_bytes r + n)%N 0%N removed = removed_bytes s
    | AlreadyClean kind => ∃ s, strip b = Ok s ∧ removed s = [] ∧ kind = as_str (Media.kind s)
    | NotAnImage => b = [] ∨ detect b = None
    | MalformedImage _ => b ≠ [] ∧ is_Some (detect b)
    end.
Proof.
  unfold clean_media. destruct (strip b) as [s|x] eqn:E.
  - eexists. split; [done|]. unfold clean_outcome, was_already_clean.
    destruct (is_empty (removed s)) eqn:He.
    + exists s. split; [done|]. split; [by apply is_empty_true in He|done].
    + apply is_empty_false in He. split; [by destruct (removed s)|]. exists s. repeat split; auto.
      unfold removed_bytes, removed_sum. clear. induction (removed s) as [|r l IH]; cbn; [done|]. by rewrite IH.
  - destruct (strip_fails b x E) as (e & -> & H1 & H2). eexists. split; [done|].
    destruct e; cbn; [left; by apply H1|right; by apply H2|].
    destruct (decide (b = [])) as [Hb|Hb]; [by apply H1 in Hb|]. split; [done|].
    destruct (detect b) eqn:Hd; [by eexists|]. destruct H2 as [_ H2]. by specialize (H2 (conj Hb eq_refl)).
Qed.
