(* ===== verification/BridgeClient.v ===== *)
(** The calls the application can make about connections and the local server
    ([ddirc-bridge/src/api/client.rs] and [server.rs]).

    A connection's task lives elsewhere: the registry holds a handle, which is
    a reference to it. [tasks] is the store the handles point into, each task
    with the commands that wait in its queue and those it has taken. Starting
    a server is the operating system's doing and an argument. *)
From S2P Require Import Prelude RustStr Format Reply Media Transfer Room Contacts Listing ServerConfig Upload Xmpp Api Probe Bridge.

Definition COMMAND_QUEUE : nat := 64.

Inductive Config := IrcConfig (c : ServerConfig) | XmppAccount (c : XmppConfig).

Record Task := mkTask {
  started_with : Config;
  waiting : list ClientCommand;
  taken : list ClientCommand;
  stopped : bool;
}.
Record Connection := mkConnection { handle : nat; events : option nat }.
Record LocalServerInfo := mkInfo { i_port : N; i_server_name : str; i_network_name : str }.
Record Running := mkRunning { r_info : LocalServerInfo; anchor : str }.

Record Bridge := mkBridge {
  next_id : N;
  connections : gmap N Connection;
  tasks : list Task;
  subscribers : list (N * nat);
  running : option Running;
}.
Definition set_connections x (b : Bridge) := mkBridge (next_id b) x (tasks b) (subscribers b) (running b).
Definition set_tasks x (b : Bridge) := mkBridge (next_id b) (connections b) x (subscribers b) (running b).
Definition set_running x (b : Bridge) := mkBridge (next_id b) (connections b) (tasks b) (subscribers b) x.

(** A process that has just started. *)
Definition at_start : Bridge := mkBridge 1 ∅ [] [] None.

(** * The local server *)

Definition is_loopback (host : str) : bool :=
  bool_decide (host ∈ [lit "127.0.0.1"; lit "::1"; lit "[::1]"; lit "localhost"]).

Definition anchor_for (host : str) (port : N) (b : Bridge) : option str :=
  r ← running b;
  if is_loopback host && (port =? i_port (r_info r))%N then Some (anchor r) else None.

(** [started] is the port bound and where the certificate is. *)
Definition local_server_start (started : result (N * str) str) (b : Bridge) : result LocalServerInfo str * Bridge :=
  match running b, started with
  | Some r, _ => (Ok (r_info r), b)
  | None, Err e => (Err e, b)
  | None, Ok (port, anchor) =>
      let info := mkInfo port (lit "ddirc.local") (lit "Local") in
      (Ok info, set_running (Some (mkRunning info anchor)) b)
  end.
Definition local_server_stop (b : Bridge) : Bridge := set_running None b.
Definition local_server_info (b : Bridge) : option LocalServerInfo := r_info <$> running b.

(** * Connections *)

Section Calls.
Context (is_file : str → bool) (parse_jid : str → option Jid) (jid_error : str → str).
(** Whether this is a debug build, and what it is told to trust. *)
Context (debug : bool) (dev_ca android_ca : option str).

Definition dev_root_cert : option str :=
  match not_empty dev_ca with Some p => Some p | None => android_ca end.

Definition set_root (cert : option str) (c : ServerConfig) : ServerConfig :=
  mkConfig (ServerConfig.host c) (cf_port c) (nickname c) (alt_nicks c) (cf_username c) (cf_realname c) (cf_channels c)
    (sasl_account c) (sasl_password c) (nickserv_password c) (server_password c) cert (cf_proxy c).
Definition prepare (c : DartServerConfig) (b : Bridge) : ServerConfig :=
  let c := core_config c in
  let c := if debug then set_root dev_root_cert c else c in
  match anchor_for (ServerConfig.host c) (cf_port c) b with Some a => set_root (Some a) c | None => c end.

Definition prepare_xmpp (c : DartXmppConfig) : XmppConfig :=
  let c := core_xmpp c in
  if debug
  then mkXmppConfig (xc_jid c) (xc_password c) (xc_host c) (xc_port c) (xc_rooms c) (xc_nickname c) dev_root_cert (xc_proxy c)
  else c.

(** [actor::spawn], for either protocol: a task with an empty queue. *)
Definition spawn (c : Config) (b : Bridge) : nat * Bridge :=
  (length (tasks b), set_tasks (tasks b ++ [mkTask c [] [] false]) b).

(** The counter is an atomic 64-bit one and wraps. *)
Definition register (t : nat) (b : Bridge) : N * Bridge :=
  (next_id b,
   mkBridge ((next_id b + 1) mod 2 ^ 64) (<[next_id b := mkConnection t (Some t)]> (connections b)) (tasks b)
     (subscribers b) (running b)).

Definition connect (c : DartServerConfig) (b : Bridge) : result N str * Bridge :=
  let c := prepare c b in
  match ServerConfig.validate is_file c with
  | Err e => (Err (show_config_error e), b)
  | Ok _ => let '(t, b) := spawn (IrcConfig c) b in let '(id, b) := register t b in (Ok id, b)
  end.
Definition connect_xmpp (c : DartXmppConfig) (b : Bridge) : result N str * Bridge :=
  let c := prepare_xmpp c in
  match validate_xmpp parse_jid is_file c with
  | Err e => (Err (show_error jid_error c e), b)
  | Ok _ => let '(t, b) := spawn (XmppAccount c) b in let '(id, b) := register t b in (Ok id, b)
  end.

Definition with_connection {T} (id : N) (f : Connection → Bridge → result T str * Bridge) (b : Bridge) : result T str * Bridge :=
  match connections b !! id with
  | None => (Err (lit "no such connection"), b)
  | Some c => f c b
  end.

(** The first subscriber takes the receiver; a task then passes events on. *)
Definition event_stream (id : N) : Bridge → result unit str * Bridge :=
  with_connection id (λ c b,
    match events c with
    | None => (Err (lit "already subscribed"), b)
    | Some t =>
        (Ok tt, mkBridge (next_id b) (<[id := mkConnection (handle c) None]> (connections b)) (tasks b)
                  (subscribers b ++ [(id, t)]) (running b))
    end).

(** [ConnectionHandle::try_send]: a queue that is closed says so first. *)
Definition try_send (t : nat) (cmd : ClientCommand) (b : Bridge) : result unit str * Bridge :=
  match tasks b !! t with
  | None => (Err (lit "the client was shut down"), b)
  | Some k =>
      if stopped k then (Err (lit "the client was shut down"), b)
      else if Nat.leb COMMAND_QUEUE (length (waiting k)) then (Err (lit "the connection is busy; try again"), b)
      else (Ok tt, set_tasks (<[t := mkTask (started_with k) (waiting k ++ [cmd]) (taken k) false]> (tasks b)) b)
  end.

Definition send (id : N) (cmd : ClientCommand) : Bridge → result unit str * Bridge :=
  with_connection id (λ c b, try_send (handle c) cmd b).

Definition disconnect (id : N) (reason : option str) (b : Bridge) : result unit str * Bridge :=
  match connections b !! id with
  | None => (Ok tt, b)
  | Some c => (Ok tt, (try_send (handle c) (Disconnect reason) (set_connections (delete id (connections b)) b)).2)
  end.
End Calls.

(** ** What can be asked of a connection *)

(** One constructor for each function that queues a command. *)
Inductive Ask :=
  | ask_join (channel : str) (key : option str)
  | ask_list_channels
  | ask_part (channel : str) (reason : option str)
  | ask_send_message (target text : str)
  | ask_send_reply (target text : str) (reply : DartReply)
  | ask_send_action (target text : str)
  | ask_set_nick (nick : str)
  | ask_whois (nick : str)
  | ask_set_topic (channel topic : str)
  | ask_send_file (target path : str)
  | ask_accept_file (transfer_id : N) (directory : str)
  | ask_cancel_transfer (transfer_id : N)
  | ask_add_contact (jid : str) (name : option str)
  | ask_remove_contact (jid : str)
  | ask_answer_subscription (jid : str) (accept : bool)
  | ask_set_availability (availability : DartAvailability) (status : option str)
  | ask_edit_message (target msgid text : str)
  | ask_retract_message (target msgid : str)
  | ask_catch_up_chats (since_ms : Z)
  | ask_reconnect.

Definition chat_command (a : Ask) : option ClientCommand :=
  match a with
  | ask_join channel key => Some (Join channel (not_empty key))
  | ask_list_channels => Some ListChannels
  | ask_part channel reason => Some (Part channel reason)
  | ask_send_message target text => Some (SendMessage target text)
  | ask_send_reply target text reply => Some (SendReply target text (core_reply reply))
  | ask_send_action target text => Some (SendAction target text)
  | ask_set_nick nick => Some (SetNick nick)
  | ask_whois nick => Some (WhoisOf nick)
  | ask_set_topic channel topic => Some (SetTopic channel topic)
  | ask_send_file target path => Some (SendFile target path)
  | ask_accept_file transfer_id directory => Some (AcceptFile transfer_id directory)
  | ask_cancel_transfer transfer_id => Some (CancelTransfer transfer_id)
  | _ => None
  end.
Definition contact_command (a : Ask) : ClientCommand :=
  match a with
  | ask_add_contact jid name => AddContact jid (not_blank name)
  | ask_remove_contact jid => RemoveContact jid
  | ask_answer_subscription jid accept => AnswerSubscription jid accept
  | ask_set_availability availability status => SetAvailability (core_availability availability) (not_blank status)
  | ask_edit_message target msgid text => EditMessage target msgid text
  | ask_retract_message target msgid => RetractMessage target msgid
  | ask_catch_up_chats since_ms => CatchUpChats since_ms
  | _ => Reconnect
  end.
Definition asked (a : Ask) : ClientCommand := default (contact_command a) (chat_command a).

(** * Every call *)

Section Runs.
Context (is_file : str → bool) (parse_jid : str → option Jid) (jid_error : str → str).
Context (debug : bool) (dev_ca android_ca : option str).
Abbreviation connect := (connect is_file debug dev_ca android_ca).
Abbreviation connect_xmpp := (connect_xmpp is_file parse_jid jid_error debug dev_ca android_ca).

(** The calls, and what tasks do in between: take the next command, or end. *)
Inductive Call :=
  | Connect (c : DartServerConfig)
  | ConnectXmpp (c : DartXmppConfig)
  | EventStream (id : N)
  | AskFor (id : N) (a : Ask)
  | DisconnectFrom (id : N) (reason : option str)
  | StartServer (started : result (N * str) str)
  | StopServer
  | Takes (t : nat)
  | Stops (t : nat).

Definition take_command (k : Task) : Task :=
  match waiting k with
  | [] => k
  | c :: cs => if stopped k then k else mkTask (started_with k) cs (taken k ++ [c]) false
  end.
Definition stop_task (k : Task) : Task := mkTask (started_with k) (waiting k) (taken k) true.

Definition perform (x : Call) (b : Bridge) : Bridge :=
  match x with
  | Connect c => (connect c b).2
  | ConnectXmpp c => (connect_xmpp c b).2
  | EventStream id => (event_stream id b).2
  | AskFor id a => (send id (asked a) b).2
  | DisconnectFrom id reason => (disconnect id reason b).2
  | StartServer started => (local_server_start started b).2
  | StopServer => local_server_stop b
  | Takes t => set_tasks (alter take_command t (tasks b)) b
  | Stops t => set_tasks (alter stop_task t (tasks b)) b
  end.

(** The command a call puts into a queue, under the id the caller used. *)
Definition queued (x : Call) (b : Bridge) : list (N * ClientCommand) :=
  let said id cmd :=
    match connections b !! id with
    | Some c => match (try_send (handle c) cmd b).1 with Ok _ => [(id, cmd)] | Err _ => [] end
    | None => []
    end in
  match x with
  | AskFor id a => said id (asked a)
  | DisconnectFrom id reason => said id (Disconnect reason)
  | _ => []
  end.

Fixpoint run (xs : list Call) (b : Bridge) : list (N * ClientCommand) * Bridge :=
  match xs with
  | [] => ([], b)
  | x :: xs => let '(log, b') := run xs (perform x b) in (queued x b ++ log, b')
  end.

(** * Ids and tasks *)

Definition given (k : Task) : list ClientCommand := taken k ++ waiting k.
Definition id_of (t : nat) : N := N.of_nat t + 1.
Definition told (id : N) (log : list (N * ClientCommand)) : list ClientCommand :=
  map snd (List.filter (λ e, (e.1 =? id)%N) log).

(** Ids are given out in the order tasks are started, each with its own task. *)
Record sound (b : Bridge) : Prop := {
  s_next : next_id b = id_of (length (tasks b));
  s_conn : ∀ id c, connections b !! id = Some c →
    id = id_of (handle c) ∧ handle c < length (tasks b) ∧ (∀ t, events c = Some t → t = handle c ∧ (id, t) ∉ subscribers b);
  s_subs : NoDup (subscribers b) ∧ ∀ id t, (id, t) ∈ subscribers b → id = id_of t ∧ t < length (tasks b);
}.

Lemma id_of_inj t t' : id_of t = id_of t' → t = t'.
Proof. unfold id_of. lia. Qed.

Lemma at_start_sound : sound at_start.
Proof. split; [done| |]; simpl; [intros id c; by rewrite lookup_empty|]. split; [constructor|]. by intros ?? ?%elem_of_nil. Qed.

Lemma same_tasks_sound b l : length l = length (tasks b) → sound b → sound (set_tasks l b).
Proof. intros E [H1 H2 H3]. split; simpl; rewrite ?E; auto. Qed.

Lemma try_send_shape t cmd b :
  (∃ e, try_send t cmd b = (Err e, b)) ∨
  (∃ k, tasks b !! t = Some k ∧ stopped k = false ∧ length (waiting k) < COMMAND_QUEUE ∧
    try_send t cmd b = (Ok tt, set_tasks (<[t := mkTask (started_with k) (waiting k ++ [cmd]) (taken k) false]> (tasks b)) b)).
Proof.
  unfold try_send. destruct (tasks b !! t) as [k|]; [|eauto]. destruct (stopped k) eqn:Es; [eauto|].
  destruct (Nat.leb_spec COMMAND_QUEUE (length (waiting k))); [left; by eexists|].
  right. exists k. by split_and!.
Qed.

Lemma try_send_sound t cmd b : sound b → sound (try_send t cmd b).2.
Proof.
  intros H. destruct (try_send_shape t cmd b) as [[e ->]|(k & _ & _ & _ & ->)]; [done|].
  apply same_tasks_sound; [by rewrite length_insert|done].
Qed.

Lemma forget_sound id b : sound b → sound (set_connections (delete id (connections b)) b).
Proof. intros [H1 H2 H3]. split; simpl; auto. intros i c [_ Hc]%lookup_delete_Some. by apply H2. Qed.

Lemma register_sound c b :
  (id_of (length (tasks b)) + 1 < 2 ^ 64)%N → sound b →
  sound (register (spawn c b).1 (spawn c b).2).2.
Proof.
  intros Hn [H1 H2 [H3 H4]]. split; simpl.
  - rewrite H1, length_app, N.mod_small by done. unfold id_of. simpl. lia.
  - intros i x. rewrite length_app. simpl. rewrite H1.
    intros [[<- <-]|[Hi Hx]]%lookup_insert_Some; simpl.
    + split_and!; [done|lia|]. intros t [= <-]. split; [done|]. intros [_ ?]%H4. lia.
    + destruct (H2 _ _ Hx) as (? & ? & ?). split_and!; [done|lia|done].
  - split; [done|]. intros i t Hi. rewrite length_app. destruct (H4 _ _ Hi). split; [done|]. lia.
Qed.

Lemma event_stream_sound id b : sound b → sound (event_stream id b).2.
Proof.
  intros H. unfold event_stream, with_connection. destruct (connections b !! id) as [c|] eqn:Ec; [|done].
  destruct (events c) as [t|] eqn:Et; [|done]. destruct H as [H1 H2 [H3 H4]].
  destruct (H2 _ _ Ec) as (-> & Hlt & Hs). destruct (Hs t Et) as [-> Hns]. split; simpl; [done| |].
  - intros i x [[<- <-]|[Hi Hx]]%lookup_insert_Some; simpl; [done|].
    destruct (H2 _ _ Hx) as (? & ? & Hx'). split_and!; [done..|]. intros t Ht. destruct (Hx' t Ht). split; [done|].
    rewrite elem_of_app, list_elem_of_singleton. intros [?|[= ]]; [done|congruence].
  - split; [apply NoDup_app; split_and!; [done| |apply NoDup_singleton]|].
    + intros x Hx ->%list_elem_of_singleton. done.
    + intros i t [?|[= -> ->]%list_elem_of_singleton]%elem_of_app; [by apply H4|done].
Qed.

Definition connects (x : Call) : bool := match x with Connect _ | ConnectXmpp _ => true | _ => false end.

Lemma perform_sound x b : (id_of (length (tasks b)) + 1 < 2 ^ 64)%N → sound b → sound (perform x b).
Proof.
  intros Hn H. destruct x as [c|c|id|id a|id reason|started| |t|t]; simpl.
  - unfold BridgeClient.connect. case_match; [|done]. by apply register_sound.
  - unfold BridgeClient.connect_xmpp. case_match; [|done]. by apply register_sound.
  - by apply event_stream_sound.
  - unfold send, with_connection. case_match; [by apply try_send_sound|done].
  - unfold disconnect. case_match; [|done]. by apply try_send_sound, forget_sound.
  - unfold local_server_start. repeat case_match; destruct H; by split.
  - destruct H. by split.
  - apply same_tasks_sound; [by rewrite length_alter|done].
  - apply same_tasks_sound; [by rewrite length_alter|done].
Qed.

(** * Where commands go *)

(** Every task has been given exactly what was queued under its id. *)
Definition delivers (log : list (N * ClientCommand)) (b : Bridge) : Prop :=
  ∀ t k, tasks b !! t = Some k → given k = told (id_of t) log.

Lemma told_app id l l' : told id (l ++ l') = told id l ++ told id l'.
Proof. unfold told. by rewrite List.filter_app, map_app. Qed.
Lemma told_one id id' cmd : told id [(id', cmd)] = if (id' =? id)%N then [cmd] else [].
Proof. unfold told. cbn. by destruct (id' =? id)%N. Qed.

Lemma said_delivers log b id c cmd :
  connections b !! id = Some c → sound b → delivers log b →
  delivers (log ++ match (try_send (handle c) cmd b).1 with Ok _ => [(id, cmd)] | Err _ => [] end) (try_send (handle c) cmd b).2.
Proof.
  intros Hc Hs Hd. destruct (try_send_shape (handle c) cmd b) as [[e ->]|(k & Hk & Hst & _ & ->)]; cbn [fst snd].
  { by rewrite app_nil_r. }
  destruct (s_conn _ Hs _ _ Hc) as (-> & _ & _). intros t k' Ht. cbn [tasks set_tasks] in Ht.
  rewrite told_app, told_one. apply list_lookup_insert_Some in Ht as [(<- & <- & _)|[Hne Ht]].
  - rewrite N.eqb_refl. unfold given. cbn. rewrite app_assoc. f_equal. exact (Hd _ _ Hk).
  - destruct (N.eqb_spec (id_of (handle c)) (id_of t)) as [E%id_of_inj|_]; [done|]. rewrite app_nil_r. by apply Hd.
Qed.

Lemma spawn_delivers log c b : sound b → (∀ cmd id, (id, cmd) ∈ log → (id < next_id b)%N) → delivers log b →
  delivers log (spawn c b).2.
Proof.
  intros Hs Hl Hd t k. cbn. intros [Ht|[Hge Hk]]%lookup_app_Some; [by apply Hd|].
  destruct (t - length (tasks b)) as [|n] eqn:E; cbn in Hk; [|done].
  injection Hk as <-. cbn. unfold told.
  replace (List.filter _ log) with (@nil (N * ClientCommand)); [done|].
  assert (∀ e, e ∈ log → (e.1 =? id_of t)%N = false) as Hf.
  { intros [id cmd] He. apply N.eqb_neq. specialize (Hl _ _ He). rewrite (s_next _ Hs) in Hl. unfold id_of in *. cbn. lia. }
  clear -Hf. induction log as [|e log IH]; [done|]. cbn. rewrite (Hf e (list_elem_of_here _ _)).
  apply IH. intros e' He'. apply Hf. by right.
Qed.

Lemma alter_delivers log f t b : (∀ k, given (f k) = given k) → delivers log b → delivers log (set_tasks (alter f t (tasks b)) b).
Proof.
  intros Hf Hd i k. cbn [tasks set_tasks]. rewrite list_lookup_alter. case_decide as Hi; [|apply Hd].
  intros (k' & Hk' & ->)%fmap_Some. rewrite Hf. subst. by apply Hd.
Qed.

Lemma take_given k : given (take_command k) = given k.
Proof.
  unfold take_command. destruct (waiting k) as [|c cs] eqn:E; [done|]. destruct (stopped k); [done|].
  unfold given. cbn. by rewrite E, <- app_assoc.
Qed.

(** Ids in the log have been given out. *)
Definition known (log : list (N * ClientCommand)) (b : Bridge) : Prop := ∀ cmd id, (id, cmd) ∈ log → (id < next_id b)%N.

Lemma perform_delivers x log b :
  sound b → known log b → delivers log b → delivers (log ++ queued x b) (perform x b).
Proof.
  intros Hs Hk Hd. destruct x as [c|c|id|id a|id reason|started| |t|t]; cbn [queued perform]; try rewrite app_nil_r.
  - unfold BridgeClient.connect. case_match; [|done]. by apply (spawn_delivers _ (IrcConfig _)).
  - unfold BridgeClient.connect_xmpp. case_match; [|done]. by apply (spawn_delivers _ (XmppAccount _)).
  - unfold event_stream, with_connection. by repeat case_match.
  - unfold send, with_connection. destruct (connections b !! id) eqn:E; [by apply said_delivers|by rewrite app_nil_r].
  - unfold disconnect. destruct (connections b !! id) as [c|] eqn:E; [|by rewrite app_nil_r].
    pose proof (said_delivers log b id c (Disconnect reason) E Hs Hd) as H.
    assert ((try_send (handle c) (Disconnect reason) (set_connections (delete id (connections b)) b)).2
            = set_connections (delete id (connections b)) (try_send (handle c) (Disconnect reason) b).2) as ->.
    { unfold try_send. cbn. by repeat case_match. }
    exact H.
  - unfold local_server_start. by repeat case_match.
  - exact Hd.
  - by apply alter_delivers; [apply take_given|].
  - by apply alter_delivers.
Qed.

(** ** The last word *)

Definition is_disconnect (cmd : ClientCommand) : bool := match cmd with Disconnect _ => true | _ => false end.
Definition talking (l : list ClientCommand) : Prop := Forall (λ cmd, is_disconnect cmd = false) l.

(** An id that was told to disconnect was told so last, and is gone. *)
Definition final (log : list (N * ClientCommand)) (b : Bridge) : Prop :=
  ∀ id, talking (told id log) ∨
    (connections b !! id = None ∧ (id < next_id b)%N ∧ ∃ l r, told id log = l ++ [Disconnect r] ∧ talking l).

Lemma asked_talks a : is_disconnect (asked a) = false.
Proof. by destruct a. Qed.

Lemma queued_one x b :
  queued x b = [] ∨ ∃ id cmd c, queued x b = [(id, cmd)] ∧ connections b !! id = Some c ∧
    (is_disconnect cmd = false ∨ connections (perform x b) !! id = None ∧ ∃ r, cmd = Disconnect r).
Proof.
  destruct x as [c|c|id|id a|id reason|started| |t|t]; try (by left); cbn [queued];
    (destruct (connections b !! id) as [c|] eqn:E; [|by left]);
    (destruct (try_send (handle c) _ b).1 eqn:Et; [|by left]); right; eexists _, _, c; (split; [done|]); (split; [done|]).
  - left. apply asked_talks.
  - right. split; [|by eexists]. cbn. unfold disconnect. rewrite E. cbn. unfold try_send. cbn.
    repeat case_match; cbn; apply lookup_delete_eq.
Qed.

(** A call leaves other ids as they are, and gives out only new ones. *)
Lemma perform_next x b : (next_id b + 1 < 2 ^ 64)%N → (next_id b <= next_id (perform x b))%N.
Proof.
  intros Hn. destruct x as [c|c|id|id a|id reason|started| |t|t]; cbn; try lia.
  - unfold BridgeClient.connect. case_match; cbn; [rewrite N.mod_small by done|]; lia.
  - unfold BridgeClient.connect_xmpp. case_match; cbn; [rewrite N.mod_small by done|]; lia.
  - unfold event_stream, with_connection. repeat case_match; cbn; lia.
  - unfold send, with_connection, try_send. repeat case_match; cbn; lia.
  - unfold disconnect, try_send. repeat case_match; cbn; lia.
  - unfold local_server_start. repeat case_match; cbn; lia.
Qed.

Lemma perform_gone x b id :
  connections b !! id = None → (id < next_id b)%N → connections (perform x b) !! id = None.
Proof.
  intros Hc Hi. destruct x as [c|c|i|i a|i reason|started| |t|t]; cbn; try done.
  - unfold BridgeClient.connect. case_match; cbn; [|done]. rewrite lookup_insert_ne; [done|lia].
  - unfold BridgeClient.connect_xmpp. case_match; cbn; [|done]. rewrite lookup_insert_ne; [done|lia].
  - unfold event_stream, with_connection. repeat case_match; cbn; try done. rewrite lookup_insert_ne; [done|congruence].
  - unfold send, with_connection, try_send. by repeat case_match.
  - unfold disconnect, try_send. repeat case_match; cbn; try done; rewrite lookup_delete_None; by right.
  - unfold local_server_start. by repeat case_match.
Qed.

Lemma perform_final x log b :
  (next_id b + 1 < 2 ^ 64)%N → sound b → final log b → final (log ++ queued x b) (perform x b).
Proof.
  intros Hn Hs Hf id. pose proof (perform_next x b Hn) as Hle. rewrite told_app.
  destruct (queued_one x b) as [->|(i & cmd & c & -> & Hc & Hcmd)].
  - cbn. rewrite app_nil_r. destruct (Hf id) as [?|(H1 & H2 & H3)]; [by left|].
    right. split_and!; [by apply perform_gone|lia|done].
  - rewrite told_one. destruct (N.eqb_spec i id) as [->|Hi].
    + destruct (Hf id) as [Ht|(H1 & _)]; [|congruence].
      destruct Hcmd as [Hcmd|[Hd [r ->]]]; [left; apply Forall_app; by repeat constructor|].
      right. split_and!; [done| |by eexists _, _].
      destruct (s_conn _ Hs _ _ Hc) as (-> & Hlt & _). pose proof (s_next _ Hs). unfold id_of in *. lia.
    + rewrite app_nil_r. destruct (Hf id) as [?|(H1 & H2 & H3)]; [by left|].
      right. split_and!; [by apply perform_gone|lia|done].
Qed.

Lemma perform_known x log b : (next_id b + 1 < 2 ^ 64)%N → sound b → known log b → known (log ++ queued x b) (perform x b).
Proof.
  intros Hn Hs Hk cmd id. pose proof (perform_next x b Hn).
  rewrite elem_of_app. intros [Hin|Hin]; [specialize (Hk _ _ Hin); lia|].
  destruct (queued_one x b) as [E|(i & cmd' & c & E & Hc & _)]; rewrite E in Hin; [by apply elem_of_nil in Hin|].
  apply list_elem_of_singleton in Hin as [= -> ->].
  destruct (s_conn _ Hs _ _ Hc) as (-> & Hlt & _). pose proof (s_next _ Hs). unfold id_of in *. lia.
Qed.

Lemma perform_tasks x b : length (tasks (perform x b)) ≤ S (length (tasks b)).
Proof.
  destruct x as [c|c|i|i a|i reason|started| |t|t]; cbn; rewrite ?length_alter; try lia.
  - unfold BridgeClient.connect. case_match; cbn; rewrite ?length_app; cbn; lia.
  - unfold BridgeClient.connect_xmpp. case_match; cbn; rewrite ?length_app; cbn; lia.
  - unfold event_stream, with_connection. repeat case_match; cbn; lia.
  - unfold send, with_connection, try_send. repeat case_match; cbn; rewrite ?length_insert; lia.
  - unfold disconnect, try_send. repeat case_match; cbn; rewrite ?length_insert; lia.
  - unfold local_server_start. repeat case_match; cbn; lia.
Qed.

Lemma run_all xs log b :
  (N.of_nat (length (tasks b) + length xs) + 2 < 2 ^ 64)%N →
  sound b → known log b → delivers log b → final log b →
  let '(more, b') := run xs b in sound b' ∧ delivers (log ++ more) b' ∧ final (log ++ more) b'.
Proof.
  revert log b. induction xs as [|x xs IH]; intros log b Hn Hs Hk Hd Hf; cbn [run]; [by rewrite app_nil_r|].
  assert (id_of (length (tasks b)) + 1 < 2 ^ 64)%N as Hid by (unfold id_of; cbn in Hn; lia).
  assert (next_id b + 1 < 2 ^ 64)%N as Hnx by by rewrite (s_next _ Hs).
  pose proof (perform_tasks x b) as Hpt.
  specialize (IH (log ++ queued x b) (perform x b)).
  destruct (run xs (perform x b)) as [more b']. rewrite (assoc_L (++)). apply IH.
  - cbn in Hn. lia.
  - by apply perform_sound.
  - by apply perform_known.
  - by apply perform_delivers.
  - by apply perform_final.
Qed.

(** C12: whatever the application calls, and however the tasks and the calls are
    interleaved: a connection's task is given exactly the commands accepted
    under the id its caller holds, in order; being told to disconnect is the
    last of them; ids and tasks are one to one, so an id that was disconnected
    never reaches another connection; and events go to one subscriber. *)
Theorem commands_routed (xs : list Call) :
  (N.of_nat (length xs) + 2 < 2 ^ 64)%N →
  let '(log, b) := run xs at_start in
  (∀ t k, tasks b !! t = Some k → given k = told (id_of t) log) ∧
  (∀ id l r l', told id log = l ++ Disconnect r :: l' → l' = [] ∧ connections b !! id = None) ∧
  (∀ id id' c c', connections b !! id = Some c → connections b !! id' = Some c' → handle c = handle c' → id = id') ∧
  NoDup (subscribers b) ∧ (∀ id t t', (id, t) ∈ subscribers b → (id, t') ∈ subscribers b → t = t').
Proof.
  intros Hn. pose proof (run_all xs [] at_start Hn at_start_sound) as H.
  destruct (run xs at_start) as [log b]. cbn [app] in H.
  destruct H as ([H1 H2 [H3 H4]] & Hd & Hf); [by intros ?? ?%elem_of_nil|done|left; constructor|].
  split_and!; [exact Hd| | |done|].
  - intros id l r l' E. destruct (Hf id) as [Ht|(Hc & _ & l0 & r0 & E0 & Ht)].
    + unfold talking in Ht. rewrite E, Forall_app, Forall_cons in Ht. by destruct Ht as (_ & ? & _).
    + split; [|done]. rewrite E0 in E. destruct (exists_last (l := Disconnect r :: l')) as (l1 & y & E1); [done|].
      rewrite E1, app_assoc in E. apply app_inj_tail in E as [-> <-].
      destruct l1 as [|y1 l1]; cbn in E1; [by injection E1|]. injection E1 as <- E1.
      unfold talking in Ht. rewrite Forall_app, Forall_cons in Ht. by destruct Ht as (_ & ? & _).
  - intros id id' c c' Hc Hc' E. destruct (H2 _ _ Hc) as (-> & _), (H2 _ _ Hc') as (-> & _). by rewrite E.
  - intros id t t' [-> _]%H4 [E _]%H4. by apply id_of_inj.
Qed.

(** * What is trusted *)

(** A connection started in a release build, after the calls [seen]. *)
Definition trusts (seen : list Call) (c : Config) : Prop :=
  match c with
  | IrcConfig c =>
      validate is_file c = Ok tt ∧
      (extra_root_cert c = None ∨
       ∃ cert, extra_root_cert c = Some cert ∧ StartServer (Ok (cf_port c, cert)) ∈ seen ∧ is_loopback (ServerConfig.host c) = true)
  | XmppAccount c => validate_xmpp parse_jid is_file c = Ok tt ∧ xc_extra_root_cert c = None
  end.
Definition trusted (seen : list Call) (b : Bridge) : Prop :=
  (∀ r, running b = Some r → StartServer (Ok (i_port (r_info r), anchor r)) ∈ seen) ∧
  ∀ t k, tasks b !! t = Some k → trusts seen (started_with k).

Lemma trusts_more seen x c : trusts seen c → trusts (seen ++ [x]) c.
Proof.
  destruct c as [c|c]; [|done]. intros [Hv [?|(cert & ? & ? & ?)]]; (split; [done|]); [by left|].
  right. exists cert. split_and!; [done|apply elem_of_app; by left|done].
Qed.

Lemma prepare_trusts seen c b : debug = false → trusted seen b →
  validate is_file (prepare debug dev_ca android_ca c b) = Ok tt → trusts seen (IrcConfig (prepare debug dev_ca android_ca c b)).
Proof.
  intros -> [Hr _] Hv. split; [done|]. unfold prepare, anchor_for in *. destruct (running b) as [r|]; cbn in *; [|by left].
  destruct (is_loopback (ds_host c)) eqn:Hl; cbn in *; [|by left].
  destruct (N.eqb_spec (ds_port c) (i_port (r_info r))) as [E|]; [|by left].
  right. exists (anchor r). split_and!; [done| |done]. cbn. rewrite E. by apply Hr.
Qed.

Lemma spawn_trusted seen c b : trusted seen b → trusts seen c → trusted seen (register (spawn c b).1 (spawn c b).2).2.
Proof.
  intros [Hr Ht] Hc. split; [exact Hr|]. cbn. intros t k [Hk|[_ Hk]]%lookup_app_Some; [by eapply Ht|].
  destruct (t - length (tasks b)); [by injection Hk as <-|done].
Qed.

(** Changes that keep what every task was started with. *)
Lemma kept_trusted seen b b' :
  running b' = running b → (∀ t k', tasks b' !! t = Some k' → ∃ k, tasks b !! t = Some k ∧ started_with k' = started_with k) →
  trusted seen b → trusted seen b'.
Proof.
  intros Er Hk [Hr Ht]. split; [by rewrite Er|]. intros t k' [k [H ->]]%Hk. by eapply Ht.
Qed.

Lemma try_send_trusted seen t cmd b : trusted seen b → trusted seen (try_send t cmd b).2.
Proof.
  intros H. destruct (try_send_shape t cmd b) as [[e ->]|(k & Hk & _ & _ & ->)]; [done|]. revert H. apply kept_trusted; [done|].
  cbn. intros i k' [(<- & <- & _)|[_ ?]]%list_lookup_insert_Some; eauto.
Qed.

Lemma alter_trusted seen f t b : (∀ k, started_with (f k) = started_with k) →
  trusted seen b → trusted seen (set_tasks (alter f t (tasks b)) b).
Proof.
  intros Hf. apply kept_trusted; [done|]. cbn. intros i k'. rewrite list_lookup_alter. case_decide; [|eauto].
  intros (k & E & ->)%fmap_Some. subst. eauto.
Qed.

Lemma perform_trusted seen x b : debug = false → trusted seen b → trusted (seen ++ [x]) (perform x b).
Proof.
  intros Hb H.
  assert (trusted (seen ++ [x]) b) as H'.
  { destruct H as [Hr Ht]. split; [intros r E; apply elem_of_app; left; by apply Hr|].
    intros t k E. apply trusts_more. by eapply Ht. }
  destruct x as [c|c|id|id a|id reason|started| |t|t]; cbn [perform].
  - unfold BridgeClient.connect. destruct (validate is_file _) as [[]|] eqn:Hv; [|done].
    apply (spawn_trusted _ (IrcConfig _)); [done|]. by apply prepare_trusts.
  - unfold BridgeClient.connect_xmpp. destruct (validate_xmpp _ _ _) as [[]|] eqn:Hv; [|done].
    apply (spawn_trusted _ (XmppAccount _)); [done|]. split; [done|]. unfold prepare_xmpp. by rewrite Hb.
  - unfold event_stream, with_connection. by repeat case_match.
  - unfold send, with_connection. case_match; [by apply try_send_trusted|done].
  - unfold disconnect. case_match; [by apply try_send_trusted|done].
  - unfold local_server_start. destruct (running b) as [r|]; [done|]. destruct started as [[port cert]|e]; [|done].
    split; [|by destruct H']. intros r [= <-]. cbn. apply elem_of_app. right. by left.
  - split; [done|by destruct H'].
  - apply alter_trusted; [|done]. intros k. unfold take_command. by repeat case_match.
  - by apply alter_trusted.
Qed.

(** C22: nothing the application can be told to say becomes a trusted certificate:
    in a release build every connection was started with a valid configuration,
    and trusts a certificate besides the platform's only if it goes to this
    machine, to the port of a local server this process started, and the
    certificate is that server's. *)
Theorem trust_is_ours (xs : list Call) (t : nat) (k : Task) :
  debug = false → tasks (run xs at_start).2 !! t = Some k → trusts xs (started_with k).
Proof.
  intros Hb.
  assert (∀ xs seen b, trusted seen b → trusted (seen ++ xs) (run xs b).2) as H.
  { clear -Hb. intros xs. induction xs as [|x xs IH]; intros seen b H; cbn; [by rewrite app_nil_r|].
    specialize (IH (seen ++ [x]) (perform x b) (perform_trusted seen x b Hb H)).
    destruct (run xs (perform x b)). by rewrite <- (assoc_L (++)) in IH. }
  destruct (H xs [] at_start) as [_ Ht]; [|apply Ht]. by split.
Qed.
End Runs.

(** ** A run *)

Definition bc_config : DartServerConfig :=
  mkDartServerConfig (lit "irc.example.org") 6697 (lit "me") [] None (Some []) [] None (Some []) None None None.
Definition bc_calls : list Call :=
  [Connect bc_config; Connect bc_config; AskFor 1 (ask_join (lit "#a") (Some [])); AskFor 2 ask_list_channels; Takes 0;
   DisconnectFrom 1 None; AskFor 1 ask_reconnect; EventStream 2; EventStream 2].
Abbreviation bc_run := (run (λ _, true) (λ _, None) (λ s, s) false None None bc_calls at_start).

Lemma commands_routed_witness :
  map given (tasks bc_run.2) = [[Join (lit "#a") None; Disconnect None]; [ListChannels]] ∧
  (∀ t k, tasks bc_run.2 !! t = Some k → given k = told (id_of t) bc_run.1).
Proof.
  split; [vm_compute; reflexivity|].
  assert (N.of_nat (length bc_calls) + 2 < 2 ^ 64)%N as Hn by (vm_compute; reflexivity).
  pose proof (commands_routed (λ _, true) (λ _, None) (λ s, s) false None None bc_calls Hn) as H.
  destruct bc_run as [log b]. exact (proj1 H).
Defined.

Definition bc_server : list Call := [StartServer (Ok (4000%N, lit "/ca.pem")); Connect (mkDartServerConfig (lit "::1") 4000 (lit "me") [] None None [] None None None None None)].
Definition bc_local : Task :=
  mkTask (IrcConfig (mkConfig (lit "::1") 4000 (lit "me") [] None None [] None None None None (Some (lit "/ca.pem")) None)) [] [] false.
Lemma trust_is_ours_witness : trusts (λ _, true) (λ _, None) bc_server (started_with bc_local).
Proof.
  apply (trust_is_ours (λ _, true) (λ _, None) (λ s, s) false None None bc_server 0 bc_local); [reflexivity|].
  vm_compute. reflexivity.
Defined.
