(* ===== verification/BridgeStore.v ===== *)
(** The history as the application sees it ([ddirc-bridge/src/api/store.rs]):
    lines cross as styled spans and are kept as the codes they came in.

    Every function here is one of the store's with its arguments and results
    converted, so what there is to prove is that the two conversions together
    are none: a line that was shown is shown again as it was. *)
From S2P Require Import Prelude RustStr Reply Format Room Contacts Listing Offer Transfer ServerConfig Upload Xmpp Api Bridge Store StoreProps StoreReads StoreUpgrade StoreTheorems.

(** * Types *)

Record DartLine := mkDartLine {
  bl_id : option Z; bl_profile_id : str; bl_conversation : str; bl_at_ms : Z; bl_sender : option str;
  bl_sender_prefix : option str; bl_spans : list DartSpan; bl_is_self : bool; bl_is_mention : bool; bl_is_action : bool;
  bl_is_notice : bool; bl_kind : Z; bl_msgid : option str; bl_reply_to : option DartReply }.
Definition with_id (i : option Z) (l : DartLine) : DartLine :=
  mkDartLine i (bl_profile_id l) (bl_conversation l) (bl_at_ms l) (bl_sender l) (bl_sender_prefix l) (bl_spans l)
    (bl_is_self l) (bl_is_mention l) (bl_is_action l) (bl_is_notice l) (bl_kind l) (bl_msgid l) (bl_reply_to l).

Record DartConversation := mkDartConversation {
  bs_profile_id : str; bs_conversation : str; bs_draft : option str; bs_draft_reply_msgid : option str;
  bs_read_line_id : option Z; bs_read_at_ms : option Z; bs_pin_order : option Z; bs_archived : bool }.
Record DartMark := mkDartMark {
  bm_id : Z; bm_kind : Z; bm_profile_id : str; bm_conversation : str; bm_line_id : option Z; bm_msgid : option str;
  bm_at_ms : Z; bm_sender : option str; bm_spans : list DartSpan; bm_created_ms : Z }.
Record DartPerson := mkDartPerson {
  bp_profile_id : str; bp_nick : str; bp_alias : option str; bp_note : option str; bp_color : option Z;
  bp_avatar : option (list N); bp_pixel_seed : option Z }.
Record DartPersona := mkDartPersona { ba_id : str; ba_label : str }.
Record DartPersonaNick := mkDartPersonaNick { bn_persona_id : str; bn_network_id : str; bn_nick : str }.

(** * Conversions *)

Definition encode_spans (l : list DartSpan) : str := Format.encode (map core_span l).
Definition parse_spans (t : str) : list DartSpan := map of_span (Format.parse t).

Definition core_line (l : DartLine) : StoredLine :=
  mkLine (bl_profile_id l) (bl_conversation l) (bl_at_ms l) (bl_sender l) (bl_sender_prefix l) (encode_spans (bl_spans l))
    (bl_is_self l) (bl_is_mention l) (bl_is_action l) (bl_is_notice l) (bl_kind l) (bl_msgid l)
    (r ← bl_reply_to l; dr_msgid r) (dr_nick <$> bl_reply_to l) (dr_excerpt <$> bl_reply_to l).

Definition is_some {A} (o : option A) : bool := match o with Some _ => true | None => false end.
Definition of_line (l : StoredLine) : DartLine :=
  mkDartLine None (profile_id l) (conversation l) (at_ms l) (sender l) (sender_prefix l) (parse_spans (text l))
    (is_self l) (is_mention l) (is_action l) (is_notice l) (kind l) (msgid l)
    (if is_some (reply_msgid l) || is_some (reply_nick l)
     then Some (mkDartReply (reply_msgid l) (default [] (reply_nick l)) (default [] (reply_excerpt l)))
     else None).
Definition of_row (r : Row) : DartLine := with_id (Some (id r)) (of_line (line r)).

Definition of_conversation (x : (str * str) * ConversationState) : DartConversation :=
  let '((p, c), s) := x in
  mkDartConversation p c (cs_draft s) (cs_draft_reply_msgid s) (cs_read_line_id s) (cs_read_at_ms s) (cs_pin_order s)
    (cs_archived s).
Definition core_conversation (s : DartConversation) : (str * str) * ConversationState :=
  ((bs_profile_id s, bs_conversation s),
   mkState (bs_draft s) (bs_draft_reply_msgid s) (bs_read_line_id s) (bs_read_at_ms s) (bs_pin_order s) (bs_archived s)).
Definition of_mark (m : Mark) : DartMark :=
  mkDartMark (mk_id m) (mk_kind m) (mk_profile m) (mk_conversation m) (mk_line_id m) (mk_msgid m) (mk_at m) (mk_sender m)
    (parse_spans (mk_text m)) (mk_created m).
Definition core_mark (m : DartMark) : Mark :=
  mkMark (bm_id m) (bm_kind m) (bm_profile_id m) (bm_conversation m) (bm_line_id m) (bm_msgid m) (bm_at_ms m) (bm_sender m)
    (encode_spans (bm_spans m)) (bm_created_ms m).
Definition of_person (x : (str * str) * Person) : DartPerson :=
  let '((p, n), w) := x in mkDartPerson p n (p_alias w) (p_note w) (p_color w) (p_avatar w) (p_pixel_seed w).
Definition core_person (p : DartPerson) : (str * str) * Person :=
  ((bp_profile_id p, bp_nick p), mkPerson (bp_alias p) (bp_note p) (bp_color p) (bp_avatar p) (bp_pixel_seed p)).
Definition of_persona (x : str * str) : DartPersona := mkDartPersona x.1 x.2.

(** [to_string] of a signed integer. *)
Definition show_z (z : Z) : str := (if (z <? 0)%Z then lit "-" else []) ++ to_dec (Z.abs_N z).

Definition show_store_error (e : StoreError) : str :=
  match e with
  | Closed => lit "no message store is open"
  | FromTheFuture found understood =>
      lit "this history file was written by a newer version of ddIRC (format " ++ show_z found ++
      lit ", this build understands " ++ show_z understood ++
      lit "). Update ddIRC, or turn message history off to start a new file."
  end.
Definition map_err {T} (r : result T StoreError) : result T str :=
  match r with Ok t => Ok t | Err e => Err (show_store_error e) end.
Definition map_ok {T U} (f : T → U) (r : result T StoreError) : result U str :=
  match r with Ok t => Ok (f t) | Err e => Err (show_store_error e) end.

(** * The calls *)

Section Calls.
Context (pick skip : Z → Z) (fts_match : str → str * str → bool).

Definition store_open (f : File) (s : Store) : result unit str * Store := let '(r, s) := open f s in (map_err r, s).
Definition store_close (s : Store) : Store := close s.
Definition store_is_open (s : Store) : bool := is_open s.

Definition store_append (ls : list DartLine) (s : Store) : result (list (option Z)) str * Store :=
  let '(r, s) := append pick skip (map core_line ls) s in (map_err r, s).
Definition store_edit_line (p c m who : str) (spans : list DartSpan) (s : Store) : result bool str * Store :=
  let '(r, s) := edit_line p c m who (encode_spans spans) s in (map_err r, s).
Definition store_remove_line (p c m who : str) (s : Store) : result bool str * Store :=
  let '(r, s) := remove_line p c m who s in (map_err r, s).
Definition store_last_seen_ms (p : str) (s : Store) : result (option Z) str := map_err (last_seen_ms p s).

Definition rows (r : result (list Row) StoreError) : result (list DartLine) str := map_ok (map of_row) r.
Definition store_recent (p c : str) (limit : N) (s : Store) : result (list DartLine) str := rows (tail p c limit s).
Definition store_before (p c : str) (at_ i : Z) (limit : N) (s : Store) : result (list DartLine) str :=
  rows (before p c at_ i limit s).
Definition store_around (p c : str) (at_ i : Z) (radius : N) (s : Store) : result (list DartLine) str :=
  rows (around p c at_ i radius s).
Definition store_search (p c : option str) (query : str) (limit : N) (before_id : option Z) (s : Store) :
    result (list DartLine) str := rows (search fts_match p c query limit before_id s).

Definition store_clear (s : Store) : result unit str * Store := let '(r, s) := clear s in (map_err r, s).
Definition store_forget (p c : str) (s : Store) : result unit str * Store := let '(r, s) := forget p c s in (map_err r, s).
Definition store_forget_profile (p : str) (s : Store) : result unit str * Store :=
  let '(r, s) := forget_profile p s in (map_err r, s).

Definition store_conversation_states (s : Store) : result (list DartConversation) str :=
  map_ok (map of_conversation) (conversation_states s).
Definition store_set_conversation_state (st : DartConversation) (s : Store) : result unit str * Store :=
  let '((p, c), st) := core_conversation st in let '(r, s) := set_conversation_state p c st s in (map_err r, s).
Definition store_marks (k : option Z) (p c : option str) (s : Store) : result (list DartMark) str :=
  map_ok (map of_mark) (marks k p c s).
Definition store_add_mark (m : DartMark) (s : Store) : result (option Z) str * Store :=
  let '(r, s) := add_mark (core_mark m) s in (map_err r, s).
Definition store_remove_mark (i : Z) (s : Store) : result unit str * Store := let '(r, s) := remove_mark i s in (map_err r, s).
Definition store_people (s : Store) : result (list DartPerson) str := map_ok (map of_person) (people s).
Definition store_set_person (x : DartPerson) (s : Store) : result unit str * Store :=
  let '((p, n), w) := core_person x in let '(r, s) := set_person p n w s in (map_err r, s).
Definition store_forget_people (p : str) (s : Store) : result unit str * Store :=
  let '(r, s) := forget_people p s in (map_err r, s).
Definition store_personas (s : Store) : result (list DartPersona) str := map_ok (map of_persona) (personas s).
Definition store_set_persona (x : DartPersona) (s : Store) : result unit str * Store :=
  let '(r, s) := set_persona (ba_id x) (ba_label x) s in (map_err r, s).
Definition store_forget_persona (i : str) (s : Store) : result unit str * Store :=
  let '(r, s) := forget_persona i s in (map_err r, s).
Definition store_set_persona_nick (x : DartPersonaNick) (s : Store) : result unit str * Store :=
  let '(r, s) := set_persona_nick (bn_persona_id x) (bn_network_id x) (bn_nick x) s in (map_err r, s).
Definition store_forget_persona_nicks (network : str) (s : Store) : result unit str * Store :=
  let '(r, s) := forget_persona_nicks_for_network network s in (map_err r, s).
End Calls.

(** * There and back *)

(** Spans as the parser gives them, which is how every line arrives. *)
Definition as_shown (l : list DartSpan) : Prop := spans_ok (map core_span l).

Lemma parse_as_shown t : as_shown (parse_spans t).
Proof. unfold as_shown, parse_spans. rewrite core_of_spans. apply parse_spans_ok. Qed.

Lemma spans_back l : as_shown l → parse_spans (encode_spans l) = l.
Proof. intros H. unfold parse_spans, encode_spans. by rewrite parse_encode_ok, of_core_spans. Qed.

Lemma line_back l : as_shown (bl_spans l) → of_line (core_line l) = with_id None l.
Proof.
  intros H. unfold of_line, core_line, with_id. cbn -[parse_spans encode_spans]. rewrite spans_back by done. f_equal.
  destruct (bl_reply_to l) as [[[m|] n e]|]; done.
Qed.

Lemma row_back i l : as_shown (bl_spans l) → of_row (mkRow i (core_line l)) = with_id (Some i) l.
Proof. intros H. unfold of_row. cbn. by rewrite line_back. Qed.

Lemma mark_back m : as_shown (bm_spans m) → of_mark (core_mark m) = m.
Proof. intros H. destruct m. unfold of_mark, core_mark. cbn -[parse_spans encode_spans] in *. by rewrite spans_back. Qed.
Lemma conversation_back s : of_conversation (core_conversation s) = s.
Proof. by destruct s. Qed.
Lemma person_back p : of_person (core_person p) = p.
Proof. by destruct p. Qed.

Section History.
Context (pick skip : Z → Z) (pick_new : ∀ s, (s < pick s)%Z) (skip_back : ∀ s, (s ≤ skip s)%Z).

Lemma insert_new l d : db_ok d → replayed l (lines d) = false →
  ∃ i d', append_all pick skip [l] d = ([Some i], d') ∧ mkRow i l ∈ lines d' ∧ db_ok d'.
Proof.
  intros Hd Hr. pose proof (append_all_ok pick skip pick_new skip_back [l] d Hd) as Hok.
  unfold append_all, insert_lines, insert_line in *. rewrite Hr in *. cbn [snd] in Hok.
  eexists _, _. split; [done|]. split; [|exact Hok].
  unfold prune, prune_to. cbn [lines set_lines].
  pose proof (highest_id_spec (lines d ++ [mkRow (pick (sequence d)) l])) as Hh.
  destruct (highest_id _) as [h|]; [|by destruct (lines d)].
  destruct Hh as [_ (r & Hin & <-)]. cbn. apply filter_elem. split; [apply elem_of_app; right; by left|]. cbn.
  apply negb_true_iff, Z.leb_gt. pose proof (pick_new (sequence d)). unfold MAX_ROWS.
  apply elem_of_app in Hin as [Hin| ->%list_elem_of_singleton]; [|cbn; lia].
  destruct Hd as [[_ Hs _ _] _ _ _ _ _]. specialize (Hs r Hin). lia.
Qed.

(** C13: what was shown is shown again as it was: a line with the spans the parser
    gave it, unless it is a replay, is stored under an id, and when the
    conversation is read back it is there under that id with every part it had:
    its words and their styling, who said it, and what it answered. *)
Theorem history_as_shown (l : DartLine) (d : Db) (limit : N) :
  reachable pick skip (Some d) → as_shown (bl_spans l) → replayed (core_line l) (lines d) = false →
  ∃ i d', store_append pick skip [l] (Some d) = (Ok [Some i], Some d') ∧
    (in_i64 (lines d') → (N.of_nat (length (lines d')) <= limit)%N →
     ∃ shown, store_recent (bl_profile_id l) (bl_conversation l) limit (Some d') = Ok shown ∧ with_id (Some i) l ∈ shown).
Proof.
  intros H%(store_reachable_ok pick skip pick_new skip_back) Hs Hr. cbn in H.
  destruct (insert_new (core_line l) d H Hr) as (i & d' & E & Hin & Hok). exists i, d'. split.
  { unfold store_append, append. cbn [map is_empty with_]. by rewrite E. }
  intros Hb Hl. unfold store_recent, tail, rows. rewrite before_spec, tail_all by done. eexists. split; [done|].
  rewrite last_n_drop. replace (length _ - _) with 0.
  - cbn [drop]. rewrite <- (row_back i l Hs). apply list_elem_of_fmap_2. by apply scrollback_elem.
  - assert (length (scrollback (bl_profile_id l) (bl_conversation l) d') ≤ length (lines d')); [|lia].
    unfold scrollback. rewrite merge_sort_Permutation. apply List.filter_length_le.
Qed.
End History.

(** ** A reply with nothing but its words *)

(** A row whose only part of a reply is the excerpt is shown as no reply. *)
Example excerpt_alone_lost :
  bl_reply_to (of_line (mkLine (lit "net") (lit "#a") 0 (Some (lit "bob")) None (lit "yes") false false false false 0 None
    None None (Some (lit "shall we?")))) = None.
Proof. reflexivity. Qed.

(** A bold line that answers another. *)
Definition bs_line : DartLine :=
  mkDartLine None (lit "net") (lit "#a") 7 (Some (lit "ann")) None (parse_spans ([BOLD] ++ lit "yes" ++ [BOLD] ++ lit " indeed"))
    false false false false 0 (Some (lit "m9")) (Some (mkDartReply None (lit "bob") (lit "shall we?"))).
Lemma bs_shown : as_shown (bl_spans bs_line).
Proof. apply parse_as_shown. Qed.
Definition bs_after : Db := default used_db (store_append next stay [bs_line] (Some used_db)).2.

Lemma history_as_shown_witness :
  store_append next stay [bs_line] (Some used_db) = (Ok [Some 4%Z], Some bs_after) ∧
  ∃ shown, store_recent (lit "net") (lit "#a") 10 (Some bs_after) = Ok shown ∧ with_id (Some 4%Z) bs_line ∈ shown.
Proof.
  assert (store_append next stay [bs_line] (Some used_db) = (Ok [Some 4%Z], Some bs_after)) as E by (vm_compute; reflexivity).
  split; [exact E|].
  destruct (history_as_shown next stay next_new stay_back bs_line used_db 10 used_reachable bs_shown) as (i & d' & E' & H);
    [vm_compute; reflexivity|].
  rewrite E in E'. injection E' as <- <-. apply H.
  - repeat constructor; vm_compute; discriminate.
  - vm_compute. discriminate.
Defined.
